(* ===== verification/_CoqProject ===== *)
-Q . S2P
Prelude.v
FsmTree.v
FsmTreeFacts.v
FsmTreeDelete.v
FsmTreeSpec.v
Bits.v
BitsFacts.v
Fsm.v
FsmFacts.v
FsmTheorems.v
Snapshot.v
SnapshotFacts.v
SnapshotGrow.v
Areas.v
Commit.v
SnapshotTheorems.v
Bytes.v
BtreeNode.v
BtreeNodeFacts.v
BtreeNodeOps.v
BtreeMerge.v
BtreeBuild.v
BtreeTheorems.v
Bnode.v
BnodeIds.v
BnodeFacts.v
BnodeTheorems.v
Btree.v
BtreeKeys.v
BtreeSpec.v
BtreeFind.v
BtreeLookup.v
BtreeInsert.v
BtreePlace.v
BtreeGrow.v
BtreeRoot.v
BtreeTodo.v
BtreeTree.v
TreeMap.v
BtreeExamples.v
ExtTree.v
ExtTreeFacts.v
BtreeTreeTheorems.v
ExtTreeTheorems.v
RuntimeExtents.v
Fork.v
CatTree.v
CatTreeFacts.v
CatTreeTheorems.v
Readdir.v
