(* ===== verification/Prelude.v ===== *)
(** * vdfs2: shared prelude (header to be completed) *)
From Stdlib Require Import ZArith Lia.
From stdpp Require Import base numbers list gmap sorting.

#[export] Set Default Goal Selector "!".
Open Scope Z_scope.

(** [lia] also solves goals with division and remainder by constants. *)
Ltac Zify.zify_post_hook ::= Z.to_euclidean_division_equations.

(** ** Outcomes: [BUG()] ends the run *)

(** A kernel operation either returns or reaches [BUG()], [VDFS2_BUG_ON] or an
    access through an invalid pointer; [Bug] stands for all of these. *)
Inductive outcome (A : Type) : Type :=
  | Ret (a : A)
  | Bug.
Arguments Ret {A} a.
Arguments Bug {A}.

#[export] Instance outcome_ret : MRet outcome := fun _ a => Ret a.
#[export] Instance outcome_bind : MBind outcome :=
  fun _ _ f m => match m with Ret a => f a | Bug => Bug end.

Definition BUG_ON (c : bool) : outcome unit := if c then Bug else Ret tt.

(** A pointer read: a missing element is an invalid access. *)
Definition deref {A} (o : option A) : outcome A :=
  match o with Some a => Ret a | None => Bug end.

Lemma bind_Ret {A B} (m : outcome A) (f : A -> outcome B) b :
  m ≫= f = Ret b <-> exists a, m = Ret a /\ f a = Ret b.
Proof. destruct m as [a|]; simpl; [naive_solver|]. split; [done | by intros (?&?&?)]. Qed.

Lemma BUG_ON_Ret c u : BUG_ON c = Ret u <-> c = false.
Proof. destruct u, c; simpl; naive_solver. Qed.

(** ** Error numbers ([errno.h]); the code returns their opposites *)

Definition EPERM : Z := 1.
Definition ENOENT : Z := 2.
Definition EIO : Z := 5.
Definition ENOMEM : Z := 12.
Definition EFAULT : Z := 14.
Definition EEXIST : Z := 17.
Definition EINVAL : Z := 22.
Definition ENOSPC : Z := 28.

(** ** Kernel memory allocation *)

(** An allocator is the list of its next answers; past the end every
    allocation succeeds, so [[]] is a machine that never runs out of memory. *)
Abbreviation memory := (list bool).

Definition kmem_alloc (m : memory) : bool * memory :=
  match m with [] => (true, []) | b :: m' => (b, m') end.

(** ** Machine integers *)

Definition u8 (x : Z) : Z := x mod 2 ^ 8.
Definition u16 (x : Z) : Z := x mod 2 ^ 16.
Definition u32 (x : Z) : Z := x mod 2 ^ 32.
Definition u64 (x : Z) : Z := x mod 2 ^ 64.
Definition s32 (x : Z) : Z := (x + 2 ^ 31) mod 2 ^ 32 - 2 ^ 31.
Definition s64 (x : Z) : Z := (x + 2 ^ 63) mod 2 ^ 64 - 2 ^ 63.

Lemma u16_small x : 0 <= x < 2 ^ 16 -> u16 x = x.
Proof. apply Z.mod_small. Qed.
Lemma u32_small x : 0 <= x < 2 ^ 32 -> u32 x = x.
Proof. apply Z.mod_small. Qed.
Lemma u64_small x : 0 <= x < 2 ^ 64 -> u64 x = x.
Proof. apply Z.mod_small. Qed.
Lemma s32_small x : - 2 ^ 31 <= x < 2 ^ 31 -> s32 x = x.
Proof. intros. unfold s32. rewrite Z.mod_small; lia. Qed.
Lemma s64_small x : - 2 ^ 63 <= x < 2 ^ 63 -> s64 x = x.
Proof. intros. unfold s64. rewrite Z.mod_small; lia. Qed.

Create Rewrite HintDb word.
#[export] Hint Rewrite u16_small u32_small u64_small s32_small s64_small using lia : word.

(** ** Lists *)

(** Shift the elements from [i] on by one and put [x] at [i]. *)
Definition insert_at {A} (i : nat) (x : A) (l : list A) : list A :=
  take i l ++ x :: drop i l.

Lemma insert_at_app {A} i x (l1 l2 : list A) :
  i = length l1 -> insert_at i x (l1 ++ l2) = l1 ++ x :: l2.
Proof. intros ->. unfold insert_at. by rewrite take_app_length, drop_app_length. Qed.

Lemma insert_at_S_middle {A} i x y (l1 l2 : list A) :
  i = S (length l1) -> insert_at i y (l1 ++ x :: l2) = l1 ++ x :: y :: l2.
Proof.
  intros ->. rewrite cons_middle, app_assoc, insert_at_app by (rewrite length_app; simpl; lia).
  by rewrite <-app_assoc.
Qed.

Lemma length_insert_at {A} i x (l : list A) : length (insert_at i x l) = S (length l).
Proof. unfold insert_at. rewrite length_app, length_take. simpl. rewrite length_drop. lia. Qed.

Lemma insert_middle {A} i x y (l1 l2 : list A) :
  i = length l1 -> <[i := y]> (l1 ++ x :: l2) = l1 ++ y :: l2.
Proof. intros ->. by rewrite insert_app_r_alt, Nat.sub_diag by done. Qed.

Lemma lookup_middle {A} i x (l1 l2 : list A) :
  i = length l1 -> (l1 ++ x :: l2) !! i = Some x.
Proof. intros ->. by apply list_lookup_middle. Qed.

Lemma split_at {A} (l : list A) n :
  (n <= length l)%nat -> exists l1 l2, l = l1 ++ l2 /\ length l1 = n.
Proof.
  intros. exists (take n l), (drop n l). rewrite take_drop, length_take. split; [done | lia].
Qed.

Lemma split_at_S {A} (l : list A) n :
  (n < length l)%nat -> exists l1 x l2, l = l1 ++ x :: l2 /\ length l1 = n.
Proof.
  intros H. destruct (lookup_lt_is_Some_2 l n H) as [x Hx].
  apply list_elem_of_split_length in Hx as (l1 & l2 & -> & ->). by exists l1, x, l2.
Qed.

Lemma take_S_middle {A} i x (l1 l2 : list A) :
  i = S (length l1) -> take i (l1 ++ x :: l2) = l1 ++ [x].
Proof.
  intros ->. rewrite cons_middle, app_assoc. apply take_app_length'. rewrite length_app. simpl. lia.
Qed.

Lemma drop_S_middle {A} i x (l1 l2 : list A) :
  i = S (length l1) -> drop i (l1 ++ x :: l2) = l2.
Proof.
  intros ->. rewrite cons_middle, app_assoc. apply drop_app_length'. rewrite length_app. simpl. lia.
Qed.

Lemma total_lookup_middle {A} `{!Inhabited A} i x (l1 l2 : list A) :
  i = length l1 -> (l1 ++ x :: l2) !!! i = x.
Proof. intros ->. by apply list_lookup_total_middle. Qed.

Lemma elem_of_concat {A} (x : A) ls : x ∈ concat ls <-> exists l, l ∈ ls /\ x ∈ l.
Proof.
  induction ls as [|l ls IH]; simpl.
  - split; [intros H; by apply not_elem_of_nil in H|intros (l & H & _); by apply not_elem_of_nil in H].
  - rewrite elem_of_app, IH. setoid_rewrite elem_of_cons. naive_solver.
Qed.
