(* ===== verification/FsmTree.v ===== *)
(** * The free-space B-tree ([fsm_btree.c]) *)
From Stdlib Require Import ZArith Lia.
From stdpp Require Import base numbers list sorting.
From S2P Require Import Prelude.

(** ** Data *)

Record fsm_btree_key := Key { block_offset : Z; block_length : Z }.

#[export] Instance fsm_btree_key_eq_dec : EqDecision fsm_btree_key.
Proof. solve_decision. Defined.
#[export] Instance fsm_btree_key_inhabited : Inhabited fsm_btree_key := populate (Key 0 0).

Inductive fsm_btree_node_type := FSM_INDEX_NODE | FSM_LEAF_NODE.
Inductive position_t := LEFT | RIGHT.

(** [key_vals] holds the active keys and [children] the live child pointers of
    an index node, so [nr_active] is the length of [key_vals]. *)
Inductive vdfs2_fsm_btree_node :=
  Node (level : Z) (type : fsm_btree_node_type) (key_vals : list fsm_btree_key)
       (children : list vdfs2_fsm_btree_node).

Definition level (n : vdfs2_fsm_btree_node) := let '(Node l _ _ _) := n in l.
Definition type (n : vdfs2_fsm_btree_node) := let '(Node _ t _ _) := n in t.
Definition key_vals (n : vdfs2_fsm_btree_node) := let '(Node _ _ k _) := n in k.
Definition children (n : vdfs2_fsm_btree_node) := let '(Node _ _ _ c) := n in c.
Definition nr_active (n : vdfs2_fsm_btree_node) : nat := length (key_vals n).

Definition set_keys (n : vdfs2_fsm_btree_node) ks := Node (level n) (type n) ks (children n).
Definition set_children (n : vdfs2_fsm_btree_node) cs := Node (level n) (type n) (key_vals n) cs.
Definition set_child (n : vdfs2_fsm_btree_node) (i : nat) c := set_children n (<[i := c]> (children n)).
Definition set_key (n : vdfs2_fsm_btree_node) (i : nat) k := set_keys n (<[i := k]> (key_vals n)).

(** [btree->root]: null, an error pointer left by a failed allocation, a node. *)
Inductive root_ptr := ROOT_NULL | ROOT_ERR | ROOT (n : vdfs2_fsm_btree_node).

Record vdfs2_fsm_btree := FsmBtree { order : nat; root : root_ptr }.

Definition set_root (t : vdfs2_fsm_btree) (r : root_ptr) := FsmBtree (order t) r.

Definition VDFS2_FSM_BTREE_ORDER : nat := 32.

Definition vdfs2_init_fsm_btree : vdfs2_fsm_btree :=
  FsmBtree VDFS2_FSM_BTREE_ORDER ROOT_NULL.

Definition fsm_btree_cmp_fn (key1 key2 : fsm_btree_key) : Z :=
  if block_offset key1 <? block_offset key2 then -1
  else if block_offset key2 <? block_offset key1 then 1
  else if block_length key1 <? block_length key2 then -1
  else if block_length key2 <? block_length key1 then 1
  else 0.

Definition allocate_btree_node (m : memory) : option vdfs2_fsm_btree_node * memory :=
  let '(ok, m) := kmem_alloc m in
  (if ok then Some (Node 0 FSM_LEAF_NODE [] []) else None, m).

(** ** Insertion *)

Definition btree_split_child (order : nat) (parent : vdfs2_fsm_btree_node) (index : nat)
    (child : vdfs2_fsm_btree_node) (m : memory) : Z * vdfs2_fsm_btree_node * memory :=
  let '(new, m) := allocate_btree_node m in
  match new with
  | None => (- ENOMEM, parent, m)
  | Some _ =>
      let new_child := Node (level child) (type child)
        (take (order - 1) (drop order (key_vals child)))
        (match type child with
         | FSM_LEAF_NODE => []
         | FSM_INDEX_NODE => take order (drop order (children child))
         end) in
      let child' := Node (level child) (type child)
        (take (order - 1) (key_vals child)) (take order (children child)) in
      let parent' := Node (level parent) (type parent)
        (insert_at index (key_vals child !!! (order - 1)%nat) (key_vals parent))
        (insert_at (S index) new_child (<[index := child']> (children parent))) in
      (0, parent', m)
  end.

(** The binary search of a leaf: [None] when the key is there, else the place
    where it goes ([imax] after the increment that follows the loop). *)
Fixpoint leaf_search (fuel : nat) (key_val : fsm_btree_key) (ks : list fsm_btree_key)
    (imin imax : Z) : outcome (option nat) :=
  match fuel with
  | O => Bug
  | S fuel =>
      if imin <=? imax then
        let imid := Z.quot (imin + imax) 2 in
        let cmp_result := fsm_btree_cmp_fn key_val (ks !!! Z.to_nat imid) in
        if 0 <? cmp_result then leaf_search fuel key_val ks (imid + 1) imax
        else if cmp_result <? 0 then leaf_search fuel key_val ks imin (imid - 1)
        else Ret None
      else Ret (Some (Z.to_nat (imax + 1)))
  end.

(** The right-to-left scan of an index node over keys [i - 1 .. 0]: [None] when
    the key is there, else the child to descend into. *)
Fixpoint index_search (key_val : fsm_btree_key) (ks : list fsm_btree_key) (i : nat) : option nat :=
  match i with
  | O => Some O
  | S i' =>
      let cmp_result := fsm_btree_cmp_fn key_val (ks !!! i') in
      if cmp_result =? 0 then None
      else if 0 <? cmp_result then Some (S i')
      else index_search key_val ks i'
  end.

(** The check of a full child before it is split. *)
Fixpoint full_child_has (key_val : fsm_btree_key) (ks : list fsm_btree_key) : bool :=
  match ks with
  | [] => false
  | k :: ks =>
      let cmp_result := fsm_btree_cmp_fn key_val k in
      if cmp_result =? 0 then true
      else if cmp_result <? 0 then false
      else full_child_has key_val ks
  end.

Fixpoint btree_insert_nonfull (fuel order : nat) (node : vdfs2_fsm_btree_node)
    (key_val : fsm_btree_key) (m : memory) : outcome (Z * vdfs2_fsm_btree_node * memory) :=
  match fuel with
  | O => Bug
  | S fuel =>
      let descend (node : vdfs2_fsm_btree_node) (i : nat) (m : memory) :=
        child ← deref (children node !! i);
        '(err, child', m) ← btree_insert_nonfull fuel order child key_val m;
        Ret (err, set_child node i child', m) in
      match type node with
      | FSM_LEAF_NODE =>
          pos ← leaf_search (S (nr_active node)) key_val (key_vals node) 0 (Z.of_nat (nr_active node) - 1);
          match pos with
          | None => Ret (- EEXIST, node, m)
          | Some imax => Ret (0, set_keys node (insert_at imax key_val (key_vals node)), m)
          end
      | FSM_INDEX_NODE =>
          match index_search key_val (key_vals node) (nr_active node) with
          | None => Ret (- EEXIST, node, m)
          | Some i =>
              child ← deref (children node !! i);
              if decide (nr_active child = 2 * order - 1)%nat then
                if full_child_has key_val (key_vals child) then Ret (- EEXIST, node, m)
                else
                  let '(err, node', m) := btree_split_child order node i child m in
                  if negb (err =? 0) then Ret (err, node', m)
                  else if 0 <? fsm_btree_cmp_fn key_val (key_vals node' !!! i)
                  then descend node' (S i) m else descend node' i m
              else descend node i m
          end
      end
  end.

(** Number of levels below and including a node; enough fuel for every walk. *)
Fixpoint depth (n : vdfs2_fsm_btree_node) : nat :=
  let '(Node _ _ _ cs) := n in S (foldr (fun c d => Nat.max (depth c) d) O cs).

Definition fsm_btree_insert (btree : vdfs2_fsm_btree) (key_val : fsm_btree_key) (m : memory)
    : outcome (Z * vdfs2_fsm_btree * memory) :=
  let '(btree, m) :=
    match root btree with
    | ROOT_NULL =>
        let '(new, m) := allocate_btree_node m in
        (set_root btree (match new with Some n => ROOT n | None => ROOT_ERR end), m)
    | _ => (btree, m)
    end in
  match root btree with
  | ROOT_NULL | ROOT_ERR => Ret (- ENOMEM, btree, m)
  | ROOT root_node =>
      if decide (nr_active root_node = 2 * order btree - 1)%nat then
        let '(new, m) := allocate_btree_node m in
        match new with
        | None => Ret (- ENOMEM, btree, m)
        | Some _ =>
            let new_root := Node (level root_node + 1) FSM_INDEX_NODE [] [root_node] in
            let '(ret, new_root, m) := btree_split_child (order btree) new_root 0 root_node m in
            if negb (ret =? 0) then Ret (ret, set_root btree (ROOT new_root), m)
            else
              '(ret, new_root, m) ←
                btree_insert_nonfull (S (depth new_root)) (order btree) new_root key_val m;
              Ret (ret, set_root btree (ROOT new_root), m)
        end
      else
        '(ret, root_node, m) ← btree_insert_nonfull (S (depth root_node)) (order btree) root_node key_val m;
        Ret (ret, set_root btree (ROOT root_node), m)
  end.

(** ** Deletion *)

(** [get_max_key_pos] finds the leaf of the largest key; its caller then reads
    that key and stores the removed key there.  One walk does the three. *)
Fixpoint get_max_key_pos (fuel : nat) (node : vdfs2_fsm_btree_node) (to_remove_kv : fsm_btree_key)
    : outcome (fsm_btree_key * vdfs2_fsm_btree_node) :=
  match fuel with
  | O => Bug
  | S fuel =>
      match type node with
      | FSM_LEAF_NODE =>
          let sub_np_pos := (nr_active node - 1)%nat in
          Ret (key_vals node !!! sub_np_pos, set_key node sub_np_pos to_remove_kv)
      | FSM_INDEX_NODE =>
          child ← deref (children node !! nr_active node);
          '(k, child') ← get_max_key_pos fuel child to_remove_kv;
          Ret (k, set_child node (nr_active node) child')
      end
  end.

(** The same for [get_min_key_pos]. *)
Fixpoint get_min_key_pos (fuel : nat) (node : vdfs2_fsm_btree_node) (to_remove_kv : fsm_btree_key)
    : outcome (fsm_btree_key * vdfs2_fsm_btree_node) :=
  match fuel with
  | O => Bug
  | S fuel =>
      match type node with
      | FSM_LEAF_NODE => Ret (key_vals node !!! O, set_key node 0 to_remove_kv)
      | FSM_INDEX_NODE =>
          child ← deref (children node !! O);
          '(k, child') ← get_min_key_pos fuel child to_remove_kv;
          Ret (k, set_child node 0 child')
      end
  end.

(** The result is the new node, its index in the parent and the parent; [None]
    is the error pointer of a failed allocation. *)
Definition merge_siblings (order : nat) (parent : vdfs2_fsm_btree_node) (index : nat) (m : memory)
    : outcome (option (vdfs2_fsm_btree_node * nat * vdfs2_fsm_btree_node) * memory) :=
  let index := if decide (index = nr_active parent) then (index - 1)%nat else index in
  n1 ← deref (children parent !! index);
  n2 ← deref (children parent !! S index);
  let '(new, m) := allocate_btree_node m in
  match new with
  | None => Ret (None, m)
  | Some _ =>
      let new_node := Node (level n1) (type n1)
        (take (order - 1) (key_vals n1) ++ (key_vals parent !!! index) :: take (order - 1) (key_vals n2))
        (take order (children n1) ++ take order (children n2)) in
      let parent' := Node (level parent) (type parent)
        (delete index (key_vals parent))
        (<[index := new_node]> (delete (S index) (children parent))) in
      Ret (Some (new_node, index, parent'), m)
  end.

(** What [merge_siblings] does to the type of a node that becomes the root. *)
Definition root_of_merge (new_node : vdfs2_fsm_btree_node) : vdfs2_fsm_btree_node :=
  Node (level new_node) (if level new_node =? 0 then FSM_LEAF_NODE else FSM_INDEX_NODE)
    (key_vals new_node) (children new_node).

Definition move_key (node : vdfs2_fsm_btree_node) (index : nat) (pos : position_t)
    : outcome vdfs2_fsm_btree_node :=
  let index := match pos with RIGHT => (index - 1)%nat | LEFT => index end in
  lchild ← deref (children node !! index);
  rchild ← deref (children node !! S index);
  let k := key_vals node !!! index in
  let '(lchild', k', rchild') :=
    match pos with
    | LEFT =>
        (Node (level lchild) (type lchild) (key_vals lchild ++ [k])
           (children lchild ++ take 1 (children rchild)),
         key_vals rchild !!! O,
         Node (level rchild) (type rchild) (drop 1 (key_vals rchild)) (drop 1 (children rchild)))
    | RIGHT =>
        (Node (level lchild) (type lchild) (take (nr_active lchild - 1) (key_vals lchild))
           (take (nr_active lchild) (children lchild)),
         key_vals lchild !!! (nr_active lchild - 1)%nat,
         Node (level rchild) (type rchild) (k :: key_vals rchild)
           (drop (nr_active lchild) (children lchild) ++ children rchild))
    end in
  Ret (Node (level node) (type node) (<[index := k']> (key_vals node))
         (<[S index := rchild']> (<[index := lchild']> (children node)))).

Definition merge_nodes (n1 : vdfs2_fsm_btree_node) (kv : fsm_btree_key)
    (n2 : vdfs2_fsm_btree_node) (m : memory) : option vdfs2_fsm_btree_node * memory :=
  let '(new, m) := allocate_btree_node m in
  match new with
  | None => (None, m)
  | Some _ =>
      (Some (Node (level n1) (type n1) (key_vals n1 ++ kv :: key_vals n2)
               (children n1 ++ children n2)), m)
  end.

(** [None]: the node lost its last key and is freed. *)
Definition remove_key_from_leaf (node : vdfs2_fsm_btree_node) (pos : nat)
    : Z * option vdfs2_fsm_btree_node :=
  match type node with
  | FSM_INDEX_NODE => (-1, Some node)
  | FSM_LEAF_NODE =>
      let node' := set_keys node (delete pos (key_vals node)) in
      (0, if decide (nr_active node' = 0)%nat then None else Some node')
  end.

(** The scan for the first key that is not smaller than the searched one. *)
Fixpoint lower_bound (key : fsm_btree_key) (ks : list fsm_btree_key) : nat :=
  match ks with
  | [] => O
  | k :: ks => if 0 <? fsm_btree_cmp_fn key k then S (lower_bound key ks) else O
  end.

(** A child with [order - 1] keys gets another one before the descent: from a
    sibling, or by a merge.  The result says where to continue and whether the
    child is the node of a merge; [None] is a failed allocation. *)
Definition refill_child (order : nat) (parent : vdfs2_fsm_btree_node) (i : nat) (m : memory)
    : outcome (option (vdfs2_fsm_btree_node * nat * bool) * memory) :=
  node ← deref (children parent !! i);
  let lsibling := match i with O => None | S i' => children parent !! i' end in
  let rsibling := if decide (i = nr_active parent) then None else children parent !! S i in
  if decide (nr_active node = order - 1)%nat then
    if match rsibling with Some r => bool_decide (order - 1 < nr_active r)%nat | None => false end then
      parent' ← move_key parent i LEFT; Ret (Some (parent', i, false), m)
    else if match lsibling with Some l => bool_decide (order - 1 < nr_active l)%nat | None => false end then
      parent' ← move_key parent i RIGHT; Ret (Some (parent', i, false), m)
    else if
      match lsibling with Some l => bool_decide (nr_active l = order - 1)%nat | None => false end
      || match rsibling with Some r => bool_decide (nr_active r = order - 1)%nat | None => false end
    then
      '(merged, m) ← merge_siblings order parent i m;
      Ret (match merged with Some (_, i', parent') => Some (parent', i', true) | None => None end, m)
    else Ret (Some (parent, i, false), m)
  else Ret (Some (parent, i, false), m).

(** The descent of [fsm_btree_delete] from one node; [is_root] stands for the
    tests [btree->root == node].  The result holds the node that takes its place
    ([None]: freed). *)
Fixpoint delete_loop (fuel order : nat) (is_root : bool) (node : vdfs2_fsm_btree_node)
    (key : fsm_btree_key) (m : memory) : outcome (Z * option vdfs2_fsm_btree_node * memory) :=
  match fuel with
  | O => Bug
  | S fuel =>
      let descend (node : vdfs2_fsm_btree_node) (i : nat) (m : memory) :=
        child ← deref (children node !! i);
        '(ret, child', m) ← delete_loop fuel order false child key m;
        child' ← deref child';
        Ret (ret, Some (set_child node i child'), m) in
      let index := lower_bound key (key_vals node) in
      if decide (nr_active node = 0)%nat then Ret (0, Some node, m)
      else if bool_decide (index < nr_active node)%nat
           && (fsm_btree_cmp_fn key (key_vals node !!! index) =? 0) then
        match type node with
        | FSM_LEAF_NODE =>
            if bool_decide (order - 1 < nr_active node)%nat || is_root then
              let '(ret, node') := remove_key_from_leaf node index in Ret (ret, node', m)
            else Ret (0, Some node, m)
        | FSM_INDEX_NODE =>
            lchild ← deref (children node !! index);
            rchild ← deref (children node !! S index);
            let to_remove_kv := key_vals node !!! index in
            if decide (order - 1 < nr_active lchild)%nat then
              '(k, lchild') ← get_max_key_pos (depth lchild) lchild to_remove_kv;
              descend (set_child (set_key node index k) index lchild') index m
            else if decide (order - 1 < nr_active rchild)%nat then
              '(k, rchild') ← get_min_key_pos (depth rchild) rchild to_remove_kv;
              descend (set_child (set_key node index k) (S index) rchild') (S index) m
            else if bool_decide (nr_active lchild = order - 1)%nat && bool_decide (nr_active rchild = order - 1)%nat then
              let '(comb, m) := merge_nodes lchild to_remove_kv rchild m in
              match comb with
              | None => Ret (- ENOMEM, Some node, m)
              | Some comb_node =>
                  let node' := Node (level node) (type node) (delete index (key_vals node))
                    (<[index := comb_node]> (delete (S index) (children node))) in
                  if bool_decide (nr_active node' = 0)%nat && is_root
                  then delete_loop fuel order true comb_node key m
                  else descend node' index m
              end
            else Ret (0, Some node, m)
        end
      else
        match type node with
        | FSM_LEAF_NODE => Ret (0, Some node, m)
        | FSM_INDEX_NODE =>
            '(r, m) ← refill_child order node index m;
            match r with
            | None => Ret (- ENOMEM, Some node, m)
            | Some (parent, i, merged) =>
                if merged && bool_decide (nr_active parent = 0)%nat && is_root then
                  child ← deref (children parent !! i);
                  delete_loop fuel order true (root_of_merge child) key m
                else descend parent i m
            end
        end
  end.

Definition fsm_btree_delete (btree : vdfs2_fsm_btree) (key : fsm_btree_key) (m : memory)
    : outcome (Z * vdfs2_fsm_btree * memory) :=
  match root btree with
  | ROOT_NULL => Ret (0, btree, m)
  | ROOT_ERR => Ret (- ENOMEM, btree, m)
  | ROOT node =>
      '(ret, node', m) ← delete_loop (S (depth node)) (order btree) true node key m;
      Ret (ret, set_root btree (match node' with Some n => ROOT n | None => ROOT_NULL end), m)
  end.

(** ** Destruction *)

Fixpoint nodes_count (n : vdfs2_fsm_btree_node) : nat :=
  let '(Node _ _ _ cs) := n in S (foldr (fun c d => nodes_count c + d)%nat O cs).

(** The walk of the [next] list: children are linked behind the tail, the head
    is freed.  The result is the list of freed nodes. *)
Fixpoint destroy_loop (fuel : nat) (queue freed : list vdfs2_fsm_btree_node)
    : outcome (list vdfs2_fsm_btree_node) :=
  match queue with
  | [] => Ret freed
  | head :: queue =>
      match fuel with
      | O => Bug
      | S fuel =>
          let queue := match type head with
                       | FSM_INDEX_NODE => queue ++ take (nr_active head + 1) (children head)
                       | FSM_LEAF_NODE => queue
                       end in
          destroy_loop fuel queue (freed ++ [head])
      end
  end.

Definition fsm_btree_destroy (btree : vdfs2_fsm_btree)
    : outcome (list vdfs2_fsm_btree_node * vdfs2_fsm_btree) :=
  match root btree with
  | ROOT_NULL => Ret ([], btree)
  | ROOT_ERR => Bug
  | ROOT node =>
      freed ← destroy_loop (nodes_count node) [node] [];
      Ret (freed, set_root btree ROOT_NULL)
  end.

(** ** Giving an extent back *)

Inductive free_action :=
  | FREE_GROWN (node : vdfs2_fsm_btree_node) (next : option fsm_btree_key)
  | FREE_JOIN (key : fsm_btree_key)
  | FREE_NONE.

(** The first key of a node that touches the freed extent: [true] when the
    extent starts where the key ends, [false] when it ends where the key starts. *)
Fixpoint free_scan_keys (ks : list fsm_btree_key) (offset length : Z) : option (nat * bool) :=
  match ks with
  | [] => None
  | k :: ks =>
      if offset =? u64 (block_offset k + block_length k) then Some (O, true)
      else if u64 (offset + length) =? block_offset k then Some (O, false)
      else match free_scan_keys ks offset length with
           | Some (i, b) => Some (S i, b)
           | None => None
           end
  end.

Fixpoint free_scan (fuel : nat) (node : vdfs2_fsm_btree_node) (offset length : Z) : outcome free_action :=
  match fuel with
  | O => Bug
  | S fuel =>
      match free_scan_keys (key_vals node) offset length with
      | Some (i, true) =>
          let k := key_vals node !!! i in
          let k' := Key (block_offset k) (u64 (block_length k + length)) in
          match key_vals node !! S i with
          | Some next =>
              if block_offset next =? u64 (block_offset k' + block_length k') then
                let k'' := Key (block_offset k') (u64 (block_length k' + block_length next)) in
                Ret (FREE_GROWN (set_key node i k'') (Some next))
              else Ret (FREE_GROWN (set_key node i k') None)
          | None => Ret (FREE_GROWN (set_key node i k') None)
          end
      | Some (i, false) => Ret (FREE_JOIN (key_vals node !!! i))
      | None =>
          match type node with
          | FSM_LEAF_NODE => Ret FREE_NONE
          | FSM_INDEX_NODE =>
              child ← deref (children node !! nr_active node);
              a ← free_scan fuel child offset length;
              Ret (match a with
                   | FREE_GROWN child' next => FREE_GROWN (set_child node (nr_active node) child') next
                   | a => a
                   end)
          end
      end
  end.

Definition fsm_btree_free (btree : vdfs2_fsm_btree) (offset length : Z) (m : memory)
    : outcome (Z * vdfs2_fsm_btree * memory) :=
  match root btree with
  | ROOT_NULL => fsm_btree_insert btree (Key offset length) m
  | ROOT_ERR => Bug
  | ROOT node =>
      a ← free_scan (depth node) node offset length;
      match a with
      | FREE_GROWN node' None => Ret (0, set_root btree (ROOT node'), m)
      | FREE_GROWN node' (Some next) => fsm_btree_delete (set_root btree (ROOT node')) next m
      | FREE_JOIN key =>
          '(_, btree, m) ← fsm_btree_delete btree key m;
          '(_, btree, m) ← fsm_btree_insert btree (Key offset (u64 (length + block_length key))) m;
          Ret (0, btree, m)
      | FREE_NONE =>
          '(_, btree, m) ← fsm_btree_insert btree (Key offset length) m;
          Ret (0, btree, m)
      end
  end.

(** ** Taking an extent *)

Fixpoint offset_scan (offset : Z) (ks : list fsm_btree_key) : nat :=
  match ks with
  | [] => O
  | k :: ks => if block_offset k <? offset then S (offset_scan offset ks) else O
  end.

(** The search for a key that starts at the wanted block. *)
Fixpoint lookup_exact (fuel : nat) (node : vdfs2_fsm_btree_node) (offset : Z)
    : outcome (option fsm_btree_key) :=
  match fuel with
  | O => Bug
  | S fuel =>
      let i := offset_scan offset (key_vals node) in
      match key_vals node !! i with
      | Some k =>
          if offset =? block_offset k then Ret (Some k)
          else match type node with
               | FSM_LEAF_NODE => Ret None
               | FSM_INDEX_NODE => child ← deref (children node !! i); lookup_exact fuel child offset
               end
      | None =>
          match type node with
          | FSM_LEAF_NODE => Ret None
          | FSM_INDEX_NODE => child ← deref (children node !! i); lookup_exact fuel child offset
          end
      end
  end.

(** A key whose whole length may be taken, or that is longer than needed. *)
Definition acceptable (len : Z) (can_return_less : bool) (k : fsm_btree_key) : bool :=
  (len <? block_length k) || can_return_less || negb (block_length k <? len).

Fixpoint first_acceptable (len : Z) (can_return_less : bool) (ks : list fsm_btree_key)
    : option fsm_btree_key :=
  match ks with
  | [] => None
  | k :: ks => if acceptable len can_return_less k then Some k
               else first_acceptable len can_return_less ks
  end.

(** The breadth-first walk for the first acceptable key. *)
Fixpoint lookup_any (fuel : nat) (queue : list vdfs2_fsm_btree_node) (len : Z)
    (can_return_less : bool) : outcome (option fsm_btree_key) :=
  match queue with
  | [] => Ret None
  | node :: queue =>
      match fuel with
      | O => Bug
      | S fuel =>
          match first_acceptable len can_return_less (key_vals node) with
          | Some k => Ret (Some k)
          | None =>
              let queue := match type node with
                           | FSM_INDEX_NODE => queue ++ take (nr_active node + 1) (children node)
                           | FSM_LEAF_NODE => queue
                           end in
              lookup_any fuel queue len can_return_less
          end
      end
  end.

(** Take the first [len] blocks of a found key, or all of it. *)
Definition take_extent (btree : vdfs2_fsm_btree) (k : fsm_btree_key) (len : Z) (m : memory)
    : outcome (Z * Z * vdfs2_fsm_btree * memory) :=
  if len <? block_length k then
    '(ret, btree, m) ← fsm_btree_delete btree k m;
    if negb (ret =? 0) then Ret (0, len, btree, m)
    else
      '(ret, btree, m) ←
        fsm_btree_insert btree (Key (u64 (block_offset k + len)) (u64 (block_length k - len))) m;
      Ret (if negb (ret =? 0) then 0 else block_offset k, len, btree, m)
  else
    '(ret, btree, m) ← fsm_btree_delete btree k m;
    Ret (if negb (ret =? 0) then 0 else block_offset k, u32 (block_length k), btree, m).

(** The result is the block returned (0: none) and the new value of [*length]. *)
Definition fsm_btree_lookup (btree : vdfs2_fsm_btree) (offset len : Z) (can_return_less : bool)
    (m : memory) : outcome (Z * Z * vdfs2_fsm_btree * memory) :=
  match root btree with
  | ROOT_NULL => Ret (0, len, btree, m)
  | ROOT_ERR => Bug
  | ROOT node =>
      exact ← lookup_exact (depth node) node offset;
      let exact := match exact with
                   | Some k => if acceptable len can_return_less k then Some k else None
                   | None => None
                   end in
      found ← match exact with
              | Some k => Ret (Some k)
              | None => lookup_any (nodes_count node) [node] len can_return_less
              end;
      match found with
      | Some k => take_extent btree k len m
      | None => Ret (0, len, btree, m)
      end
  end.

(** A small run: order 2, so that splits and merges happen at once. *)
Example fsm_tree_runs :
  let t := foldl (fun t b => match t with
                  | Ret t => '(_, t, _) ← fsm_btree_free t b 1 []; Ret t
                  | Bug => Bug end) (Ret (FsmBtree 2 ROOT_NULL)) [10; 20; 30; 40; 50; 31; 60; 70; 9; 21] in
  ('(a, l, t, _) ← (t ← t; fsm_btree_lookup t 30 1 false []);
   '(b, l', t, _) ← fsm_btree_lookup t 0 2 false []; Ret (a, l, b, l')) = Ret (30, 1, 20, 2).
Proof. vm_compute. reflexivity. Qed.
