(* ===== verification/FsmTreeFacts.v ===== *)
(** * Correctness of the free-space B-tree: contents, order, balance *)
From Stdlib Require Import ZArith Lia.
From stdpp Require Import base numbers list sorting sets.
From S2P Require Import Prelude FsmTree.

(** ** The order of the keys *)

Definition key_lt (k1 k2 : fsm_btree_key) : Prop :=
  block_offset k1 < block_offset k2 \/
  (block_offset k1 = block_offset k2 /\ block_length k1 < block_length k2).

Abbreviation sorted := (StronglySorted key_lt).

Lemma cmp_cases k1 k2 :
  (fsm_btree_cmp_fn k1 k2 = 0 /\ k1 = k2) \/
  (fsm_btree_cmp_fn k1 k2 = -1 /\ key_lt k1 k2) \/
  (fsm_btree_cmp_fn k1 k2 = 1 /\ key_lt k2 k1).
Proof.
  destruct k1 as [o1 l1], k2 as [o2 l2]. unfold fsm_btree_cmp_fn, key_lt; simpl.
  repeat case_match; rewrite ?Z.ltb_lt, ?Z.ltb_ge in *; try (right; lia).
  left. split; [done | f_equal; lia].
Qed.

Lemma key_lt_trans k1 k2 k3 : key_lt k1 k2 -> key_lt k2 k3 -> key_lt k1 k3.
Proof. unfold key_lt. lia. Qed.
Lemma key_lt_irrefl k : ~ key_lt k k.
Proof. unfold key_lt. lia. Qed.

(** Case analysis on a comparison and the tests of its sign. *)
Ltac cmp_case k1 k2 :=
  let E := fresh "E" in
  destruct (cmp_cases k1 k2) as [[E ?]|[[E ?]|[E ?]]]; rewrite E; simpl; clear E.

(** ** Contents *)

Definition right_part (ks : list fsm_btree_key) (es : list (list fsm_btree_key)) :=
  concat (zip_with cons ks es).
Definition left_part (es : list (list fsm_btree_key)) (ks : list fsm_btree_key) :=
  concat (zip_with (fun e k => e ++ [k]) es ks).
Definition inter (es : list (list fsm_btree_key)) (ks : list fsm_btree_key) :=
  match es with [] => ks | e :: es => e ++ right_part ks es end.

(** The keys of a subtree from left to right. *)
Fixpoint elements (n : vdfs2_fsm_btree_node) : list fsm_btree_key :=
  let '(Node _ _ ks cs) := n in inter (map elements cs) ks.

Definition tree_elements (t : vdfs2_fsm_btree) : list fsm_btree_key :=
  match root t with ROOT n => elements n | _ => [] end.

Lemma right_part_cons k ks e es : right_part (k :: ks) (e :: es) = k :: e ++ right_part ks es.
Proof. done. Qed.

Lemma right_part_inter k ks e es : right_part (k :: ks) (e :: es) = k :: inter (e :: es) ks.
Proof. done. Qed.

Lemma inter_mid el e er kl kr :
  length el = length kl ->
  inter (el ++ e :: er) (kl ++ kr) = left_part el kl ++ e ++ right_part kr er.
Proof.
  revert kl. induction el as [|e0 el IH]; intros [|k0 kl] Hlen; simplify_eq/=; [done|].
  specialize (IH _ Hlen).
  assert (right_part (k0 :: kl ++ kr) (el ++ e :: er) = k0 :: inter (el ++ e :: er) (kl ++ kr)) as ->.
  { by destruct el. }
  rewrite IH. unfold left_part. simpl. by rewrite <-!app_assoc.
Qed.

Lemma left_part_app el1 el2 kl1 kl2 :
  length el1 = length kl1 -> left_part (el1 ++ el2) (kl1 ++ kl2) = left_part el1 kl1 ++ left_part el2 kl2.
Proof. intros. unfold left_part. by rewrite zip_with_app, concat_app. Qed.

Lemma left_part_snoc el kl e k :
  length el = length kl -> left_part (el ++ [e]) (kl ++ [k]) = left_part el kl ++ e ++ [k].
Proof. intros. rewrite left_part_app by done. unfold left_part at 2. simpl. by rewrite app_nil_r. Qed.

(** ** Shape *)

Section shape.
Context (t : nat).

(** A node of height [h]: levels and types agree, all leaves are at the same
    depth, and every node below this one has between [t - 1] and [2 t - 1] keys. *)
Fixpoint node_ok (h : nat) (n : vdfs2_fsm_btree_node) : Prop :=
  match h with
  | O => level n = 0 /\ type n = FSM_LEAF_NODE /\ children n = []
  | S h' =>
      level n = Z.of_nat h /\ type n = FSM_INDEX_NODE /\ length (children n) = S (nr_active n) /\
      Forall (fun c => node_ok h' c /\ (t - 1 <= nr_active c <= 2 * t - 1)%nat) (children n)
  end.

Definition child_ok (h : nat) (c : vdfs2_fsm_btree_node) : Prop :=
  node_ok h c /\ (t - 1 <= nr_active c <= 2 * t - 1)%nat.

Lemma node_ok_S h n :
  node_ok (S h) n <->
  n = Node (Z.of_nat (S h)) FSM_INDEX_NODE (key_vals n) (children n) /\
  length (children n) = S (nr_active n) /\ Forall (child_ok h) (children n).
Proof.
  destruct n as [l ty ks cs]. simpl. split.
  - intros (-> & -> & ? & ?). done.
  - intros (Heq & ? & ?). injection Heq as -> ->. done.
Qed.

Lemma node_ok_O n : node_ok 0 n <-> n = Node 0 FSM_LEAF_NODE (key_vals n) [].
Proof. destruct n as [l ty ks cs]. simpl. naive_solver. Qed.

Lemma node_ok_level h n : node_ok h n -> level n = Z.of_nat h.
Proof. destruct h; by intros [? _]. Qed.

Lemma depth_ok h n : node_ok h n -> depth n = S h.
Proof.
  revert n. induction h as [|h IH]; intros [l ty ks cs]; simpl.
  - by intros (_ & _ & ->).
  - intros (_ & _ & Hlen & Hcs). f_equal.
    assert (cs <> []) as Hne by (by intros ->).
    clear Hlen. induction Hcs as [|c cs [Hc _] Hcs IHcs]; [done|]. simpl.
    rewrite (IH _ Hc). destruct cs as [|c' cs]; simpl in *; [done|]. rewrite IHcs by done. lia.
Qed.

(** The view of an index node from one of its children. *)
Lemma index_view h n i :
  node_ok (S h) n -> (i <= nr_active n)%nat ->
  exists kl kr cl c cr,
    n = Node (Z.of_nat (S h)) FSM_INDEX_NODE (kl ++ kr) (cl ++ c :: cr) /\
    length kl = i /\ length cl = i /\ length kr = length cr /\
    Forall (child_ok h) cl /\ child_ok h c /\ Forall (child_ok h) cr.
Proof.
  rewrite node_ok_S. unfold nr_active. destruct n as [l ty ks cs]. simpl.
  intros ([= -> ->] & Hlen & Hcs) Hi.
  destruct (split_at ks i) as (kl & kr & -> & Hkl); [done|].
  destruct (split_at_S cs i) as (cl & c & cr & -> & Hcl); [lia|].
  apply Forall_app in Hcs as [? [??]%Forall_cons]. rewrite !length_app in Hlen. simpl in Hlen.
  exists kl, kr, cl, c, cr. repeat (split; [done || lia|]). done.
Qed.

Lemma index_node h kl kr cl c cr :
  length kl = length cl -> length kr = length cr ->
  Forall (child_ok h) cl -> child_ok h c -> Forall (child_ok h) cr ->
  node_ok (S h) (Node (Z.of_nat (S h)) FSM_INDEX_NODE (kl ++ kr) (cl ++ c :: cr)).
Proof.
  intros. rewrite node_ok_S. unfold nr_active. simpl. rewrite !length_app. simpl.
  repeat split; [lia|]. rewrite Forall_app, Forall_cons. done.
Qed.

Lemma elements_mid l ty kl kr cl c cr :
  length kl = length cl ->
  elements (Node l ty (kl ++ kr) (cl ++ c :: cr)) =
  left_part (map elements cl) kl ++ elements c ++ right_part kr (map elements cr).
Proof. intros. simpl. rewrite map_app. simpl. apply inter_mid. by rewrite length_map. Qed.

(** Two nodes around a key, seen as one. *)
Lemma elements_join l ty l1 ty1 l2 ty2 k k1 k2 c1 c2 :
  length c1 = S (length k1) -> c2 <> [] ->
  elements (Node l ty (k1 ++ k :: k2) (c1 ++ c2)) =
  elements (Node l1 ty1 k1 c1) ++ k :: elements (Node l2 ty2 k2 c2).
Proof.
  intros Hlen Hne. destruct c2 as [|c c2]; [done|].
  destruct c1 as [|c0 c1 _] using rev_ind; [done|].
  rewrite length_app in Hlen. simpl in Hlen.
  rewrite <-app_assoc. simpl. rewrite map_app. simpl.
  rewrite inter_mid by (rewrite length_map; lia). rewrite map_app. simpl.
  rewrite <-(app_nil_r k1) at 2. rewrite inter_mid by (rewrite length_map; lia).
  by rewrite right_part_inter, <-!app_assoc.
Qed.

Lemma elements_leaf l ty ks : elements (Node l ty ks []) = ks.
Proof. done. Qed.
End shape.
Arguments elements : simpl never.

(** ** Order and position *)

Definition below (k : fsm_btree_key) (l : list fsm_btree_key) : Prop := Forall (fun x => key_lt x k) l.
Definition above (k : fsm_btree_key) (l : list fsm_btree_key) : Prop := Forall (key_lt k) l.

Lemma sorted_mid l1 k l2 :
  sorted (l1 ++ k :: l2) <-> sorted l1 /\ sorted l2 /\ below k l1 /\ above k l2.
Proof.
  unfold below, above. rewrite StronglySorted_app, StronglySorted_cons, !Forall_forall. split.
  - intros (H1 & H2 & H3 & H4). repeat split; try done. intros x Hx. apply H1; [done|]. left.
  - intros (H1 & H2 & H3 & H4). repeat split; try done.
    intros x1 x2 Hx1 [->|Hx2]%elem_of_cons; [by apply H3|].
    eapply key_lt_trans; [by apply H3 | by apply H4].
Qed.

Lemma sorted_cons k l : sorted (k :: l) <-> sorted l /\ above k l.
Proof. unfold above. rewrite StronglySorted_cons. tauto. Qed.

Lemma below_trans k k' l : below k l -> key_lt k k' -> below k' l.
Proof. intros H ?. eapply Forall_impl; [apply H|]. simpl. eauto using key_lt_trans. Qed.
Lemma above_trans k k' l : above k l -> key_lt k' k -> above k' l.
Proof. intros H ?. eapply Forall_impl; [apply H|]. simpl. eauto using key_lt_trans. Qed.
Lemma below_app k l1 l2 : below k (l1 ++ l2) <-> below k l1 /\ below k l2.
Proof. unfold below, above. by rewrite Forall_app. Qed.
Lemma above_app k l1 l2 : above k (l1 ++ l2) <-> above k l1 /\ above k l2.
Proof. unfold below, above. by rewrite Forall_app. Qed.
Lemma below_cons k x l : below k (x :: l) <-> key_lt x k /\ below k l.
Proof. unfold below, above. by rewrite Forall_cons. Qed.
Lemma above_cons k x l : above k (x :: l) <-> key_lt k x /\ above k l.
Proof. unfold below, above. by rewrite Forall_cons. Qed.
Lemma below_nil k : below k [].
Proof. constructor. Qed.
Lemma above_nil k : above k [].
Proof. constructor. Qed.
#[export] Hint Resolve below_nil above_nil : core.
Lemma below_not_elem k l : below k l -> k ∉ l.
Proof. intros H Hk. eapply key_lt_irrefl, (proj1 (Forall_forall _ _) H k Hk). Qed.
Lemma above_not_elem k l : above k l -> k ∉ l.
Proof. intros H Hk. eapply key_lt_irrefl, (proj1 (Forall_forall _ _) H k Hk). Qed.

(** [i] splits a list of keys at the place of [k]. *)
Definition place (k : fsm_btree_key) (ks : list fsm_btree_key) (i : nat) : Prop :=
  (i <= length ks)%nat /\ below k (take i ks) /\ above k (drop i ks).

Lemma place_app k l1 l2 : below k l1 -> above k l2 -> place k (l1 ++ l2) (length l1).
Proof.
  intros. unfold place. rewrite take_app_length, drop_app_length, length_app. split; [lia | done].
Qed.

Lemma place_view k ks i :
  place k ks i -> exists l1 l2, ks = l1 ++ l2 /\ length l1 = i /\ below k l1 /\ above k l2.
Proof.
  intros (? & ? & ?). exists (take i ks), (drop i ks). rewrite take_drop, length_take. naive_solver lia.
Qed.

Lemma below_left_part k es ks :
  length es = length ks -> sorted (left_part es ks) -> below k ks -> below k (left_part es ks).
Proof.
  revert ks. induction es as [|e es IH]; intros [|x ks] Hlen; simplify_eq/=; [constructor|].
  unfold left_part. simpl. rewrite <-app_assoc. simpl.
  rewrite sorted_mid, below_cons, below_app, below_cons. intros (?&?&?&?) (?&?).
  split; [by eapply below_trans|]. split; [done|]. by apply IH.
Qed.

Lemma above_right_part k es ks :
  length ks = length es -> sorted (right_part ks es) -> above k ks -> above k (right_part ks es).
Proof.
  revert ks. induction es as [|e es IH]; intros [|x ks] Hlen; simplify_eq/=; [constructor|].
  rewrite right_part_cons, sorted_cons, !above_cons, !above_app, StronglySorted_app.
  intros ((?&?&?)&?&?) (?&?).
  split; [done|]. split; [by eapply above_trans|]. by apply IH.
Qed.

(** ** Searches inside a node *)

Lemma leaf_search_ok k ks fuel imin imax :
  sorted ks -> 0 <= imin <= imax + 1 -> imax < Z.of_nat (length ks) ->
  below k (take (Z.to_nat imin) ks) -> above k (drop (Z.to_nat (imax + 1)) ks) ->
  imax - imin + 1 < Z.of_nat fuel ->
  exists r, leaf_search fuel k ks imin imax = Ret r /\
    match r with None => k ∈ ks | Some i => place k ks i end.
Proof.
  intros Hs. revert imin imax. induction fuel as [|fuel IH]; intros imin imax Hi Hlen Hb Ha Hf; [lia|].
  simpl. destruct (Z.leb_spec imin imax).
  - rewrite Z.quot_div_nonneg by lia. set (mid := (imin + imax) / 2).
    assert (imin <= mid <= imax) as Hmid by (unfold mid; lia).
    destruct (split_at_S ks (Z.to_nat mid)) as (l1 & x & l2 & -> & Hl1); [lia|].
    apply sorted_mid in Hs as (? & ? & ? & ?).
    rewrite total_lookup_middle by done.
    cmp_case k x.
    + subst. eexists; split; [done|]. set_solver.
    + apply IH; try lia; [done|]. rewrite Z.sub_add, drop_app_length' by done.
      apply above_cons. eauto using above_trans.
    + apply IH; try lia; [|done]. rewrite take_S_middle by lia. apply below_app.
      split; [by eapply below_trans | by apply below_cons].
  - eexists; split; [done|]. replace imin with (imax + 1) in Hb by lia.
    split; [lia | done].
Qed.

Lemma index_search_ok k ks i :
  sorted ks -> (i <= length ks)%nat -> above k (drop i ks) ->
  match index_search k ks i with None => k ∈ ks | Some j => place k ks j end.
Proof.
  intros Hs. induction i as [|i IH]; intros Hi Ha; simpl.
  - by split; [lia|].
  - destruct (split_at_S ks i) as (l1 & x & l2 & -> & Hl1); [lia|].
    apply sorted_mid in Hs as (? & ? & ? & ?).
    rewrite total_lookup_middle by done.
    cmp_case k x.
    + subst. set_solver.
    + apply IH; [lia|]. rewrite drop_app_length' by done. apply above_cons. eauto using above_trans.
    + split; [done|]. split; [|done].
      rewrite take_S_middle by lia. apply below_app.
      split; [by eapply below_trans | by apply below_cons].
Qed.

Lemma full_child_has_ok k ks : sorted ks -> (full_child_has k ks = true <-> k ∈ ks).
Proof.
  induction ks as [|x ks IH]; intros Hs; simpl; [set_solver|].
  apply sorted_cons in Hs as [? ?]. cmp_case k x.
  - set_solver.
  - split; [done|]. intros [->|Hk]%elem_of_cons; [by destruct (key_lt_irrefl x)|].
    by destruct (above_not_elem k ks); [eapply above_trans|].
  - rewrite IH by done. rewrite elem_of_cons. split; [by right|].
    intros [->|]; [by destruct (key_lt_irrefl x) | done].
Qed.

Lemma lower_bound_ok k ks :
  sorted ks ->
  exists l1 l2, ks = l1 ++ l2 /\ length l1 = lower_bound k ks /\ below k l1 /\
    match l2 with [] => True | x :: l2 => (x = k \/ key_lt k x) /\ above x l2 end.
Proof.
  induction ks as [|x ks IH]; intros Hs; simpl.
  - by exists [], [].
  - apply sorted_cons in Hs as [? ?]. cmp_case k x.
    + exists [], (x :: ks). naive_solver.
    + exists [], (x :: ks). naive_solver.
    + destruct IH as (l1 & l2 & -> & Hl & ? & ?); [done|].
      exists (x :: l1), l2. simpl. rewrite Hl. split_and!; try done. by apply below_cons.
Qed.

(** ** Insertion *)

Section ops.
Context (t : nat) (Ht : (2 <= t)%nat).

Definition ins_spec (k : fsm_btree_key) (l l' : list fsm_btree_key) : Prop :=
  exists l1 l2, l = l1 ++ l2 /\ l' = l1 ++ k :: l2 /\ below k l1 /\ above k l2.

(** What an insertion does to the keys, with its error code; [m] is the
    allocator before and [m'] after it. *)
Definition ins_outcome (k : fsm_btree_key) (l l' : list fsm_btree_key) (m m' : memory) (e : Z) : Prop :=
  (m = [] -> m' = []) /\
  (e = 0 /\ ins_spec k l l' \/
   e = - EEXIST /\ k ∈ l /\ l' = l \/
   e = - ENOMEM /\ m <> [] /\ l' = l).

Lemma ins_outcome_mid k l l' m m' e L R :
  below k L -> above k R -> ins_outcome k l l' m m' e ->
  ins_outcome k (L ++ l ++ R) (L ++ l' ++ R) m m' e.
Proof using Type.
  clear t Ht.
  intros HL HR [Hm [[-> (l1 & l2 & -> & -> & ? & ?)]|[(-> & ? & ->)|(-> & ? & ->)]]];
    split; try done; [left | right; left | right; right].
  - split; [done|]. exists (L ++ l1), (l2 ++ R). rewrite below_app, above_app, <-!app_assoc. done.
  - set_solver.
  - done.
Qed.

Lemma kmem_alloc_nil m : m = [] -> (kmem_alloc m).2 = [].
Proof using Type.
  clear t Ht. by intros ->. Qed.

Lemma allocate_btree_node_cases m :
  exists o m', allocate_btree_node m = (o, m') /\ (m = [] -> m' = []) /\
    (o = Some (Node 0 FSM_LEAF_NODE [] []) \/ o = None /\ m <> []).
Proof using Type.
  clear t Ht. destruct m as [|[] m]; simpl; eexists _, _; (split; [done|]); naive_solver. Qed.

(** A full child becomes two minimal ones around its middle key. *)
Lemma split_full h c :
  node_ok t h c -> nr_active c = (2 * t - 1)%nat ->
  let c1 := Node (level c) (type c) (take (t - 1) (key_vals c)) (take t (children c)) in
  let c2 := Node (level c) (type c) (take (t - 1) (drop t (key_vals c)))
    (match type c with FSM_LEAF_NODE => [] | FSM_INDEX_NODE => take t (drop t (children c)) end) in
  child_ok t h c1 /\ child_ok t h c2 /\
  nr_active c1 = (t - 1)%nat /\ nr_active c2 = (t - 1)%nat /\
  (key_vals c !!! (t - 1)%nat) ∈ key_vals c /\
  elements c = elements c1 ++ (key_vals c !!! (t - 1)%nat) :: elements c2.
Proof using Ht.
  unfold nr_active. destruct c as [lv ty ks cs]. simpl. intros Hok Hlen.
  destruct (split_at_S ks (t - 1)) as (k1 & k & k2 & -> & Hk1); [lia|].
  rewrite length_app in Hlen. simpl in Hlen.
  rewrite total_lookup_middle, take_app_length', drop_S_middle, (take_ge k2) by lia.
  unfold child_ok, nr_active. destruct h as [|h]; simpl in Hok.
  - destruct Hok as (-> & -> & ->). simpl. rewrite take_nil. simpl. repeat split; try lia. set_solver.
  - destruct Hok as (-> & -> & Hcs & Hall). simpl in *. unfold nr_active in Hcs. simpl in Hcs.
    rewrite length_app in Hcs. simpl in Hcs.
    destruct (split_at cs t) as (cs1 & cs2 & -> & Hcs1); [lia|].
    rewrite length_app in Hcs. apply Forall_app in Hall as [??].
    rewrite take_app_length', drop_app_length', (take_ge cs2) by lia.
    repeat split; try done; try set_solver; try (unfold nr_active; simpl; lia).
    apply elements_join; [lia|]. destruct cs2; [simpl in *; lia | done].
Qed.

Lemma btree_split_child_ok h kl kr cl c cr m :
  node_ok t (S h) (Node (Z.of_nat (S h)) FSM_INDEX_NODE (kl ++ kr) (cl ++ c :: cr)) ->
  length kl = length cl -> nr_active c = (2 * t - 1)%nat ->
  exists e p m', btree_split_child t (Node (Z.of_nat (S h)) FSM_INDEX_NODE (kl ++ kr) (cl ++ c :: cr))
      (length kl) c m = (e, p, m') /\ (m = [] -> m' = []) /\
    (e = - ENOMEM /\ m <> [] /\ p = Node (Z.of_nat (S h)) FSM_INDEX_NODE (kl ++ kr) (cl ++ c :: cr) \/
     exists k c1 c2, e = 0 /\
       p = Node (Z.of_nat (S h)) FSM_INDEX_NODE (kl ++ k :: kr) (cl ++ c1 :: c2 :: cr) /\
       child_ok t h c1 /\ child_ok t h c2 /\
       nr_active c1 = (t - 1)%nat /\ nr_active c2 = (t - 1)%nat /\
       k ∈ key_vals c /\ elements c = elements c1 ++ k :: elements c2).
Proof using Ht.
  intros Hok Hkl Hc. unfold btree_split_child.
  destruct (allocate_btree_node_cases m) as (o & m' & -> & ? & [->|[-> ?]]);
    eexists _, _, m'; (split; [done|]); (split; [done|]); [|by left].
  right. apply (proj1 (node_ok_S _ _ _)) in Hok as (_ & _ & Hall). simpl in Hall.
  apply Forall_app in Hall as [_ [[Hcok _] _]%Forall_cons].
  destruct (split_full h c Hcok Hc) as (H1 & H2 & H3 & H4 & H5 & H6).
  eexists _, _, _. split; [done|]. split; [|exact (conj H1 (conj H2 (conj H3 (conj H4 (conj H5 H6)))))].
  simpl. by rewrite insert_at_app, insert_middle, insert_at_S_middle by lia.
Qed.
Lemma sorted_keys l ty ks cs :
  length cs = S (length ks) -> sorted (elements (Node l ty ks cs)) -> sorted ks.
Proof using Type.
  clear t Ht.
  unfold elements. destruct cs as [|c cs]; [done|]. intros [= Hlen]. simpl.
  rewrite StronglySorted_app. intros (_ & _ & Hs). revert cs Hlen Hs. clear.
  induction ks as [|k ks IH]; intros [|c cs] Hlen Hs; simplify_eq/=; [constructor|].
  rewrite right_part_cons, sorted_cons, above_app, StronglySorted_app in Hs.
  destruct Hs as ((_ & _ & Hs) & _ & Ha). apply sorted_cons. split; [by eapply IH|].
  revert cs Hlen Ha Hs. clear. induction ks as [|x ks IH]; intros [|c cs] Hlen Ha Hs; simplify_eq/=; [done|].
  rewrite right_part_cons, above_cons, above_app in Ha. rewrite right_part_cons, sorted_cons, StronglySorted_app in Hs.
  apply above_cons. split; [easy|]. eapply IH; [done|easy..].
Qed.

Lemma elements_keys k l ty ks cs :
  length cs = S (length ks) -> k ∈ ks -> k ∈ elements (Node l ty ks cs).
Proof using Type.
  clear t Ht.
  intros Hlen (kl & kr & ->)%list_elem_of_split. rewrite length_app in Hlen. simpl in Hlen.
  destruct (split_at cs (S (length kl))) as (cl & cr & -> & Hcl); [lia|].
  destruct cl as [|c cl _] using rev_ind; [done|]. rewrite !length_app in *. simpl in *.
  rewrite <-app_assoc. simpl. rewrite elements_mid by lia.
  destruct cr; simpl in *; [lia|]. rewrite right_part_cons. set_solver.
Qed.

(** What a position among the keys of a node says of the keys below it. *)
Lemma place_parts k kl kr cl c cr h :
  node_ok t (S h) (Node (Z.of_nat (S h)) FSM_INDEX_NODE (kl ++ kr) (cl ++ c :: cr)) ->
  length kl = length cl ->
  sorted (elements (Node (Z.of_nat (S h)) FSM_INDEX_NODE (kl ++ kr) (cl ++ c :: cr))) ->
  below k kl -> above k kr ->
  below k (left_part (map elements cl) kl) /\ above k (right_part kr (map elements cr)) /\
  sorted (elements c).
Proof using Type.
  clear Ht.
  intros Hok Hkl Hs Hb Ha. rewrite elements_mid in Hs by done.
  apply node_ok_S in Hok as (_ & Hlen & _). unfold nr_active in Hlen. simpl in Hlen.
  rewrite !length_app in Hlen. simpl in Hlen.
  rewrite !StronglySorted_app in Hs. destruct Hs as (_ & ? & _ & ? & ?).
  split; [|split; [|done]].
  - apply below_left_part; [by rewrite length_map | done..].
  - apply above_right_part; [rewrite length_map; lia | done..].
Qed.

Definition ins_result (lo hi : nat) h k (l : list fsm_btree_key) m
    (r : outcome (Z * vdfs2_fsm_btree_node * memory)) : Prop :=
  exists e n' m', r = Ret (e, n', m') /\ node_ok t h n' /\ (lo <= nr_active n' <= hi)%nat /\
    ins_outcome k l (elements n') m m' e.

Lemma ins_result_weaken lo hi lo' hi' h k l m m' r :
  (lo' <= lo)%nat -> (hi <= hi')%nat -> (m = [] -> m' = []) ->
  ins_result lo hi h k l m' r -> ins_result lo' hi' h k l m r.
Proof using Type.
  clear Ht.
  intros ? ? Hm (e & n' & m'' & -> & Hok & ? & Hi & Hc). exists e, n', m''.
  split_and!; try done; [lia..|]. split; [tauto|]. intuition auto.
Qed.

Lemma ins_descend h k kl kr cl c cr m r :
  let n := Node (Z.of_nat (S h)) FSM_INDEX_NODE (kl ++ kr) (cl ++ c :: cr) in
  node_ok t (S h) n -> length kl = length cl -> (nr_active c < 2 * t - 1)%nat ->
  below k (left_part (map elements cl) kl) -> above k (right_part kr (map elements cr)) ->
  ins_result (nr_active c) (S (nr_active c)) h k (elements c) m r ->
  ins_result (nr_active n) (nr_active n) (S h) k (elements n) m
    ('(e, c', m') ← r; Ret (e, set_child n (length kl) c', m')).
Proof using Type.
  clear Ht.
  intros n Hok Hkl Hc Hb Ha (e & c' & m' & -> & Hok' & Hn & Hi). exists e. eexists _, m'.
  split; [done|]. unfold set_child, set_children. simpl. rewrite insert_middle by done.
  apply node_ok_S in Hok as (_ & Hlen & Hall). unfold nr_active in Hlen. simpl in Hlen, Hall.
  apply Forall_app in Hall as [? [[??] ?]%Forall_cons]. rewrite !length_app in Hlen. simpl in Hlen.
  split; [|split].
  - apply index_node; try done; [lia|]. split; [done | lia].
  - unfold nr_active. simpl. lia.
  - unfold n. rewrite !elements_mid by done. by apply ins_outcome_mid.
Qed.

Lemma child_keys h c :
  node_ok t h c -> (forall k, k ∈ key_vals c -> k ∈ elements c) /\ (sorted (elements c) -> sorted (key_vals c)).
Proof using Type.
  clear Ht.
  destruct c as [lv ty ks cs]. destruct h as [|h]; intros Hok.
  - destruct Hok as (_ & _ & Hc). simpl in *. by subst.
  - destruct Hok as (_ & _ & Hlen & _). split; [intros k; by apply elements_keys | by apply sorted_keys].
Qed.

Ltac ins_ret :=
  eexists _, _, _; split; [done|]; split_and!; try done; try (unfold nr_active; simpl; lia).

Lemma btree_insert_nonfull_ok h fuel n k m :
  (h < fuel)%nat -> node_ok t h n -> (nr_active n < 2 * t - 1)%nat -> sorted (elements n) ->
  ins_result (nr_active n) (S (nr_active n)) h k (elements n) m (btree_insert_nonfull fuel t n k m).
Proof using Ht.
  revert h n m. induction fuel as [|fuel IH]; intros [|h] n m Hf Hok Hn Hs; [lia|lia| |].
  - destruct n as [lv ty ks cs], Hok as (Hl & Hty & Hc). simpl in Hl, Hty, Hc. subst.
    unfold nr_active in Hn. rewrite elements_leaf in Hs. cbn -[leaf_search].
    destruct (leaf_search_ok k ks (S (length ks)) 0 (Z.of_nat (length ks) - 1))
      as (r & -> & Hpos); try done; try lia.
    { by rewrite drop_ge by lia. }
    unfold ins_result. simpl. rewrite elements_leaf. destruct r as [i|].
    + apply place_view in Hpos as (l1 & l2 & -> & <- & ? & ?).
      eexists _, _, _. split; [done|]. unfold set_keys, nr_active. simpl.
      rewrite insert_at_app, elements_leaf, !length_app by done. simpl.
      split_and!; try done; [lia..|]. split; [done|]. left. split; [done|]. by exists l1, l2.
    + ins_ret.
      split; [done|]. right. left. done.
  - pose proof (proj1 (node_ok_S _ _ _) Hok) as (Hn' & Hlen & _).
    destruct n as [lv ty ks cs]. simpl in Hn'. injection Hn' as -> ->.
    unfold nr_active in Hn, Hlen. simpl in Hn, Hlen.
    assert (sorted ks) as Hks by (by eapply sorted_keys).
    pose proof (index_search_ok k ks (length ks) Hks) as Hsearch.
    rewrite drop_ge in Hsearch by done. specialize (Hsearch (le_n _) (above_nil _)).
    cbn [btree_insert_nonfull type key_vals children].
    change (nr_active (Node (Z.of_nat (S h)) FSM_INDEX_NODE ks cs)) with (length ks).
    destruct (index_search k ks (length ks)) as [i|] eqn:Hi.
    2: { ins_ret.
         split; [done|]. right. left. split_and!; try done.
         by apply elements_keys. }
    apply place_view in Hsearch as (kl & kr & -> & <- & Hb & Ha).
    destruct (index_view t h _ (length kl) Hok) as (kl' & kr' & cl & c & cr & [= Hk ->] & Hkl & Hcl & Hr & _ & Hc & _).
    { unfold nr_active. simpl. rewrite length_app. lia. }
    apply app_inj_1 in Hk as [<- <-]; [|done]. clear Hkl.
    destruct (place_parts k kl kr cl c cr h Hok (eq_sym Hcl) Hs Hb Ha) as (Hbl & Har & Hsc).
    rewrite lookup_middle by done. cbn [deref mbind outcome_bind].
    case_decide as Hfull.
    2: { eapply (ins_result_weaken _ _ _ _ _ _ _ _ m); [| | |apply ins_descend]; try done.
         all: try (destruct Hc; unfold nr_active in *; simpl in *; lia).
         apply IH; [lia | apply Hc | destruct Hc; lia | done]. }
    destruct (child_keys h c (proj1 Hc)) as [Hkel Hksc]. specialize (Hksc Hsc).
    pose proof (full_child_has_ok k (key_vals c) Hksc) as Hfh.
    destruct (full_child_has k (key_vals c)) eqn:Hhas.
    { ins_ret.
      split; [done|]. right. left. split_and!; try done. rewrite elements_mid by done. set_solver. }
    assert (k ∉ key_vals c) as Hkc by (rewrite <-Hfh; congruence).
    destruct (btree_split_child_ok h kl kr cl c cr m Hok (eq_sym Hcl) Hfull)
      as (e & p & m' & -> & Hm & [(-> & Hm' & ->)|(k' & c1 & c2 & -> & -> & Hc1 & Hc2 & Hn1 & Hn2 & Hk' & Hel)]).
    { ins_ret.
      split; [done|]. by right; right. }
    cbn [Z.eqb negb key_vals]. rewrite total_lookup_middle by done.
    eapply (ins_result_weaken (S (length (kl ++ kr))) (S (length (kl ++ kr))) _ _ _ _ _ m m'); try done.
    { unfold nr_active. simpl. lia. }
    rewrite elements_mid, Hel by done. rewrite Hel in Hsc. apply sorted_mid in Hsc as (? & ? & ? & ?).
    apply node_ok_S in Hok as (_ & _ & [? [_ ?]%Forall_cons]%Forall_app). simpl in Hlen.
    rewrite !length_app in Hlen. simpl in Hlen.
    set (p := Node (Z.of_nat (S h)) FSM_INDEX_NODE (kl ++ k' :: kr) (cl ++ c1 :: c2 :: cr)).
    assert (node_ok t (S h) p) as Hp.
    { apply index_node; try done; [simpl; lia|]. by constructor. }
    assert (left_part (map elements cl) kl ++ (elements c1 ++ k' :: elements c2) ++ right_part kr (map elements cr)
            = elements p) as ->.
    { unfold p. rewrite elements_mid by done. simpl. by rewrite right_part_cons, <-!app_assoc. }
    replace (S (length (kl ++ kr))) with (nr_active p)
      by (unfold p, nr_active; simpl; rewrite !length_app; simpl; lia).
    cmp_case k k'; [by subst| |].
    + cbn [Z.ltb Z.compare]. rewrite lookup_middle by done. cbn [deref mbind outcome_bind].
      apply ins_descend; try done; [lia|simpl; rewrite right_part_cons|].
      { apply above_cons. split; [done|]. apply above_app. split; [by eapply above_trans | done]. }
      apply IH; [lia | apply Hc1 | lia | done].
    + cbn [Z.ltb Z.compare]. revert Hp. unfold p.
      rewrite (cons_middle c1), app_assoc, (cons_middle k'), (app_assoc kl).
      replace (S (length kl)) with (length (kl ++ [k'])) by (rewrite length_app; simpl; lia).
      rewrite lookup_middle by (rewrite !length_app; simpl; lia). cbn [deref mbind outcome_bind]. intros Hp.
      apply ins_descend; try done; [rewrite !length_app; simpl; lia|lia| |].
      { rewrite map_app. simpl. rewrite left_part_snoc, !below_app, below_cons by (by rewrite length_map).
        split; [done|]. split; [by eapply below_trans | done]. }
      apply IH; [lia | apply Hc2 | lia | done].
Qed.

Lemma ins_spec_sorted k l l' : sorted l -> ins_spec k l l' -> sorted l'.
Proof using Type.
  clear t Ht.
  intros Hs (l1 & l2 & -> & -> & ? & ?). apply StronglySorted_app in Hs as (? & ? & ?).
  by apply sorted_mid.
Qed.

Lemma ins_outcome_sorted k l l' m m' e : sorted l -> ins_outcome k l l' m m' e -> sorted l'.
Proof using Type.
  clear t Ht.
  intros ? [_ [[_ ?]|[(_ & _ & ->)|(_ & _ & ->)]]]; [by eapply ins_spec_sorted | done..].
Qed.

(** A well-formed tree: balanced, ordered, no node too full. *)
Definition wf (b : vdfs2_fsm_btree) : Prop :=
  order b = t /\
  match root b with
  | ROOT n => exists h, node_ok t h n /\ (nr_active n <= 2 * t - 1)%nat /\ sorted (elements n)
  | _ => True
  end.

Lemma wf_sorted b : wf b -> sorted (tree_elements b).
Proof using Type.
  clear Ht. intros [_ Hr]. unfold tree_elements. destruct (root b); [constructor..|]. naive_solver. Qed.

(** A tree whose root holds a key, as every tree does that was not left by a
    failed split of its root. *)
Definition rooted (b : vdfs2_fsm_btree) : Prop :=
  match root b with ROOT n => (1 <= nr_active n)%nat | ROOT_NULL => True | ROOT_ERR => False end.

Lemma fsm_btree_insert_ok b k m :
  wf b -> root b <> ROOT_ERR ->
  exists e b' m', fsm_btree_insert b k m = Ret (e, b', m') /\ wf b' /\
    (root b' = ROOT_ERR -> e = - ENOMEM) /\ (e = 0 -> rooted b -> rooted b') /\
    ins_outcome k (tree_elements b) (tree_elements b') m m' e.
Proof using Ht.
  intros [Ho Hr] Hne. destruct b as [o r]. simpl in *. subst o. unfold fsm_btree_insert. cbn [root order].
  assert (forall (P : Prop) n h m m1, (P -> h = 0%nat \/ (1 <= nr_active n)%nat) -> node_ok t h n -> (nr_active n < 2 * t - 1)%nat -> sorted (elements n) ->
    (m1 = [] -> m = []) -> exists e b' m',
    ('(ret, n', m') ← btree_insert_nonfull (S (depth n)) t n k m;
     Ret (ret, FsmBtree t (ROOT n'), m')) = Ret (e, b', m') /\ wf b' /\
    (root b' = ROOT_ERR -> e = - ENOMEM) /\ (e = 0 -> P -> rooted b') /\
    ins_outcome k (elements n) (tree_elements b') m1 m' e) as Hroot.
  { intros P n h m0 m1 HP Hok Hn Hs Hm. rewrite (depth_ok t h n Hok).
    destruct (btree_insert_nonfull_ok h (S (S h)) n k m0) as (e & n' & m' & -> & Hok' & Hn' & Hi); [lia|done..|].
    eexists e, _, m'. split; [done|]. split; [|split; [done|]].
    - split; [done|]. exists h. split; [done|]. split; [lia|]. by eapply ins_outcome_sorted.
    - split; [|destruct Hi as [? Hi]; split; [tauto|]; intuition auto].
      unfold rooted. cbn [root]. intros -> [->|?]%HP; [|lia]. destruct Hi as [_ [[_ (l1 & l2 & _ & He & _)]|[[? _]|[? _]]]]; [|done..].
      destruct n' as [lv ty ks cs], Hok' as (_ & _ & Hc). simpl in Hc. subst. rewrite elements_leaf in He. subst.
      unfold nr_active. simpl. rewrite length_app. simpl. lia. }
  destruct r as [| |n]; [|done|].
  - destruct (allocate_btree_node_cases m) as (o & m' & -> & Hm & [->|[-> ?]]);
      unfold set_root; cbn [root order].
    + destruct (decide _) as [?|_]; [unfold nr_active in *; simpl in *; lia|].
      change (tree_elements (FsmBtree t ROOT_NULL)) with (elements (Node 0 FSM_LEAF_NODE [] [])).
      apply (Hroot _ _ 0%nat); [by left|done|unfold nr_active; simpl; lia|constructor|done].
    + eexists _, _, _. split; [done|]. split; [done|]. split; [done|]. split; [done|]. split; [done|]. by right; right.
  - destruct Hr as (h & Hok & Hn & Hs). unfold set_root. simpl. case_decide as Hfull.
    2: { apply (Hroot _ n h); [by right|done|lia|done..]. }
    destruct (allocate_btree_node_cases m) as (o & m1 & -> & Hm1 & [->|[-> ?]]).
    2: { eexists _, _, _. split; [done|]. split; [by split; [|exists h]|]. split; [done|]. split; [done|]. split; [done|]. by right; right. }
    pose proof (btree_split_child_ok h [] [] [] n [] m1) as Hsplit. cbn [app length] in Hsplit.
    replace (level n + 1) with (Z.of_nat (S h)) by (rewrite (node_ok_level t h n Hok); lia).
    assert (node_ok t (S h) (Node (Z.of_nat (S h)) FSM_INDEX_NODE [] [n])) as Hnew.
    { apply (index_node t h [] [] [] n []); try done. split; [done|lia]. }
    destruct Hsplit as (e & p & m2 & -> & Hm2 & Hcase); [done..|].
    assert (elements (Node (Z.of_nat (S h)) FSM_INDEX_NODE [] [n]) = elements n) as Heln.
    { rewrite (elements_mid _ _ [] [] [] n []) by done. apply app_nil_r. }
    destruct Hcase as [(-> & ? & ->)|(k' & c1 & c2 & -> & -> & Hc1 & Hc2 & Hn1 & Hn2 & Hk' & Hel)].
    + eexists _, _, _. split; [done|]. split.
      { split; [done|]. exists (S h). split; [done|]. rewrite Heln. split; [unfold nr_active; simpl; lia|done]. }
      split; [done|]. split; [done|]. split; [tauto|]. right; right. unfold tree_elements. simpl. rewrite Heln. naive_solver.
    + assert (elements (Node (Z.of_nat (S h)) FSM_INDEX_NODE [k'] [c1; c2]) = elements n) as Heln'.
      { rewrite (elements_mid _ _ [] [k'] [] c1 [c2]) by done. simpl.
        by rewrite right_part_cons, Hel, app_nil_r. }
      unfold tree_elements at 1. cbn [root]. rewrite <-Heln'. apply (Hroot _ _ (S h)); try tauto.
      * intros _. right. unfold nr_active. simpl. lia.
      * apply (index_node t h [] [k'] [] c1 [c2]); try done. by constructor.
      * unfold nr_active. simpl. lia.
      * by rewrite Heln'.
Qed.
End ops.
