(* ===== verification/FsmTreeDelete.v ===== *)
(** * Correctness of deletion in the free-space B-tree *)
From Stdlib Require Import ZArith Lia.
From stdpp Require Import base numbers list sorting sets.
From S2P Require Import Prelude FsmTree FsmTreeFacts.

Section delete.
Context (t : nat) (Ht : (2 <= t)%nat).

Lemma set_child_ok h n kl kr cl c cr c' :
  n = Node (Z.of_nat (S h)) FSM_INDEX_NODE (kl ++ kr) (cl ++ c :: cr) ->
  length kl = length cl -> length kr = length cr ->
  Forall (child_ok t h) cl -> child_ok t h c' -> Forall (child_ok t h) cr ->
  let n' := set_child n (length kl) c' in
  n' = Node (Z.of_nat (S h)) FSM_INDEX_NODE (kl ++ kr) (cl ++ c' :: cr) /\
  node_ok t (S h) n' /\ nr_active n' = nr_active n /\
  elements n' = left_part (map elements cl) kl ++ elements c' ++ right_part kr (map elements cr).
Proof.
  intros -> ? ? ? ? ? n'.
  assert (n' = Node (Z.of_nat (S h)) FSM_INDEX_NODE (kl ++ kr) (cl ++ c' :: cr)) as ->.
  { unfold n', set_child, set_children. simpl. by rewrite insert_middle. }
  split; [done|]. split; [by apply index_node|]. split; [done|]. by rewrite elements_mid.
Qed.

Lemma get_max_key_pos_ok h fuel n x :
  (h < fuel)%nat -> node_ok t h n -> (1 <= nr_active n)%nat ->
  exists k n' l, get_max_key_pos fuel n x = Ret (k, n') /\ node_ok t h n' /\
    nr_active n' = nr_active n /\ elements n = l ++ [k] /\ elements n' = l ++ [x].
Proof using Ht.
  revert h n. induction fuel as [|fuel IH]; intros [|h] n Hf Hok Hn; [lia|lia| |].
  - destruct n as [lv ty ks cs], Hok as (Hl & Hty & Hc). simpl in Hl, Hty, Hc. subst.
    unfold nr_active in *. simpl in *. destruct ks as [|k ks _] using rev_ind; [simpl in *; lia|].
    unfold set_key, set_keys. simpl. rewrite total_lookup_middle, insert_middle
      by (unfold nr_active; simpl; rewrite length_app; simpl; lia).
    exists k, (Node 0 FSM_LEAF_NODE (ks ++ [x]) []), ks. rewrite !elements_leaf. simpl. by rewrite !length_app.
  - destruct (index_view t h n (nr_active n) Hok (le_n _))
      as (kl & kr & cl & c & cr & -> & Hkl & Hcl & Hr & ? & Hc & ?).
    assert (kr = [] /\ cr = []) as [-> ->].
    { unfold nr_active in Hkl. simpl in Hkl. rewrite length_app in Hkl.
      destruct kr, cr; simpl in *; done || lia. }
    simpl. rewrite <-Hkl, lookup_middle by lia. simpl.
    destruct (IH h c) as (k & c' & l & -> & Hok' & Hn' & He & He'); [lia|apply Hc|destruct Hc; lia|]. simpl.
    edestruct (set_child_ok h _ kl [] cl c [] c' eq_refl) as (-> & Hset & _ & Hel); [lia|done..| |done|].
    { split; [done|]. rewrite Hn'. apply Hc. }
    eexists _, _, (left_part (map elements cl) kl ++ l). split; [done|]. split; [done|]. split; [done|].
    rewrite Hel, elements_mid, He, He' by lia. unfold right_part. simpl. by rewrite !app_nil_r, <-!app_assoc.
Qed.

Lemma get_min_key_pos_ok h fuel n x :
  (h < fuel)%nat -> node_ok t h n -> (1 <= nr_active n)%nat ->
  exists k n' l, get_min_key_pos fuel n x = Ret (k, n') /\ node_ok t h n' /\
    nr_active n' = nr_active n /\ elements n = k :: l /\ elements n' = x :: l.
Proof using Ht.
  revert h n. induction fuel as [|fuel IH]; intros [|h] n Hf Hok Hn; [lia|lia| |].
  - destruct n as [lv ty ks cs], Hok as (Hl & Hty & Hc). simpl in Hl, Hty, Hc. subst.
    unfold nr_active in *. destruct ks as [|k ks]; [simpl in *; lia|].
    by eexists _, _, ks.
  - destruct (index_view t h n 0 Hok (le_0_n _))
      as ([|??] & kr & [|??] & c & cr & -> & Hkl & Hcl & Hr & ? & Hc & ?); try done.
    simpl. destruct (IH h c) as (k & c' & l & -> & Hok' & Hn' & He & He'); [lia|apply Hc|destruct Hc; lia|]. simpl.
    edestruct (set_child_ok h _ [] kr [] c cr c' eq_refl) as (Heq & Hset & _ & Hel); [done..| |done|].
    { split; [done|]. rewrite Hn'. apply Hc. }
    simpl in Heq, Hset, Hel. rewrite Heq in *.
    eexists _, _, (l ++ right_part kr (map elements cr)). split; [done|]. split; [done|]. split; [done|].
    rewrite Hel. rewrite (elements_mid _ _ [] kr [] c cr), He, He' by done. done.
Qed.

(** *** Taking a key from a sibling, merging siblings *)

Lemma rotate_left_ok h c k r :
  child_ok t h c -> child_ok t h r -> nr_active c = (t - 1)%nat -> (t - 1 < nr_active r)%nat ->
  let c' := Node (level c) (type c) (key_vals c ++ [k]) (children c ++ take 1 (children r)) in
  let r' := Node (level r) (type r) (drop 1 (key_vals r)) (drop 1 (children r)) in
  child_ok t h c' /\ nr_active c' = t /\ child_ok t h r' /\
  elements c ++ k :: elements r = elements c' ++ (key_vals r !!! O) :: elements r' /\
  key_vals r !!! O ∈ elements r.
Proof using Ht.
  intros [Hc Hnc] [Hr Hnr] Hc1 Hr1. destruct c as [lc tc kc cc], r as [lr tr [|x kr] cr];
    unfold child_ok, nr_active in *; simpl in *; [lia|].
  rewrite drop_0, length_app. destruct h as [|h]; simpl in *.
  - destruct Hc as (-> & -> & ->), Hr as (-> & -> & ->).
    rewrite !elements_leaf. simpl. rewrite <-app_assoc. repeat split; try lia. set_solver.
  - destruct Hc as (-> & -> & Hlc & Hac), Hr as (-> & -> & Hlr & Har). unfold nr_active in *. simpl in *.
    destruct cr as [|c1 [|c2 cr]]; simpl in *; [lia|lia|].
    destruct cc as [|c0 cc _] using rev_ind; [simpl in *; lia|].
    rewrite !length_app in *. simpl in *.
    apply Forall_cons in Har as [Hc1' Har].
    split_and!; try done; try lia.
    + apply Forall_app. split; [done|]. by constructor.
    + rewrite <-!(elements_join (Z.of_nat (S h)) FSM_INDEX_NODE), <-!app_assoc
        by (done || rewrite ?length_app; simpl; lia). done.
    + apply elements_keys; simpl; [lia | set_solver].
Qed.

Lemma rotate_right_ok h c k l :
  child_ok t h l -> child_ok t h c -> nr_active c = (t - 1)%nat -> (t - 1 < nr_active l)%nat ->
  let l' := Node (level l) (type l) (take (nr_active l - 1) (key_vals l)) (take (nr_active l) (children l)) in
  let c' := Node (level c) (type c) (k :: key_vals c) (drop (nr_active l) (children l) ++ children c) in
  child_ok t h l' /\ child_ok t h c' /\ nr_active c' = t /\
  elements l ++ k :: elements c = elements l' ++ (key_vals l !!! (nr_active l - 1)%nat) :: elements c' /\
  key_vals l !!! (nr_active l - 1)%nat ∈ elements l.
Proof using Ht.
  intros [Hl Hnl] [Hc Hnc] Hc1 Hl1. destruct c as [lc tc kc cc], l as [ll tl kl cl].
  unfold child_ok, nr_active in *. simpl in *.
  destruct kl as [|x kl _] using rev_ind; [simpl in *; lia|].
  rewrite length_app in *. simpl in *. rewrite total_lookup_middle, take_app_length' by lia.
  destruct h as [|h]; simpl in *.
  - destruct Hc as (-> & -> & ->), Hl as (-> & -> & ->).
    rewrite take_nil, drop_nil, !elements_leaf, <-app_assoc. repeat split; try lia. set_solver.
  - destruct Hc as (-> & -> & Hlc & Hac), Hl as (-> & -> & Hll & Hal). unfold nr_active in *. simpl in *.
    rewrite length_app in Hll. simpl in Hll.
    destruct cl as [|c0 cl _] using rev_ind; [simpl in *; lia|]. rewrite length_app in Hll. simpl in Hll.
    rewrite take_app_length', drop_app_length' by lia.
    apply Forall_app in Hal as [Hal Hc0]. destruct cc as [|c1 cc]; [simpl in *; lia|].
    split_and!; try done; try (simpl in *; lia).
    + by apply Forall_app.
    + rewrite <-!(elements_join (Z.of_nat (S h)) FSM_INDEX_NODE), <-!app_assoc
        by (done || rewrite ?length_app; simpl; lia). done.
    + apply elements_keys; [rewrite !length_app; simpl; lia | set_solver].
Qed.

Lemma merge_ok h n1 k n2 :
  child_ok t h n1 -> child_ok t h n2 -> nr_active n1 = (t - 1)%nat -> nr_active n2 = (t - 1)%nat ->
  let n := Node (level n1) (type n1) (key_vals n1 ++ k :: key_vals n2) (children n1 ++ children n2) in
  child_ok t h n /\ nr_active n = (2 * t - 1)%nat /\ elements n = elements n1 ++ k :: elements n2.
Proof using Ht.
  intros [Hn1 _] [Hn2 _] ? ?. destruct n1 as [l1 t1 k1 c1], n2 as [l2 t2 k2 c2].
  unfold child_ok, nr_active in *. simpl in *. rewrite length_app. simpl.
  destruct h as [|h]; simpl in *.
  - destruct Hn1 as (-> & -> & ->), Hn2 as (-> & -> & ->). rewrite !elements_leaf. repeat split; lia.
  - destruct Hn1 as (-> & -> & ? & ?), Hn2 as (-> & -> & ? & ?). unfold nr_active in *. simpl in *.
    rewrite !length_app. simpl. split_and!; try done; try lia.
    + by apply Forall_app.
    + apply (elements_join); [done|]. by destruct c2.
Qed.

Definition refilled h (n : vdfs2_fsm_btree_node) (key : fsm_btree_key) (p : vdfs2_fsm_btree_node)
    (i : nat) (b : bool) : Prop :=
  exists kl kr cl c cr,
    p = Node (Z.of_nat (S h)) FSM_INDEX_NODE (kl ++ kr) (cl ++ c :: cr) /\
    node_ok t (S h) p /\ length kl = i /\ length cl = i /\ (t <= nr_active c <= 2 * t - 1)%nat /\
    below key kl /\ above key kr /\ elements p = elements n /\
    nr_active n = (nr_active p + if b then 1 else 0)%nat.

Lemma node_ok_view h kl kr cl c cr :
  length kl = length cl ->
  node_ok t (S h) (Node (Z.of_nat (S h)) FSM_INDEX_NODE (kl ++ kr) (cl ++ c :: cr)) ->
  length kr = length cr /\ Forall (child_ok t h) cl /\ child_ok t h c /\ Forall (child_ok t h) cr.
Proof.
  intros Hkl (_ & _ & Hlen & [? [??]%Forall_cons]%Forall_app). unfold nr_active in Hlen. simpl in Hlen.
  rewrite !length_app in Hlen. simpl in Hlen. split; [lia | done].
Qed.

Lemma children_length h c : node_ok t h c -> (length (children c) <= S (nr_active c))%nat.
Proof. destruct h; [intros (_ & _ & ->); simpl; lia | intros (_ & _ & -> & _); lia]. Qed.

Lemma elements_mid2 l ty kl k kr cl c1 c2 cr :
  length kl = length cl ->
  elements (Node l ty (kl ++ k :: kr) (cl ++ c1 :: c2 :: cr)) =
  left_part (map elements cl) kl ++ (elements c1 ++ k :: elements c2) ++ right_part kr (map elements cr).
Proof. intros. rewrite elements_mid by done. simpl. by rewrite right_part_cons, <-!app_assoc. Qed.

Lemma keys_sorted_node h n : node_ok t (S h) n -> sorted (elements n) -> sorted (key_vals n).
Proof. intros Hok. by apply (child_keys t (S h)). Qed.

Lemma move_left_ok h kl k kr cl c r cr key :
  let n := Node (Z.of_nat (S h)) FSM_INDEX_NODE (kl ++ k :: kr) (cl ++ c :: r :: cr) in
  node_ok t (S h) n -> length kl = length cl -> sorted (elements n) ->
  nr_active c = (t - 1)%nat -> (t - 1 < nr_active r)%nat ->
  below key kl -> above key (k :: kr) ->
  exists p, move_key n (length kl) LEFT = Ret p /\ refilled h n key p (length kl) false.
Proof using Ht.
  intros n Hok Hkl Hs Hnc Hnr Hb [Hk Ha]%above_cons.
  destruct (node_ok_view h kl (k :: kr) cl c (r :: cr) Hkl Hok) as (Hkr & Hcl & Hc & [Hr Hcr]%Forall_cons).
  unfold n in Hs. rewrite elements_mid2 in Hs by done. subst n.
  unfold move_key. cbn [children]. rewrite (lookup_middle (length kl)) by done.
  rewrite (cons_middle c), app_assoc, (lookup_middle (S (length kl))) by (rewrite length_app; simpl; lia).
  cbn [deref mbind outcome_bind key_vals level type]. rewrite total_lookup_middle by done.
  eexists. split; [done|].
  destruct (rotate_left_ok h c k r Hc Hr Hnc Hnr) as (Hc' & Hnc' & Hr' & Hel & Hin).
  set (c' := Node (level c) _ _ _) in *. set (r' := Node (level r) _ _ _) in *. set (x := key_vals r !!! O) in *.
  exists kl, (x :: kr), cl, c', (r' :: cr).
  rewrite <-app_assoc, insert_middle by done. simpl. rewrite insert_middle by done.
  rewrite (cons_middle c'), app_assoc, insert_middle by (rewrite length_app; simpl; lia).
  rewrite <-app_assoc. simpl. split; [done|]. split.
  { apply index_node; try done. by constructor. }
  split_and!; try done; [lia|lia| | |unfold nr_active; simpl; rewrite !length_app; simpl; lia].
  - apply above_cons. split; [|done]. eapply key_lt_trans; [done|].
    apply StronglySorted_app in Hs as (_ & _ & (_ & (_ & _ & _ & Har)%sorted_mid & _)%StronglySorted_app).
    by apply (proj1 (Forall_forall _ _) Har).
  - rewrite !elements_mid2 by done. by rewrite Hel.
Qed.

Lemma move_right_ok h kl k kr cl l c cr key :
  let n := Node (Z.of_nat (S h)) FSM_INDEX_NODE (kl ++ k :: kr) (cl ++ l :: c :: cr) in
  node_ok t (S h) n -> length kl = length cl -> sorted (elements n) ->
  nr_active c = (t - 1)%nat -> (t - 1 < nr_active l)%nat ->
  below key (kl ++ [k]) -> above key kr ->
  exists p, move_key n (S (length kl)) RIGHT = Ret p /\ refilled h n key p (S (length kl)) false.
Proof using Ht.
  intros n Hok Hkl Hs Hnc Hnl [Hb [Hk _]%below_cons]%below_app Ha.
  destruct (node_ok_view h kl (k :: kr) cl l (c :: cr) Hkl Hok) as (Hkr & Hcl & Hl & [Hc Hcr]%Forall_cons).
  unfold n in Hs. rewrite elements_mid2 in Hs by done. subst n.
  unfold move_key. cbn [children]. rewrite Nat.sub_succ, Nat.sub_0_r, (lookup_middle (length kl)) by done.
  rewrite (cons_middle l), app_assoc, (lookup_middle (S (length kl))) by (rewrite length_app; simpl; lia).
  cbn [deref mbind outcome_bind key_vals level type]. rewrite total_lookup_middle by done.
  eexists. split; [done|].
  destruct (rotate_right_ok h c k l Hl Hc Hnc Hnl) as (Hl' & Hc' & Hnc' & Hel & Hin).
  set (l' := Node (level l) _ _ _) in *. set (c' := Node (level c) _ _ _) in *. set (x := key_vals l !!! _) in *.
  exists (kl ++ [x]), kr, (cl ++ [l']), c', cr.
  rewrite <-app_assoc, insert_middle by done. simpl. rewrite insert_middle by done.
  rewrite (cons_middle l'), app_assoc, insert_middle by (rewrite length_app; simpl; lia).
  assert (kl ++ x :: kr = (kl ++ [x]) ++ kr) as Hx by (by rewrite <-app_assoc).
  split; [by rewrite Hx|]. split.
  { rewrite Hx. apply index_node; try done; [rewrite !length_app; simpl; lia| |]; [simpl in *; lia|].
    apply Forall_app. split; [done|]. by constructor. }
  split_and!; try done; rewrite ?length_app; simpl; try lia.
  - apply below_app. split; [done|]. apply below_cons. split; [|done]. eapply key_lt_trans; [|done].
    apply StronglySorted_app in Hs as (_ & _ & (_ & (_ & _ & Hbl & _)%sorted_mid & _)%StronglySorted_app).
    by apply (proj1 (Forall_forall _ _) Hbl).
  - rewrite <-app_assoc. simpl. rewrite !elements_mid2 by done. by rewrite Hel.
  - unfold nr_active. simpl. rewrite !length_app. simpl. lia.
Qed.

Lemma merge_siblings_ok h kl k kr cl n1 n2 cr i key m :
  let n := Node (Z.of_nat (S h)) FSM_INDEX_NODE (kl ++ k :: kr) (cl ++ n1 :: n2 :: cr) in
  node_ok t (S h) n -> length kl = length cl ->
  nr_active n1 = (t - 1)%nat -> nr_active n2 = (t - 1)%nat ->
  i = length kl \/ (i = S (length kl) /\ kr = []) -> below key kl -> above key kr ->
  exists r m', merge_siblings t n i m = Ret (r, m') /\ (m = [] -> m' = []) /\
    match r with
    | None => m <> []
    | Some (_, i', p) => refilled h n key p i' true
    end.
Proof using Ht.
  intros n Hok Hkl Hn1 Hn2 Hi Hb Ha.
  destruct (node_ok_view h kl (k :: kr) cl n1 (n2 :: cr) Hkl Hok) as (Hkr & Hcl & Hc1 & [Hc2 Hcr]%Forall_cons).
  unfold merge_siblings. replace (if decide (i = nr_active n) then (i - 1)%nat else i) with (length kl).
  2: { unfold n, nr_active. simpl. rewrite length_app. simpl. case_decide; destruct Hi as [->|[-> ->]]; simpl in *; lia. }
  subst n. cbn [children]. rewrite (lookup_middle (length kl)) by done.
  rewrite (cons_middle n1), app_assoc, (lookup_middle (S (length kl))) by (rewrite length_app; simpl; lia).
  cbn [deref mbind outcome_bind key_vals level type].
  destruct (allocate_btree_node_cases m) as (o & m' & -> & Hm & [->|[-> ?]]); eexists _, m'; (split; [done|]); [|done].
  split; [done|]. rewrite total_lookup_middle, (delete_middle kl) by done.
  destruct (merge_ok h n1 k n2 Hc1 Hc2 Hn1 Hn2) as (Hc & Hnc & Hel).
  rewrite (take_ge (key_vals n1)), (take_ge (key_vals n2)) by (unfold nr_active in *; lia).
  rewrite (take_ge (children n1)), (take_ge (children n2)).
  2, 3: rewrite children_length by (apply Hc1 || apply Hc2); lia.
  set (c := Node (level n1) _ _ _) in *.
  exists kl, kr, cl, c, cr. simpl.
  replace (<[length kl:=c]> (delete (S (length kl)) ((cl ++ [n1]) ++ n2 :: cr))) with (cl ++ c :: cr).
  2: { replace (S (length kl)) with (length (cl ++ [n1])) by (rewrite length_app; simpl; lia).
       rewrite delete_middle, <-app_assoc. simpl. by rewrite insert_middle. }
  split; [done|]. split.
  { apply index_node; try done. simpl in *; lia. }
  split_and!; try done; try lia.
  - rewrite <-app_assoc. simpl. rewrite elements_mid, elements_mid2, Hel by done. done.
  - unfold nr_active. simpl. rewrite !length_app. simpl. lia.
Qed.

Lemma refill_child_ok h kl kr cl c cr key m :
  let n := Node (Z.of_nat (S h)) FSM_INDEX_NODE (kl ++ kr) (cl ++ c :: cr) in
  node_ok t (S h) n -> length kl = length cl -> (1 <= nr_active n)%nat -> sorted (elements n) ->
  below key kl -> above key kr ->
  exists r m', refill_child t n (length kl) m = Ret (r, m') /\ (m = [] -> m' = []) /\
    match r with
    | None => m <> []
    | Some (p, i, b) => refilled h n key p i b
    end.
Proof using Ht.
  intros n Hok Hkl Hn Hs Hb Ha.
  destruct (node_ok_view h kl kr cl c cr Hkl Hok) as (Hkr & Hcl & Hc & Hcr).
  unfold refill_child. cbn [n children]. rewrite (lookup_middle (length kl)) by done.
  cbn [deref mbind outcome_bind].
  case_decide as Hmin.
  2: { eexists _, m. split; [done|]. split; [done|]. exists kl, kr, cl, c, cr. destruct Hc as [_ Hc].
       split_and!; try done; lia. }
  destruct kr as [|k kr], cr as [|r cr]; try done.
  - (* the last child: only a left sibling *)
    destruct kl as [|k kl _] using rev_ind; [unfold n, nr_active in Hn; simpl in Hn; lia|]. destruct cl as [|l cl _] using rev_ind.
    { rewrite length_app in Hkl. simpl in Hkl. lia. }
    assert (length kl = length cl) as Hkl' by (rewrite !length_app in Hkl; simpl in Hkl; lia).
    apply Forall_app in Hcl as [Hcl [Hl _]%Forall_cons].
    assert (n = Node (Z.of_nat (S h)) FSM_INDEX_NODE (kl ++ k :: []) (cl ++ l :: c :: [])) as Hn'.
    { unfold n. by rewrite <-!app_assoc. }
    rewrite length_app, Nat.add_1_r, <-!app_assoc. simpl. rewrite decide_True, lookup_middle
      by (done || unfold n, nr_active; simpl; rewrite !length_app; simpl; lia).
    clearbody n. subst n. apply below_app in Hb as Hb'. case_bool_decide.
    + edestruct move_right_ok as (p & -> & Hp); [eauto..|]. by eexists _, m.
    + rewrite bool_decide_true by (destruct Hl; lia). simpl.
      edestruct (merge_siblings_ok h kl k [] cl l c []) as (o & m' & -> & Hm & Ho); [eauto..| | | |]; try done.
      { destruct Hl; lia. }
      { by right. }
      { apply Hb'. }
      eexists _, m'. split; [done|]. split; [done|]. destruct o as [[[??]?]|]; done.
  - apply Forall_cons in Hcr as [Hr Hcr].
    rewrite decide_False by (unfold n, nr_active; simpl; rewrite !length_app; simpl; lia).
    rewrite (cons_middle c), app_assoc, (lookup_middle (S (length kl))), <-app_assoc
      by (rewrite length_app; simpl; lia). cbn [app].
    case_bool_decide.
    { edestruct move_left_ok as (p & Hp & Hp'); [eauto..|]. unfold n. rewrite Hp. by eexists _, m. }
    assert (exists r m', merge_siblings t n (length kl) m = Ret (r, m') /\ (m = [] -> m' = []) /\
      match r with None => m <> [] | Some (_, i', p) => refilled h n key p i' true end) as (o & m' & Ho & Hm & Ho').
    { apply above_cons in Ha as [_ Ha]. apply merge_siblings_ok; try done; [destruct Hr; lia | by left]. }
    rewrite Ho, (bool_decide_true (nr_active r = _)), orb_true_r by (destruct Hr; lia). cbn [mbind outcome_bind].
    assert (exists r0 m'0,
      Ret (match o with Some (_, i', parent') => Some (parent', i', true) | None => None end, m') = Ret (r0, m'0) /\
      (m = [] -> m'0 = []) /\ match r0 with Some (p, i, b) => refilled h n key p i b | None => m <> [] end) as Hmerge.
    { eexists _, m'. split; [done|]. split; [done|]. destruct o as [[[??]?]|]; done. }
    destruct kl as [|k0 kl _] using rev_ind; [done|]. destruct cl as [|l cl _] using rev_ind.
    { rewrite length_app in Hkl. simpl in Hkl. lia. }
    rewrite !length_app in Hkl. simpl in Hkl. apply Forall_app in Hcl as [Hcl [Hl _]%Forall_cons].
    rewrite length_app, Nat.add_1_r in *. rewrite <-!app_assoc in *. simpl in *.
    rewrite lookup_middle by lia. case_bool_decide; [|done].
    unfold n in *. rewrite <-!app_assoc in *. simpl in *.
    edestruct move_right_ok as (p & -> & Hp); [eauto..|]. 1: lia. all: try done. by eexists _, m.
Qed.

(** *** The descent *)

Definition remove (key : fsm_btree_key) (l : list fsm_btree_key) := filter (fun x => x <> key) l.

Lemma remove_app key l1 l2 : remove key (l1 ++ l2) = remove key l1 ++ remove key l2.
Proof. apply filter_app. Qed.

Lemma remove_not_elem key l : key ∉ l -> remove key l = l.
Proof.
  clear. induction l as [|x l IH]; [done|]. intros [? ?]%not_elem_of_cons. unfold remove.
  rewrite filter_cons_True by done. f_equal. by apply IH.
Qed.

Lemma remove_here key l : remove key (key :: l) = remove key l.
Proof. unfold remove. rewrite filter_cons_False; naive_solver. Qed.

Lemma remove_sorted key l : sorted l -> sorted (remove key l).
Proof.
  clear. induction l as [|x l IH]; [done|]. rewrite sorted_cons. intros [? Ha]. unfold remove.
  rewrite filter_cons. case_decide; [|by apply IH]. apply sorted_cons. split; [by apply IH|].
  apply Forall_forall. intros y [_ Hy]%list_elem_of_filter. by apply (proj1 (Forall_forall _ _) Ha).
Qed.

(** The effect of a deletion on the keys; a failed one may leave them in
    another order. *)
Definition del_outcome (key : fsm_btree_key) (l l' : list fsm_btree_key) (m m' : memory) (e : Z) : Prop :=
  (m = [] -> m' = []) /\
  (e = 0 /\ l' = remove key l \/ e = - ENOMEM /\ m <> [] /\ l' ≡ₚ l).

Lemma del_outcome_mid key L l R l' m m' m'' e :
  key ∉ L -> key ∉ R -> (m = [] -> m' = []) ->
  del_outcome key l l' m' m'' e -> del_outcome key (L ++ l ++ R) (L ++ l' ++ R) m m'' e.
Proof.
  clear. intros HL HR Hm [Hm' [[-> ->]|(-> & ? & Hp)]]; (split; [tauto|]); [left | right].
  - by rewrite !remove_app, (remove_not_elem _ L), (remove_not_elem _ R).
  - split; [done|]. split; [tauto|]. by rewrite Hp.
Qed.

Definition del_ok h (is_root : bool) key l m (r : outcome (Z * option vdfs2_fsm_btree_node * memory)) : Prop :=
  exists e o m', r = Ret (e, o, m') /\
    match o with
    | Some n' => exists h', node_ok t h' n' /\ (nr_active n' <= 2 * t - 1)%nat /\
        (if is_root then 1 <= nr_active n' else h' = h /\ t - 1 <= nr_active n')%nat /\
        del_outcome key l (elements n') m m' e
    | None => is_root = true /\ del_outcome key l [] m m' e
    end.

(** Going on in one child of a node: the rest of the node holds other keys. *)
Lemma del_descend h (is_root : bool) key kl kr cl c cr l m m1 r :
  let n := Node (Z.of_nat (S h)) FSM_INDEX_NODE (kl ++ kr) (cl ++ c :: cr) in
  node_ok t (S h) n -> length kl = length cl ->
  ((if is_root then 1 else t - 1) <= nr_active n <= 2 * t - 1)%nat ->
  (m = [] -> m1 = []) ->
  (forall L R l' m' e, L = left_part (map elements cl) kl -> R = right_part kr (map elements cr) ->
    del_outcome key (elements c) l' m1 m' e -> del_outcome key l (L ++ l' ++ R) m m' e) ->
  del_ok h false key (elements c) m1 r ->
  del_ok (S h) is_root key l m
    ('(ret, child', m') ← r; child' ← deref child'; Ret (ret, Some (set_child n (length kl) child'), m')).
Proof.
  intros n Hok Hkl Hn Hm Hl (e & o & m' & -> & Ho). destruct o as [c'|]; [|naive_solver].
  destruct Ho as (h' & Hc' & Hle & [-> Hge] & Ho). simpl.
  destruct (node_ok_view h kl kr cl c cr Hkl Hok) as (Hkr & Hcl & Hc & Hcr).
  destruct (set_child_ok h n kl kr cl c cr c' eq_refl Hkl Hkr Hcl) as (Heq & Hset & Hnr & Hel); [done..|].
  eexists e, _, m'. split; [done|]. exists (S h). split; [done|]. rewrite Hnr. split; [lia|].
  split; [destruct is_root; lia|]. rewrite Hel. by apply Hl.
Qed.

Lemma lower_bound_cases key ks :
  sorted ks ->
  (exists l1 l2, ks = l1 ++ key :: l2 /\ lower_bound key ks = length l1 /\
    bool_decide (lower_bound key ks < length ks)%nat
      && (fsm_btree_cmp_fn key (ks !!! lower_bound key ks) =? 0) = true) \/
  (exists l1 l2, ks = l1 ++ l2 /\ lower_bound key ks = length l1 /\ below key l1 /\ above key l2 /\
    bool_decide (lower_bound key ks < length ks)%nat
      && (fsm_btree_cmp_fn key (ks !!! lower_bound key ks) =? 0) = false).
Proof.
  clear. intros Hs. destruct (lower_bound_ok key ks Hs) as (l1 & l2 & -> & <- & Hb & Hc).
  destruct l2 as [|x l2].
  - right. exists l1, []. rewrite bool_decide_false by (rewrite length_app; simpl; lia). done.
  - rewrite bool_decide_true, total_lookup_middle by (done || rewrite length_app; simpl; lia).
    destruct Hc as [[->|Hx] Ha]; [left | right].
    + exists l1, l2. split_and!; try done. cmp_case key key; [done|by destruct (key_lt_irrefl key)..].
    + exists l1, (x :: l2). split_and!; try done.
      * apply above_cons. split; [done|]. by eapply above_trans.
      * cmp_case key x; [|done..]. subst. by destruct (key_lt_irrefl x).
Qed.

Lemma sorted_not_elem l1 k l2 : sorted (l1 ++ k :: l2) -> k ∉ l1 /\ k ∉ l2.
Proof.
  intros (_ & _ & ? & ?)%sorted_mid. split; [by apply below_not_elem | by apply above_not_elem].
Qed.

Lemma del_outcome_pred key k L A R l' m m1 m' e :
  sorted (L ++ (A ++ [k]) ++ key :: R) -> (m = [] -> m1 = []) ->
  del_outcome key (A ++ [key]) l' m1 m' e ->
  del_outcome key (L ++ (A ++ [k]) ++ key :: R) (L ++ l' ++ k :: R) m m' e.
Proof.
  clear. intros Hs Hm Hd. rewrite app_assoc in Hs. apply sorted_not_elem in Hs as [H1 H2].
  destruct Hd as [Hm' [[-> ->]|(-> & ? & Hp)]]; (split; [tauto|]); [left | right].
  - split; [done|]. rewrite !remove_app, !remove_here, (remove_not_elem _ L), (remove_not_elem _ A),
      (remove_not_elem _ [k]), (remove_not_elem _ R) by set_solver.
    simpl. by rewrite app_nil_r, <-!app_assoc.
  - split; [done|]. split; [tauto|]. rewrite Hp. solve_Permutation.
Qed.

Lemma del_outcome_succ key k L A R l' m m1 m' e :
  sorted (L ++ key :: k :: A ++ R) -> (m = [] -> m1 = []) ->
  del_outcome key (key :: A) l' m1 m' e ->
  del_outcome key (L ++ key :: k :: A ++ R) ((L ++ [k]) ++ l' ++ R) m m' e.
Proof.
  clear. intros Hs Hm Hd. apply sorted_not_elem in Hs as [H1 H2].
  destruct Hd as [Hm' [[-> ->]|(-> & ? & Hp)]]; (split; [tauto|]); [left | right].
  - split; [done|]. change (key :: k :: A ++ R) with ([key] ++ [k] ++ A ++ R).
    rewrite !remove_app, !remove_here, (remove_not_elem _ L), (remove_not_elem _ A),
      (remove_not_elem _ [k]), (remove_not_elem _ R) by set_solver.
    simpl. by rewrite <-!app_assoc.
  - split; [done|]. split; [tauto|]. rewrite Hp. solve_Permutation.
Qed.

Lemma del_ok_root h h' key l m m1 r :
  (m = [] -> m1 = []) -> del_ok h' true key l m1 r -> del_ok h true key l m r.
Proof.
  clear. intros Hm (e & o & m' & -> & Ho). exists e, o, m'. split; [done|].
  assert (forall l', del_outcome key l l' m1 m' e -> del_outcome key l l' m m' e) as Hd.
  { intros l' [? Hd]. split; [tauto|]. naive_solver. }
  destruct o; naive_solver.
Qed.

Lemma root_of_merge_ok h n : node_ok t h n -> root_of_merge n = n.
Proof.
  destruct n as [lv ty ks cs]. unfold root_of_merge. destruct h as [|h]; simpl.
  - by intros (-> & -> & _).
  - by intros (-> & -> & _).
Qed.

(** The three descents of [delete_loop], for a recursive call [r] on the child. *)
Definition loop_ok fuel : Prop := forall h (is_root : bool) n key m,
  (h < fuel)%nat -> node_ok t h n ->
  ((if is_root then 1 else t) <= nr_active n <= 2 * t - 1)%nat -> sorted (elements n) ->
  del_ok h is_root key (elements n) m (delete_loop fuel t is_root n key m).

Lemma delete_leaf_ok fuel (is_root : bool) ks key m :
  ((if is_root then 1 else t) <= length ks <= 2 * t - 1)%nat -> sorted ks ->
  del_ok 0 is_root key ks m (delete_loop (S fuel) t is_root (Node 0 FSM_LEAF_NODE ks []) key m).
Proof using Ht.
  intros Hn Hs. cbn [delete_loop key_vals]. unfold nr_active. cbn [key_vals].
  rewrite decide_False by (destruct is_root; lia).
  destruct (lower_bound_cases key ks Hs) as [(l1 & l2 & -> & Hlb & ->)|(l1 & l2 & -> & Hlb & Hb & Ha & ->)]; cbn [type].
  - assert (bool_decide (t - 1 < length (l1 ++ key :: l2))%nat || is_root = true) as ->.
    { destruct is_root; [by rewrite orb_true_r|]. rewrite bool_decide_true; [done|lia]. }
    unfold remove_key_from_leaf, set_keys, nr_active. cbn [type key_vals level children].
    rewrite Hlb, delete_middle. apply sorted_not_elem in Hs as [H1 H2].
    assert (remove key (l1 ++ key :: l2) = l1 ++ l2) as Hr.
    { by rewrite remove_app, remove_here, !remove_not_elem. }
    rewrite length_app in Hn. simpl in Hn. case_decide as Hz; eexists _, _, m; (split; [done|]).
    + split; [destruct is_root; [done | rewrite length_app in Hz; lia]|]. split; [done|]. left.
      split; [done|]. rewrite Hr. by destruct (l1 ++ l2).
    + exists O. unfold nr_active. rewrite elements_leaf. simpl. rewrite length_app in *.
      split; [done|]. split; [lia|]. split; [destruct is_root; lia|]. split; [done|]. by left.
  - eexists _, _, m. split; [done|]. exists O. unfold nr_active. rewrite elements_leaf. simpl.
    split; [done|]. split; [lia|]. split; [destruct is_root; lia|]. split; [done|]. left.
    split; [done|]. rewrite remove_app, !remove_not_elem; [done | by apply above_not_elem | by apply below_not_elem].
Qed.

Lemma delete_found_ok fuel h (is_root : bool) kl kr cl n1 n2 cr key m :
  let n := Node (Z.of_nat (S h)) FSM_INDEX_NODE (kl ++ key :: kr) (cl ++ n1 :: n2 :: cr) in
  loop_ok fuel -> (h < fuel)%nat -> node_ok t (S h) n -> length kl = length cl ->
  ((if is_root then 1 else t) <= nr_active n <= 2 * t - 1)%nat -> sorted (elements n) ->
  lower_bound key (kl ++ key :: kr) = length kl ->
  bool_decide (length kl < nr_active n)%nat
      && (fsm_btree_cmp_fn key ((kl ++ key :: kr) !!! length kl) =? 0) = true ->
  del_ok (S h) is_root key (elements n) m (delete_loop (S fuel) t is_root n key m).
Proof using Ht.
  intros n IH Hf Hok Hkl Hn Hs Hlb Hfound.
  destruct (node_ok_view h kl (key :: kr) cl n1 (n2 :: cr) Hkl Hok) as (Hkr & Hcl & Hn1 & [Hn2 Hcr]%Forall_cons).
  assert (nr_active n = S (length (kl ++ kr))) as Hnr.
  { unfold n, nr_active. simpl. rewrite !length_app. simpl. lia. }
  cbn [delete_loop n key_vals type children]. rewrite decide_False by (fold n; destruct is_root; lia).
  rewrite Hlb, Hfound.
  rewrite (lookup_middle (length kl)) by done.
  rewrite (cons_middle n1), app_assoc, (lookup_middle (S (length kl))), <-app_assoc by (rewrite length_app; simpl; lia).
  cbn [deref mbind outcome_bind app]. rewrite total_lookup_middle by done.
  assert (sorted (elements n1) /\ sorted (elements n2)) as [Hs1 Hs2].
  { unfold n in Hs. rewrite elements_mid2 in Hs by done.
    by apply StronglySorted_app in Hs as (_ & _ & (_ & (? & ? & _)%sorted_mid & _)%StronglySorted_app). }
  clear Hlb Hfound. case_decide as Hc1.
  { destruct (get_max_key_pos_ok h (depth n1) n1 key) as (k & n1' & A & -> & Hok' & Hnr' & He & He').
    { rewrite (depth_ok t h); [lia | apply Hn1]. } { apply Hn1. } { lia. }
    cbn [mbind outcome_bind].
    assert (set_child (set_key n (length kl) k) (length kl) n1' =
      Node (Z.of_nat (S h)) FSM_INDEX_NODE (kl ++ k :: kr) (cl ++ n1' :: n2 :: cr)) as Hset.
    { unfold set_child, set_key, set_keys, set_children, n. simpl. by rewrite !insert_middle. }
    rewrite Hset. cbn [children]. rewrite lookup_middle by done. cbn [deref mbind outcome_bind].
    apply (del_descend h is_root key kl (k :: kr) cl n1' (n2 :: cr) _ m m); try done.
    - apply index_node; try done; [|by constructor]. split; [done|]. rewrite Hnr'. apply Hn1.
    - unfold n, nr_active in Hn. simpl in Hn. rewrite !length_app in Hn. simpl in Hn.
      unfold nr_active. simpl. rewrite !length_app. simpl. destruct is_root; lia.
    - intros L R l' m' e -> -> Hd. simpl. rewrite right_part_cons. unfold n in *. rewrite elements_mid2 in * by done.
      rewrite He in *. rewrite He' in Hd.
      pose proof (del_outcome_pred key k (left_part (map elements cl) kl) A
        (elements n2 ++ right_part kr (map elements cr)) l' m m m' e) as Hpred.
      rewrite <-!app_assoc in *. simpl in *. apply Hpred; done.
    - apply IH; [done|done|rewrite Hnr'; destruct Hn1; lia|]. rewrite He'. unfold n in Hs.
      rewrite elements_mid2, He in Hs by done.
      apply StronglySorted_app in Hs as (_ & _ & (_ & (HA & _ & HbA & _)%sorted_mid & _)%StronglySorted_app).
      apply sorted_mid. apply StronglySorted_app in HA as (_ & HA & _).
      split_and!; [done|constructor|by apply below_app in HbA as [? _]|done]. }
  case_decide as Hc2.
  { destruct (get_min_key_pos_ok h (depth n2) n2 key) as (k & n2' & A & -> & Hok' & Hnr' & He & He').
    { rewrite (depth_ok t h); [lia | apply Hn2]. } { apply Hn2. } { lia. }
    cbn [mbind outcome_bind].
    assert (set_child (set_key n (length kl) k) (S (length kl)) n2' =
      Node (Z.of_nat (S h)) FSM_INDEX_NODE ((kl ++ [k]) ++ kr) ((cl ++ [n1]) ++ n2' :: cr)) as Hset.
    { unfold set_child, set_key, set_keys, set_children, n. simpl.
      rewrite insert_middle, (cons_middle n1), app_assoc, insert_middle by (rewrite ?length_app; simpl; lia).
      by rewrite <-!app_assoc. }
    rewrite Hset. cbn [children]. rewrite lookup_middle by (rewrite length_app; simpl; lia).
    cbn [deref mbind outcome_bind].
    replace (S (length kl)) with (length (kl ++ [k])) by (rewrite length_app; simpl; lia).
    apply (del_descend h is_root key (kl ++ [k]) kr (cl ++ [n1]) n2' cr _ m m); try done.
    - apply index_node; try done.
      + rewrite !length_app. simpl. lia.
      + simpl in Hkr. lia.
      + apply Forall_app. split; [done|]. by constructor.
      + split; [done|]. rewrite Hnr'. apply Hn2.
    - rewrite !length_app. simpl. lia.
    - unfold n, nr_active in Hn. simpl in Hn. rewrite !length_app in Hn. simpl in Hn.
      unfold nr_active. simpl. rewrite !length_app. simpl. destruct is_root; lia.
    - intros L R l' m' e -> -> Hd. rewrite map_app. simpl. rewrite left_part_snoc by (by rewrite length_map).
      unfold n in *. rewrite elements_mid2 in * by done. rewrite He in *. rewrite He' in Hd.
      pose proof (del_outcome_succ key k (left_part (map elements cl) kl ++ elements n1) A
        (right_part kr (map elements cr)) l' m m m' e) as Hsucc.
      rewrite <-!app_assoc in *. simpl in *. apply Hsucc; done.
    - apply IH; [done|done|rewrite Hnr'; destruct Hn2; lia|]. rewrite He'. unfold n in Hs.
      rewrite elements_mid2, He in Hs by done.
      apply StronglySorted_app in Hs as (_ & _ & (_ & (_ & HA & _ & HaA)%sorted_mid & _)%StronglySorted_app).
      apply sorted_cons. apply sorted_cons in HA as [HA _]. apply above_cons in HaA as [_ ?]. done. }
  destruct Hn1 as [Hn1 Hb1], Hn2 as [Hn2 Hb2].
  rewrite !bool_decide_true by lia. cbn [andb].
  unfold merge_nodes.
  destruct (allocate_btree_node_cases m) as (o & m1 & -> & Hm & [->|[-> ?]]).
  2: { eexists _, _, m1. split; [done|]. exists (S h). split; [done|]. split; [lia|].
       split; [destruct is_root; [lia | split; lia]|]. split; [done|]. by right. }
  destruct (merge_ok h n1 key n2) as (Hc & Hnc & Hel); try done; try lia.
  set (comb := Node (level n1) _ _ _) in *.
  cbn [n level type]. rewrite delete_middle.
  replace (<[length kl:=comb]> (delete (S (length kl)) (cl ++ n1 :: n2 :: cr))) with (cl ++ comb :: cr).
  2: { rewrite (cons_middle n1), app_assoc.
       replace (S (length kl)) with (length (cl ++ [n1])) by (rewrite length_app; simpl; lia).
       rewrite delete_middle, <-app_assoc. simpl. by rewrite insert_middle. }
  assert (elements n = left_part (map elements cl) kl ++ elements comb ++ right_part kr (map elements cr)) as Heln.
  { unfold n. by rewrite elements_mid2, <-Hel by done. }
  assert (sorted (elements comb)) as Hsc.
  { rewrite Heln in Hs. by apply StronglySorted_app in Hs as (_ & _ & (_ & ? & _)%StronglySorted_app). }
  unfold nr_active at 1. cbn [key_vals children]. rewrite lookup_middle by done. cbn [deref mbind outcome_bind].
  destruct (bool_decide (length (kl ++ kr) = 0%nat) && is_root) eqn:Hroot.
  - apply andb_true_iff in Hroot as [Hz%bool_decide_eq_true ->]. rewrite length_app in Hz.
    destruct kl, kr, cl, cr; simpl in *; try done; try lia.
    rewrite Heln. unfold left_part, right_part. simpl. rewrite app_nil_r.
    apply (del_ok_root _ h _ _ _ m1); [done|]. apply IH; [done|apply Hc|lia|done].
  - assert ((if is_root then 1 else t - 1) <= length (kl ++ kr) <= 2 * t - 1)%nat as Hnn.
    { apply andb_false_iff in Hroot as [?%bool_decide_eq_false|?]; destruct is_root; try done; lia. }
    eapply (del_descend h is_root key kl kr cl comb cr _ m m1); try done.
    + apply index_node; try done. simpl in Hkr. lia.
    + intros L R l' m' e -> -> Hd. rewrite Heln. unfold n in Hs. rewrite elements_mid2, <-Hel in Hs by done.
      rewrite Hel, <-app_assoc, app_assoc in Hs. apply sorted_not_elem in Hs as [H1 H2].
      eapply del_outcome_mid; [set_solver..|done|done].
    + apply IH; [done|apply Hc|lia|done].
Qed.

Lemma delete_missing_ok fuel h (is_root : bool) kl kr cl c cr key m :
  let n := Node (Z.of_nat (S h)) FSM_INDEX_NODE (kl ++ kr) (cl ++ c :: cr) in
  loop_ok fuel -> (h < fuel)%nat -> node_ok t (S h) n -> length kl = length cl ->
  ((if is_root then 1 else t) <= nr_active n <= 2 * t - 1)%nat -> sorted (elements n) ->
  below key kl -> above key kr ->
  lower_bound key (kl ++ kr) = length kl ->
  bool_decide (length kl < nr_active n)%nat
      && (fsm_btree_cmp_fn key ((kl ++ kr) !!! length kl) =? 0) = false ->
  del_ok (S h) is_root key (elements n) m (delete_loop (S fuel) t is_root n key m).
Proof using Ht.
  intros n IH Hf Hok Hkl Hn Hs Hb Ha Hlb Hmiss.
  cbn [delete_loop n key_vals type children]. rewrite decide_False by (fold n; destruct is_root; lia).
  rewrite Hlb, Hmiss. clear Hlb Hmiss.
  destruct (refill_child_ok h kl kr cl c cr key m Hok Hkl) as (r & m1 & Hr & Hm & Href);
    [destruct is_root; fold n; lia|done..|].
  fold n in Hr. rewrite Hr. cbn [mbind outcome_bind].
  destruct r as [[[p i] b]|].
  2: { eexists _, _, m1. split; [done|]. exists (S h). split; [done|]. split; [lia|].
       split; [destruct is_root; [lia | split; lia]|]. split; [done|]. by right. }
  destruct Href as (kl' & kr' & cl' & c' & cr' & -> & Hok' & <- & Hcl' & Hc' & Hb' & Ha' & Hel & Hnr).
  destruct (node_ok_view h kl' kr' cl' c' cr' (eq_sym Hcl') Hok') as (Hkr & Hcl & Hcok & Hcr).
  fold n in Hel, Hnr. rewrite <-Hel in *. clear Hel. 
  destruct (place_parts t key kl' kr' cl' c' cr' h Hok' (eq_sym Hcl') Hs Hb' Ha') as (HbL & HaR & Hsc).
  cbn [children]. rewrite lookup_middle by done. cbn [deref mbind outcome_bind].
  rewrite <-andb_assoc.
  destruct (b && _) eqn:Hroot.
  - apply andb_true_iff in Hroot as [-> [Hz%bool_decide_eq_true ->]%andb_true_iff].
    unfold nr_active in Hz. simpl in Hz. rewrite length_app in Hz.
    destruct kl', kr', cl', cr'; simpl in Hz, Hcl', Hkr; try done; try lia.
    rewrite (root_of_merge_ok h) by apply Hcok.
    rewrite (elements_mid _ _ [] [] [] c' []) by done. unfold left_part, right_part. simpl. rewrite app_nil_r.
    apply (del_ok_root _ h _ _ _ m1); [done|]. apply IH; [done|apply Hcok|lia|done].
  - eapply (del_descend h is_root key kl' kr' cl' c' cr' _ m m1); try done.
    + destruct b, is_root; simpl in Hroot; try lia.
      apply andb_false_iff in Hroot as [?%bool_decide_eq_false|?]; [lia|done].
    + intros L R l' m' e -> -> Hd. rewrite elements_mid by done.
      eapply del_outcome_mid; [by apply below_not_elem|by apply above_not_elem|done|done].
    + apply IH; [done|apply Hcok|lia|done].
Qed.

Lemma delete_loop_ok fuel : loop_ok fuel.
Proof using Ht.
  induction fuel as [|fuel IH]; intros [|h] is_root n key m Hf Hok Hn Hs; [lia|lia| |].
  - destruct n as [lv ty ks cs], Hok as (Hl & Hty & Hc). simpl in Hl, Hty, Hc. subst.
    rewrite elements_leaf in *. by apply delete_leaf_ok.
  - pose proof (keys_sorted_node h n Hok Hs) as Hks.
    destruct (index_view t h n (lower_bound key (key_vals n)) Hok)
      as (kl & kr & cl & c & cr & -> & Hkl & Hcl & Hkr & _).
    { destruct (lower_bound_ok key _ Hks) as (l1 & l2 & Hl & <- & _). unfold nr_active.
      rewrite Hl, length_app. lia. }
    cbn [key_vals] in *.
    destruct (lower_bound_cases key _ Hks) as [(l1 & l2 & Heq & Hlb & Ht1)|(l1 & l2 & Heq & Hlb & Hb & Ha & Ht1)];
      rewrite Hlb in Ht1, Hkl; apply app_inj_1 in Heq as [-> ->]; try done.
    + destruct cr as [|c2 cr]; [done|].
      apply delete_found_ok; try done; lia.
    + apply delete_missing_ok; try done; lia.
Qed.

Lemma fsm_btree_delete_ok b key m :
  wf t b -> rooted b ->
  exists e b' m', fsm_btree_delete b key m = Ret (e, b', m') /\ rooted b' /\
    del_outcome key (tree_elements b) (tree_elements b') m m' e /\ (e = 0 -> wf t b').
Proof using Ht.
  intros [Ho Hr] Hroot. unfold fsm_btree_delete, rooted, tree_elements in *.
  destruct (root b) as [| |n] eqn:Hb; [|done|].
  { eexists _, b, m. rewrite Hb. split; [done|]. split; [done|]. split; [split; [done|by left]|]. intros _. split; [done|by rewrite Hb]. }
  destruct Hr as (h & Hok & Hn & Hs). rewrite Ho.
  destruct (delete_loop_ok (S (depth n)) h true n key m) as (e & o & m' & -> & Hres); try done.
  { rewrite (depth_ok t h n Hok). lia. }
  cbn [mbind outcome_bind]. eexists e, _, m'. split; [done|]. cbn [root set_root].
  destruct o as [n'|].
  - destruct Hres as (h' & Hok' & Hle & Hge & Hd). split; [done|]. split; [done|].
    intros ->. split; [done|]. exists h'. split; [done|]. split; [done|].
    destruct Hd as [_ [[_ ->]|[? _]]]; [by apply remove_sorted | done].
  - destruct Hres as [_ Hd]. done.
Qed.
End delete.
