(* ===== verification/FsmTreeSpec.v ===== *)
(** * The free-space B-tree as a set of blocks: freeing, taking, destroying *)
From Stdlib Require Import ZArith Lia.
From stdpp Require Import base numbers list sorting sets.
From S2P Require Import Prelude FsmTree FsmTreeFacts FsmTreeDelete.

(** ** Lists of extents *)

Definition key_end (k : fsm_btree_key) : Z := block_offset k + block_length k.

Definition valid (k : fsm_btree_key) : Prop :=
  0 < block_offset k /\ 0 < block_length k /\ key_end k < 2 ^ 64.

(** Disjoint extents from left to right. *)
Fixpoint extents_ok (l : list fsm_btree_key) : Prop :=
  match l with
  | [] => True
  | k :: l => valid k /\ Forall (fun x => key_end k <= block_offset x) l /\ extents_ok l
  end.

(** Block [b] belongs to one of the extents. *)
Definition covers (l : list fsm_btree_key) (b : Z) : Prop :=
  exists k, k ∈ l /\ block_offset k <= b < key_end k.

Lemma extents_ok_app l1 l2 :
  extents_ok (l1 ++ l2) <->
  extents_ok l1 /\ extents_ok l2 /\
  forall x y, x ∈ l1 -> y ∈ l2 -> key_end x <= block_offset y.
Proof.
  induction l1 as [|k l1 IH]; simpl; [set_solver|].
  rewrite IH, Forall_app, !Forall_forall. split.
  - intros (? & [H1 H2] & ? & ? & H3). split_and!; try done.
    intros x y [->|Hx]%elem_of_cons Hy; [by apply H2 | by apply H3].
  - intros ((? & ? & ?) & ? & Hxy). split_and!; try done.
    + intros y Hy. apply Hxy; [left|done].
    + intros x y Hx Hy. apply Hxy; [by right|done].
Qed.

Lemma extents_ok_mid l1 k l2 :
  extents_ok (l1 ++ k :: l2) <->
  extents_ok (l1 ++ l2) /\ valid k /\
  Forall (fun x => key_end x <= block_offset k) l1 /\ Forall (fun x => key_end k <= block_offset x) l2.
Proof.
  rewrite !extents_ok_app. simpl. rewrite !Forall_forall. split.
  - intros (? & (? & ? & ?) & Hxy). split_and!; try done.
    + intros x y Hx Hy. apply Hxy; [done|by right].
    + intros x Hx. apply Hxy; [done|left].
  - intros ((? & ? & Hxy) & ? & ? & ?). split_and!; try done.
    intros x y Hx [->|Hy]%elem_of_cons; [auto | by apply Hxy].
Qed.

Lemma extents_ok_valid l k : extents_ok l -> k ∈ l -> valid k.
Proof. intros Hl (l1 & l2 & ->)%list_elem_of_split. by apply extents_ok_mid in Hl as (_ & ? & _). Qed.

Lemma extents_ok_sorted l : extents_ok l -> sorted l.
Proof.
  induction l as [|k l IH]; intros H; [constructor|]. destruct H as (Hv & Hf & Hl).
  apply sorted_cons. split; [by apply IH|]. eapply Forall_impl; [exact Hf|]. unfold valid, key_end, key_lt in *.
  simpl. lia.
Qed.

Lemma covers_app l1 l2 b : covers (l1 ++ l2) b <-> covers l1 b \/ covers l2 b.
Proof. unfold covers. set_solver. Qed.
Lemma covers_cons k l b : covers (k :: l) b <-> block_offset k <= b < key_end k \/ covers l b.
Proof. unfold covers. set_solver. Qed.
Lemma covers_nil b : ~ covers [] b.
Proof. unfold covers. set_solver. Qed.

Lemma covers_elem l k b : k ∈ l -> block_offset k <= b < key_end k -> covers l b.
Proof. by exists k. Qed.

(** No block of the extent [off, off + len) belongs to the list. *)
Definition apart (l : list fsm_btree_key) (off len : Z) : Prop :=
  forall b, off <= b < off + len -> ~ covers l b.

Lemma apart_split l off len k :
  apart l off len -> 0 < len -> k ∈ l -> valid k -> key_end k <= off \/ off + len <= block_offset k.
Proof.
  unfold valid. intros Ha Hlen Hk Hv.
  destruct (decide (key_end k <= off)); [by left|]. right.
  destruct (decide (off + len <= block_offset k)); [done|].
  destruct (Ha (Z.max off (block_offset k))); [unfold key_end in *; lia|].
  apply (covers_elem l k); [done|]. unfold key_end in *. lia.
Qed.

(** Inserting an extent apart from the others. *)
Lemma ins_spec_extents l l' off len :
  extents_ok l -> valid (Key off len) -> apart l off len -> ins_spec (Key off len) l l' ->
  extents_ok l' /\ forall b, covers l' b <-> covers l b \/ off <= b < off + len.
Proof.
  intros Hl Hv Ha (l1 & l2 & -> & -> & Hb & Hab). split.
  - apply extents_ok_mid. split; [done|]. split; [done|].
    apply extents_ok_app in Hl as (H1 & H2 & _).
    assert (0 < len) by apply Hv.
    split; apply Forall_forall; intros x Hx; simpl.
    + assert (valid x) as Hvx by (by apply (extents_ok_valid l1)).
      destruct (apart_split _ _ _ x Ha) as [?|?]; try done; [set_solver|].
      pose proof (proj1 (Forall_forall _ _) Hb x Hx) as Hlt. unfold key_lt, valid, key_end in *. simpl in *. lia.
    + assert (valid x) as Hvx by (by apply (extents_ok_valid l2)).
      destruct (apart_split _ _ _ x Ha) as [?|?]; try done; [set_solver|].
      pose proof (proj1 (Forall_forall _ _) Hab x Hx) as Hlt. unfold key_lt, valid, key_end in *. simpl in *. lia.
  - intros b. rewrite !covers_app, covers_cons. unfold key_end. simpl. tauto.
Qed.

Lemma apart_not_elem l off len len' : apart l off len -> 0 < len -> 0 < len' -> Key off len' ∉ l.
Proof.
  intros Ha ? ? Hk. apply (Ha off); [lia|]. apply (covers_elem _ _ _ Hk). unfold key_end. simpl. lia.
Qed.

Lemma remove_elem_view k l1 l2 :
  extents_ok (l1 ++ k :: l2) -> remove k (l1 ++ k :: l2) = l1 ++ l2.
Proof.
  intros Hl. apply extents_ok_sorted, sorted_not_elem in Hl as [??].
  by rewrite remove_app, remove_here, !remove_not_elem.
Qed.

(** ** Freeing an extent *)

Section spec.
Context (t : nat) (Ht : (2 <= t)%nat).

Lemma right_part_elem x ks es : length ks = length es -> x ∈ ks -> x ∈ right_part ks es.
Proof.
  clear. revert es. induction ks as [|k ks IH]; intros [|e es] Hl Hx; simplify_eq/=; [set_solver..|].
  rewrite right_part_cons. apply elem_of_cons in Hx as [->|Hx]; [left|].
  right. apply elem_of_app. right. by apply IH.
Qed.

(** One key of a node among the keys of its subtree. *)
Lemma set_key_view h n i k :
  node_ok t h n -> key_vals n !! i = Some k ->
  exists A B, elements n = A ++ k :: B /\ (forall x, x ∈ drop (S i) (key_vals n) -> x ∈ B) /\
    forall k', node_ok t h (set_key n i k') /\ nr_active (set_key n i k') = nr_active n /\
      elements (set_key n i k') = A ++ k' :: B.
Proof.
  intros Hok Hk. destruct n as [lv ty ks cs]. unfold set_key, set_keys, nr_active. simpl in *.
  apply list_elem_of_split_length in Hk as (kl & kr & -> & ->). rewrite drop_S_middle by done.
  destruct h as [|h].
  - destruct Hok as (Hl & Hty & Hc). simpl in *. subst. exists kl, kr. rewrite elements_leaf.
    split; [done|]. split; [done|]. intros k'. rewrite elements_leaf, insert_middle, !length_app by done. done.
  - simpl in Hok. destruct Hok as (-> & -> & Hlen & Hall). unfold nr_active in Hlen. simpl in *. rewrite length_app in Hlen. simpl in Hlen.
    destruct (split_at_S cs (length kl)) as (cl & c & cr & -> & Hcl); [lia|]. rewrite length_app in Hlen. simpl in Hlen.
    destruct cr as [|c2 cr]; [simpl in *; lia|]. simpl in Hlen.
    exists (left_part (map elements cl) kl ++ elements c), (elements c2 ++ right_part kr (map elements cr)).
    rewrite elements_mid2, <-!app_assoc by done. split; [done|]. split.
    { intros x Hx. apply elem_of_app. right. apply right_part_elem; [rewrite length_map; lia | done]. }
    intros k'. rewrite insert_middle, elements_mid2, <-!app_assoc by done. split; [|by rewrite !length_app].
    split_and!; try done. unfold nr_active. simpl. rewrite !length_app. simpl. lia.
Qed.

Definition scan_ok h n off len (a : free_action) : Prop :=
  match a with
  | FREE_GROWN n' nx => exists A k B, elements n = A ++ k :: B /\ off = u64 (key_end k) /\
      node_ok t h n' /\ nr_active n' = nr_active n /\
      let len1 := u64 (block_length k + len) in
      match nx with
      | None => elements n' = A ++ Key (block_offset k) len1 :: B
      | Some y => y ∈ B /\ block_offset y = u64 (block_offset k + len1) /\
          elements n' = A ++ Key (block_offset k) (u64 (len1 + block_length y)) :: B
      end
  | FREE_JOIN k => k ∈ elements n /\ u64 (off + len) = block_offset k
  | FREE_NONE => True
  end.

Lemma free_scan_keys_ok ks off len :
  match free_scan_keys ks off len with
  | Some (i, true) => exists k, ks !! i = Some k /\ off = u64 (key_end k)
  | Some (i, false) => exists k, ks !! i = Some k /\ u64 (off + len) = block_offset k
  | None => True
  end.
Proof.
  induction ks as [|k ks IH]; simpl; [done|]. destruct (Z.eqb_spec off (u64 (block_offset k + block_length k))).
  { by exists k. }
  destruct (Z.eqb_spec (u64 (off + len)) (block_offset k)); [by exists k|].
  destruct (free_scan_keys ks off len) as [[i []]|]; naive_solver.
Qed.

Lemma lookup_total_of {A} `{!Inhabited A} (l : list A) i x : l !! i = Some x -> l !!! i = x.
Proof. apply list_lookup_total_correct. Qed.

Lemma free_scan_ok fuel h n off len :
  (h < fuel)%nat -> node_ok t h n ->
  exists a, free_scan fuel n off len = Ret a /\ scan_ok h n off len a.
Proof.
  revert h n. induction fuel as [|fuel IH]; intros h n Hf Hok; [lia|]. simpl.
  pose proof (free_scan_keys_ok (key_vals n) off len) as Hk.
  destruct (free_scan_keys (key_vals n) off len) as [[i []]|].
  - destruct Hk as (k & Hk & Hoff). rewrite (lookup_total_of _ _ _ Hk).
    destruct (set_key_view h n i k Hok Hk) as (A & B & He & Hin & Hset).
    destruct (key_vals n !! S i) as [y|] eqn:Hy.
    + simpl. case_match eqn:Hadj; eexists; (split; [done|]); exists A, k, B.
      * destruct (Hset (Key (block_offset k) (u64 (u64 (block_length k + len) + block_length y)))) as (? & ? & ?).
        cbv zeta; split_and!; try done; first [by apply Z.eqb_eq | apply Hin, (list_elem_of_lookup_2 _ 0); by rewrite lookup_drop, Nat.add_0_r].
      * by destruct (Hset (Key (block_offset k) (u64 (block_length k + len)))) as (? & ? & ?).
    + eexists. split; [done|]. exists A, k, B.
      by destruct (Hset (Key (block_offset k) (u64 (block_length k + len)))) as (? & ? & ?).
  - destruct Hk as (k & Hk & Hoff). rewrite (lookup_total_of _ _ _ Hk). eexists. split; [done|].
    split; [|done]. apply (child_keys t h n Hok). by eapply list_elem_of_lookup_2.
  - destruct h as [|h].
    { destruct Hok as (_ & -> & _). by eexists. }
    destruct (index_view t h n (nr_active n) Hok (le_n _)) as (kl & kr & cl & c & cr & -> & Hkl & Hcl & Hr & ? & Hc & ?).
    assert (kr = [] /\ cr = []) as [-> ->].
    { unfold nr_active in Hkl. simpl in Hkl. rewrite length_app in Hkl. destruct kr, cr; simpl in *; done || lia. }
    simpl. rewrite <-Hkl, lookup_middle by lia. simpl.
    destruct (IH h c) as (a & -> & Ha); [lia|apply Hc|]. simpl. eexists. split; [done|].
    assert (elements (Node (Z.of_nat (S h)) FSM_INDEX_NODE (kl ++ []) (cl ++ [c])) =
      left_part (map elements cl) kl ++ elements c) as He.
    { rewrite elements_mid by lia. unfold right_part. simpl. by rewrite app_nil_r. }
    destruct a as [c' nx|k|]; [|destruct Ha; split; [|done]; rewrite He; set_solver|done].
    destruct Ha as (A & k & B & Hc1 & Hoff & Hok' & Hnr & Hnx).
    edestruct (set_child_ok t h _ kl [] cl c [] c' eq_refl) as (_ & Hset & Hnr' & Hel); [lia|done..| |done|].
    { split; [done|]. rewrite Hnr. apply Hc. }
    unfold right_part in Hel. simpl zip_with in Hel. simpl concat in Hel. rewrite (app_nil_r (elements c')) in Hel.
    exists (left_part (map elements cl) kl ++ A), k, B. rewrite He, Hc1, Hel, <-app_assoc.
    split_and!; try done. cbv zeta in *.
    destruct nx as [y|]; [destruct Hnx as (? & ? & Hnx)|]; by rewrite Hnx, <-?app_assoc.
Qed.

(** The abstract state of a tree: a set of blocks kept as disjoint extents. *)
Definition tree_ok (b : vdfs2_fsm_btree) : Prop :=
  wf t b /\ rooted b /\ extents_ok (tree_elements b).

Definition blocks (b : vdfs2_fsm_btree) (x : Z) : Prop := covers (tree_elements b) x.

Lemma insert_extent_ok b off len :
  tree_ok b -> valid (Key off len) -> apart (tree_elements b) off len ->
  exists b', fsm_btree_insert b (Key off len) [] = Ret (0, b', []) /\ tree_ok b' /\
    forall x, blocks b' x <-> blocks b x \/ off <= x < off + len.
Proof using Ht.
  intros (Hwf & Hr & He) Hv Ha.
  destruct (fsm_btree_insert_ok t Ht b (Key off len) []) as (e & b' & m' & -> & Hwf' & _ & Hr' & Hm & Hi);
    [done|intros Hb; unfold rooted in Hr; by rewrite Hb in Hr|].
  rewrite Hm by done. destruct Hi as [[-> Hi]|[(-> & Hin & _)|(_ & ? & _)]]; [| |done].
  - destruct (ins_spec_extents _ _ off len He Hv Ha Hi) as [He' Hc]. exists b'.
    split; [done|]. split; [|done]. split_and!; auto.
  - destruct Hv as (_ & ? & _). by destruct (apart_not_elem _ _ len len Ha).
Qed.

Lemma delete_extent_ok b k A B :
  wf t b -> rooted b -> tree_elements b = A ++ k :: B -> k ∉ A -> k ∉ B -> extents_ok (A ++ B) ->
  exists b', fsm_btree_delete b k [] = Ret (0, b', []) /\ tree_ok b' /\ tree_elements b' = A ++ B.
Proof using Ht.
  intros Hwf Hr He HA HB Hab.
  destruct (fsm_btree_delete_ok t Ht b k [] Hwf Hr) as (e & b' & m' & -> & Hr' & [Hm Hd] & Hwf').
  rewrite Hm by done. destruct Hd as [[-> Hd]|(_ & ? & _)]; [|done].
  rewrite He, remove_app, remove_here, !remove_not_elem in Hd by done.
  exists b'. split; [done|]. split; [|done]. split_and!; auto. by rewrite Hd.
Qed.

Lemma delete_member_ok b k :
  tree_ok b -> k ∈ tree_elements b ->
  exists b', fsm_btree_delete b k [] = Ret (0, b', []) /\ tree_ok b' /\
    (forall x, blocks b x <-> blocks b' x \/ block_offset k <= x < key_end k) /\
    apart (tree_elements b') (block_offset k) (block_length k).
Proof using Ht.
  intros (Hwf & Hr & He) (A & B & Hab)%list_elem_of_split. rewrite Hab in He.
  pose proof (sorted_not_elem _ _ _ (extents_ok_sorted _ He)) as [HA HB].
  pose proof He as (HeAB & Hv & HkA & HkB)%extents_ok_mid.
  destruct (delete_extent_ok b k A B) as (b' & -> & Hb' & Hel); try done.
  exists b'. split; [done|]. split; [done|]. unfold blocks. rewrite Hab, Hel. split.
  - intros x. rewrite !covers_app, covers_cons. tauto.
  - intros x Hx (y & [Hy|Hy]%elem_of_app & Hyx).
    + pose proof (proj1 (Forall_forall _ _) HkA y Hy). simpl in *. lia.
    + pose proof (proj1 (Forall_forall _ _) HkB y Hy). unfold key_end in *. simpl in *. lia.
Qed.

Lemma set_root_ok b n h :
  order b = t -> node_ok t h n -> (1 <= nr_active n <= 2 * t - 1)%nat -> sorted (elements n) ->
  wf t (set_root b (ROOT n)) /\ rooted (set_root b (ROOT n)).
Proof.
  intros Ho ? ? ?. split; [split; [done|]|]; [|unfold rooted; simpl; lia].
  exists h. split_and!; try done. lia.
Qed.

(** Growing the key [k] at its end by an extent that starts there. *)
Lemma grow_gap A k B len x :
  extents_ok (A ++ k :: B) -> apart (A ++ k :: B) (key_end k) len -> 0 < len -> x ∈ B ->
  key_end k + len <= block_offset x.
Proof.
  intros He Ha Hlen Hx. pose proof He as (_ & _ & _ & HB)%extents_ok_mid.
  assert (valid x) as Hv by (apply (extents_ok_valid _ _ He); set_solver).
  pose proof (proj1 (Forall_forall _ _) HB x Hx) as Hkx. simpl in Hkx.
  destruct (apart_split _ _ _ x Ha) as [?|?]; try done; [set_solver|].
  unfold valid, key_end in *. lia.
Qed.

Lemma grow_ok A k B len :
  extents_ok (A ++ k :: B) -> apart (A ++ k :: B) (key_end k) len -> 0 < len -> key_end k + len < 2 ^ 64 ->
  extents_ok (A ++ Key (block_offset k) (block_length k + len) :: B).
Proof.
  intros He Ha Hlen Hmax. pose proof He as (HAB & Hv & HA & HB)%extents_ok_mid.
  apply extents_ok_mid. unfold valid, key_end in *. simpl. split_and!; try done; [lia..|].
  apply Forall_forall. intros x Hx. pose proof (grow_gap A k B len x He Ha Hlen Hx).
  unfold key_end in *. lia.
Qed.

Lemma grow_join A k B len y :
  extents_ok (A ++ k :: B) -> apart (A ++ k :: B) (key_end k) len -> 0 < len ->
  y ∈ B -> block_offset y = key_end k + len ->
  exists B', B = y :: B' /\
    extents_ok (A ++ Key (block_offset k) (block_length k + len + block_length y) :: B') /\
    sorted (A ++ Key (block_offset k) (block_length k + len + block_length y) :: y :: B').
Proof.
  intros He Ha Hlen (B1 & B2 & ->)%list_elem_of_split Hy.
  pose proof He as (HAB & Hv & HA & HB)%extents_ok_mid.
  pose proof HAB as (HA' & (HB' & Hvy & HB1 & HB2)%extents_ok_mid & HAy)%extents_ok_app.
  assert (B1 = []) as ->.
  { destruct B1 as [|x B1]; [done|]. exfalso.
    pose proof (grow_gap _ _ _ _ x He Ha Hlen) as Hg. pose proof (Forall_inv HB1) as Hx. simpl in Hx.
    assert (valid x) as Hvx by (apply (extents_ok_valid _ _ He); set_solver).
    specialize (Hg ltac:(set_solver)). unfold valid, key_end in *. lia. }
  exists B2. split; [done|]. simpl in *. split.
  - apply extents_ok_mid. split_and!; try done.
    + apply extents_ok_app. split_and!; [done..|]. intros. apply HAy; [done|]. by right.
    + unfold valid, key_end in *. simpl. lia.
    + eapply Forall_impl; [exact HB2|]. unfold key_end in *. simpl. lia.
  - apply extents_ok_sorted, sorted_mid in He as (? & ? & ? & ?).
    apply sorted_mid. split_and!; try done.
    + apply Forall_forall. intros x Hx. pose proof (proj1 (Forall_forall _ _) HA x Hx).
      assert (valid x) as Hvx by (by apply (extents_ok_valid A)).
      unfold key_lt, valid, key_end in *. simpl in *. lia.
    + apply Forall_forall. intros x Hx. left. simpl. pose proof (proj1 (Forall_forall _ _) HB x Hx).
      unfold valid, key_end in *. simpl in *. lia.
Qed.

Lemma free_grown_ok b n n' h A k B off len :
  tree_ok b -> root b = ROOT n -> node_ok t h n' -> nr_active n' = nr_active n ->
  elements n = A ++ k :: B -> off = u64 (key_end k) -> valid (Key off len) -> apart (elements n) off len ->
  elements n' = A ++ Key (block_offset k) (u64 (block_length k + len)) :: B ->
  tree_ok (set_root b (ROOT n')) /\
  forall x, blocks (set_root b (ROOT n')) x <-> blocks b x \/ off <= x < off + len.
Proof.
  intros ((Ho & Hwf) & Hr & He) Hn Hok Hnr HAB Hoff Hv Ha Hel.
  unfold blocks, tree_elements, rooted in *. rewrite Hn in *. rewrite HAB in *.
  destruct Hwf as (h' & _ & Hle & _).
  pose proof He as (_ & Hvk & _)%extents_ok_mid.
  rewrite u64_small in Hoff by (unfold valid, key_end in *; lia).
  rewrite u64_small in Hel by (unfold valid, key_end in *; simpl in *; lia). subst off.
  assert (extents_ok (elements n')) as He'.
  { rewrite Hel. apply grow_ok; try done; unfold valid, key_end in *; simpl in *; lia. }
  destruct (set_root_ok b n' h Ho Hok) as [Hwf' Hr']; [lia|by apply extents_ok_sorted|].
  split; [by split_and!|].
  intros x. simpl. rewrite Hel, !covers_app, !covers_cons. unfold valid, key_end in *. simpl in *.
  split; intros Hx; decompose [or] Hx; auto; try lia.
Qed.

Lemma free_joined_ok b n n' h A k B y off len :
  tree_ok b -> root b = ROOT n -> node_ok t h n' -> nr_active n' = nr_active n ->
  elements n = A ++ k :: B -> off = u64 (key_end k) -> valid (Key off len) -> apart (elements n) off len ->
  y ∈ B -> block_offset y = u64 (block_offset k + u64 (block_length k + len)) ->
  elements n' = A ++ Key (block_offset k) (u64 (u64 (block_length k + len) + block_length y)) :: B ->
  exists b', fsm_btree_delete (set_root b (ROOT n')) y [] = Ret (0, b', []) /\ tree_ok b' /\
    forall x, blocks b' x <-> blocks b x \/ off <= x < off + len.
Proof using Ht.
  intros ((Ho & Hwf) & Hr & He) Hn Hok Hnr HAB Hoff Hv Ha Hy Hadj Hel.
  unfold blocks, tree_elements, rooted in *. rewrite Hn in *. rewrite HAB in *.
  destruct Hwf as (h' & _ & Hle & _).
  pose proof He as (_ & Hvk & _)%extents_ok_mid.
  assert (valid y) as Hvy by (apply (extents_ok_valid _ _ He); set_solver).
  rewrite u64_small in Hoff by (unfold valid, key_end in *; lia). subst off.
  rewrite !(u64_small (block_length k + len)) in * by (unfold valid, key_end in *; simpl in *; lia).
  rewrite u64_small in Hadj by (unfold valid, key_end in *; simpl in *; lia).
  destruct (grow_join A k B len y He Ha) as (B' & -> & He' & Hs');
    [apply Hv|done|unfold key_end; lia|].
  rewrite u64_small in Hel by (unfold valid, key_end in *; simpl in *; lia).
  set (k' := Key (block_offset k) _) in *.
  destruct (set_root_ok b n' h Ho Hok) as [Hwf' Hr']; [lia|by rewrite Hel|].
  pose proof Hs' as Hs2. rewrite (cons_middle k'), app_assoc in Hs2. apply sorted_not_elem in Hs2 as [H1 H2].
  destruct (delete_extent_ok (set_root b (ROOT n')) y (A ++ [k']) B') as (b' & -> & Hb' & Hel'); try done.
  { unfold tree_elements. simpl. by rewrite Hel, <-app_assoc. }
  { by rewrite <-app_assoc. }
  exists b'. split; [done|]. split; [done|]. intros x. unfold tree_elements in Hel'. rewrite Hel'.
  rewrite !covers_app, !covers_cons. pose proof (covers_nil x). unfold k', valid, key_end in *. simpl in *.
  split; intros Hx; decompose [or] Hx; auto; try done; lia.
Qed.

Lemma fsm_btree_free_ok b off len :
  tree_ok b -> valid (Key off len) -> apart (tree_elements b) off len ->
  exists b', fsm_btree_free b off len [] = Ret (0, b', []) /\ tree_ok b' /\
    forall x, blocks b' x <-> blocks b x \/ off <= x < off + len.
Proof using Ht.
  intros Hb Hv Ha. pose proof Hb as ((Ho & Hroot) & Hr & He).
  unfold fsm_btree_free. destruct (root b) as [| |n] eqn:Hn; [by apply insert_extent_ok| |].
  { unfold rooted in Hr. by rewrite Hn in Hr. }
  assert (tree_elements b = elements n) as Hel by (unfold tree_elements; by rewrite Hn).
  unfold rooted in Hr. rewrite Hn in Hr. destruct Hroot as (h & Hok & Hle & Hs).
  destruct (free_scan_ok (depth n) h n off len) as (a & -> & Hscan); [rewrite (depth_ok t h n Hok); lia|done|].
  cbn [mbind outcome_bind]. destruct a as [n' [y|]|k|]; simpl in Hscan.
  - destruct Hscan as (A & k & B & HAB & Hoff & Hok' & Hnr & Hy & Hadj & Hel').
    eapply (free_joined_ok b n n' h A k B y); eauto. by rewrite <-Hel.
  - destruct Hscan as (A & k & B & HAB & Hoff & Hok' & Hnr & Hel').
    eexists. split; [done|]. eapply (free_grown_ok b n n' h A k B); eauto. by rewrite <-Hel.
  - destruct Hscan as [Hk Hend]. rewrite <-Hel in Hk.
    destruct (delete_member_ok b k Hb Hk) as (b1 & -> & Hb1 & Hcov & Hap). cbn [mbind outcome_bind].
    assert (valid k) as Hvk by (by eapply extents_ok_valid).
    assert (off + len = block_offset k) as Hj.
    { unfold valid, key_end in *. simpl in *. rewrite u64_small in Hend by lia. done. }
    rewrite u64_small by (unfold valid, key_end in *; simpl in *; lia).
    destruct (insert_extent_ok b1 off (len + block_length k)) as (b2 & -> & Hb2 & Hcov2); [done| | |].
    { unfold valid, key_end in *. simpl in *. lia. }
    { intros x Hx Hc. destruct (decide (x < off + len)).
      - apply (Ha x); [lia|]. apply Hcov. by left.
      - apply (Hap x); [lia|done]. }
    cbn [mbind outcome_bind]. exists b2. split; [done|]. split; [done|]. intros x. rewrite Hcov2, Hcov.
    unfold key_end. unfold valid in *. simpl in *. split; [intros [?|?]; [tauto|]|intros [[?|?]|?]; [tauto|right..]]; try lia.
  - destruct (insert_extent_ok b off len Hb Hv Ha) as (b2 & -> & Hb2 & Hcov). by exists b2.
Qed.

(** ** Taking an extent *)

Lemma offset_scan_le off ks : (offset_scan off ks <= length ks)%nat.
Proof. induction ks as [|k ks IH]; simpl; [lia|]. case_match; simpl; lia. Qed.

Lemma child_elements h kl kr cl c cr k :
  length kl = length cl -> k ∈ elements c ->
  k ∈ elements (Node (Z.of_nat (S h)) FSM_INDEX_NODE (kl ++ kr) (cl ++ c :: cr)).
Proof. intros ? Hk. rewrite elements_mid by done. set_solver. Qed.

Lemma lookup_exact_ok fuel h n off :
  (h < fuel)%nat -> node_ok t h n ->
  exists r, lookup_exact fuel n off = Ret r /\
    match r with Some k => k ∈ elements n /\ block_offset k = off | None => True end.
Proof.
  revert h n. induction fuel as [|fuel IH]; intros h n Hf Hok; [lia|]. simpl.
  assert (exists r, match type n with
    | FSM_INDEX_NODE => child ← deref (children n !! offset_scan off (key_vals n)); lookup_exact fuel child off
    | FSM_LEAF_NODE => Ret None end = Ret r /\
    match r with Some k => k ∈ elements n /\ block_offset k = off | None => True end) as Hchild.
  { destruct h as [|h]; [destruct Hok as (_ & -> & _); by eexists|].
    destruct (index_view t h n (offset_scan off (key_vals n)) Hok (offset_scan_le _ _))
      as (kl & kr & cl & c & cr & -> & Hkl & Hcl & _ & _ & Hc & _).
    cbn [type children]. rewrite lookup_middle by done. cbn [deref mbind outcome_bind].
    destruct (IH h c) as (r & -> & Hr); [lia|apply Hc|]. exists r. split; [done|].
    destruct r as [k|]; [|done]. destruct Hr. split; [|done]. by apply child_elements; [lia|]. }
  destruct (key_vals n !! offset_scan off (key_vals n)) as [k|] eqn:Hk; [|done].
  destruct (Z.eqb_spec off (block_offset k)); [|done]. exists (Some k). split; [done|]. split; [|done].
  apply (child_keys t h n Hok). by eapply list_elem_of_lookup_2.
Qed.

(** The keys of a node are its own and those of its children. *)
Lemma elements_elem h n k :
  node_ok t h n ->
  k ∈ elements n <-> k ∈ key_vals n \/ exists c, c ∈ children n /\ k ∈ elements c.
Proof.
  intros Hok. split.
  - destruct n as [lv ty ks cs]. clear. simpl. unfold elements; fold elements. destruct cs as [|c cs]; simpl; [by left|].
    rewrite elem_of_app. intros [?|Hk]; [right; exists c; set_solver|].
    revert cs Hk. induction ks as [|x ks IH]; intros [|d cs]; simpl; unfold right_part; simpl; try set_solver.
  - intros [Hk|(c & Hc & Hk)]; [by apply (child_keys t h n Hok)|].
    destruct h as [|h]; [destruct Hok as (_ & _ & Hn); rewrite Hn in Hc; set_solver|].
    apply list_elem_of_lookup in Hc as [i Hi].
    destruct (index_view t h n i Hok) as (kl & kr & cl & c' & cr & -> & Hkl & Hcl & _).
    { apply lookup_lt_Some in Hi. destruct Hok as (_ & _ & Hlen & _). lia. }
    cbn [children] in Hi. rewrite lookup_middle in Hi by done. injection Hi as ->.
    apply child_elements; [lia|done].
Qed.

Definition balanced (n : vdfs2_fsm_btree_node) : Prop := exists h, node_ok t h n.

Lemma balanced_children n :
  balanced n -> Forall balanced (children n) /\
  match type n with FSM_INDEX_NODE => take (nr_active n + 1) (children n) | FSM_LEAF_NODE => [] end = children n.
Proof.
  intros [h Hok]. destruct h as [|h].
  - destruct Hok as (_ & -> & ->). done.
  - destruct Hok as (_ & -> & Hlen & Hall). rewrite take_ge by lia. split; [|done].
    eapply Forall_impl; [exact Hall|]. intros c [? _]. by exists h.
Qed.

Definition queue_count (q : list vdfs2_fsm_btree_node) : nat := foldr (fun c d => nodes_count c + d)%nat O q.

Lemma queue_count_app q1 q2 : queue_count (q1 ++ q2) = (queue_count q1 + queue_count q2)%nat.
Proof. induction q1; simpl; lia. Qed.
Lemma nodes_count_children n : nodes_count n = S (queue_count (children n)).
Proof. by destruct n. Qed.

Lemma first_acceptable_ok len less ks :
  match first_acceptable len less ks with
  | Some k => k ∈ ks /\ acceptable len less k = true
  | None => forall k, k ∈ ks -> acceptable len less k = false
  end.
Proof.
  induction ks as [|k ks IH]; simpl; [set_solver|]. destruct (acceptable len less k) eqn:Ha; [set_solver|].
  destruct (first_acceptable len less ks); set_solver.
Qed.

Lemma queue_step n q :
  match type n with FSM_INDEX_NODE => q ++ take (nr_active n + 1) (children n) | FSM_LEAF_NODE => q end =
  q ++ match type n with FSM_INDEX_NODE => take (nr_active n + 1) (children n) | FSM_LEAF_NODE => [] end.
Proof. destruct (type n); [done|]. by rewrite app_nil_r. Qed.

Lemma lookup_any_ok fuel q len less :
  (queue_count q <= fuel)%nat -> Forall balanced q ->
  exists r, lookup_any fuel q len less = Ret r /\
    match r with
    | Some k => acceptable len less k = true /\ exists n, n ∈ q /\ k ∈ elements n
    | None => forall n k, n ∈ q -> k ∈ elements n -> acceptable len less k = false
    end.
Proof.
  revert q. induction fuel as [|fuel IH]; intros [|n q] Hf Hq; simpl in *; try (eexists; split; [done|set_solver]).
  { rewrite nodes_count_children in Hf. lia. }
  apply Forall_cons in Hq as [Hn Hq]. destruct (balanced_children n Hn) as [Hcs Htake].
  destruct Hn as [h Hok]. rewrite queue_step, Htake.
  pose proof (first_acceptable_ok len less (key_vals n)) as Hfa.
  destruct (first_acceptable len less (key_vals n)) as [k|].
  { eexists. split; [done|]. destruct Hfa. split; [done|]. exists n. split; [left|]. apply (child_keys t h n Hok). done. }
  destruct (IH (q ++ children n)) as (r & -> & Hr).
  { rewrite queue_count_app. rewrite nodes_count_children in Hf. lia. }
  { by apply Forall_app. }
  eexists. split; [done|]. destruct r as [k|].
  - destruct Hr as (? & n' & [Hn'|Hn']%elem_of_app & Hk); (split; [done|]); [exists n'; set_solver|].
    exists n. split; [left|]. rewrite (elements_elem h) by done. naive_solver.
  - intros n' k [->|Hn']%elem_of_cons Hk; [|eapply Hr; set_solver].
    apply (elements_elem h) in Hk as [Hk|(c & Hc & Hk)]; [auto|eapply Hr; set_solver|done].
Qed.

Lemma take_extent_ok b k len less :
  tree_ok b -> k ∈ tree_elements b -> acceptable len less k = true -> 0 < len < 2 ^ 32 ->
  exists len' b', take_extent b k len [] = Ret (block_offset k, len', b', []) /\ tree_ok b' /\
    0 < len' <= len /\ (less = false -> len' = len) /\
    (forall x, blocks b x <-> blocks b' x \/ block_offset k <= x < block_offset k + len') /\
    apart (tree_elements b') (block_offset k) len'.
Proof using Ht.
  intros Hb Hk Hacc Hlen. assert (valid k) as Hv by (eapply extents_ok_valid; [apply Hb|done]).
  destruct (delete_member_ok b k Hb Hk) as (b1 & Hdel & Hb1 & Hcov & Hap). unfold take_extent. rewrite Hdel.
  destruct (Z.ltb_spec len (block_length k)); cbn [mbind outcome_bind Z.eqb negb].
  - rewrite !u64_small by (unfold valid, key_end in *; simpl in *; lia).
    destruct (insert_extent_ok b1 (block_offset k + len) (block_length k - len) Hb1) as (b2 & -> & Hb2 & Hcov2).
    { unfold valid, key_end in *. simpl. lia. }
    { intros x Hx. apply Hap. lia. }
    exists len, b2. split; [done|]. split; [done|]. split; [lia|]. split; [done|].
    unfold blocks, valid, key_end in *. split.
    + intros x. rewrite Hcov, Hcov2. split; intros Hx; decompose [or] Hx; auto; try lia.
    + intros x Hx Hc. apply Hcov2 in Hc as [Hc|?]; [|lia]. apply (Hap x); [lia|done].
  - rewrite u32_small by (unfold valid in *; lia). exists (block_length k), b1.
    split; [done|]. split; [done|]. split; [unfold valid in *; lia|]. split; [|done].
    intros ->. unfold acceptable in Hacc. rewrite orb_false_r in Hacc.
    apply orb_true_iff in Hacc as [?%Z.ltb_lt|?%negb_true_iff%Z.ltb_ge]; lia.
Qed.

Lemma fsm_btree_lookup_ok b off len less :
  tree_ok b -> 0 < len < 2 ^ 32 ->
  exists start len' b', fsm_btree_lookup b off len less [] = Ret (start, len', b', []) /\ tree_ok b' /\
    (start = 0 /\ len' = len /\ b' = b /\ (forall k, k ∈ tree_elements b -> acceptable len less k = false) \/
     0 < start /\ 0 < len' <= len /\ (less = false -> len' = len) /\
     (forall x, blocks b x <-> blocks b' x \/ start <= x < start + len') /\
     apart (tree_elements b') start len').
Proof using Ht.
  intros Hb Hlen. pose proof Hb as ((Ho & Hroot) & Hr & He). unfold fsm_btree_lookup, rooted in *.
  destruct (root b) as [| |n] eqn:Hn; [|done|].
  { exists 0, len, b. split; [done|]. split; [done|]. left. unfold tree_elements. rewrite Hn. set_solver. }
  assert (tree_elements b = elements n) as Hel by (unfold tree_elements; by rewrite Hn).
  destruct Hroot as (h & Hok & _).
  destruct (lookup_exact_ok (depth n) h n off) as (r & -> & Hex); [rewrite (depth_ok t h n Hok); lia|done|].
  cbn [mbind outcome_bind].
  assert (forall k, k ∈ elements n -> acceptable len less k = true -> exists start len' b',
    take_extent b k len [] = Ret (start, len', b', []) /\ tree_ok b' /\ 0 < start /\ 0 < len' <= len /\
    (less = false -> len' = len) /\ (forall x, blocks b x <-> blocks b' x \/ start <= x < start + len') /\
    apart (tree_elements b') start len') as Htake.
  { intros k Hk Hacc. rewrite <-Hel in Hk.
    destruct (take_extent_ok b k len less) as (len' & b' & -> & ? & ?); try done.
    exists (block_offset k), len', b'. split; [done|]. split; [done|]. split; [|done].
    apply (extents_ok_valid _ _ He) in Hk. apply Hk. }
  destruct (lookup_any_ok (nodes_count n) [n] len less) as (r' & Hany & Hr').
  { simpl. lia. } { constructor; [by exists h|constructor]. }
  destruct (match r with Some k => if acceptable len less k then Some k else None | None => None end) as [k|] eqn:Hk;
    cbn [mbind outcome_bind].
  - destruct r as [k'|]; [|done]. destruct (acceptable len less k') eqn:Hacc; simplify_eq.
    destruct (Htake k) as (start & len' & b' & ? & ? & ?); [tauto|done|]. exists start, len', b'. tauto.
  - rewrite Hany. destruct r' as [k|].
    + destruct Hr' as [Hacc (n' & ->%list_elem_of_singleton & Hkn)].
      destruct (Htake k) as (start & len' & b' & ? & ? & ?); [done..|]. exists start, len', b'. tauto.
    + exists 0, len, b. split; [done|]. split; [done|]. left. rewrite Hel. split; [done|]. split; [done|]. split; [done|].
      intros k'. apply Hr'. left.
Qed.

(** ** Destruction *)

(** The nodes of a subtree. *)
Fixpoint subnodes (n : vdfs2_fsm_btree_node) : list vdfs2_fsm_btree_node :=
  n :: match n with Node _ _ _ cs => concat (map subnodes cs) end.

Lemma subnodes_children n : subnodes n = n :: concat (map subnodes (children n)).
Proof. by destruct n. Qed.

Lemma destroy_loop_ok fuel q freed :
  (queue_count q <= fuel)%nat -> Forall balanced q ->
  exists l, destroy_loop fuel q freed = Ret (freed ++ l) /\ l ≡ₚ concat (map subnodes q).
Proof.
  revert q freed. induction fuel as [|fuel IH]; intros [|n q] freed Hf Hq; simpl in *.
  - exists []. by rewrite app_nil_r.
  - rewrite nodes_count_children in Hf. lia.
  - exists []. by rewrite app_nil_r.
  - apply Forall_cons in Hq as [Hn Hq]. destruct (balanced_children n Hn) as [Hcs Htake].
    rewrite queue_step, Htake. destruct (IH (q ++ children n) (freed ++ [n])) as (l & -> & Hl).
    { rewrite queue_count_app. rewrite nodes_count_children in Hf. lia. }
    { by apply Forall_app. }
    exists (n :: l). rewrite <-app_assoc. split; [done|].
    rewrite Hl, map_app, concat_app, subnodes_children. simpl. apply Permutation_skip, Permutation_app_comm.
Qed.

Lemma fsm_btree_destroy_ok b :
  wf t b -> root b <> ROOT_ERR ->
  exists freed b', fsm_btree_destroy b = Ret (freed, b') /\ root b' = ROOT_NULL /\
    freed ≡ₚ match root b with ROOT n => subnodes n | _ => [] end.
Proof.
  intros [Ho Hroot] Hne. unfold fsm_btree_destroy. destruct (root b) as [| |n] eqn:Hn; [by exists [], b|done|].
  destruct Hroot as (h & Hok & _).
  destruct (destroy_loop_ok (nodes_count n) [n] []) as (l & -> & Hl).
  { simpl. lia. } { constructor; [by exists h|constructor]. }
  eexists _, _. split; [done|]. split; [done|]. rewrite Hl. simpl. by rewrite app_nil_r.
Qed.
End spec.
