(* ===== verification/Bits.v ===== *)
(** * Bitmaps spread over signed blocks ([data.c])

    A block of [block_size] bytes starts with [magic_len] bytes of signature and
    ends with a CRC word; the bits of the bitmap live between the two. *)
From Stdlib Require Import ZArith Lia.
From stdpp Require Import base numbers list.
From S2P Require Import Prelude.

Definition CRC32_SIZE : Z := 4.
Definition VERSION_SIZE : Z := 8.

(** ** Bytes and bits of a buffer *)

Abbreviation buffer := (list Z).

(** Bit [r] of a buffer, counted from its start (little-endian bit order). *)
Definition test_bit (r : Z) (buff : buffer) : bool := Z.testbit (buff !!! Z.to_nat (r / 8)) (r mod 8).

Definition update_byte (r : Z) (f : Z -> Z) (buff : buffer) : outcome (bool * buffer) :=
  b ← deref (if bool_decide (0 <= r) then buff !! Z.to_nat (r / 8) else None);
  Ret (Z.testbit b (r mod 8), <[Z.to_nat (r / 8) := f b]> buff).

(** [test_and_set_bit] and [test_and_clear_bit] at bit [nr] from byte [addr]. *)
Definition test_and_set_bit (nr addr : Z) (buff : buffer) : outcome (bool * buffer) :=
  let r := 8 * addr + nr in update_byte r (fun b => Z.setbit b (r mod 8)) buff.
Definition test_and_clear_bit (nr addr : Z) (buff : buffer) : outcome (bool * buffer) :=
  let r := 8 * addr + nr in update_byte r (fun b => Z.clearbit b (r mod 8)) buff.

(** The searches of the kernel: the first bit with the wanted value in
    [offset, size), from byte [addr]; [size] or more when there is none. *)
Class BitSearch := {
  find_next_bit : buffer -> Z -> Z -> Z -> Z;
  find_next_zero_bit : buffer -> Z -> Z -> Z -> Z;
}.

Definition first_bit (v : bool) (buff : buffer) (addr size offset r : Z) : Prop :=
  (forall p, offset <= p < Z.min r size -> test_bit (8 * addr + p) buff = negb v) /\
  (r < size -> offset <= r /\ test_bit (8 * addr + r) buff = v).

Class BitSearchLaws `{!BitSearch} : Prop := {
  find_next_bit_spec buff addr size offset : 0 <= offset -> 0 <= size ->
    0 <= find_next_bit buff addr size offset <= size /\
    first_bit true buff addr size offset (find_next_bit buff addr size offset);
  find_next_zero_bit_spec buff addr size offset : 0 <= offset -> 0 <= size ->
    0 <= find_next_zero_bit buff addr size offset <= size /\
    first_bit false buff addr size offset (find_next_zero_bit buff addr size offset);
}.

(** A concrete search, bit by bit. *)
Fixpoint scan_bits (n : nat) (v : bool) (buff : buffer) (addr p : Z) : Z :=
  match n with
  | O => p
  | S n => if Bool.eqb (test_bit (8 * addr + p) buff) v then p else scan_bits n v buff addr (p + 1)
  end.

Definition scan_from (v : bool) (buff : buffer) (addr size offset : Z) : Z :=
  if offset <? size then scan_bits (Z.to_nat (size - offset)) v buff addr offset else size.

#[export] Instance linear_search : BitSearch := {
  find_next_bit := scan_from true;
  find_next_zero_bit := scan_from false;
}.

Lemma scan_bits_spec n v buff addr p :
  p <= scan_bits n v buff addr p <= p + Z.of_nat n /\
  (forall q, p <= q < scan_bits n v buff addr p -> test_bit (8 * addr + q) buff = negb v) /\
  (scan_bits n v buff addr p < p + Z.of_nat n -> test_bit (8 * addr + scan_bits n v buff addr p) buff = v).
Proof.
  revert p. induction n as [|n IH]; intros p; simpl; [split_and!; lia|].
  destruct (Bool.eqb _ _) eqn:Hb.
  - apply Bool.eqb_prop in Hb. split_and!; lia || done.
  - apply Bool.eqb_false_iff in Hb. destruct (IH (p + 1)) as (? & H1 & H2). split_and!; try lia.
    + intros q Hq. destruct (decide (q = p)) as [->|]; [by destruct v, (test_bit _ _)|]. apply H1. lia.
    + intros. apply H2. lia.
Qed.

Lemma scan_from_spec v buff addr size offset :
  0 <= offset -> 0 <= size ->
  0 <= scan_from v buff addr size offset <= size /\
  first_bit v buff addr size offset (scan_from v buff addr size offset).
Proof.
  intros. unfold scan_from, first_bit. destruct (Z.ltb_spec offset size); [|split_and!; lia].
  destruct (scan_bits_spec (Z.to_nat (size - offset)) v buff addr offset) as (? & Hbelow & Hfound).
  split_and!; try lia.
  - intros p Hp. apply Hbelow. lia.
  - intros. split; [lia|]. apply Hfound. lia.
Qed.

#[export] Instance linear_search_laws : BitSearchLaws.
Proof. split; intros; by apply scan_from_spec. Qed.

(** ** Setting and clearing runs of bits *)

(** The inner loop of [vdfs2_set_bits] and [vdfs2_clear_bits]: [op] is the test
    and update of one bit, [bad] the old value that ends it with [-EFAULT]. *)
Fixpoint run_bits (op : Z -> Z -> buffer -> outcome (bool * buffer)) (bad : bool) (length : nat)
    (cur_blck cur_position magic_len end_buff : Z) (buff : buffer) : outcome (Z * buffer) :=
  match length with
  | O => Ret (0, buff)
  | S length =>
      if end_buff <? cur_blck + Z.shiftr cur_position 3 + magic_len then Ret (- EFAULT, buff)
      else
        '(old, buff) ← op cur_position (cur_blck + magic_len) buff;
        if Bool.eqb old bad then Ret (- EFAULT, buff)
        else run_bits op bad length cur_blck (cur_position + 1) magic_len end_buff buff
  end.

Definition datablock_size (block_size magic_len : Z) : Z :=
  Z.shiftl (block_size - (magic_len + CRC32_SIZE)) 3.

(** The walk over the blocks.  In the last one [vdfs2_clear_bits] also takes the
    bits from [count], [vdfs2_set_bits] does not: [last_count] is that assignment. *)
Fixpoint walk_blocks (op : Z -> Z -> buffer -> outcome (bool * buffer)) (bad : bool) (last_count : Z -> Z)
    (fuel : nat) (cur_blck start_blck end_blck offset count magic_len block_size : Z)
    (buff : buffer) : outcome (Z * buffer) :=
  match fuel with
  | O => Bug
  | S fuel =>
      if cur_blck <=? end_blck then
        let ds := datablock_size block_size magic_len in
        let cur_position := if cur_blck =? start_blck then Z.rem offset ds else 0 in
        let length := ds - cur_position in
        let '(length, count) := if count <? length then (count, last_count count) else (length, count - length) in
        let end_buff := cur_blck + block_size - CRC32_SIZE in
        '(err, buff) ← run_bits op bad (Z.to_nat length) cur_blck cur_position magic_len end_buff buff;
        if negb (err =? 0) then Ret (err, buff)
        else walk_blocks op bad last_count fuel (cur_blck + block_size) start_blck end_blck offset count magic_len
               block_size buff
      else Ret (0, buff)
  end.

Definition bits_in_blocks (op : Z -> Z -> buffer -> outcome (bool * buffer)) (bad : bool) (last_count : Z -> Z)
    (buff : buffer) (offset count magic_len block_size : Z) : outcome (Z * buffer) :=
  let ds := datablock_size block_size magic_len in
  let start_blck := Z.quot offset ds * block_size in
  let end_blck := Z.quot (offset + count - 1) ds * block_size in
  walk_blocks op bad last_count (S (S (Z.to_nat (Z.quot (offset + count) ds)))) start_blck start_blck end_blck
    offset count magic_len block_size buff.

Definition vdfs2_set_bits (buff : buffer) (buff_size offset count magic_len block_size : Z)
    : outcome (Z * buffer) :=
  bits_in_blocks test_and_set_bit true (fun count => count) buff offset count magic_len block_size.

Definition vdfs2_clear_bits (buff : buffer) (buff_size offset count magic_len block_size : Z)
    : outcome (Z * buffer) :=
  bits_in_blocks test_and_clear_bit false (fun count => count - count) buff offset count magic_len block_size.

(** ** Searching *)

Section search.
Context `{!BitSearch}.

Definition __find_next_bit_in_block (buff : buffer) (addr size offset magic_len : Z) (bit : bool) : Z :=
  let result := s32 (if bit then find_next_bit buff (addr + magic_len) size offset
                     else find_next_zero_bit buff (addr + magic_len) size offset) in
  if size <=? u32 result then -1 else result.

Fixpoint find_next_loop (fuel : nat) (buff : buffer) (size cur_block end_block int_size int_offset
    block_size magic_len : Z) (bit : bool) : outcome Z :=
  match fuel with
  | O => Bug
  | S fuel =>
      if cur_block <=? end_block then
        let int_block_size := u32 (size - cur_block * int_size) in
        let int_block_size := if int_size <? int_block_size then int_size else int_block_size in
        let res := __find_next_bit_in_block buff (cur_block * block_size) int_block_size int_offset magic_len bit in
        if res <? 0
        then find_next_loop fuel buff size (cur_block + 1) end_block int_size 0 block_size magic_len bit
        else Ret (res + cur_block * int_size)
      else Ret size
  end.

Definition __find_next_bit (buff : buffer) (size offset block_size magic_len : Z) (bit : bool) : outcome Z :=
  let start_block := Z.quot (Z.shiftr offset 3) (block_size - (CRC32_SIZE + magic_len)) in
  let int_size := Z.shiftl (block_size - (CRC32_SIZE + magic_len)) 3 in
  let int_offset := Z.rem offset int_size in
  let end_block := Z.quot (u64 (size - 1)) int_size in
  find_next_loop (S (Z.to_nat (end_block - start_block + 1))) buff size start_block end_block int_size int_offset
    block_size magic_len bit.

Definition vdfs2_find_next_zero_bit (buff : buffer) (size offset block_size magic_len : Z) : outcome Z :=
  __find_next_bit buff size offset block_size magic_len false.

Definition vdfs2_find_next_bit (buff : buffer) (size offset block_size magic_len : Z) : outcome Z :=
  __find_next_bit buff size offset block_size magic_len true.
End search.

(** ** Signatures and checksums *)

Section crc.
(** [crc32 init data], a 32-bit value. *)
Context (crc32 : Z -> list Z -> Z).

(** The bytes of a 32-bit word, least significant first. *)
Definition le32_bytes (x : Z) : list Z :=
  [Z.land x 255; Z.land (Z.shiftr x 8) 255; Z.land (Z.shiftr x 16) 255; Z.land (Z.shiftr x 24) 255].

Definition bytes_at (buff : buffer) (off len : Z) : list Z := take (Z.to_nat len) (drop (Z.to_nat off) buff).
Definition put_bytes (buff : buffer) (off : Z) (bs : list Z) : buffer := list_inserts (Z.to_nat off) bs buff.

Definition block_crc (buff : buffer) (block_size magic_len : Z) : list Z :=
  le32_bytes (crc32 0 (bytes_at buff magic_len (block_size - (CRC32_SIZE + magic_len)))).

Definition vdfs2_update_block_crc (buff : buffer) (block_size magic_len : Z) : buffer :=
  put_bytes buff (block_size - CRC32_SIZE) (block_crc buff block_size magic_len).

Definition VDFS2_VALID : Z := 0.
Definition VDFS2_INVALID : Z := - EINVAL.

Definition vdfs2_validate_crc (buff : buffer) (buff_size : Z) (magic : option (list Z)) (magic_len : Z) : Z :=
  let ret_val :=
    match magic with
    | Some magic =>
        if bool_decide (bytes_at buff 0 (magic_len - VERSION_SIZE) = bytes_at magic 0 (magic_len - VERSION_SIZE))
        then 0 else VDFS2_INVALID
    | None => 0
    end in
  if ret_val =? 0 then
    if bool_decide (bytes_at buff (buff_size - CRC32_SIZE) CRC32_SIZE = block_crc buff buff_size magic_len)
    then VDFS2_VALID else VDFS2_INVALID
  else ret_val.
End crc.

Example bits_run :
  let buff := replicate 32 0 in
  ('(e, b) ← vdfs2_set_bits buff 32 30 4 4 16; r ← vdfs2_find_next_zero_bit b 128 30 16 4;
   s ← vdfs2_find_next_bit b 128 0 16 4; '(e', _) ← vdfs2_set_bits b 32 33 4 4 16; Ret (e, b !!! 7%nat, r, s, e')) =
  Ret (0, 192, 34, 30, - EFAULT).
Proof. vm_compute. reflexivity. Qed.
