(* ===== verification/BitsFacts.v ===== *)
(** * Correctness of the bitmap operations: one flat array of bits *)
From Stdlib Require Import ZArith Lia.
From stdpp Require Import base numbers list.
From S2P Require Import Prelude Bits.

(** ** One bit *)

Lemma test_bit_update r r' v (f : Z -> Z) buff old buff' :
  0 <= r' ->
  (forall b i, 0 <= i -> Z.testbit (f b) i = if decide (i = r mod 8) then v else Z.testbit b i) ->
  update_byte r f buff = Ret (old, buff') ->
  old = test_bit r buff /\ length buff' = length buff /\
  test_bit r' buff' = if decide (r' = r) then v else test_bit r' buff.
Proof.
  intros Hr' Hf Hu. unfold update_byte in Hu. case_bool_decide as Hr; [|done].
  destruct (buff !! Z.to_nat (r / 8)) as [b|] eqn:Hb; [|done]. simpl in Hu. injection Hu as <- <-.
  unfold test_bit. rewrite (list_lookup_total_correct _ _ _ Hb), length_insert. split_and!; [done..|].
  destruct (decide (Z.to_nat (r / 8) = Z.to_nat (r' / 8))) as [Heq|Hne].
  - rewrite <-Heq, list_lookup_total_insert_eq, (list_lookup_total_correct _ _ _ Hb), Hf
      by (try apply lookup_lt_Some in Hb; lia).
    assert (r / 8 = r' / 8) by lia. repeat case_decide; try lia; done.
  - rewrite list_lookup_total_insert_ne by done. case_decide; [by subst|done].
Qed.

Lemma update_byte_defined r f buff :
  0 <= r < 8 * Z.of_nat (length buff) -> exists old buff', update_byte r f buff = Ret (old, buff').
Proof.
  intros Hr. unfold update_byte. rewrite bool_decide_true by lia.
  destruct (lookup_lt_is_Some_2 buff (Z.to_nat (r / 8))) as [b ->]; [lia|]. simpl. eauto.
Qed.

(** ** The layout *)

Section layout.
Context (magic_len block_size : Z).
Hypothesis Hmagic : 0 <= magic_len.
Hypothesis Hblock : magic_len + CRC32_SIZE < block_size.

(** Bits in one block, and the place of bit [p] of the bitmap in the buffer. *)
Definition dsize : Z := 8 * (block_size - (magic_len + CRC32_SIZE)).
Definition raw (p : Z) : Z := 8 * (p / dsize * block_size + magic_len) + p mod dsize.

Definition get_bit (p : Z) (buff : buffer) : bool := test_bit (raw p) buff.

Lemma dsize_pos : 0 < dsize.
Proof using Hblock. unfold dsize. lia. Qed.
Lemma datablock_size_dsize : datablock_size block_size magic_len = dsize.
Proof using Type. unfold datablock_size, dsize. rewrite Z.shiftl_mul_pow2 by lia. lia. Qed.

Lemma raw_block k pos : 0 <= pos < dsize -> raw (k * dsize + pos) = 8 * (k * block_size + magic_len) + pos.
Proof using Type.
  intros. unfold raw. rewrite Z.div_add_l, Z.div_small, Z.add_0_r by lia.
  replace ((k * dsize + pos) mod dsize) with pos; [done|].
  by rewrite Z.add_comm, Z.mod_add, Z.mod_small by lia.
Qed.

Lemma raw_mono p q : 0 <= p < q -> raw p < raw q.
Proof using Hblock Hmagic.
  intros Hpq. pose proof dsize_pos as Hd. unfold raw.
  pose proof (Z.div_mod p dsize) as Hp. pose proof (Z.div_mod q dsize) as Hq.
  pose proof (Z.mod_pos_bound p dsize) as Hpm. pose proof (Z.mod_pos_bound q dsize) as Hqm.
  assert (8 * block_size - dsize = 8 * (magic_len + CRC32_SIZE)) as Hb by (unfold dsize; lia).
  unfold CRC32_SIZE in *. set (a := p / dsize) in *. set (b := q / dsize) in *.
  assert (a <= b) by (apply Z.div_le_mono; lia). destruct (decide (a = b)) as [Heq|]; [rewrite Heq in *; lia|]. nia.
Qed.

Lemma raw_nonneg p : 0 <= p -> 0 <= raw p.
Proof using Hblock Hmagic.
  intros. unfold raw. pose proof dsize_pos. pose proof (Z.mod_pos_bound p dsize).
  assert (0 <= p / dsize) by (apply Z.div_pos; lia). unfold CRC32_SIZE in *. nia.
Qed.

(** ** The loops, one bit after the other *)

Section ops.
Context (op : Z -> Z -> buffer -> outcome (bool * buffer)) (bad : bool) (f : Z -> Z -> Z).
Hypothesis Hop : forall nr addr buff,
  op nr addr buff = update_byte (8 * addr + nr) (f (8 * addr + nr)) buff.

Fixpoint flat_run (n : nat) (p : Z) (buff : buffer) : outcome (Z * buffer) :=
  match n with
  | O => Ret (0, buff)
  | S n =>
      '(old, buff) ← update_byte (raw p) (f (raw p)) buff;
      if Bool.eqb old bad then Ret (- EFAULT, buff) else flat_run n (p + 1) buff
  end.

Lemma flat_run_app n m p buff :
  flat_run (n + m) p buff =
  '(e, buff) ← flat_run n p buff; if negb (e =? 0) then Ret (e, buff) else flat_run m (p + Z.of_nat n) buff.
Proof using Type.
  revert p buff. induction n as [|n IH]; intros p buff; simpl; [by rewrite Z.add_0_r|].
  destruct (update_byte _ _ _) as [[old b]|]; simpl; [|done]. destruct (Bool.eqb old bad); [done|].
  rewrite IH. by replace (p + 1 + Z.of_nat n) with (p + Z.of_nat (S n)) by lia.
Qed.

Lemma run_bits_flat n k pos buff :
  0 <= pos -> pos + Z.of_nat n <= dsize ->
  run_bits op bad n (k * block_size) pos magic_len (k * block_size + block_size - CRC32_SIZE) buff =
  flat_run n (k * dsize + pos) buff.
Proof using Hop.
  revert pos buff. induction n as [|n IH]; intros pos buff Hpos Hn; simpl; [done|].
  rewrite Z.shiftr_div_pow2 by lia. unfold dsize in Hn.
  destruct (Z.ltb_spec (k * block_size + block_size - CRC32_SIZE) (k * block_size + pos / 2 ^ 3 + magic_len)); [lia|].
  rewrite Hop, <-raw_block by (unfold dsize; lia).
  destruct (update_byte _ _ _) as [[old b]|]; simpl; [|done]. destruct (Bool.eqb old bad); [done|].
  rewrite IH by (unfold dsize; lia). by rewrite Z.add_assoc.
Qed.

(** The effect on the bits, for an operation that gives a bit the value [v]. *)
Context (v : bool).
Hypothesis Hf : forall r b i, 0 <= r -> 0 <= i ->
  Z.testbit (f r b) i = if decide (i = r mod 8) then v else Z.testbit b i.

Lemma flat_run_ok n p buff :
  0 <= p -> (forall q, p <= q < p + Z.of_nat n -> raw q < 8 * Z.of_nat (length buff) /\ get_bit q buff = negb bad) ->
  exists buff', flat_run n p buff = Ret (0, buff') /\ length buff' = length buff /\
    forall r, 0 <= r ->
      ((forall q, p <= q < p + Z.of_nat n -> r <> raw q) -> test_bit r buff' = test_bit r buff) /\
      (forall q, p <= q < p + Z.of_nat n -> r = raw q -> test_bit r buff' = v).
Proof using Hf Hblock Hmagic.
  revert p buff. induction n as [|n IH]; intros p buff Hp Hbits; simpl.
  { exists buff. split_and!; [done..|]. intros r Hr. split; [done|]. intros; lia. }
  destruct (Hbits p ltac:(lia)) as [Hlen Hbit]. pose proof (raw_nonneg p Hp) as Hraw.
  destruct (update_byte_defined (raw p) (f (raw p)) buff) as (old & b & Hu); [lia|]. rewrite Hu. simpl.
  assert (forall r, 0 <= r -> old = test_bit (raw p) buff /\ length b = length buff /\
    test_bit r b = if decide (r = raw p) then v else test_bit r buff) as Hb.
  { intros r Hr. eapply test_bit_update; [done| |done]. intros. by apply Hf. }
  destruct (Hb (raw p) Hraw) as (Hold & Hlb & _).
  replace (Bool.eqb old bad) with false by (rewrite Hold; unfold get_bit in Hbit; rewrite Hbit; by destruct bad).
  destruct (IH (p + 1) b) as (buff' & -> & Hl' & Hr'); [lia| |].
  { intros q Hq. rewrite Hlb. destruct (Hbits q ltac:(lia)) as [? Hq']. split; [done|]. rewrite <-Hq'. unfold get_bit.
    destruct (Hb (raw q)) as (_ & _ & ->); [apply raw_nonneg; lia|]. pose proof (raw_mono p q). rewrite decide_False by lia. done. }
  exists buff'. split; [done|]. split; [lia|]. intros r Hr. destruct (Hr' r Hr) as [Hout Hin].
  destruct (Hb r Hr) as (_ & _ & Hrb). split.
  - intros Hne. rewrite Hout, Hrb by (intros; apply Hne; lia). rewrite decide_False; [done|]. apply Hne. lia.
  - intros q Hq ->. destruct (decide (q = p)) as [->|]; [|by apply (Hin q); [lia|]].
    rewrite Hout, Hrb by (intros q' Hq'; pose proof (raw_mono p q'); lia). by rewrite decide_True.
Qed.

Lemma flat_run_fail n p q buff :
  0 <= p -> p <= q < p + Z.of_nat n -> get_bit q buff = bad ->
  (forall q', p <= q' <= q -> raw q' < 8 * Z.of_nat (length buff)) ->
  exists buff', flat_run n p buff = Ret (- EFAULT, buff').
Proof using Hf Hblock Hmagic.
  revert p buff. induction n as [|n IH]; intros p buff Hp Hq Hbad Hlen; simpl; [lia|].
  pose proof (raw_nonneg p Hp) as Hraw. pose proof (Hlen p ltac:(lia)).
  destruct (update_byte_defined (raw p) (f (raw p)) buff) as (old & b & Hu); [lia|]. rewrite Hu. simpl.
  assert (forall r, 0 <= r -> old = test_bit (raw p) buff /\ length b = length buff /\
    test_bit r b = if decide (r = raw p) then v else test_bit r buff) as Hb.
  { intros r Hr. eapply test_bit_update; [done| |done]. intros. by apply Hf. }
  destruct (Bool.eqb old bad) eqn:Hold; [by eexists|].
  destruct (Hb (raw p) Hraw) as (-> & Hlb & _).
  assert (p <> q). { intros ->. unfold get_bit in Hbad. rewrite Hbad, Bool.eqb_reflx in Hold. done. }
  apply IH; [lia..| |by setoid_rewrite Hlb; intros; apply Hlen; lia].
  unfold get_bit in *. destruct (Hb (raw q)) as (_ & _ & ->); [apply raw_nonneg; lia|].
  pose proof (raw_mono p q). by rewrite decide_False by lia.
Qed.
End ops.
End layout.

Definition set_f (r b : Z) : Z := Z.setbit b (r mod 8).
Definition clear_f (r b : Z) : Z := Z.clearbit b (r mod 8).

Lemma set_f_bit r b i : 0 <= r -> 0 <= i ->
  Z.testbit (set_f r b) i = if decide (i = r mod 8) then true else Z.testbit b i.
Proof.
  intros. unfold set_f. case_decide as Hi; [subst; apply Z.setbit_eq; lia|]. apply Z.setbit_neq; lia.
Qed.
Lemma clear_f_bit r b i : 0 <= r -> 0 <= i ->
  Z.testbit (clear_f r b) i = if decide (i = r mod 8) then false else Z.testbit b i.
Proof.
  intros. unfold clear_f. case_decide as Hi; [subst; apply Z.clearbit_eq|]. apply Z.clearbit_neq; lia.
Qed.

Section runs.
Context (magic_len block_size : Z).
Hypothesis Hmagic : 0 <= magic_len.
Hypothesis Hblock : magic_len + CRC32_SIZE < block_size.
Local Abbreviation ds := (dsize magic_len block_size).

(* From here on the divisor is not a constant. *)
#[local] Ltac Zify.zify_post_hook ::= idtac.

(** One turn of the outer loops at block [k] with [c] bits left from bit [p]. *)
Lemma block_turn k p c tot start offset :
  0 <= start <= k -> start = offset / ds -> 0 <= offset -> 0 < c -> p + c = tot ->
  p = (if decide (k = start) then offset else k * ds) ->
  let pos := if k * block_size =? start * block_size then Z.rem offset ds else 0 in
  p = k * ds + pos /\ 0 <= pos < ds /\
  (k * block_size <=? (tot - 1) / ds * block_size) = true /\
  (c <= ds - pos -> (tot - 1) / ds = k) /\
  (ds - pos < c -> k + 1 <= (tot - 1) / ds).
Proof using Hmagic Hblock.
  intros Hk Hstart Hoff Hc Htot Hp pos. pose proof (dsize_pos _ _ Hblock) as Hds.
  assert (0 < block_size) by (unfold CRC32_SIZE in *; lia).
  pose proof (Z.div_mod offset ds ltac:(lia)) as Hdm. pose proof (Z.mod_pos_bound offset ds Hds).
  assert (p = k * ds + pos /\ 0 <= pos < ds) as [Hpos Hb].
  { unfold pos. rewrite Z.rem_mod_nonneg by lia. destruct (Z.eqb_spec (k * block_size) (start * block_size)) as [He|He].
    - apply Z.mul_reg_r in He; [|lia]. rewrite decide_True in Hp by done. subst. lia.
    - rewrite decide_False in Hp by (intros ->; lia). lia. }
  split; [done|]. split; [done|]. split_and!.
  - apply Z.leb_le, Z.mul_le_mono_nonneg_r; [lia|]. apply Z.div_le_lower_bound; lia.
  - intros. symmetry. apply (Z.div_unique_pos _ _ _ (tot - 1 - k * ds)); lia.
  - intros. apply Z.div_le_lower_bound; lia.
Qed.

Context (op : Z -> Z -> buffer -> outcome (bool * buffer)) (bad : bool) (f : Z -> Z -> Z) (last_count : Z -> Z).
Hypothesis Hop : forall nr addr buff, op nr addr buff = update_byte (8 * addr + nr) (f (8 * addr + nr)) buff.

Lemma walk_blocks_flat fuel k p c tot start offset buff :
  0 <= start <= k -> start = offset / ds -> 0 <= offset -> 0 < c -> p + c = tot ->
  p = (if decide (k = start) then offset else k * ds) ->
  (tot - 1) / ds - k + 2 <= Z.of_nat fuel ->
  walk_blocks op bad last_count fuel (k * block_size) (start * block_size) ((tot - 1) / ds * block_size) offset c magic_len block_size buff =
  flat_run magic_len block_size bad f (Z.to_nat c) p buff.
Proof using Hmagic Hblock Hop.
  revert k p c buff. induction fuel as [|fuel IH]; intros k p c buff Hk Hs Ho Hc Ht Hp Hf.
  { destruct (block_turn k p c tot start offset) as (_ & ? & _ & H1 & H2); try done.
    destruct (Z.le_gt_cases c (ds - (if k * block_size =? start * block_size then Z.rem offset ds else 0))); lia. }
  simpl. destruct (block_turn k p c tot start offset) as (Hpos & Hb & -> & Hlast & Hmore); try done.
  rewrite (datablock_size_dsize magic_len block_size).
  set (pos := if k * block_size =? start * block_size then Z.rem offset ds else 0) in *.
  assert (forall c', k = (tot - 1) / ds -> forall b, (1 <= fuel)%nat ->
    walk_blocks op bad last_count fuel (k * block_size + block_size) (start * block_size) ((tot - 1) / ds * block_size) offset c' magic_len block_size b = Ret (0, b)) as Hend.
  { intros c' He b Hfu. destruct fuel; [lia|]. simpl. rewrite <-He.
    destruct (Z.leb_spec (k * block_size + block_size) (k * block_size)); [unfold CRC32_SIZE in *; lia|done]. }
  destruct (Z.ltb_spec c (ds - pos)) as [Hlt|Hge].
  - rewrite (run_bits_flat magic_len block_size op bad f Hop) by lia.
    rewrite <-Hpos. destruct (flat_run _ _ _ _ _ _ _) as [[e b]|]; simpl; [|done].
    destruct (Z.eqb_spec e 0) as [->|]; simpl; [|done]. apply Hend; [symmetry; apply Hlast; lia|lia].
  - rewrite (run_bits_flat magic_len block_size op bad f Hop) by lia.
    rewrite <-Hpos. replace (Z.to_nat c) with (Z.to_nat (ds - pos) + Z.to_nat (c - (ds - pos)))%nat by lia.
    rewrite flat_run_app. destruct (flat_run _ _ _ _ _ _ _) as [[e b]|]; simpl; [|done].
    destruct (Z.eqb_spec e 0) as [->|]; simpl; [|done].
    destruct (decide (c = ds - pos)) as [Heq|Hne].
    + rewrite Hend by (lia || symmetry; apply Hlast; lia). by replace (Z.to_nat (c - (ds - pos))) with O by lia.
    + replace (k * block_size + block_size) with ((k + 1) * block_size) by lia.
      rewrite (IH (k + 1) ((k + 1) * ds) (c - (ds - pos))); try lia.
      * f_equal. lia.
      * rewrite decide_False by lia. done.
Qed.
End runs.

(** ** The bitmap operations *)

Section bitmap.
Context (magic_len block_size : Z).
Hypothesis Hmagic : 0 <= magic_len.
Hypothesis Hblock : magic_len + CRC32_SIZE < block_size.
Local Abbreviation ds := (dsize magic_len block_size).
Local Abbreviation bit := (get_bit magic_len block_size).

Lemma bits_in_blocks_flat op bad f last_count buff offset count :
  (forall nr addr buff, op nr addr buff = update_byte (8 * addr + nr) (f (8 * addr + nr)) buff) ->
  0 <= offset -> 0 < count ->
  bits_in_blocks op bad last_count buff offset count magic_len block_size =
  flat_run magic_len block_size bad f (Z.to_nat count) offset buff.
Proof using Hmagic Hblock.
  intros Hop Ho Hc. pose proof (dsize_pos _ _ Hblock) as Hds. unfold bits_in_blocks.
  rewrite datablock_size_dsize, !Z.quot_div_nonneg by lia.
  assert ((offset + count - 1) / ds <= (offset + count) / ds) by (apply Z.div_le_mono; lia).
  assert (0 <= offset / ds) by (apply Z.div_pos; lia).
  apply (walk_blocks_flat magic_len block_size Hmagic Hblock op bad f last_count Hop); try done; try lia.
  by rewrite decide_True.
Qed.

(** The bits from [offset] to [offset + count] all have the value [v]. *)
Definition all_bits (v : bool) (offset count : Z) (buff : buffer) : Prop :=
  forall p, offset <= p < offset + count -> bit p buff = v.

(** [buff'] is [buff] with these bits at [v], and nothing else changed, be it
    another bit of the bitmap, a signature or a checksum. *)
Definition bits_updated (v : bool) (offset count : Z) (buff buff' : buffer) : Prop :=
  length buff' = length buff /\ all_bits v offset count buff' /\
  forall r, 0 <= r -> (forall p, offset <= p < offset + count -> r <> raw magic_len block_size p) ->
    test_bit r buff' = test_bit r buff.

Lemma bits_updated_bit v offset count buff buff' x :
  0 <= x -> 0 <= offset -> bits_updated v offset count buff buff' ->
  bit x buff' = if bool_decide (offset <= x < offset + count) then v else bit x buff.
Proof using Hmagic Hblock.
  intros Hx Ho (_ & Hin & Hout). case_bool_decide as Hr; [by apply Hin|].
  unfold get_bit. apply Hout; [by apply raw_nonneg|]. intros p Hp Heq.
  destruct (Z.lt_trichotomy x p) as [?|[?|?]]; [|lia|].
  - pose proof (raw_mono _ _ Hmagic Hblock x p). lia.
  - pose proof (raw_mono _ _ Hmagic Hblock p x). lia.
Qed.

Definition fits (offset count : Z) (buff : buffer) : Prop :=
  raw magic_len block_size (offset + count - 1) < 8 * Z.of_nat (length buff).

Lemma fits_raw offset count buff p :
  0 <= offset <= p -> p < offset + count -> fits offset count buff ->
  raw magic_len block_size p < 8 * Z.of_nat (length buff).
Proof using Hmagic Hblock.
  unfold fits. intros ? ? ?. destruct (decide (p = offset + count - 1)) as [->|]; [done|].
  pose proof (raw_mono _ _ Hmagic Hblock p (offset + count - 1)). lia.
Qed.

Lemma bits_in_blocks_ok op bad f v last_count buff offset count :
  (forall nr addr buff, op nr addr buff = update_byte (8 * addr + nr) (f (8 * addr + nr)) buff) ->
  (forall r b i, 0 <= r -> 0 <= i -> Z.testbit (f r b) i = if decide (i = r mod 8) then v else Z.testbit b i) ->
  0 <= offset -> 0 < count -> fits offset count buff ->
  (all_bits (negb bad) offset count buff -> exists buff',
     bits_in_blocks op bad last_count buff offset count magic_len block_size = Ret (0, buff') /\
     bits_updated v offset count buff buff') /\
  (~ all_bits (negb bad) offset count buff -> exists buff',
     bits_in_blocks op bad last_count buff offset count magic_len block_size = Ret (- EFAULT, buff')).
Proof using Hmagic Hblock.
  intros Hop Hf Ho Hc Hfit. rewrite (bits_in_blocks_flat op bad f) by done. split.
  - intros Hall. destruct (flat_run_ok magic_len block_size Hmagic Hblock bad f v Hf (Z.to_nat count) offset buff)
      as (buff' & -> & Hlen & Hr); [done| |].
    { intros p Hp. split; [eapply fits_raw; [..|done]; lia|]. apply Hall. lia. }
    exists buff'. split; [done|]. split; [done|]. split.
    + intros p Hp. destruct (Hr (raw magic_len block_size p)) as [_ Hin]; [apply raw_nonneg; lia|].
      apply (Hin p); [lia|done].
    + intros r Hr0 Hne. destruct (Hr r Hr0) as [Hout _]. apply Hout. intros q Hq. apply Hne. lia.
  - intros Hall.
    assert (Exists (fun i => bit (offset + Z.of_nat i) buff = bad) (seq 0 (Z.to_nat count))) as Hex.
    { destruct (decide (Exists (fun i => bit (offset + Z.of_nat i) buff = bad) (seq 0 (Z.to_nat count)))) as [|Hno]; [done|].
      destruct Hall. intros p Hp. apply not_Exists_Forall in Hno; [|solve_decision].
      assert (Z.to_nat (p - offset) ∈ seq 0 (Z.to_nat count)) as Hin by (apply elem_of_seq; lia).
      pose proof (proj1 (Forall_forall _ _) Hno _ Hin) as Hb. simpl in Hb.
      replace (offset + Z.of_nat (Z.to_nat (p - offset))) with p in Hb by lia.
      by destruct (bit p buff), bad. }
    apply Exists_exists in Hex as (i & Hi & Hbit). apply elem_of_seq in Hi.
    eapply flat_run_fail; [done..| |done|]; [lia|]. intros q' Hq'. eapply fits_raw; [..|done]; lia.
Qed.

(** ** The search *)

Context `{!BitSearch} `{Hlaws : !BitSearchLaws}.

Lemma in_block_ok buff addr size offset v :
  0 <= offset -> 0 <= size < 2 ^ 31 ->
  let r := __find_next_bit_in_block buff addr size offset magic_len v in
  (r = -1 /\ forall p, offset <= p < size -> test_bit (8 * (addr + magic_len) + p) buff = negb v) \/
  (offset <= r < size /\ test_bit (8 * (addr + magic_len) + r) buff = v /\
   forall p, offset <= p < r -> test_bit (8 * (addr + magic_len) + p) buff = negb v).
Proof using Hlaws.
  intros Ho Hs r. unfold r, __find_next_bit_in_block.
  set (x := if v then _ else _).
  assert (0 <= x <= size /\ first_bit v buff (addr + magic_len) size offset x) as [Hx [Hb Hf]].
  { unfold x. destruct v; [apply find_next_bit_spec | apply find_next_zero_bit_spec]; lia. }
  clearbody x. rewrite s32_small, u32_small by lia. destruct (Z.leb_spec size x).
  - left. split; [done|]. intros p Hp. apply Hb. lia.
  - right. destruct Hf as [? ?]; [lia|]. split; [lia|]. split; [done|]. intros p Hp. apply Hb. lia.
Qed.

(** The first bit of value [v] from [offset] on, [size] when there is none. *)
Definition first_from (v : bool) (buff : buffer) (size offset r : Z) : Prop :=
  r <= size /\ (forall p, offset <= p < r -> bit p buff = negb v) /\
  (r < size -> offset <= r /\ bit r buff = v).

Lemma bit_block k p buff : 0 <= p < ds -> bit (k * ds + p) buff = test_bit (8 * (k * block_size + magic_len) + p) buff.
Proof. intros. unfold get_bit. by rewrite raw_block. Qed.

Lemma find_next_loop_ok fuel buff size k io v :
  ds < 2 ^ 31 -> 0 < size < 2 ^ 32 -> 0 <= k -> 0 <= io < ds ->
  (0 < fuel)%nat -> (size - 1) / ds - k + 1 < Z.of_nat fuel ->
  exists r, find_next_loop fuel buff size k ((size - 1) / ds) ds io block_size magic_len v = Ret r /\
    first_from v buff size (k * ds + io) r.
Proof using Hmagic Hblock Hlaws.
  intros Hds Hsize. pose proof (dsize_pos _ _ Hblock) as Hpos.
  pose proof (Z.div_mod (size - 1) ds ltac:(lia)) as Hdm. pose proof (Z.mod_pos_bound (size - 1) ds Hpos) as Hmod.
  set (e := (size - 1) / ds) in *. clearbody e.
  revert k io. induction fuel as [|fuel IH]; intros k io Hk Hio Hf0 Hf; simpl; [lia|].
  destruct (Z.leb_spec k e) as [Hke|Hke].
    2: { exists size. split; [done|]. split; [lia|]. split; [|lia]. intros p Hp.
         assert (ds * (e + 1) <= k * ds) by nia. lia. }
    assert (k * ds <= size - 1) as Hks by nia.
    rewrite (u32_small (size - k * ds)) by nia.
    set (bs := if ds <? size - k * ds then ds else size - k * ds).
    assert (bs = Z.min ds (size - k * ds)) as Hbs by (unfold bs; destruct (Z.ltb_spec ds (size - k * ds)); lia).
    destruct (in_block_ok buff (k * block_size) bs io v) as [[-> Hnone]|(Hr & Hb & Hbelow)]; [lia|lia| |].
    + simpl. destruct (IH (k + 1) 0) as (r & -> & Hle & Hn & Hfd); [lia|lia|lia|lia|].
      exists r. split; [done|]. rewrite Z.add_0_r in *. split; [done|]. split.
      * intros p Hp. destruct (decide (p < (k + 1) * ds)); [|apply Hn; lia].
        replace p with (k * ds + (p - k * ds)) by lia. rewrite bit_block by lia. apply Hnone. lia.
      * intros Hrs. destruct (Hfd Hrs). split; [lia|done].
    + destruct (Z.ltb_spec (__find_next_bit_in_block buff (k * block_size) bs io magic_len v) 0); [lia|].
      set (r := __find_next_bit_in_block _ _ _ _ _ _) in *. clearbody r.
      exists (r + k * ds). split; [done|]. rewrite (Z.add_comm r). split; [lia|]. split.
      * intros p Hp. replace p with (k * ds + (p - k * ds)) by lia. rewrite bit_block by lia. apply Hbelow. lia.
      * intros _. rewrite bit_block by lia. split; [lia|done].
Qed.

Lemma __find_next_bit_ok buff size offset v :
  ds < 2 ^ 31 -> 0 < size < 2 ^ 32 -> 0 <= offset ->
  exists r, __find_next_bit buff size offset block_size magic_len v = Ret r /\ first_from v buff size offset r.
Proof using Hmagic Hblock Hlaws.
  intros Hds Hsize Hoff. unfold __find_next_bit. pose proof (dsize_pos _ _ Hblock) as Hpos.
  pose proof Hpos as Hpos'. unfold dsize in Hpos'.
  rewrite Z.shiftl_mul_pow2, Z.shiftr_div_pow2, u64_small by lia.
  replace ((block_size - (CRC32_SIZE + magic_len)) * 2 ^ 3) with ds by (unfold dsize; lia).
  assert (0 <= offset / 2 ^ 3) by (apply Z.div_pos; lia).
  rewrite !Z.quot_div_nonneg, Z.rem_mod_nonneg by lia.
  rewrite Z.div_div by lia.
  replace (2 ^ 3 * (block_size - (CRC32_SIZE + magic_len))) with ds by (unfold dsize; lia).
  pose proof (Z.div_mod offset ds ltac:(lia)) as Hdm. pose proof (Z.mod_pos_bound offset ds Hpos).
  assert (offset / ds * ds + offset mod ds = offset) as Heq by lia.
  assert (0 <= offset / ds) by (apply Z.div_pos; lia).
  destruct (find_next_loop_ok (S (Z.to_nat ((size - 1) / ds - offset / ds + 1))) buff size (offset / ds)
    (offset mod ds) v) as (r & Hr & Hf); try done; try lia.
  rewrite Heq in Hf. by exists r.
Qed.
End bitmap.
