(* ===== verification/Fsm.v ===== *)
(** * The free space manager ([fsm.c]) *)
From Stdlib Require Import ZArith Lia.
From stdpp Require Import base numbers list.
From S2P Require Import Prelude FsmTree Bits.

Definition PAGE_SHIFT : Z := 12.

(** [sizeof("fsmb") - 1 + VERSION_SIZE]. *)
Definition FSM_BMP_MAGIC_LEN : Z := 4 + VERSION_SIZE.

Definition VDFS2_BIT_BLKSIZE (x magic_len : Z) : Z := Z.shiftl (x - (magic_len + CRC32_SIZE)) 3.

(** The part of the superblock that does not change while mounted. *)
Record fsm_geometry := FsmGeometry {
  total_leb_count : Z;
  log_blocks_in_leb : Z;
  block_size : Z;
  block_size_shift : Z;
  log_block_size : Z;
  log_super_page_size : Z;
  log_erase_block_size : Z;
  erase_block_size : Z;
  log_erase_block_size_in_blocks : Z;
  erase_block_size_in_blocks : Z;
  page_count : Z;
  length_in_bytes : Z;
}.

(** [vdfs2_fsm_info] with the counters of the superblock it works on; [chunks]
    are the pages passed to [vdfs2_add_chunk_bitmap], oldest first. *)
Record vdfs2_fsm_info := FsmInfo {
  data : buffer;
  tree : vdfs2_fsm_btree;
  free_blocks_count : Z;
  next_free_blocks : Z;
  erase_blocks_counters : list Z;
  mount_finished : bool;
  chunks : list Z;
}.

Definition set_tree (f : vdfs2_fsm_info) t :=
  FsmInfo (data f) t (free_blocks_count f) (next_free_blocks f) (erase_blocks_counters f) (mount_finished f) (chunks f).
Definition set_data (f : vdfs2_fsm_info) d :=
  FsmInfo d (tree f) (free_blocks_count f) (next_free_blocks f) (erase_blocks_counters f) (mount_finished f) (chunks f).
Definition set_free_blocks_count (f : vdfs2_fsm_info) n :=
  FsmInfo (data f) (tree f) n (next_free_blocks f) (erase_blocks_counters f) (mount_finished f) (chunks f).
Definition set_next_free_blocks (f : vdfs2_fsm_info) n :=
  FsmInfo (data f) (tree f) (free_blocks_count f) n (erase_blocks_counters f) (mount_finished f) (chunks f).
Definition set_counters (f : vdfs2_fsm_info) c :=
  FsmInfo (data f) (tree f) (free_blocks_count f) (next_free_blocks f) c (mount_finished f) (chunks f).
Definition add_chunks (f : vdfs2_fsm_info) ps :=
  FsmInfo (data f) (tree f) (free_blocks_count f) (next_free_blocks f) (erase_blocks_counters f) (mount_finished f)
    (chunks f ++ ps).

(** The page of the bitmap that holds the bit of a block. *)
Definition bitmap_page (g : fsm_geometry) (block : Z) : Z :=
  Z.shiftr (u32 (Z.quot block (VDFS2_BIT_BLKSIZE (block_size g) FSM_BMP_MAGIC_LEN))) (PAGE_SHIFT - block_size_shift g).

Definition pages_between (start_page end_page : Z) : list Z := seqZ start_page (end_page - start_page + 1).

(** The counting loops over the blocks of an extent. *)
Fixpoint count_allocated (g : fsm_geometry) (n : nat) (block : Z) (counters : list Z) : outcome (list Z) :=
  match n with
  | O => Ret counters
  | S n =>
      let erase_block_num := Z.shiftr block (log_erase_block_size_in_blocks g) in
      c ← deref (counters !! Z.to_nat erase_block_num);
      let c := u32 (c + 1) in
      _ ← BUG_ON (erase_block_size_in_blocks g <? c);
      count_allocated g n (block + 1) (<[Z.to_nat erase_block_num := c]> counters)
  end.

Fixpoint count_freed (g : fsm_geometry) (n : nat) (block : Z) (counters : list Z) : outcome (list Z) :=
  match n with
  | O => Ret counters
  | S n =>
      let erase_block_num := Z.shiftr (u32 block) (log_erase_block_size_in_blocks g) in
      c ← deref (counters !! Z.to_nat erase_block_num);
      count_freed g n (block + 1) (<[Z.to_nat erase_block_num := u32 (c - 1)]> counters)
  end.

Definition total_blocks (g : fsm_geometry) : Z := Z.shiftl (total_leb_count g) (log_blocks_in_leb g).

(** The search in the tree, with the trimming of an aligned request. *)
Definition find_extent (g : fsm_geometry) (fsm : vdfs2_fsm_info) (block_offset length_in_blocks : Z)
    (alignment : bool) (m : memory) : outcome (Z * Z * vdfs2_fsm_info * memory) :=
  if alignment then
    let blocks_per_superpage := Z.shiftl 1 (log_super_page_size g - log_block_size g) in
    let length := u32 (length_in_blocks + blocks_per_superpage) in
    _ ← BUG_ON (negb (Z.land length_in_blocks (blocks_per_superpage - 1) =? 0));
    '(block_offset, length, t, m) ← fsm_btree_lookup (tree fsm) block_offset length false m;
    if block_offset =? 0 then Ret (0, length_in_blocks, set_tree fsm t, m)
    else
      _ ← BUG_ON (negb (length =? u32 (length_in_blocks + blocks_per_superpage)));
      let additional_offset := Z.land block_offset (blocks_per_superpage - 1) in
      if additional_offset =? 0 then
        '(_, t, m) ← fsm_btree_free t (block_offset + length_in_blocks) blocks_per_superpage m;
        Ret (block_offset, length_in_blocks, set_tree fsm t, m)
      else
        let cut_left := blocks_per_superpage - additional_offset in
        '(_, t, m) ← fsm_btree_free t block_offset cut_left m;
        let block_offset := block_offset + cut_left in
        '(_, t, m) ← fsm_btree_free t (block_offset + length_in_blocks) additional_offset m;
        Ret (block_offset, length_in_blocks, set_tree fsm t, m)
  else
    '(block_offset, length, t, m) ← fsm_btree_lookup (tree fsm) block_offset length_in_blocks true m;
    Ret (block_offset, length, set_tree fsm t, m).

(** The result is the block (0: none), the new [*length_in_blocks] and the state. *)
Definition vdfs2_fsm_get_free_block (g : fsm_geometry) (fsm : vdfs2_fsm_info) (block_offset length_in_blocks : Z)
    (alignment da : bool) (m : memory) : outcome (Z * Z * vdfs2_fsm_info * memory) :=
  let block_offset := if total_blocks g <=? block_offset + length_in_blocks then 0 else block_offset in
  if (free_blocks_count fsm <? length_in_blocks) && negb da then Ret (0, length_in_blocks, fsm, m)
  else
    '(block_offset, length_in_blocks, fsm, m) ← find_extent g fsm block_offset length_in_blocks alignment m;
    if block_offset =? 0 then Ret (0, length_in_blocks, fsm, m)
    else
      let fsm := if da then fsm else set_free_blocks_count fsm (free_blocks_count fsm - length_in_blocks) in
      _ ← BUG_ON (Z.shiftl (length_in_bytes g) 3 <? block_offset + length_in_blocks);
      '(err, d) ← vdfs2_set_bits (data fsm) (Z.shiftl (page_count g) PAGE_SHIFT) block_offset length_in_blocks
                    FSM_BMP_MAGIC_LEN (block_size g);
      _ ← BUG_ON (negb (err =? 0));
      counters ← count_allocated g (Z.to_nat length_in_blocks) block_offset (erase_blocks_counters fsm);
      Ret (block_offset, length_in_blocks,
           add_chunks (set_counters (set_data fsm d) counters)
             (pages_between (bitmap_page g block_offset) (bitmap_page g (block_offset + length_in_blocks))), m).

Definition fsm_free_block_chunk (g : fsm_geometry) (fsm : vdfs2_fsm_info) (block_offset length_in_blocks : Z)
    : outcome (Z * vdfs2_fsm_info) :=
  if Z.shiftl (length_in_bytes g) 3 <? block_offset + length_in_blocks then
    if mount_finished fsm then Bug else Ret (0, fsm)
  else
    '(err, d) ← vdfs2_clear_bits (data fsm) (Z.shiftl (page_count g) PAGE_SHIFT) block_offset length_in_blocks
                  FSM_BMP_MAGIC_LEN (block_size g);
    let fsm := set_data fsm d in
    if negb (err =? 0) then if mount_finished fsm then Bug else Ret (err, fsm)
    else
      counters ← count_freed g (Z.to_nat length_in_blocks) block_offset (erase_blocks_counters fsm);
      Ret (0, add_chunks (set_counters (set_next_free_blocks fsm (u32 (next_free_blocks fsm + length_in_blocks))) counters)
                (pages_between (bitmap_page g block_offset) (bitmap_page g (block_offset + length_in_blocks)))).

(** Blocks set aside for a file: start and count. *)
Definition vdfs2_fsm_discard_preallocation (fsm : vdfs2_fsm_info) (prealloc_start_block prealloc_block_count : Z)
    (m : memory) : outcome (Z * Z * vdfs2_fsm_info * memory) :=
  if negb (prealloc_start_block =? 0) && negb (prealloc_block_count =? 0) then
    '(_, t, m) ← fsm_btree_free (tree fsm) prealloc_start_block prealloc_block_count m;
    Ret (0, 0, set_tree fsm t, m)
  else Ret (prealloc_start_block, prealloc_block_count, fsm, m).

(** ** Building the tree from the bitmap *)

Definition fsm_insert (fsm : vdfs2_fsm_info) (block_offset length : Z) (m : memory)
    : outcome (Z * vdfs2_fsm_info * memory) :=
  _ ← BUG_ON (length =? 0);
  '(err, t, m) ← fsm_btree_insert (tree fsm) (Key block_offset length) m;
  let fsm := set_tree fsm t in
  if negb (err =? 0) then Ret (-1, fsm, m)
  else Ret (0, set_free_blocks_count fsm (s64 (free_blocks_count fsm + s64 length)), m).

Fixpoint count_used (g : fsm_geometry) (n : nat) (block : Z) (counters : list Z) : outcome (list Z) :=
  match n with
  | O => Ret counters
  | S n =>
      let i := Z.to_nat (Z.shiftr (Z.shiftl block (block_size_shift g)) (log_erase_block_size g)) in
      c ← deref (counters !! i);
      count_used g n (block + 1) (<[i := u32 (c + 1)]> counters)
  end.

Inductive find_mode := FIND_CLEAR_BIT | FIND_SET_BIT.

Section get_tree.
Context `{!BitSearch}.

Fixpoint get_tree_loop (fuel : nat) (g : fsm_geometry) (fsm : vdfs2_fsm_info) (mode : find_mode)
    (free_start pos : Z) (m : memory) : outcome (Z * vdfs2_fsm_info * memory) :=
  let bits_count := total_blocks g in
  match fuel with
  | O => Bug
  | S fuel =>
      if pos + 1 <? bits_count then
        match mode with
        | FIND_CLEAR_BIT =>
            free_start ← vdfs2_find_next_zero_bit (data fsm) bits_count pos (block_size g) FSM_BMP_MAGIC_LEN;
            counters ← count_used g (Z.to_nat (free_start - pos)) pos (erase_blocks_counters fsm);
            get_tree_loop fuel g (set_counters fsm counters) FIND_SET_BIT free_start free_start m
        | FIND_SET_BIT =>
            free_end ← vdfs2_find_next_bit (data fsm) bits_count pos (block_size g) FSM_BMP_MAGIC_LEN;
            '(ret, fsm, m) ← fsm_insert fsm free_start (u64 (free_end - free_start)) m;
            if negb (ret =? 0) then Ret (ret, fsm, m)
            else get_tree_loop fuel g fsm FIND_CLEAR_BIT free_start free_end m
        end
      else
        match mode with
        | FIND_SET_BIT =>
            if free_start <? bits_count then
              '(_, fsm, m) ← fsm_insert fsm free_start (u64 (pos - 1 - free_start)) m; Ret (0, fsm, m)
            else Ret (0, fsm, m)
        | FIND_CLEAR_BIT => Ret (0, fsm, m)
        end
  end.

Definition fsm_get_tree (g : fsm_geometry) (fsm : vdfs2_fsm_info) (m : memory) : outcome (Z * vdfs2_fsm_info * memory) :=
  let total_size := total_blocks g * block_size g in
  let size := Z.to_nat (Z.shiftr total_size (log_erase_block_size g) + 1) in
  get_tree_loop (S (S (Z.to_nat (2 * total_blocks g)))) g (set_counters fsm (replicate size 0)) FIND_CLEAR_BIT 0 0 m.
End get_tree.

(** The end of [vdfs2_fsm_build_management] and the way a commit starts over. *)
Definition fsm_rebuild `{!BitSearch} (g : fsm_geometry) (fsm : vdfs2_fsm_info) (m : memory)
    : outcome (Z * vdfs2_fsm_info * memory) :=
  '(_, t) ← fsm_btree_destroy (tree fsm);
  fsm_get_tree g (set_next_free_blocks (set_free_blocks_count (set_tree fsm t) 0) 0) m.

(** [fsm->length_in_bytes] and [fsm->page_count] of [vdfs2_fsm_build_management]. *)
Definition bitmap_length_in_bytes (lebs_bm_blocks_count block_size lebs_bm_bits_in_last_block : Z) : Z :=
  (lebs_bm_blocks_count - 1) * block_size + Z.shiftr (lebs_bm_bits_in_last_block + 7) 3.
Definition bitmap_page_count (lebs_bm_blocks_count block_size_shift : Z) : Z :=
  Z.shiftr (Z.shiftl lebs_bm_blocks_count block_size_shift + Z.shiftl 1 PAGE_SHIFT - 1) PAGE_SHIFT.
