(* ===== verification/FsmFacts.v ===== *)
(** * Correctness of the free space manager: no block is given out twice *)
From Stdlib Require Import ZArith Lia.
From stdpp Require Import base numbers list.
From S2P Require Import Prelude FsmTree FsmTreeFacts FsmTreeDelete FsmTreeSpec Bits BitsFacts Fsm.

(** ** Counting used blocks *)

Fixpoint count_true (f : Z -> bool) (lo : Z) (n : nat) : Z :=
  match n with
  | O => 0
  | S n => (if f lo then 1 else 0) + count_true f (lo + 1) n
  end.

Lemma count_true_bound f lo n : 0 <= count_true f lo n <= Z.of_nat n.
Proof. revert lo. induction n as [|n IH]; intros lo; simpl; [lia|]. specialize (IH (lo + 1)). case_match; lia. Qed.

Lemma count_true_ext f f' lo n :
  (forall x, lo <= x < lo + Z.of_nat n -> f' x = f x) -> count_true f' lo n = count_true f lo n.
Proof.
  revert lo. induction n as [|n IH]; intros lo Hf; simpl; [done|].
  rewrite (Hf lo) by lia. f_equal. apply IH. intros. apply Hf. lia.
Qed.

Lemma count_true_flip f f' x lo n :
  f x = false -> f' x = true -> (forall y, y <> x -> f' y = f y) ->
  count_true f' lo n = count_true f lo n + (if bool_decide (lo <= x < lo + Z.of_nat n) then 1 else 0).
Proof.
  intros Hx Hx' Hne. revert lo. induction n as [|n IH]; intros lo; simpl; [rewrite bool_decide_false by lia; lia|].
  rewrite IH. destruct (decide (lo = x)) as [->|Hlo].
  - rewrite Hx, Hx', bool_decide_false, bool_decide_true by lia. lia.
  - rewrite Hne by done. destruct (bool_decide_reflect (lo + 1 <= x < lo + 1 + Z.of_nat n)).
    + rewrite bool_decide_true by lia. lia.
    + rewrite bool_decide_false by lia. lia.
Qed.

(** Each counter is the number of used blocks of its erase block. *)
Definition counters_ok (L : Z) (f : Z -> bool) (counters : list Z) : Prop :=
  forall e c, counters !! e = Some c -> c = count_true f (Z.of_nat e * 2 ^ L) (Z.to_nat (2 ^ L)).

Lemma counters_ok_ext L f f' cs : (forall x, 0 <= x -> f' x = f x) -> 0 <= L -> counters_ok L f cs -> counters_ok L f' cs.
Proof.
  intros Hf HL Hc e c Hec. rewrite (Hc e c Hec). symmetry. apply count_true_ext. intros. apply Hf. nia.
Qed.

Lemma counters_flip L f f' x cs c :
  0 <= L -> 0 <= x -> f x = false -> f' x = true -> (forall y, y <> x -> f' y = f y) ->
  counters_ok L f cs -> cs !! Z.to_nat (x / 2 ^ L) = Some c ->
  counters_ok L f' (<[Z.to_nat (x / 2 ^ L) := c + 1]> cs) /\ 0 <= c /\ c + 1 <= 2 ^ L.
Proof.
  intros HL Hx Hf Hf' Hne Hcs Hc. pose proof (Z.pow_pos_nonneg 2 L ltac:(lia) HL) as Hp.
  pose proof (Z.div_mod x (2 ^ L) ltac:(lia)) as Hdm. pose proof (Z.mod_pos_bound x (2 ^ L) Hp).
  assert (0 <= x / 2 ^ L) by (apply Z.div_pos; lia).
  pose proof (Hcs _ _ Hc) as Hcc. rewrite Z2Nat.id in Hcc by done.
  split.
  - intros e c' Hec. rewrite (count_true_flip f f' x) by done.
    destruct (decide (e = Z.to_nat (x / 2 ^ L))) as [->|He].
    + rewrite list_lookup_insert_eq in Hec by (by eapply lookup_lt_Some). injection Hec as <-.
      rewrite !Z2Nat.id by lia. rewrite bool_decide_true by lia. lia.
    + rewrite list_lookup_insert_ne in Hec by done. rewrite (Hcs _ _ Hec), bool_decide_false; [lia|].
      rewrite Z2Nat.id by lia. intros Hr. destruct He.
      assert (Z.of_nat e = x / 2 ^ L) as <-; [|lia]. apply (Z.div_unique_pos _ _ _ (x - Z.of_nat e * 2 ^ L)); lia.
  - pose proof (count_true_flip f f' x (x / 2 ^ L * 2 ^ L) (Z.to_nat (2 ^ L)) Hf Hf' Hne) as Hflip.
    pose proof (count_true_bound f' (x / 2 ^ L * 2 ^ L) (Z.to_nat (2 ^ L))).
    pose proof (count_true_bound f (x / 2 ^ L * 2 ^ L) (Z.to_nat (2 ^ L))).
    rewrite bool_decide_true in Hflip by lia. lia.
Qed.

Lemma counters_unflip L f f' x cs c :
  0 <= L -> 0 <= x -> f x = false -> f' x = true -> (forall y, y <> x -> f' y = f y) ->
  counters_ok L f' cs -> cs !! Z.to_nat (x / 2 ^ L) = Some c ->
  counters_ok L f (<[Z.to_nat (x / 2 ^ L) := c - 1]> cs) /\ 0 < c <= 2 ^ L.
Proof.
  intros HL Hx Hf Hf' Hne Hcs Hc. pose proof (Z.pow_pos_nonneg 2 L ltac:(lia) HL) as Hp.
  pose proof (Z.div_mod x (2 ^ L) ltac:(lia)) as Hdm. pose proof (Z.mod_pos_bound x (2 ^ L) Hp).
  assert (0 <= x / 2 ^ L) by (apply Z.div_pos; lia).
  pose proof (Hcs _ _ Hc) as Hcc. rewrite Z2Nat.id in Hcc by done.
  pose proof (count_true_flip f f' x (x / 2 ^ L * 2 ^ L) (Z.to_nat (2 ^ L)) Hf Hf' Hne) as Hflip.
  pose proof (count_true_bound f' (x / 2 ^ L * 2 ^ L) (Z.to_nat (2 ^ L))).
  pose proof (count_true_bound f (x / 2 ^ L * 2 ^ L) (Z.to_nat (2 ^ L))).
  rewrite bool_decide_true in Hflip by lia. split; [|lia].
  intros e c' Hec. destruct (decide (e = Z.to_nat (x / 2 ^ L))) as [->|He].
  - rewrite list_lookup_insert_eq in Hec by (by eapply lookup_lt_Some). injection Hec as <-.
    rewrite Z2Nat.id by lia. lia.
  - rewrite list_lookup_insert_ne in Hec by done.
    rewrite (Hcs _ _ Hec), (count_true_flip f f' x), bool_decide_false; try done; [lia|].
    rewrite Z2Nat.id by lia. intros Hr. destruct He.
    assert (Z.of_nat e = x / 2 ^ L) as <-; [|lia]. apply (Z.div_unique_pos _ _ _ (x - Z.of_nat e * 2 ^ L)); lia.
Qed.

(** ** The invariant *)

Record geometry_ok (g : fsm_geometry) : Prop := {
  geom_block : FSM_BMP_MAGIC_LEN + CRC32_SIZE < block_size g < 2 ^ 24;
  geom_total : 0 < total_blocks g < 2 ^ 32;
  geom_bitmap : total_blocks g <= Z.shiftl (length_in_bytes g) 3;
  geom_log : 0 <= log_erase_block_size_in_blocks g < 32;
  geom_erase : erase_block_size_in_blocks g = 2 ^ log_erase_block_size_in_blocks g;
}.

Abbreviation used g fsm := (fun x => get_bit FSM_BMP_MAGIC_LEN (block_size g) x (data fsm)).

(** The used blocks of the volume. *)
Abbreviation owned g fsm := (fun x => used g fsm x && (x <? total_blocks g)).

Record fsm_inv (g : fsm_geometry) (fsm : vdfs2_fsm_info) : Prop := {
  inv_fits : fits FSM_BMP_MAGIC_LEN (block_size g) 0 (total_blocks g) (data fsm);
  inv_tree : tree_ok 32 (tree fsm);
  inv_free : forall x, blocks (tree fsm) x -> 0 < x < total_blocks g /\ used g fsm x = false;
  inv_size : total_blocks g <= Z.of_nat (length (erase_blocks_counters fsm)) * 2 ^ log_erase_block_size_in_blocks g;
  inv_counters : counters_ok (log_erase_block_size_in_blocks g) (owned g fsm) (erase_blocks_counters fsm);
}.

Section facts.
Context (g : fsm_geometry) (Hg : geometry_ok g).
Local Abbreviation L := (log_erase_block_size_in_blocks g).
Local Abbreviation magic := FSM_BMP_MAGIC_LEN.
Local Abbreviation bsize := (block_size g).

Definition add_range (f : Z -> bool) (lo : Z) (n : nat) (x : Z) : bool :=
  f x || bool_decide (lo <= x < lo + Z.of_nat n).

Lemma count_allocated_ok n block f cs :
  0 <= block -> block + Z.of_nat n <= Z.of_nat (length cs) * 2 ^ L ->
  (forall x, block <= x < block + Z.of_nat n -> f x = false) -> counters_ok L f cs ->
  exists cs', count_allocated g n block cs = Ret cs' /\ length cs' = length cs /\
    counters_ok L (add_range f block n) cs'.
Proof using Hg.
  pose proof (geom_log g Hg) as HL. pose proof (geom_erase g Hg) as He.
  pose proof (Z.pow_pos_nonneg 2 L ltac:(lia) ltac:(lia)) as Hp.
  revert block f cs. induction n as [|n IH]; intros block f cs Hb Hlen Hf Hc; simpl.
  { exists cs. split_and!; try done. eapply counters_ok_ext; [..|exact Hc]; [|lia].
    intros x _. unfold add_range. by rewrite bool_decide_false, orb_false_r by lia. }
  rewrite Z.shiftr_div_pow2 by lia.
  assert (block / 2 ^ L < Z.of_nat (length cs)) by (apply Z.div_lt_upper_bound; lia).
  assert (0 <= block / 2 ^ L) by (apply Z.div_pos; lia).
  destruct (lookup_lt_is_Some_2 cs (Z.to_nat (block / 2 ^ L))) as [c Hcl]; [lia|]. rewrite Hcl. simpl.
  destruct (counters_flip L f (add_range f block 1) block cs c) as (Hc' & ? & ?); try done; try lia.
  { apply Hf. lia. }
  { unfold add_range. rewrite bool_decide_true by lia. apply orb_true_r. }
  { intros y Hy. unfold add_range. by rewrite bool_decide_false, orb_false_r by lia. }
  assert (2 ^ L < 2 ^ 32) by (apply Z.pow_lt_mono_r; lia).
  rewrite u32_small by lia. rewrite He. destruct (Z.ltb_spec (2 ^ L) (c + 1)); [lia|]. simpl.
  destruct (IH (block + 1) (add_range f block 1) (<[Z.to_nat (block / 2 ^ L) := c + 1]> cs)) as (cs' & -> & Hl & Hcs');
    [lia|rewrite length_insert; lia| |done|].
  { intros x Hx. unfold add_range. rewrite Hf, bool_decide_false by lia. done. }
  exists cs'. split; [done|]. split; [by rewrite Hl, length_insert|].
  eapply counters_ok_ext; [..|exact Hcs']; [|lia]. intros x _. unfold add_range. rewrite <-orb_assoc. f_equal.
  destruct (bool_decide_reflect (block <= x < block + Z.of_nat 1)).
  - by rewrite bool_decide_true by lia.
  - simpl. apply bool_decide_ext. lia.
Qed.

Lemma count_freed_ok n block f cs :
  0 <= block -> block + Z.of_nat n < 2 ^ 32 -> block + Z.of_nat n <= Z.of_nat (length cs) * 2 ^ L ->
  (forall x, block <= x < block + Z.of_nat n -> f x = false) -> counters_ok L (add_range f block n) cs ->
  exists cs', count_freed g n block cs = Ret cs' /\ length cs' = length cs /\ counters_ok L f cs'.
Proof using Hg.
  pose proof (geom_log g Hg) as HL. pose proof (Z.pow_pos_nonneg 2 L ltac:(lia) ltac:(lia)) as Hp.
  revert block cs. induction n as [|n IH]; intros block cs Hb H32 Hlen Hf Hc; simpl.
  { exists cs. split_and!; try done. eapply counters_ok_ext; [..|exact Hc]; [|lia].
    intros x _. unfold add_range. by rewrite bool_decide_false, orb_false_r by lia. }
  rewrite u32_small, Z.shiftr_div_pow2 by lia.
  assert (block / 2 ^ L < Z.of_nat (length cs)) by (apply Z.div_lt_upper_bound; lia).
  assert (0 <= block / 2 ^ L) by (apply Z.div_pos; lia).
  destruct (lookup_lt_is_Some_2 cs (Z.to_nat (block / 2 ^ L))) as [c Hcl]; [lia|]. rewrite Hcl. simpl.
  destruct (counters_unflip L (add_range f (block + 1) n) (add_range f block (S n)) block cs c) as (Hc' & ?); try done; try lia.
  { unfold add_range. rewrite Hf, bool_decide_false by lia. done. }
  { unfold add_range. rewrite bool_decide_true by lia. apply orb_true_r. }
  { intros y Hy. unfold add_range. f_equal. apply bool_decide_ext. lia. }
  assert (2 ^ L < 2 ^ 32) by (apply Z.pow_lt_mono_r; lia). rewrite u32_small by lia.
  destruct (IH (block + 1) (<[Z.to_nat (block / 2 ^ L) := c - 1]> cs)) as (cs' & -> & Hl & Hcs');
    [lia|lia|rewrite length_insert; lia| |done|].
  { intros x Hx. apply Hf. lia. }
  exists cs'. split; [done|]. split; [by rewrite Hl, length_insert|done].
Qed.

(** ** Finding an extent *)

Lemma apart_sub l off len off' len' : apart l off len -> off <= off' -> off' + len' <= off + len -> apart l off' len'.
Proof. intros Ha ? ? x Hx. apply Ha. lia. Qed.

(** What [find_extent] does to the tree: it takes an extent out of it. *)
Definition extent_taken (t t' : vdfs2_fsm_btree) (start len : Z) : Prop :=
  tree_ok 32 t' /\ apart (tree_elements t') start len /\
  forall x, blocks t x <-> blocks t' x \/ start <= x < start + len.

Lemma blocks_valid t x : tree_ok 32 t -> blocks t x -> 0 < x /\ x + 1 < 2 ^ 64.
Proof.
  intros (_ & _ & He) (k & Hk & Hx). apply (extents_ok_valid _ _ He) in Hk. unfold valid, key_end in *. lia.
Qed.

Lemma free_within t t' start len off n :
  extent_taken t t' start len -> tree_ok 32 t -> 0 < n -> start <= off -> off + n <= start + len ->
  exists t'', fsm_btree_free t' off n [] = Ret (0, t'', []) /\ tree_ok 32 t'' /\
    forall x, blocks t'' x <-> blocks t' x \/ off <= x < off + n.
Proof.
  intros (Ht' & Ha & Hb) Ht Hn Hlo Hhi. apply fsm_btree_free_ok; [lia|done| |by eapply apart_sub].
  pose proof (blocks_valid t off Ht) as H1. pose proof (blocks_valid t (off + n - 1) Ht) as H2.
  rewrite Hb in H1, H2. unfold valid, key_end. simpl. lia.
Qed.

(** A request for an aligned extent: a power of two of blocks. *)
Record request_ok (alignment : bool) (len : Z) : Prop := {
  req_len : 0 < len < 2 ^ 31;
  req_align : alignment = true -> 0 <= log_super_page_size g - log_block_size g < 31 /\
    len mod 2 ^ (log_super_page_size g - log_block_size g) = 0 /\
    len + 2 ^ (log_super_page_size g - log_block_size g) < 2 ^ 32;
}.

Definition found (alignment : bool) (len : Z) (fsm : vdfs2_fsm_info) (r : outcome (Z * Z * vdfs2_fsm_info * memory)) : Prop :=
  exists start len' t', r = Ret (start, len', set_tree fsm t', []) /\
    ((start = 0 /\ len' = len /\ t' = tree fsm) \/
     (0 < start /\ 0 < len' <= len /\ extent_taken (tree fsm) t' start len' /\
      (alignment = true -> len' = len /\ start mod 2 ^ (log_super_page_size g - log_block_size g) = 0))).

Lemma find_plain_ok fsm off len :
  tree_ok 32 (tree fsm) -> request_ok false len -> found false len fsm (find_extent g fsm off len false []).
Proof using Type.
  intros Ht [Hlen _]. unfold find_extent.
  destruct (fsm_btree_lookup_ok 32 ltac:(lia) (tree fsm) off len true Ht) as (start & len' & t' & -> & Ht' & Hr); [lia|].
  exists start, len', t'. split; [done|].
  destruct Hr as [(-> & -> & -> & _)|(? & ? & _ & Hb & Ha)]; [by left|right]. done.
Qed.

Lemma find_aligned_ok fsm off len :
  tree_ok 32 (tree fsm) -> request_ok true len -> found true len fsm (find_extent g fsm off len true []).
Proof using Type.
  intros Ht [Hlen Hal]. destruct (Hal eq_refl) as (Hk & Hmod & Hmax). clear Hal. unfold find_extent.
  set (k := log_super_page_size g - log_block_size g) in *. rewrite Z.shiftl_1_l.
  pose proof (Z.pow_pos_nonneg 2 k ltac:(lia) ltac:(lia)) as Hp.
  rewrite <-(Z.ones_equiv k) at 1. rewrite Z.land_ones, Hmod by lia.
  assert (Z.pred (2 ^ k) = 2 ^ k - 1) as Hpred by lia. 
  cbn [Z.eqb negb BUG_ON mbind outcome_bind]. rewrite u32_small by lia.
  destruct (fsm_btree_lookup_ok 32 ltac:(lia) (tree fsm) off (len + 2 ^ k) false Ht)
    as (start & len' & t' & -> & Ht' & Hr); [lia|]. cbn [mbind outcome_bind].
  destruct Hr as [(-> & -> & -> & _)|(Hst & Hl' & Heq & Hb & Ha)].
  { exists 0, len, (tree fsm). split; [done|]. by left. }
  rewrite (Heq eq_refl) in *. clear Heq len'.
  destruct (Z.eqb_spec start 0); [lia|]. rewrite Z.eqb_refl. cbn [negb BUG_ON mbind outcome_bind].
  rewrite <-Hpred, <-Z.ones_equiv, Z.land_ones by lia.
  assert (extent_taken (tree fsm) t' start (len + 2 ^ k)) as Htaken by done.
  pose proof (Z.mod_pos_bound start (2 ^ k) Hp). pose proof (Z.div_mod start (2 ^ k) ltac:(lia)) as Hdm.
  destruct (Z.eqb_spec (start mod 2 ^ k) 0) as [Hz|Hnz].
  - destruct (free_within (tree fsm) t' start (len + 2 ^ k) (start + len) (2 ^ k) Htaken Ht) as (t2 & -> & Ht2 & Hb2);
      [lia..|]. cbn [mbind outcome_bind].
    exists start, len, t2. split; [done|]. right. split; [done|]. split; [lia|]. split; [|done].
    split; [done|]. split.
    + intros x Hx Hc. apply Hb2 in Hc as [Hc|?]; [|lia]. apply (Ha x); [lia|done].
    + intros x. rewrite Hb, Hb2. split; intros Hx; decompose [or] Hx; auto; lia.
  - set (a := start mod 2 ^ k) in *.
    destruct (free_within (tree fsm) t' start (len + 2 ^ k) start (2 ^ k - a) Htaken Ht) as (t2 & -> & Ht2 & Hb2);
      [lia..|]. cbn [mbind outcome_bind].
    assert (extent_taken (tree fsm) t2 (start + (2 ^ k - a)) (len + a)) as Htaken2.
    { split; [done|]. split.
      - intros x Hx Hc. apply Hb2 in Hc as [Hc|?]; [|lia]. apply (Ha x); [lia|done].
      - intros x. rewrite Hb, Hb2. split; intros Hx; decompose [or] Hx; auto; lia. }
    destruct (free_within (tree fsm) t2 _ _ (start + (2 ^ k - a) + len) a Htaken2 Ht) as (t3 & -> & Ht3 & Hb3);
      [lia..|]. cbn [mbind outcome_bind]. destruct Htaken2 as (_ & Ha2 & Hbb2).
    exists (start + (2 ^ k - a)), len, t3. split; [done|]. right. split; [lia|]. split; [lia|]. split.
    + split; [done|]. split.
      * intros x Hx Hc. apply Hb3 in Hc as [Hc|?]; [|lia]. apply (Ha2 x); [lia|done].
      * intros x. rewrite Hbb2, Hb3. split; intros Hx; decompose [or] Hx; auto; lia.
    + intros _. split; [done|]. replace (start + (2 ^ k - a)) with ((start / 2 ^ k + 1) * 2 ^ k) by lia.
      apply Z.mod_mul. lia.
Qed.

(** ** Allocation *)

Lemma magic_nonneg : 0 <= magic.
Proof. done. Qed.
Lemma block_large : magic + CRC32_SIZE < bsize.
Proof using Hg. apply (geom_block g Hg). Qed.

Lemma used_updated v off n fsm d x :
  0 <= x -> 0 <= off -> bits_updated magic bsize v off n (data fsm) d ->
  used g (set_data fsm d) x = if bool_decide (off <= x < off + n) then v else used g fsm x.
Proof using Hg. intros. cbn [data set_data]. by apply bits_updated_bit; [apply magic_nonneg|apply block_large|..]. Qed.

Lemma fits_part off n d :
  fits magic bsize 0 (total_blocks g) d -> 0 <= off -> 0 < n -> off + n <= total_blocks g -> fits magic bsize off n d.
Proof using Hg.
  intros Hf ? ? ?. unfold fits at 1. apply (fits_raw magic bsize magic_nonneg block_large 0 (total_blocks g)); [lia..|done].
Qed.

Lemma fits_length n d d' : length d' = length d -> fits magic bsize 0 n d -> fits magic bsize 0 n d'.
Proof. unfold fits. by intros ->. Qed.

(** What is in the tree is in range and free, so this holds of what is taken from it. *)
Lemma taken_range fsm t' start len :
  fsm_inv g fsm -> extent_taken (tree fsm) t' start len -> 0 < len ->
  0 < start /\ start + len <= total_blocks g /\ forall x, start <= x < start + len -> used g fsm x = false.
Proof.
  intros Hinv (_ & _ & Hb) Hlen.
  assert (forall x, start <= x < start + len -> 0 < x < total_blocks g /\ used g fsm x = false) as Hx.
  { intros x Hx. apply (inv_free g fsm Hinv), Hb. by right. }
  destruct (Hx start) as [? _]; [lia|]. destruct (Hx (start + len - 1)) as [? _]; [lia|].
  split; [lia|]. split; [lia|]. intros x ?. by apply Hx.
Qed.

Definition allocated (da alignment : bool) (len : Z) (fsm fsm' : vdfs2_fsm_info) (start len' : Z) : Prop :=
  0 < start /\ 0 < len' <= len /\ start + len' <= total_blocks g /\
  (alignment = true -> len' = len /\ start mod 2 ^ (log_super_page_size g - log_block_size g) = 0) /\
  (forall x, start <= x < start + len' -> used g fsm x = false) /\
  bits_updated magic bsize true start len' (data fsm) (data fsm') /\
  (forall x, blocks (tree fsm) x <-> blocks (tree fsm') x \/ start <= x < start + len') /\
  free_blocks_count fsm' = free_blocks_count fsm - (if da then 0 else len').

Lemma find_extent_ok fsm off len (alignment : bool) :
  tree_ok 32 (tree fsm) -> request_ok alignment len -> found alignment len fsm (find_extent g fsm off len alignment []).
Proof. destruct alignment; [apply find_aligned_ok | apply find_plain_ok]. Qed.

Lemma get_free_block_ok fsm off len alignment da :
  fsm_inv g fsm -> request_ok alignment len ->
  exists start len' fsm', vdfs2_fsm_get_free_block g fsm off len alignment da [] = Ret (start, len', fsm', []) /\
    fsm_inv g fsm' /\
    ((start = 0 /\ len' = len /\ fsm' = fsm) \/ allocated da alignment len fsm fsm' start len').
Proof using Hg.
  intros Hinv Hreq. unfold vdfs2_fsm_get_free_block. destruct (_ && negb da).
  { exists 0, len, fsm. split; [done|]. split; [done|]. by left. }
  destruct (find_extent_ok fsm (if total_blocks g <=? off + len then 0 else off) len alignment (inv_tree g fsm Hinv) Hreq)
    as (start & len' & t' & -> & Hr). cbn [mbind outcome_bind].
  destruct Hr as [(-> & -> & ->)|(Hst & Hlen & Htaken & Hal)].
  { exists 0, len, fsm. destruct fsm. split; [done|]. split; [done|]. by left. }
  destruct (Z.eqb_spec start 0); [lia|].
  destruct (taken_range fsm t' start len' Hinv Htaken) as (_ & Htot & Hfree); [lia|].
  pose proof (geom_bitmap g Hg). destruct (Z.ltb_spec (Z.shiftl (length_in_bytes g) 3) (start + len')); [lia|].
  cbn [BUG_ON mbind outcome_bind]. unfold vdfs2_set_bits.
  set (fsm1 := if da then set_tree fsm t' else _).
  assert (data fsm1 = data fsm /\ tree fsm1 = t' /\ erase_blocks_counters fsm1 = erase_blocks_counters fsm /\
    free_blocks_count fsm1 = free_blocks_count fsm - (if da then 0 else len')) as (Hd1 & Ht1 & Hc1 & Hf1).
  { unfold fsm1. destruct da; simpl; split_and!; done || lia. }
  clearbody fsm1. rewrite Hd1, Hc1.
  destruct (bits_in_blocks_ok magic bsize magic_nonneg block_large test_and_set_bit true set_f true (fun c => c) (data fsm)
    start len') as [Hset _]; [done|apply set_f_bit|lia|lia| |].
  { apply fits_part; [apply (inv_fits g fsm Hinv)|lia..]. }
  destruct Hset as (d & -> & Hup); [by intros x Hx; apply Hfree|]. cbn [Z.eqb negb BUG_ON mbind outcome_bind].
  destruct (count_allocated_ok (Z.to_nat len') start (owned g fsm) (erase_blocks_counters fsm)) as (cs & -> & Hl & Hcs);
    [lia|pose proof (inv_size g fsm Hinv); lia|intros x Hx; rewrite Hfree by lia; done|apply (inv_counters g fsm Hinv)|].
  cbn [mbind outcome_bind]. eexists start, len', _. split; [done|].
  pose proof Htaken as (Ht' & _ & Hb').
  split; [|right; split_and!; cbn [data tree free_blocks_count add_chunks set_counters set_data]; rewrite ?Ht1, ?Hf1; done || lia].
  split; cbn [data tree erase_blocks_counters add_chunks set_counters set_data]; rewrite ?Ht1.
  - eapply fits_length; [apply Hup|apply (inv_fits g fsm Hinv)].
  - done.
  - intros x Hx. assert (blocks (tree fsm) x) as Hx' by (apply Hb'; by left).
    destruct (inv_free g fsm Hinv x Hx') as [? Hu]. split; [done|].
    pose proof (used_updated true start len' fsm d x) as Hu'. cbn [data set_data] in Hu'. rewrite Hu' by (done || lia).
    rewrite bool_decide_false; [done|]. intros Hr. destruct Htaken as (_ & Ha & _). by apply (Ha x).
  - rewrite Hl. apply (inv_size g fsm Hinv).
  - eapply counters_ok_ext; [..|exact Hcs]; [|apply (geom_log g Hg)]. intros x Hx.
    pose proof (used_updated true start len' fsm d x) as Hu'. cbn [data set_data] in Hu'. rewrite Hu' by (done || lia).
    unfold add_range. replace (Z.of_nat (Z.to_nat len')) with len' by lia.
    case_bool_decide; [|by rewrite orb_false_r]. rewrite orb_true_r. by destruct (Z.ltb_spec x (total_blocks g)); [|lia].
Qed.

(** ** Release: the blocks are marked free, but not offered again *)

Definition released (fsm fsm' : vdfs2_fsm_info) (start len : Z) : Prop :=
  bits_updated magic bsize false start len (data fsm) (data fsm') /\ tree fsm' = tree fsm /\
  free_blocks_count fsm' = free_blocks_count fsm /\
  next_free_blocks fsm' = u32 (next_free_blocks fsm + len).

Lemma free_block_chunk_ok fsm start len :
  fsm_inv g fsm -> 0 <= start -> 0 < len -> start + len <= total_blocks g ->
  (forall x, start <= x < start + len -> used g fsm x = true) ->
  exists fsm', fsm_free_block_chunk g fsm start len = Ret (0, fsm') /\ fsm_inv g fsm' /\ released fsm fsm' start len.
Proof using Hg.
  intros Hinv Hst Hlen Htot Hused. unfold fsm_free_block_chunk.
  pose proof (geom_bitmap g Hg). destruct (Z.ltb_spec (Z.shiftl (length_in_bytes g) 3) (start + len)); [lia|].
  unfold vdfs2_clear_bits.
  destruct (bits_in_blocks_ok magic bsize magic_nonneg block_large test_and_clear_bit false clear_f false (fun c => c - c)
    (data fsm) start len) as [Hclear _]; [done|apply clear_f_bit|lia|lia| |].
  { apply fits_part; [apply (inv_fits g fsm Hinv)|lia..]. }
  destruct Hclear as (d & -> & Hup); [by intros x Hx; apply Hused|]. cbn [Z.eqb negb mbind outcome_bind].
  pose proof (geom_total g Hg).
  destruct (count_freed_ok (Z.to_nat len) start (owned g (set_data fsm d)) (erase_blocks_counters fsm)) as (cs & Hcs' & Hl & Hcs).
  1-3: pose proof (inv_size g fsm Hinv); lia.
  { intros x Hx. rewrite (used_updated false start len fsm d x) by (done || lia). by rewrite bool_decide_true by lia. }
  { eapply counters_ok_ext; [..|apply (inv_counters g fsm Hinv)]; [|apply (geom_log g Hg)].
    intros x Hx. unfold add_range. rewrite (used_updated false start len fsm d x) by (done || lia).
    replace (Z.of_nat (Z.to_nat len)) with len by lia. case_bool_decide as Hr; [|by rewrite orb_false_r].
    rewrite Hused by done. by destruct (Z.ltb_spec x (total_blocks g)); [|lia]. }
  cbn [erase_blocks_counters set_data]. rewrite Hcs'. cbn [mbind outcome_bind].
  eexists. split; [done|]. split; [|split_and!; done].
  split; cbn [data tree erase_blocks_counters add_chunks set_counters set_data set_next_free_blocks].
  - eapply fits_length; [apply Hup|apply (inv_fits g fsm Hinv)].
  - apply (inv_tree g fsm Hinv).
  - intros x Hx. destruct (inv_free g fsm Hinv x Hx) as [? Hu]. split; [done|].
    pose proof (used_updated false start len fsm d x) as Hu'. cbn [data set_data] in Hu'. rewrite Hu' by (done || lia).
    by case_bool_decide.
  - rewrite Hl. apply (inv_size g fsm Hinv).
  - done.
Qed.

(** ** Building the tree *)

Record erase_geometry_ok : Prop := {
  eg_shift : 0 <= block_size_shift g;
  eg_block : bsize = 2 ^ block_size_shift g;
  eg_log : log_erase_block_size g = L + block_size_shift g;
}.

Lemma count_used_ok n block f cs :
  erase_geometry_ok -> 0 <= block -> block + Z.of_nat n <= Z.of_nat (length cs) * 2 ^ L ->
  (forall x, block <= x < block + Z.of_nat n -> f x = false) -> counters_ok L f cs ->
  exists cs', count_used g n block cs = Ret cs' /\ length cs' = length cs /\
    counters_ok L (add_range f block n) cs'.
Proof using Hg.
  intros Heg. pose proof (geom_log g Hg) as HL. pose proof (eg_shift Heg).
  pose proof (Z.pow_pos_nonneg 2 L ltac:(lia) ltac:(lia)) as Hp.
  revert block f cs. induction n as [|n IH]; intros block f cs Hb Hlen Hf Hc; simpl.
  { exists cs. split_and!; try done. eapply counters_ok_ext; [..|exact Hc]; [|lia].
    intros x _. unfold add_range. by rewrite bool_decide_false, orb_false_r by lia. }
  replace (Z.shiftr (Z.shiftl block (block_size_shift g)) (log_erase_block_size g)) with (block / 2 ^ L).
  2: { rewrite (eg_log Heg), (Z.add_comm L), <-Z.shiftr_shiftr, Z.shiftr_shiftl_l, Z.sub_diag, Z.shiftl_0_r by lia.
       by rewrite Z.shiftr_div_pow2 by lia. }
  assert (block / 2 ^ L < Z.of_nat (length cs)) by (apply Z.div_lt_upper_bound; lia).
  assert (0 <= block / 2 ^ L) by (apply Z.div_pos; lia).
  destruct (lookup_lt_is_Some_2 cs (Z.to_nat (block / 2 ^ L))) as [c Hcl]; [lia|]. rewrite Hcl. simpl.
  destruct (counters_flip L f (add_range f block 1) block cs c) as (Hc' & ? & ?); try done; try lia.
  { apply Hf. lia. }
  { unfold add_range. rewrite bool_decide_true by lia. apply orb_true_r. }
  { intros y Hy. unfold add_range. by rewrite bool_decide_false, orb_false_r by lia. }
  assert (2 ^ L < 2 ^ 32) by (apply Z.pow_lt_mono_r; lia). rewrite u32_small by lia.
  destruct (IH (block + 1) (add_range f block 1) (<[Z.to_nat (block / 2 ^ L) := c + 1]> cs)) as (cs' & -> & Hl & Hcs');
    [lia|rewrite length_insert; lia| |done|].
  { intros x Hx. unfold add_range. rewrite Hf, bool_decide_false by lia. done. }
  exists cs'. split; [done|]. split; [by rewrite Hl, length_insert|].
  eapply counters_ok_ext; [..|exact Hcs']; [|lia]. intros x _. unfold add_range. rewrite <-orb_assoc. f_equal.
  destruct (bool_decide_reflect (block <= x < block + Z.of_nat 1)).
  - by rewrite bool_decide_true by lia.
  - simpl. apply bool_decide_ext. lia.
Qed.

(** The state of the scan at [pos]: everything below is accounted for. *)
Record scanned (d : buffer) (fsm : vdfs2_fsm_info) (pos : Z) : Prop := {
  sc_data : data fsm = d;
  sc_tree : tree_ok 32 (tree fsm);
  sc_blocks : forall x, blocks (tree fsm) x <-> 0 <= x < pos /\ used g fsm x = false;
  sc_size : total_blocks g <= Z.of_nat (length (erase_blocks_counters fsm)) * 2 ^ L;
  sc_counters : counters_ok L (fun x => used g fsm x && (x <? pos)) (erase_blocks_counters fsm);
}.

Context `{!BitSearch} `{Hlaws : !BitSearchLaws}.
Local Abbreviation n := (total_blocks g).

Lemma find_bit_ok d pos v :
  0 <= pos ->
  exists r, __find_next_bit d n pos bsize magic v = Ret r /\ first_from magic bsize v d n pos r.
Proof using Hg Hlaws.
  intros Hpos. pose proof (geom_block g Hg). pose proof (geom_total g Hg).
  apply (__find_next_bit_ok magic bsize magic_nonneg block_large); [|lia..].
  unfold dsize. unfold magic, VERSION_SIZE, CRC32_SIZE in *. lia.
Qed.

Lemma get_tree_loop_ok fuel fsm mode free_start pos d :
  erase_geometry_ok -> scanned d fsm pos -> 0 <= pos <= n ->
  get_bit magic bsize 0 d = true -> get_bit magic bsize (n - 1) d = get_bit magic bsize (n - 2) d ->
  match mode with
  | FIND_CLEAR_BIT => pos = n \/ pos + 1 < n
  | FIND_SET_BIT => free_start = pos /\ (pos = n \/ pos + 1 < n /\ get_bit magic bsize pos d = false)
  end ->
  2 * (n - pos) + (match mode with FIND_CLEAR_BIT => 1 | FIND_SET_BIT => 0 end) < Z.of_nat fuel ->
  exists fsm', get_tree_loop fuel g fsm mode free_start pos [] = Ret (0, fsm', []) /\ scanned d fsm' n.
Proof using Hg Hlaws.
  intros Heg. revert fsm mode free_start pos. pose proof (geom_total g Hg).
  induction fuel as [|fuel IH]; intros fsm mode fs pos Hsc Hpos Hzero Hlast Hmode Hfuel; [destruct mode; lia|].
  cbn [get_tree_loop]. destruct (Z.ltb_spec (pos + 1) n) as [Hlt|Hge].
  2: { assert (pos = n) as -> by (destruct mode; lia). destruct mode; [by exists fsm|].
       destruct Hmode as [-> _]. rewrite Z.ltb_irrefl. by exists fsm. }
  pose proof (sc_data _ _ _ Hsc) as Hd. destruct mode.
  - unfold vdfs2_find_next_zero_bit. rewrite Hd.
    destruct (find_bit_ok d pos false) as (s & -> & Hs & Hbelow & Hfound); [lia|]. cbn [mbind outcome_bind].
    assert (pos <= s) as Hps by (destruct (Z.eq_dec s n); [lia|]; destruct Hfound; lia).
    destruct (count_used_ok (Z.to_nat (s - pos)) pos (fun x => used g fsm x && (x <? pos)) (erase_blocks_counters fsm) Heg)
      as (cs & -> & Hl & Hcs); [lia|pose proof (sc_size _ _ _ Hsc); lia| |apply (sc_counters _ _ _ Hsc)|].
    { intros x Hx. destruct (Z.ltb_spec x pos); [lia|]. apply andb_false_r. }
    cbn [mbind outcome_bind]. apply IH; try done; try lia.
    + split; cbn [data tree erase_blocks_counters set_counters]; [done|apply (sc_tree _ _ _ Hsc)| | |].
      * intros x. rewrite (sc_blocks _ _ _ Hsc). rewrite Hd. split; [intros [? ?]; split; [lia|done]|].
        intros [? Hu]. split; [|done]. destruct (Z.lt_ge_cases x pos); [lia|].
        rewrite Hbelow in Hu by lia. done.
      * rewrite Hl. apply (sc_size _ _ _ Hsc).
      * eapply counters_ok_ext; [..|exact Hcs]; [|apply (geom_log g Hg)]. intros x Hx. unfold add_range. rewrite Hd.
        destruct (bool_decide_reflect (pos <= x < pos + Z.of_nat (Z.to_nat (s - pos)))).
        -- rewrite Hbelow by lia. rewrite orb_true_r. by destruct (Z.ltb_spec x s); [|lia].
        -- rewrite orb_false_r. f_equal. destruct (Z.ltb_spec x s), (Z.ltb_spec x pos); done || lia.
    + split; [done|]. destruct (Z.eq_dec s n) as [|Hsn]; [by left|right]. destruct Hfound as [_ Hbit]; [lia|].
      split; [|done]. destruct (Z.eq_dec s (n - 1)) as [->|]; [|lia].
      rewrite Hbit, Hbelow in Hlast by lia. done.
  - destruct Hmode as [-> [?|[_ Hbit]]]; [lia|]. unfold vdfs2_find_next_bit. rewrite Hd.
    destruct (find_bit_ok d pos true) as (e & -> & He & Hbelow & Hfound); [lia|]. cbn [mbind outcome_bind].
    assert (pos < e) as Hpe.
    { destruct (Z.eq_dec e n); [lia|]. destruct Hfound as [? Hb]; [lia|].
      destruct (Z.eq_dec e pos) as [->|]; [|lia]. rewrite Hbit in Hb. done. }
    assert (0 < pos) as Hp0. { destruct (Z.eq_dec pos 0) as [->|]; [|lia]. rewrite Hzero in Hbit. done. }
    rewrite u64_small by lia. unfold fsm_insert. destruct (Z.eqb_spec (e - pos) 0) as [|_]; [lia|].
    cbn [BUG_ON mbind outcome_bind].
    destruct (insert_extent_ok 32 ltac:(lia) (tree fsm) pos (e - pos) (sc_tree _ _ _ Hsc)) as (t' & -> & Ht' & Hb').
    { unfold valid, key_end. simpl. lia. }
    { intros x Hx Hc. apply (sc_blocks _ _ _ Hsc) in Hc. lia. }
    cbn [mbind outcome_bind Z.eqb negb]. apply IH; try done; try lia.
    + split; cbn [data tree erase_blocks_counters set_tree set_free_blocks_count]; [done|done| |apply (sc_size _ _ _ Hsc)|].
      * intros x. rewrite Hb', (sc_blocks _ _ _ Hsc), Hd. split.
        -- intros [[? ?]|Hx]; [split; [lia|done]|]. split; [lia|]. apply Hbelow. lia.
        -- intros [? Hu]. destruct (Z.lt_ge_cases x pos); [left; split; [lia|done]|right; lia].
      * eapply counters_ok_ext; [..|apply (sc_counters _ _ _ Hsc)]; [|apply (geom_log g Hg)].
        intros x Hx. rewrite Hd. destruct (Z.ltb_spec x e), (Z.ltb_spec x pos); try done; try lia.
        by rewrite Hbelow by lia.
    + destruct (Z.eq_dec e n) as [|Hen]; [by left|right]. destruct Hfound as [_ Hb]; [lia|].
      destruct (Z.eq_dec e (n - 1)) as [->|]; [|lia]. exfalso. rewrite Hb, Hbelow in Hlast by lia. done.
Qed.

Lemma fsm_get_tree_ok fsm :
  erase_geometry_ok -> fits magic bsize 0 n (data fsm) -> tree fsm = vdfs2_init_fsm_btree -> 2 <= n ->
  used g fsm 0 = true -> used g fsm (n - 1) = used g fsm (n - 2) ->
  exists fsm', fsm_get_tree g fsm [] = Ret (0, fsm', []) /\ fsm_inv g fsm' /\ data fsm' = data fsm /\
    forall x, blocks (tree fsm') x <-> 0 <= x < n /\ used g fsm x = false.
Proof using Hg Hlaws.
  intros Heg Hfits Ht Hn Hzero Hlast. unfold fsm_get_tree. pose proof (geom_log g Hg).
  pose proof (Z.pow_pos_nonneg 2 L ltac:(lia) ltac:(lia)) as Hp. pose proof (eg_shift Heg).
  set (size := Z.to_nat (Z.shiftr (n * bsize) (log_erase_block_size g) + 1)).
  assert (n <= Z.of_nat size * 2 ^ L) as Hsize.
  { unfold size. rewrite (eg_log Heg), (eg_block Heg), (Z.add_comm L), <-Z.shiftr_shiftr by lia.
    rewrite (Z.shiftr_div_pow2 _ (block_size_shift g)), Z.div_mul, Z.shiftr_div_pow2 by lia.
    pose proof (Z.div_mod n (2 ^ L) ltac:(lia)). pose proof (Z.mod_pos_bound n (2 ^ L) Hp).
    assert (0 <= n / 2 ^ L) by (apply Z.div_pos; lia). nia. }
  destruct (get_tree_loop_ok (S (S (Z.to_nat (2 * n)))) (set_counters fsm (replicate size 0)) FIND_CLEAR_BIT 0 0 (data fsm))
    as (fsm' & -> & Hsc); try done; try lia.
  { split; cbn [data tree erase_blocks_counters set_counters]; [done| | | |].
    - rewrite Ht. split; [by split|]. split; [done|]. constructor.
    - intros x. rewrite Ht. unfold blocks, tree_elements. simpl. split; [|lia]. intros Hc. by apply covers_nil in Hc.
    - by rewrite length_replicate.
    - intros e c Hec. apply lookup_replicate in Hec as [-> _].
      assert (forall m lo, 0 <= lo -> count_true (fun x => used g fsm x && (x <? 0)) lo m = 0) as Hz.
      { induction m as [|m IHm]; intros lo Hlo; simpl; [done|]. rewrite IHm by lia.
        destruct (Z.ltb_spec lo 0); [lia|]. by rewrite andb_false_r. }
      symmetry. apply Hz. nia. }
  exists fsm'. split; [done|]. pose proof (sc_data _ _ _ Hsc) as Hd. split; [|split; [done|]].
  - split; [by rewrite Hd|apply (sc_tree _ _ _ Hsc)| |apply (sc_size _ _ _ Hsc)|].
    + intros x Hx. apply (sc_blocks _ _ _ Hsc) in Hx as [Hx Hu]. split; [|done].
      destruct (Z.eq_dec x 0) as [->|]; [|lia]. rewrite Hd in Hu. rewrite Hzero in Hu. done.
    + apply (sc_counters _ _ _ Hsc).
  - intros x. rewrite (sc_blocks _ _ _ Hsc). by rewrite Hd.
Qed.
End facts.
