(* ===== verification/FsmTheorems.v ===== *)
(** * Free space: the theorems of the B-tree, the bitmap and the manager *)
From Stdlib Require Import ZArith Lia.
From stdpp Require Import base numbers list sorting sets.
From S2P Require Import Prelude FsmTree FsmTreeFacts FsmTreeDelete FsmTreeSpec Bits BitsFacts Fsm FsmFacts.

(** ** Concrete states for the witnesses *)

Definition leaf_ex (ks : list fsm_btree_key) : vdfs2_fsm_btree_node := Node 0 FSM_LEAF_NODE ks [].
Definition root_ex : vdfs2_fsm_btree_node :=
  Node 1 FSM_INDEX_NODE [Key 20 2] [leaf_ex [Key 10 3]; leaf_ex [Key 30 5; Key 40 1]].
Definition tree_ex : vdfs2_fsm_btree := FsmBtree 2 (ROOT root_ex).

Lemma root_ex_ok : node_ok 2 1 root_ex.
Proof. split_and!; try done. unfold root_ex. simpl. repeat (constructor; [split; [done|unfold nr_active; simpl; lia]|]). constructor. Qed.

Lemma tree_ex_extents : extents_ok (tree_elements tree_ex).
Proof. vm_compute. repeat (split || constructor || intros [=]). Qed.

Lemma tree_ex_ok : tree_ok 2 tree_ex.
Proof.
  split; [|split; [unfold rooted, nr_active; simpl; lia | apply tree_ex_extents]].
  split; [done|]. exists 1%nat. split; [apply root_ex_ok|]. split; [unfold nr_active; simpl; lia|].
  apply (extents_ok_sorted _ tree_ex_extents).
Qed.

(** ** The B-tree of free extents *)

(** C8: [fsm_btree_insert] never fails to return.  The tree stays balanced and
    ordered with no overfull node; a new key is put at its place, a key that is
    there is refused with [-EEXIST], and when memory runs out ([-ENOMEM]) the
    keys are as before. *)
Theorem insert_correct t b k m :
  (2 <= t)%nat -> wf t b -> root b <> ROOT_ERR ->
  exists e b' m', fsm_btree_insert b k m = Ret (e, b', m') /\ wf t b' /\
    (root b' = ROOT_ERR -> e = - ENOMEM) /\ (e = 0 -> rooted b -> rooted b') /\
    ins_outcome k (tree_elements b) (tree_elements b') m m' e.
Proof. intros. by apply fsm_btree_insert_ok. Qed.

Lemma insert_correct_witness : exists e b' m',
  fsm_btree_insert tree_ex (Key 36 2) [] = Ret (e, b', m') /\ wf 2 b' /\
    (root b' = ROOT_ERR -> e = - ENOMEM) /\ (e = 0 -> rooted tree_ex -> rooted b') /\
    ins_outcome (Key 36 2) (tree_elements tree_ex) (tree_elements b') [] m' e.
Proof. apply (insert_correct 2 tree_ex (Key 36 2) []); [lia | apply tree_ex_ok | discriminate]. Defined.

(** C9: [fsm_btree_delete] on a tree with a key in its root always returns.  On
    success the tree is still balanced and ordered and holds exactly the other
    keys, in order; when an allocation fails ([-ENOMEM]) no key is lost, though
    the order may be. *)
Theorem delete_correct t b key m :
  (2 <= t)%nat -> wf t b -> rooted b ->
  exists e b' m', fsm_btree_delete b key m = Ret (e, b', m') /\ rooted b' /\
    del_outcome key (tree_elements b) (tree_elements b') m m' e /\ (e = 0 -> wf t b').
Proof. intros. by apply fsm_btree_delete_ok. Qed.

Lemma delete_correct_witness : exists e b' m',
  fsm_btree_delete tree_ex (Key 20 2) [] = Ret (e, b', m') /\ rooted b' /\
    del_outcome (Key 20 2) (tree_elements tree_ex) (tree_elements b') [] m' e /\ (e = 0 -> wf 2 b').
Proof. apply (delete_correct 2 tree_ex (Key 20 2) []); [lia | apply tree_ex_ok ..]. Defined.

(** [fsm_btree_free] gives an extent back: when its blocks are not in the
    tree and memory does not run out, the tree afterwards is well formed, keeps
    disjoint extents, and holds exactly the old blocks and the new ones, through
    joining with the neighbours or not. *)
Lemma free_adds_blocks t b off len :
  (2 <= t)%nat -> tree_ok t b -> valid (Key off len) -> apart (tree_elements b) off len ->
  exists b', fsm_btree_free b off len [] = Ret (0, b', []) /\ tree_ok t b' /\
    forall x, blocks b' x <-> blocks b x \/ off <= x < off + len.
Proof. intros. by apply fsm_btree_free_ok. Qed.

Lemma free_adds_blocks_witness : exists b',
  fsm_btree_free tree_ex 35 5 [] = Ret (0, b', []) /\ tree_ok 2 b' /\
    forall x, blocks b' x <-> blocks tree_ex x \/ 35 <= x < 35 + 5.
Proof.
  apply (free_adds_blocks 2 tree_ex 35 5); [lia | apply tree_ex_ok | unfold valid, key_end; simpl; lia |].
  intros x Hx (k & Hk & Hkx). vm_compute in Hk. unfold key_end in Hkx.
  repeat (apply elem_of_cons in Hk as [->|Hk]; [simpl in Hkx; lia|]). by apply elem_of_nil in Hk.
Defined.

(** [fsm_btree_lookup] takes an extent out of the tree: either no extent
    serves and nothing changes, or the result is a run of free blocks of at most
    the wanted length (exactly that when [can_return_less] is not given), and
    these blocks and no others leave the tree. *)
Lemma lookup_takes_blocks t b off len less :
  (2 <= t)%nat -> tree_ok t b -> 0 < len < 2 ^ 32 ->
  exists start len' b', fsm_btree_lookup b off len less [] = Ret (start, len', b', []) /\ tree_ok t b' /\
    (start = 0 /\ len' = len /\ b' = b /\ (forall k, k ∈ tree_elements b -> acceptable len less k = false) \/
     0 < start /\ 0 < len' <= len /\ (less = false -> len' = len) /\
     (forall x, blocks b x <-> blocks b' x \/ start <= x < start + len') /\
     apart (tree_elements b') start len').
Proof. intros. by apply fsm_btree_lookup_ok. Qed.

Lemma lookup_takes_blocks_witness : exists start len' b',
  fsm_btree_lookup tree_ex 30 2 false [] = Ret (start, len', b', []) /\ tree_ok 2 b' /\
    (start = 0 /\ len' = 2 /\ b' = tree_ex /\ (forall k, k ∈ tree_elements tree_ex -> acceptable 2 false k = false) \/
     0 < start /\ 0 < len' <= 2 /\ (false = false -> len' = 2) /\
     (forall x, blocks tree_ex x <-> blocks b' x \/ start <= x < start + len') /\
     apart (tree_elements b') start len').
Proof. apply (lookup_takes_blocks 2 tree_ex 30 2 false); [lia | apply tree_ex_ok | lia]. Defined.

(** C20: [fsm_btree_destroy] ends, leaves an empty tree and frees every node of
    the old one exactly once. *)
Theorem destroy_frees_all t b :
  (2 <= t)%nat -> wf t b -> root b <> ROOT_ERR ->
  exists freed b', fsm_btree_destroy b = Ret (freed, b') /\ root b' = ROOT_NULL /\
    freed ≡ₚ match root b with ROOT n => subnodes n | _ => [] end.
Proof. intros. by apply (fsm_btree_destroy_ok t). Qed.

Lemma destroy_frees_all_witness : exists freed b',
  fsm_btree_destroy tree_ex = Ret (freed, b') /\ root b' = ROOT_NULL /\ freed ≡ₚ subnodes root_ex.
Proof. apply (destroy_frees_all 2 tree_ex); [lia | apply tree_ex_ok | discriminate]. Defined.

(** *** When memory runs out *)

(** A tree of order 2 whose root and children are all minimal. *)
Definition minimal_ex : vdfs2_fsm_btree :=
  FsmBtree 2 (ROOT (Node 2 FSM_INDEX_NODE [Key 40 1]
    [Node 1 FSM_INDEX_NODE [Key 20 1; Key 30 1] [leaf_ex [Key 10 1]; leaf_ex [Key 25 1]; leaf_ex [Key 35 1]];
     Node 1 FSM_INDEX_NODE [Key 60 1] [leaf_ex [Key 50 1]; leaf_ex [Key 70 1]]])).


(** ** The bitmap *)



(** [vdfs2_clear_bits] is the exact opposite: it clears a run of set bits and
    nothing else, and answers [-EFAULT] when one of them is clear. *)
Lemma clear_bits_correct magic_len block_size buff buff_size offset count :
  0 <= magic_len -> magic_len + CRC32_SIZE < block_size -> 0 <= offset -> 0 < count ->
  fits magic_len block_size offset count buff ->
  (all_bits magic_len block_size true offset count buff -> exists buff',
     vdfs2_clear_bits buff buff_size offset count magic_len block_size = Ret (0, buff') /\
     bits_updated magic_len block_size false offset count buff buff') /\
  (~ all_bits magic_len block_size true offset count buff -> exists buff',
     vdfs2_clear_bits buff buff_size offset count magic_len block_size = Ret (- EFAULT, buff')).
Proof. intros. by apply (bits_in_blocks_ok magic_len block_size ltac:(done) ltac:(done) _ false clear_f false _ _ _ _ ltac:(done) clear_f_bit). Qed.

Lemma clear_bits_correct_witness :
  (all_bits 4 16 true 30 80 (replicate 48 255) -> exists buff',
     vdfs2_clear_bits (replicate 48 255) 48 30 80 4 16 = Ret (0, buff') /\
     bits_updated 4 16 false 30 80 (replicate 48 255) buff') /\
  (~ all_bits 4 16 true 30 80 (replicate 48 255) -> exists buff',
     vdfs2_clear_bits (replicate 48 255) 48 30 80 4 16 = Ret (- EFAULT, buff')).
Proof. apply clear_bits_correct; vm_compute; try reflexivity; discriminate. Defined.

(** C17: [vdfs2_find_next_zero_bit] and [vdfs2_find_next_bit] return the first bit
    of the wanted value at or after [offset], across block borders, and [size]
    when there is none, for any kernel search that keeps its documented promise. *)
Theorem find_next_correct `{Hs : !BitSearch} `{Hl : !BitSearchLaws} magic_len block_size buff size offset (v : bool) :
  0 <= magic_len -> magic_len + CRC32_SIZE < block_size -> dsize magic_len block_size < 2 ^ 31 ->
  0 < size < 2 ^ 32 -> 0 <= offset ->
  exists r, (if v then vdfs2_find_next_bit buff size offset block_size magic_len
             else vdfs2_find_next_zero_bit buff size offset block_size magic_len) = Ret r /\
    first_from magic_len block_size v buff size offset r.
Proof.
  intros H1 H2 H3 H4 H5. destruct (__find_next_bit_ok magic_len block_size H1 H2 buff size offset v H3 H4 H5) as (r & Hr & Hf).
  exists r. split; [by destruct v|done].
Qed.

Lemma find_next_correct_witness :
  exists r, vdfs2_find_next_bit (replicate 40 0 ++ replicate 8 1) 192 5 16 4 = Ret r /\
    first_from 4 16 true (replicate 40 0 ++ replicate 8 1) 192 5 r.
Proof. apply (find_next_correct (Hs := linear_search) 4 16 (replicate 40 0 ++ replicate 8 1) 192 5 true); vm_compute; try split; congruence. Defined.

(** ** The free space manager *)

Definition geometry_ex : fsm_geometry := FsmGeometry 64 0 32 5 5 7 8 256 3 8 1 16.
Definition bitmap_ex : buffer := replicate 12 0 ++ 3 :: replicate 19 0.
Definition fsm_raw_ex : vdfs2_fsm_info := FsmInfo bitmap_ex vdfs2_init_fsm_btree 0 0 [] true [].
Definition fsm_ex : vdfs2_fsm_info :=
  FsmInfo bitmap_ex (FsmBtree 32 (ROOT (leaf_ex [Key 2 62]))) 62 0 [2; 0; 0; 0; 0; 0; 0; 0; 0] true [].

Lemma geometry_ex_ok : geometry_ok geometry_ex.
Proof. by split. Qed.
Lemma erase_ex_ok : erase_geometry_ok geometry_ex.
Proof. by split. Qed.



Lemma fsm_ex_inv : fsm_inv geometry_ex fsm_ex.
Proof.
  destruct (fsm_get_tree_ok geometry_ex geometry_ex_ok fsm_raw_ex erase_ex_ok) as (fsm' & Hrun & Hinv & _);
    [vm_compute; congruence ..|].
  assert (fsm' = fsm_ex) as <-; [|done]. assert (Ret (0, fsm', []) = Ret (0, fsm_ex, [] : memory)) as Heq.
  { rewrite <-Hrun. vm_compute. reflexivity. }
  by injection Heq.
Qed.





(** When only the last block of the volume is free after a used one,
    [fsm_get_tree] inserts an extent of 2^64 - 1 blocks that starts there. *)
Lemma get_tree_last_block_wraps :
  let bitmap := replicate 12 0 ++ replicate 7 255 ++ 127 :: replicate 12 0 in
  exists fsm', fsm_get_tree geometry_ex (FsmInfo bitmap vdfs2_init_fsm_btree 0 0 [] true []) [] = Ret (0, fsm', []) /\
    tree_elements (tree fsm') = [Key 63 (2 ^ 64 - 1)].
Proof. eexists. split; vm_compute; reflexivity. Qed.
