(* ===== verification/Snapshot.v ===== *)
(** * The snapshot manager ([snapshot.c]): translation tables and copy-on-write

    A metadata block of a special file has a place in the metadata area, its
    iblock, that the base table records.  A block that is to change gets a new
    iblock first, so that the tables on disk stay true until a commit. *)
From Stdlib Require Import ZArith Lia.
From stdpp Require Import base numbers list.
From S2P Require Import Prelude FsmTree Bits Fsm.

(** ** Special files *)

Definition VDFS2_CAT_TREE_INO : Z := 2.
Definition VDFS2_FSFILE : Z := 2.
Definition VDFS2_SPACE_BITMAP_INO : Z := 3.
Definition VDFS2_EXTENTS_TREE_INO : Z := 4.
Definition VDFS2_FREE_INODE_BITMAP_INO : Z := 5.
Definition VDFS2_HARDLINKS_TREE_INO : Z := 6.
Definition VDFS2_XATTR_TREE_INO : Z := 7.
Definition VDFS2_SMALL_AREA_BITMAP : Z := 8.
Definition VDFS2_LSFILE : Z := VDFS2_SMALL_AREA_BITMAP.
Definition VDFS2_SF_NR : Z := VDFS2_LSFILE - VDFS2_FSFILE + 1.
Definition VDFS2_SF_INDEX (x : Z) : nat := Z.to_nat (x - VDFS2_FSFILE).

(** The loops [for (count = VDFS2_FSFILE; count <= VDFS2_LSFILE; count++)]. *)
Definition special_files : list Z := seqZ VDFS2_FSFILE VDFS2_SF_NR.

Definition is_tree (object_type : Z) : bool :=
  (object_type =? VDFS2_CAT_TREE_INO) || (object_type =? VDFS2_EXTENTS_TREE_INO)
  || (object_type =? VDFS2_HARDLINKS_TREE_INO) || (object_type =? VDFS2_XATTR_TREE_INO).

(** ** State *)

Record snapshot_geometry := SnapshotGeometry {
  leb_order : Z;     (* sbi->log_blocks_in_leb *)
  page_order : Z;    (* sbi->log_blocks_in_page *)
  blk_shift : Z;     (* sbi->block_size_shift *)
  superpage_order : Z; (* sbi->log_super_page_size *)
}.

(** sizeof(struct vdfs2_base_table). *)
Definition BASE_TABLE_SIZE : Z := 100.

(** The mapped base table: the descriptor, the two arrays of the header and the
    64-bit words behind it, which hold the translation tables one after the
    other; the offsets and the checksum offset are in bytes from the header. *)
Record vdfs2_base_table := BaseTable {
  bt_mount_count : Z;
  bt_sync_count : Z;
  checksum_offset : Z;
  last_page_index : list Z;
  translation_table_offsets : list Z;
  table_words : list Z;
}.

Record vdfs2_extended_record := ExtRecord { object_id : Z; table_index : Z; meta_iblock : Z }.

Record vdfs2_extended_table := ExtTable {
  et_mount_count : Z;
  et_sync_count : Z;
  et_checksum_offset : Z;
  et_records : list vdfs2_extended_record;
}.

Record vdfs2_snapshot_info := SnapshotInfo {
  base_t : vdfs2_base_table;
  extended_t : vdfs2_extended_table;
  snapshot_bitmap : list bool;
  next_snapshot_bitmap : list bool;
  moved_iblock : list bool;
  hint_btree : Z;
  hint_bitmaps : Z;
  tables_pages_count : Z;
  exteneded_table_count : Z;
  isector : Z;
  sync_count : Z;
  use_base_table : bool;
  dirty_pages_count : Z;
  flags : Z;
}.

Definition bitmap_size_in_bits (s : vdfs2_snapshot_info) : Z := Z.of_nat (length (snapshot_bitmap s)).

Definition set_words (t : vdfs2_base_table) w :=
  BaseTable (bt_mount_count t) (bt_sync_count t) (checksum_offset t) (last_page_index t) (translation_table_offsets t) w.
Definition set_counts (t : vdfs2_base_table) m s :=
  BaseTable m s (checksum_offset t) (last_page_index t) (translation_table_offsets t) (table_words t).
Definition set_base_t (s : vdfs2_snapshot_info) t :=
  SnapshotInfo t (extended_t s) (snapshot_bitmap s) (next_snapshot_bitmap s) (moved_iblock s) (hint_btree s)
    (hint_bitmaps s) (tables_pages_count s) (exteneded_table_count s) (isector s) (sync_count s) (use_base_table s)
    (dirty_pages_count s) (flags s).
Definition set_bitmaps (s : vdfs2_snapshot_info) a b c :=
  SnapshotInfo (base_t s) (extended_t s) a b c (hint_btree s)
    (hint_bitmaps s) (tables_pages_count s) (exteneded_table_count s) (isector s) (sync_count s) (use_base_table s)
    (dirty_pages_count s) (flags s).
Definition set_hints (s : vdfs2_snapshot_info) a b :=
  SnapshotInfo (base_t s) (extended_t s) (snapshot_bitmap s) (next_snapshot_bitmap s) (moved_iblock s) a
    b (tables_pages_count s) (exteneded_table_count s) (isector s) (sync_count s) (use_base_table s)
    (dirty_pages_count s) (flags s).
Definition set_extended_t (s : vdfs2_snapshot_info) t (use : bool) :=
  SnapshotInfo (base_t s) t (snapshot_bitmap s) (next_snapshot_bitmap s) (moved_iblock s) (hint_btree s)
    (hint_bitmaps s) (tables_pages_count s) (exteneded_table_count s) (isector s) (sync_count s) use
    (dirty_pages_count s) (flags s).
Definition set_dirty_pages_count (s : vdfs2_snapshot_info) n :=
  SnapshotInfo (base_t s) (extended_t s) (snapshot_bitmap s) (next_snapshot_bitmap s) (moved_iblock s) (hint_btree s)
    (hint_bitmaps s) (tables_pages_count s) (exteneded_table_count s) (isector s) (sync_count s) (use_base_table s)
    n (flags s).
Definition set_tables_pages_count (s : vdfs2_snapshot_info) n :=
  SnapshotInfo (base_t s) (extended_t s) (snapshot_bitmap s) (next_snapshot_bitmap s) (moved_iblock s) (hint_btree s)
    (hint_bitmaps s) n (exteneded_table_count s) (isector s) (sync_count s) (use_base_table s)
    (dirty_pages_count s) (flags s).
(** What a written table changes: the position, the counters, the extended table. *)
Definition set_written (s : vdfs2_snapshot_info) ext_count sector sync ext use :=
  SnapshotInfo (base_t s) ext (snapshot_bitmap s) (next_snapshot_bitmap s) (moved_iblock s) (hint_btree s)
    (hint_bitmaps s) (tables_pages_count s) ext_count sector sync use 0 (flags s).

(** ** Kernel bitmaps *)

(** Writing outside a bitmap corrupts memory: [Bug]. *)
Definition bitmap_fill (v : bool) (bitmap : list bool) (pos nr : Z) : outcome (list bool) :=
  if bool_decide (0 <= pos /\ 0 <= nr /\ pos + nr <= Z.of_nat (length bitmap))
  then Ret (take (Z.to_nat pos) bitmap ++ replicate (Z.to_nat nr) v ++ drop (Z.to_nat (pos + nr)) bitmap)
  else Bug.
Definition bitmap_set := bitmap_fill true.
Definition bitmap_clear := bitmap_fill false.

Definition bitmap_bit (bitmap : list bool) (pos : Z) : bool := bitmap !!! Z.to_nat pos.

(** [bitmap_find_next_zero_area map size start nr align_mask]. *)
Class AreaSearch := bitmap_find_next_zero_area : list bool -> Z -> Z -> Z -> Z -> Z.

Class AreaSearchLaws `{!AreaSearch} : Prop :=
  bitmap_find_next_zero_area_spec bitmap size start nr align_mask :
    0 <= start -> 0 < nr -> size = Z.of_nat (length bitmap) ->
    let r := bitmap_find_next_zero_area bitmap size start nr align_mask in
    (start <= r /\ r + nr <= size /\ Z.land r align_mask = 0 /\
     forall p, r <= p < r + nr -> bitmap_bit bitmap p = false) \/
    (size < r /\ forall q, start <= q -> q + nr <= size -> Z.land q align_mask = 0 ->
     exists p, q <= p < q + nr /\ bitmap_bit bitmap p = true).

(** ** Reading the tables *)

Definition VDFS2_GET_TABLE_OFFSET (t : vdfs2_base_table) (x : Z) : Z := translation_table_offsets t !!! VDFS2_SF_INDEX x.
Definition VDFS2_LAST_TABLE_INDEX (t : vdfs2_base_table) (x : Z) : Z := last_page_index t !!! VDFS2_SF_INDEX x.

(** The index among [table_words] of the word at byte [off] of the table. *)
Definition word_index (off : Z) : Z := (off - BASE_TABLE_SIZE) / 8.

Definition table_word (t : vdfs2_base_table) (x index : Z) : nat :=
  Z.to_nat (word_index (VDFS2_GET_TABLE_OFFSET t x) + index).

Definition GET_TABLE_INDEX (g : snapshot_geometry) (ino_no page_offset : Z) : Z :=
  if is_tree ino_no then Z.shiftr page_offset (leb_order g + blk_shift g - PAGE_SHIFT) else page_offset.

(** Blocks of one table entry. *)
Definition entry_order (g : snapshot_geometry) (ino_n : Z) : Z :=
  if is_tree ino_n then leb_order g else page_order g.

Definition vdfs2_get_meta_iblock (g : snapshot_geometry) (t : vdfs2_base_table) (ino_n page_index : Z)
    : outcome (Z * Z) :=
  let table_page_index := GET_TABLE_INDEX g ino_n page_index in
  if VDFS2_LAST_TABLE_INDEX t ino_n <? table_page_index then Ret (- EINVAL, 0)
  else m ← deref (table_words t !! table_word t ino_n table_page_index); Ret (0, m).

Definition vdfs2_special_file_size (g : snapshot_geometry) (t : vdfs2_base_table) (ino_n : Z) : Z :=
  let last_page_index := VDFS2_LAST_TABLE_INDEX t ino_n in
  if is_tree ino_n then Z.shiftl 1 (superpage_order g) * (last_page_index + 1)
  else Z.shiftl 1 PAGE_SHIFT * (last_page_index + 1).

(** ** Loading: applying extended tables, building the bitmaps *)

Fixpoint apply_records (t : vdfs2_base_table) (records : list vdfs2_extended_record) : outcome vdfs2_base_table :=
  match records with
  | [] => Ret t
  | r :: records =>
      _ ← BUG_ON (VDFS2_LAST_TABLE_INDEX t (object_id r) <? table_index r);
      _ ← deref (table_words t !! table_word t (object_id r) (table_index r));
      apply_records (set_words t (<[table_word t (object_id r) (table_index r) := meta_iblock r]> (table_words t))) records
  end.

Definition parse_extended_table (t : vdfs2_base_table) (e : vdfs2_extended_table) : outcome (vdfs2_base_table * Z) :=
  t ← apply_records t (et_records e);
  Ret (set_counts t (et_mount_count e) (et_sync_count e), et_checksum_offset e + CRC32_SIZE).

Definition get_base_table_size (t : vdfs2_base_table) : Z := checksum_offset t + CRC32_SIZE.

Definition VDFS2_SNAPSHOT_VERSION (mount_count sync_count : Z) : Z := Z.lor (Z.shiftl mount_count 32) sync_count.
Definition VDFS2_MOUNT_COUNT (version : Z) : Z := Z.land 4294967295 (Z.shiftr version 32).
Definition VDFS2_SYNC_COUNT (version : Z) : Z := Z.land 4294967295 version.

Definition SECTOR_SIZE_SHIFT : Z := 9.
Definition SECTOR_SIZE : Z := 512.
Definition DIV_ROUND_UP (n d : Z) : Z := Z.quot (n + d - 1) d.

Definition VDFS2_SNAPSHOT_EXT_TABLES : nat := 8.

(** The loop over the extended tables behind the base table.  [load sector] is
    the table read there with the version [validate_extended_table] gives it (0:
    not valid), or an error.  The result holds the number of tables applied. *)
Fixpoint apply_extended_tables (load : Z -> Z * vdfs2_extended_table * Z) (n : nat) (t : vdfs2_base_table)
    (version isector applied : Z) : outcome (Z * vdfs2_base_table * Z * Z) :=
  match n with
  | O => Ret (0, t, isector, applied)
  | S n =>
      let '(ret, e, ext_version) := load isector in
      if negb (ret =? 0) then Ret (ret, t, isector, applied)
      else if negb (VDFS2_MOUNT_COUNT ext_version =? VDFS2_MOUNT_COUNT version)
              || negb (VDFS2_SYNC_COUNT ext_version =? u32 (VDFS2_SYNC_COUNT version + 1))
      then Ret (0, t, isector, applied)
      else
        '(t, size) ← parse_extended_table t e;
        apply_extended_tables load n t (VDFS2_SNAPSHOT_VERSION (bt_mount_count t) (bt_sync_count t))
          (isector + DIV_ROUND_UP size SECTOR_SIZE) (applied + 1)
  end.

Fixpoint mark_entries (bitmap : list bool) (words : list Z) (order : Z) : outcome (list bool) :=
  match words with
  | [] => Ret bitmap
  | w :: words => bitmap ← bitmap_set bitmap (s32 w) (Z.shiftl 1 order); mark_entries bitmap words order
  end.

Fixpoint mark_tables (g : snapshot_geometry) (t : vdfs2_base_table) (files : list Z) (bitmap : list bool)
    : outcome (list bool) :=
  match files with
  | [] => Ret bitmap
  | x :: files =>
      if VDFS2_GET_TABLE_OFFSET t x =? 0 then mark_tables g t files bitmap
      else
        let entries := take (Z.to_nat (VDFS2_LAST_TABLE_INDEX t x + 1)) (drop (table_word t x 0) (table_words t)) in
        bitmap ← mark_entries bitmap entries (entry_order g x);
        mark_tables g t files bitmap
  end.

Definition build_snapshot_bitmaps (g : snapshot_geometry) (s : vdfs2_snapshot_info) : outcome vdfs2_snapshot_info :=
  bitmap ← mark_tables g (base_t s) special_files (snapshot_bitmap s);
  Ret (set_bitmaps s bitmap bitmap (moved_iblock s)).

(** Which base table to trust: the two of the tables area and, when the copy of
    the superblock disagrees about the metadata area, the one the copy points to. *)
Inductive table_choice := FIRST_TABLE | SECOND_TABLE | COPY_TABLE.

Definition choose_base_table (v1 v2 v3 : Z) : option table_choice :=
  if (v2 <? v1) && (v3 <? v1) then Some FIRST_TABLE
  else if (v1 <? v2) && (v3 <? v2) then Some SECOND_TABLE
  else if (v1 <? v3) && (v2 <? v3) then Some COPY_TABLE
  else None.

(** Start sector of a base table. *)
Definition base_table_start (g : snapshot_geometry) (tables_tbc tables_tbc_copy : Z) (c : table_choice) : Z :=
  match c with
  | FIRST_TABLE => 0
  | SECOND_TABLE => Z.shiftl (Z.shiftr tables_tbc 1) (blk_shift g - SECTOR_SIZE_SHIFT)
  | COPY_TABLE => Z.shiftl (Z.shiftr tables_tbc_copy 1) (blk_shift g - SECTOR_SIZE_SHIFT)
  end.

(** ** Moving blocks *)

Section area.
Context `{!AreaSearch}.

Definition get_new_meta_iblock (g : snapshot_geometry) (s : vdfs2_snapshot_info) (ino_n : Z)
    : outcome (Z * vdfs2_snapshot_info) :=
  let size := bitmap_size_in_bits s in
  let alignment := entry_order g ino_n in
  let nr := Z.shiftl 1 alignment in
  let hint := if is_tree ino_n then hint_btree s else hint_bitmaps s in
  let align_mask := Z.shiftl 1 alignment - 1 in
  let position := bitmap_find_next_zero_area (snapshot_bitmap s) size hint nr align_mask in
  position ← (if size <? position then
                let position := bitmap_find_next_zero_area (snapshot_bitmap s) size 0 nr align_mask in
                if size <? position then Bug else Ret position
              else Ret position);
  a ← bitmap_set (snapshot_bitmap s) (s32 position) nr;
  b ← bitmap_set (next_snapshot_bitmap s) (s32 position) nr;
  c ← bitmap_set (moved_iblock s) (s32 position) nr;
  let hint := s32 (position + nr) in
  let s := set_bitmaps s a b c in
  Ret (position, if is_tree ino_n then set_hints s hint (hint_bitmaps s) else set_hints s (hint_btree s) hint).

Definition move_iblock (g : snapshot_geometry) (s : vdfs2_snapshot_info) (ino_n current_iblock page_index : Z)
    : outcome (Z * vdfs2_snapshot_info) :=
  let nr := Z.shiftl 1 (entry_order g ino_n) in
  let last_table_index := VDFS2_LAST_TABLE_INDEX (base_t s) ino_n in
  let table_index := GET_TABLE_INDEX g ino_n page_index in
  _ ← BUG_ON (last_table_index <? table_index);
  '(position, s) ← get_new_meta_iblock g s ino_n;
  b ← bitmap_clear (next_snapshot_bitmap s) (s32 current_iblock) nr;
  let s := set_bitmaps s (snapshot_bitmap s) b (moved_iblock s) in
  let i := table_word (base_t s) ino_n table_index in
  _ ← deref (table_words (base_t s) !! i);
  Ret (position, set_base_t s (set_words (base_t s) (<[i := position]> (table_words (base_t s))))).

(** sizeof of an extended record (packed) and of the header of the table. *)
Definition EXT_RECORD_SIZE : Z := 17.
Definition EXT_TABLE_SIZE : Z := 20.

Definition update_extended_table (g : snapshot_geometry) (s : vdfs2_snapshot_info) (ino_n page_index new_iblock : Z)
    : vdfs2_snapshot_info :=
  let e := extended_t s in
  let rec_count := Z.of_nat (length (et_records e)) in
  let table_index := GET_TABLE_INDEX g ino_n page_index in
  if use_base_table s then s
  else
    let new_table_size := (rec_count + 1) * EXT_RECORD_SIZE + EXT_TABLE_SIZE + CRC32_SIZE in
    if Z.shiftl 1 PAGE_SHIFT <? new_table_size then set_extended_t s e true
    else
      set_extended_t s (ExtTable (et_mount_count e) (et_sync_count e) (et_checksum_offset e)
        (et_records e ++ [ExtRecord ino_n table_index new_iblock])) false.

Definition vdfs2_add_chunk_no_lock (g : snapshot_geometry) (s : vdfs2_snapshot_info) (object_id page_index : Z)
    : outcome vdfs2_snapshot_info :=
  _ ← BUG_ON ((object_id <? VDFS2_FSFILE) || (VDFS2_LSFILE <? object_id));
  _ ← BUG_ON (negb (flags s =? 0));
  '(ret, meta_iblock) ← vdfs2_get_meta_iblock g (base_t s) object_id page_index;
  _ ← BUG_ON (negb (ret =? 0));
  moved ← deref (moved_iblock s !! Z.to_nat meta_iblock);
  if (moved : bool) then Ret s
  else
    '(new_iblock, s) ← move_iblock g s object_id meta_iblock page_index;
    _ ← BUG_ON (is_tree object_id && negb (Z.land new_iblock (Z.shiftl 1 (leb_order g) - 1) =? 0));
    let s := update_extended_table g s object_id page_index new_iblock in
    Ret (set_dirty_pages_count s (u32 (dirty_pages_count s + (if is_tree object_id then Z.shiftl 1 (leb_order g) else 1)))).

(** A page or bnode that is about to change; [dirty] is [PageDirty] before, the
    result holds [PageDirty] after. *)
Definition vdfs2_add_chunk_bitmap (g : snapshot_geometry) (s : vdfs2_snapshot_info) (ino_n page_index : Z) (dirty : bool)
    : outcome (bool * vdfs2_snapshot_info) :=
  if dirty then Ret (true, s)
  else s ← vdfs2_add_chunk_no_lock g s ino_n page_index; Ret (true, s).

Definition vdfs2_add_chunk_bnode (g : snapshot_geometry) (s : vdfs2_snapshot_info) (ino_n page_index : Z)
    (dirty : list bool) : outcome (list bool * vdfs2_snapshot_info) :=
  first ← deref (dirty !! O);
  if (first : bool) then
    _ ← BUG_ON (negb (forallb id dirty));
    Ret (dirty, s)
  else
    s ← vdfs2_add_chunk_no_lock g s ino_n page_index;
    Ret (replicate (length dirty) true, s).

(** [vdfs2_check_moved_iblocks] for the pages of one entry. *)
Fixpoint test_and_clear_moved (n : nat) (meta_iblock : Z) (moved : list bool) : outcome (list bool) :=
  match n with
  | O => Ret moved
  | S n =>
      b ← deref (moved !! Z.to_nat meta_iblock);
      _ ← BUG_ON (negb b);
      test_and_clear_moved n (meta_iblock + 1) (<[Z.to_nat meta_iblock := false]> moved)
  end.

Fixpoint vdfs2_check_moved_iblocks (g : snapshot_geometry) (s : vdfs2_snapshot_info) (i_ino : Z) (chunk_size : nat)
    (page_indexes : list Z) : outcome vdfs2_snapshot_info :=
  match page_indexes with
  | [] => Ret s
  | page_index :: page_indexes =>
      '(ret, meta_iblock) ← vdfs2_get_meta_iblock g (base_t s) i_ino page_index;
      _ ← BUG_ON (negb (ret =? 0));
      moved ← test_and_clear_moved chunk_size meta_iblock (moved_iblock s);
      vdfs2_check_moved_iblocks g (set_bitmaps s (snapshot_bitmap s) (next_snapshot_bitmap s) moved) i_ino chunk_size
        page_indexes
  end.

(** ** Commit *)

Definition vdfs2_update_bitmaps (s : vdfs2_snapshot_info) : vdfs2_snapshot_info :=
  set_bitmaps s (next_snapshot_bitmap s) (next_snapshot_bitmap s) (replicate (length (moved_iblock s)) false).

Inductive snapshot_table_type := SNAPSHOT_BASE_TABLE | SNAPSHOT_EXT_TABLE.

Definition VDFS2_SNAPSHOT_TABLES_COUNT : Z := 8.

(** The checksum offset of the table to write. *)
Definition base_checksum_offset (t : vdfs2_base_table) : Z :=
  u32 (foldl (fun size x => u32 (size + 8 * (VDFS2_LAST_TABLE_INDEX t x + 1))) 0 special_files + BASE_TABLE_SIZE).
Definition ext_checksum_offset (e : vdfs2_extended_table) : Z :=
  u32 (EXT_TABLE_SIZE + EXT_RECORD_SIZE * Z.of_nat (length (et_records e))).

(** Which table a commit writes and where; [tables_tbc] is the size of the area. *)
Definition pick_table (s : vdfs2_snapshot_info) (tables_tbc : Z) : snapshot_table_type * Z * Z * bool :=
  if (VDFS2_SNAPSHOT_TABLES_COUNT <=? exteneded_table_count s) || use_base_table s then
    let table_sectors_count := u32 (Z.shiftl tables_tbc (PAGE_SHIFT - SECTOR_SIZE_SHIFT)) in
    let isector := if Z.shiftr table_sectors_count 1 <? isector s then 0 else Z.shiftr table_sectors_count 1 in
    (SNAPSHOT_BASE_TABLE, isector, 0, false)
  else (SNAPSHOT_EXT_TABLE, isector s, u8 (exteneded_table_count s + 1), use_base_table s).

(** The result: what was written, from which sector to which, and the new state.
    [io_err] is the result of [vdfs2_table_IO], which moves the sector on success. *)
Definition vdfs2_update_translation_tables (s : vdfs2_snapshot_info) (tables_tbc mount_counter io_err : Z)
    : Z * snapshot_table_type * Z * Z * vdfs2_snapshot_info :=
  let '(type, start, ext_count, use) := pick_table s tables_tbc in
  let off := match type with
             | SNAPSHOT_BASE_TABLE => base_checksum_offset (base_t s)
             | SNAPSHOT_EXT_TABLE => ext_checksum_offset (extended_t s)
             end in
  let s := match type with
           | SNAPSHOT_BASE_TABLE =>
               set_base_t s (BaseTable mount_counter (sync_count s) off (last_page_index (base_t s))
                 (translation_table_offsets (base_t s)) (table_words (base_t s)))
           | SNAPSHOT_EXT_TABLE => s
           end in
  let sectors_count := DIV_ROUND_UP (off + CRC32_SIZE) SECTOR_SIZE in
  let end_ := if io_err =? 0 then start + sectors_count else start in
  (io_err, type, start, start + sectors_count,
   set_written s ext_count end_ (u32 (sync_count s + 1)) (ExtTable 0 0 0 []) use).

(** ** Growing a special file *)

(** [memmove] of [n] words from index [src] to [dest]. *)
Definition memmove_words (words : list Z) (dest src n : Z) : outcome (list Z) :=
  if bool_decide (0 <= src /\ 0 <= dest /\ 0 <= n /\ src + n <= Z.of_nat (length words) /\ dest + n <= Z.of_nat (length words))
  then Ret (list_inserts (Z.to_nat dest) (take (Z.to_nat n) (drop (Z.to_nat src) words)) words)
  else Bug.

Definition shift_offsets (offsets : list Z) (ino_offset add_size : Z) : list Z :=
  map (fun offset => if offset <=? ino_offset then offset else u32 (offset + add_size)) offsets.

Fixpoint fill_new_entries (g : snapshot_geometry) (s : vdfs2_snapshot_info) (ino_n : Z) (n : nat) (count : Z)
    : outcome vdfs2_snapshot_info :=
  match n with
  | O => Ret s
  | S n =>
      '(position, s) ← get_new_meta_iblock g s ino_n;
      let i := table_word (base_t s) ino_n count in
      _ ← deref (table_words (base_t s) !! i);
      fill_new_entries g (set_base_t s (set_words (base_t s) (<[i := position]> (table_words (base_t s))))) ino_n n (count + 1)
  end.

Definition insert_new_iblocks (g : snapshot_geometry) (s : vdfs2_snapshot_info) (ino_n new_last_table_index : Z)
    : outcome vdfs2_snapshot_info :=
  let t := base_t s in
  let last_table_index := VDFS2_LAST_TABLE_INDEX t ino_n in
  let ino_offset := VDFS2_GET_TABLE_OFFSET t ino_n in
  let add_size := 8 * (new_last_table_index - last_table_index) in
  _ ← BUG_ON (new_last_table_index <? last_table_index);
  let src := ino_offset + 8 * (last_table_index + 1) in
  let dest := src + add_size in
  let size := checksum_offset t - src in
  words ← memmove_words (table_words t) (word_index dest) (word_index src) (size / 8);
  let t := BaseTable (bt_mount_count t) (bt_sync_count t) (u32 (checksum_offset t + add_size)) (last_page_index t)
             (shift_offsets (translation_table_offsets t) ino_offset add_size) words in
  s ← fill_new_entries g (set_base_t s t) ino_n (Z.to_nat (new_last_table_index - last_table_index)) (last_table_index + 1);
  let t := base_t s in
  let s := set_base_t s (BaseTable (bt_mount_count t) (bt_sync_count t) (checksum_offset t)
             (<[VDFS2_SF_INDEX ino_n := u32 new_last_table_index]> (last_page_index t))
             (translation_table_offsets t) (table_words t)) in
  Ret (set_dirty_pages_count s (u32 (dirty_pages_count s +
         (if is_tree ino_n then Z.shiftl 1 (leb_order g) else 1) * (new_last_table_index - last_table_index)))).

Definition calculate_max_table_size (meta_tbc : Z) : Z := BASE_TABLE_SIZE + 8 * Z.shiftr meta_tbc 1 + CRC32_SIZE.
End area.

(** ** Growing the areas themselves *)

(** Step of the metadata area; [volume_size] is the size of the device in bytes. *)
Definition calculate_expand_step (g : fsm_geometry) (volume_size : Z) : Z :=
  let minimal_expand_step := 2 * (4 * Z.shiftl 1 (log_super_page_size g) + 3 * block_size g) in
  let blocks_per_superpage := Z.shiftl 1 (log_super_page_size g - log_block_size g) in
  let is_volume_small := Z.quot volume_size 50 <? minimal_expand_step in
  let minimal_expand_step := Z.shiftr minimal_expand_step (log_block_size g) in
  let minimal_expand_step :=
    minimal_expand_step + (blocks_per_superpage - Z.land minimal_expand_step (blocks_per_superpage - 1)) in
  if is_volume_small then u32 minimal_expand_step
  else u32 (Z.shiftl 1 (log_erase_block_size g - log_block_size g)).

Record vdfs2_extent := Extent { begin : Z; ext_length : Z }.

Fixpoint used_extents (extents : list vdfs2_extent) : nat :=
  match extents with
  | [] => O
  | e :: extents => if begin e =? 0 then O else S (used_extents extents)
  end.

(** The result is the error, the extents, the block count of the area, the free
    space manager and the allocator. *)
Definition expand_area (g : fsm_geometry) (fsm : vdfs2_fsm_info) (extents : list vdfs2_extent) (expand_block_count tbc : Z)
    (m : memory) : outcome (Z * list vdfs2_extent * Z * vdfs2_fsm_info * memory) :=
  let count := used_extents extents in
  if decide (length extents <= count)%nat then Ret (- EINVAL, extents, tbc, fsm, m)
  else
    last ← deref (match count with O => None | S i => extents !! i end);
    '(start_offset, expand_block_count, fsm, m) ←
      vdfs2_fsm_get_free_block g fsm (begin last + ext_length last) expand_block_count true false m;
    if start_offset =? 0 then Ret (- ENOSPC, extents, tbc, fsm, m)
    else
      let extents :=
        if begin last + ext_length last =? start_offset
        then <[(count - 1)%nat := Extent (begin last) (u32 (ext_length last + expand_block_count))]> extents
        else <[count := Extent start_offset expand_block_count]> extents in
      Ret (0, extents, u32 (tbc + expand_block_count), fsm, m).

(** The parts of the extended superblock that grow. *)
Record vdfs2_exsb := Exsb {
  meta : list vdfs2_extent;
  meta_tbc : Z;
  tables : list vdfs2_extent;
  tables_tbc : Z;
  exsb_dirty : bool;   (* the EXSB_DIRTY flag *)
}.

Fixpoint alloc_n (n : nat) (m : memory) : bool * memory :=
  match n with
  | O => (true, m)
  | S n => let '(ok, m) := kmem_alloc m in if ok then alloc_n n m else (false, m)
  end.

Section expand.
Context `{!AreaSearch}.

(** More pages for the base table: [None] when there are enough, else the error
    and the state; the words that follow the old ones are zero. *)
Definition grow_base_table (g : snapshot_geometry) (gf : fsm_geometry) (s : vdfs2_snapshot_info) (fsm : vdfs2_fsm_info)
    (exsb : vdfs2_exsb) (m : memory) : outcome (Z * bool * vdfs2_snapshot_info * vdfs2_fsm_info * vdfs2_exsb * memory) :=
  let new_table_size := calculate_max_table_size (meta_tbc exsb) in
  let new_pages_count := DIV_ROUND_UP new_table_size (Z.shiftl 1 PAGE_SHIFT) in
  if negb (tables_pages_count s <? new_pages_count) then Ret (0, false, s, fsm, exsb, m)
  else
    let blocks_in_page := Z.shiftl 1 (page_order g) in
    let base_table_in_blocks := DIV_ROUND_UP new_table_size (block_size gf) in
    let extended_table_blocks := 2 * VDFS2_SNAPSHOT_TABLES_COUNT * blocks_in_page in
    '(ret, fsm, exsb, m) ←
      (if tables_tbc exsb <? base_table_in_blocks + extended_table_blocks then
         '(ret, extents, tbc, fsm, m) ← expand_area gf fsm (tables exsb) (tables_tbc exsb) (tables_tbc exsb) m;
         Ret (ret, fsm, Exsb (meta exsb) (meta_tbc exsb) extents tbc (exsb_dirty exsb), m)
       else Ret (0, fsm, exsb, m));
    if negb (ret =? 0) then Ret (ret, false, s, fsm, exsb, m)
    else
      let '(ok, m) := alloc_n (S (S (Z.to_nat (new_pages_count - tables_pages_count s)))) m in
      if negb ok then Ret (- ENOMEM, false, s, fsm, exsb, m)
      else
        let words := table_words (base_t s) in
        let capacity := (new_pages_count * Z.shiftl 1 PAGE_SHIFT - BASE_TABLE_SIZE) / 8 in
        let words := words ++ replicate (Z.to_nat capacity - length words) 0 in
        Ret (0, true, set_tables_pages_count (set_base_t s (set_words (base_t s) words)) new_pages_count, fsm, exsb, m).

Definition grow_bitmap (bitmap : list bool) (n : Z) : list bool := bitmap ++ replicate (Z.to_nat n - length bitmap) false.

(** The last component tells that the new pages of the base table were freed
    while the table still uses them. *)
Definition expand_translation_tables (g : snapshot_geometry) (gf : fsm_geometry) (s : vdfs2_snapshot_info)
    (fsm : vdfs2_fsm_info) (exsb : vdfs2_exsb) (ino_n new_table_index : Z) (m : memory)
    : outcome (Z * vdfs2_snapshot_info * vdfs2_fsm_info * vdfs2_exsb * memory * bool) :=
  '(ret, grown, s, fsm, exsb, m) ← grow_base_table g gf s fsm exsb m;
  if negb (ret =? 0) then Ret (ret, s, fsm, exsb, m, false)
  else
    let '(ok, s, m) :=
      if bitmap_size_in_bits s <? meta_tbc exsb then
        let '(ok1, m) := kmem_alloc m in
        let '(ok2, m) := kmem_alloc m in
        let '(ok3, m) := kmem_alloc m in
        if ok1 && ok2 && ok3
        then (true, set_bitmaps s (grow_bitmap (snapshot_bitmap s) (meta_tbc exsb))
                (grow_bitmap (next_snapshot_bitmap s) (meta_tbc exsb)) (grow_bitmap (moved_iblock s) (meta_tbc exsb)), m)
        else (false, s, m)
      else (true, s, m) in
    if negb ok then Ret (- ENOMEM, s, fsm, exsb, m, grown)
    else
      s ← insert_new_iblocks g s ino_n new_table_index;
      Ret (0, s, fsm, exsb, m, false).

Definition expand_special_file (g : snapshot_geometry) (gf : fsm_geometry) (volume_size : Z) (s : vdfs2_snapshot_info)
    (fsm : vdfs2_fsm_info) (exsb : vdfs2_exsb) (ino_n new_table_index : Z) (m : memory)
    : outcome (Z * vdfs2_snapshot_info * vdfs2_fsm_info * vdfs2_exsb * memory * bool) :=
  let new_blocks_count := u32 (new_table_index - VDFS2_LAST_TABLE_INDEX (base_t s) ino_n) in
  let new_blocks_count :=
    u32 (new_blocks_count * (if is_tree ino_n then Z.shiftl 1 (page_order g + leb_order g) else Z.shiftl 1 (page_order g))) in
  let free_blocks :=
    foldl (fun free x => free - Z.shiftl 1 (page_order g + leb_order g) * (VDFS2_LAST_TABLE_INDEX (base_t s) x + 1))
      (meta_tbc exsb) special_files in
  if free_blocks - new_blocks_count <? Z.shiftr (meta_tbc exsb) 1 then
    '(ret, extents, tbc, fsm, m) ←
      expand_area gf fsm (meta exsb) (calculate_expand_step gf volume_size) (meta_tbc exsb) m;
    let exsb := Exsb extents tbc (tables exsb) (tables_tbc exsb) (exsb_dirty exsb || (ret =? 0)) in
    if negb (ret =? 0) then Ret (ret, s, fsm, exsb, m, false)
    else expand_translation_tables g gf s fsm exsb ino_n new_table_index m
  else expand_translation_tables g gf s fsm exsb ino_n new_table_index m.

(** The result holds [*is_new]. *)
Definition vdfs2_check_page_offset (g : snapshot_geometry) (gf : fsm_geometry) (volume_size : Z) (s : vdfs2_snapshot_info)
    (fsm : vdfs2_fsm_info) (exsb : vdfs2_exsb) (object_id page_index : Z) (m : memory)
    : outcome (Z * bool * vdfs2_snapshot_info * vdfs2_fsm_info * vdfs2_exsb * memory) :=
  let table_index := GET_TABLE_INDEX g object_id page_index in
  if VDFS2_LAST_TABLE_INDEX (base_t s) object_id <? table_index then
    '(ret, s, fsm, exsb, m, _) ← expand_special_file g gf volume_size s fsm exsb object_id table_index m;
    if negb (ret =? 0) then Ret (ret, false, s, fsm, exsb, m)
    else Ret (0, true, set_extended_t s (extended_t s) true, fsm, exsb, m)
  else Ret (0, false, s, fsm, exsb, m).
End expand.

(** ** From the metadata area to the device ([data.c]) *)

(** Sector [isector] of the tables area: its place and how far its extent goes. *)
Fixpoint get_sector_loop (extents : list vdfs2_extent) (isector first_isector shift : Z) : option (Z * Z) :=
  match extents with
  | [] => None
  | e :: extents =>
      let last_isector := first_isector + u32 (Z.shiftl (ext_length e) shift) in
      if (first_isector <=? isector) && (isector <? last_isector) then
        let offset := isector - first_isector in
        Some (Z.shiftl (begin e) shift + offset, u32 (Z.shiftl (ext_length e) shift) - offset)
      else get_sector_loop extents isector last_isector shift
  end.

Definition get_sector (extents : list vdfs2_extent) (isector block_shift : Z) : Z * option (Z * Z) :=
  match get_sector_loop extents isector 0 (block_shift - SECTOR_SIZE_SHIFT) with
  | Some r => (0, Some r)
  | None => (- EINVAL, None)
  end.

(** [get_table_sector]: [*length] and [*result] are zero before. *)
Definition get_table_sector (extents : list vdfs2_extent) (isector block_shift max_size : Z) (mount_finished : bool)
    : outcome (Z * Z * Z) :=
  let '(ret, r) := get_sector extents isector block_shift in
  let '(result, length) := match r with Some p => p | None => (0, 0) end in
  if (length =? 0) || (max_size <? result) then
    if mount_finished then Bug else Ret (- EFAULT, result, length)
  else Ret (ret, result, length).

Definition get_meta_block (extents : list vdfs2_extent) (iblock : Z) : Z * option (Z * Z) :=
  match get_sector_loop extents iblock 0 0 with
  | Some r => (0, Some r)
  | None => (- EINVAL, None)
  end.

(** The block of the device that holds a page of a special file ([type] 0 of
    [get_block_meta_wrapper]). *)
Definition get_block_meta (g : snapshot_geometry) (t : vdfs2_base_table) (extents : list vdfs2_extent) (ino_n page_index : Z)
    : outcome (Z * Z) :=
  '(ret, start_iblock) ← vdfs2_get_meta_iblock g t ino_n page_index;
  if negb (ret =? 0) then Ret (ret, 0)
  else
    let meta_iblock :=
      if is_tree ino_n then
        let mask := Z.shiftl 1 (leb_order g + blk_shift g - PAGE_SHIFT) - 1 in
        start_iblock + Z.shiftl (Z.land page_index mask) (PAGE_SHIFT - blk_shift g)
      else start_iblock in
    let '(ret, r) := get_meta_block extents meta_iblock in
    let res_block := match r with Some (b, _) => b | None => 0 end in
    _ ← BUG_ON (res_block =? 0);
    Ret (ret, res_block).
