(* ===== verification/SnapshotFacts.v ===== *)
(** * Correctness of the snapshot manager: copy-on-write *)
From Stdlib Require Import ZArith Lia.
From stdpp Require Import base numbers list sets.
From S2P Require Import Prelude FsmTree Bits Fsm Snapshot.

(** ** Bitmaps *)

Lemma bitmap_fill_ok v bitmap pos nr :
  0 <= pos -> 0 <= nr -> pos + nr <= Z.of_nat (length bitmap) ->
  exists bitmap', bitmap_fill v bitmap pos nr = Ret bitmap' /\ length bitmap' = length bitmap /\
    forall q, 0 <= q -> bitmap_bit bitmap' q = if bool_decide (pos <= q < pos + nr) then v else bitmap_bit bitmap q.
Proof.
  intros. unfold bitmap_fill. rewrite bool_decide_true by lia. eexists. split; [done|]. split.
  - rewrite !length_app, length_take, length_replicate, length_drop. lia.
  - intros q Hq. unfold bitmap_bit. case_bool_decide.
    + rewrite lookup_total_app_r, length_take by (rewrite length_take; lia).
      rewrite lookup_total_app_l by (rewrite length_replicate; lia). apply lookup_total_replicate_2. lia.
    + destruct (decide (q < pos)).
      * rewrite lookup_total_app_l by (rewrite length_take; lia). rewrite lookup_total_take. by rewrite decide_True by lia.
      * rewrite lookup_total_app_r by (rewrite length_take; lia).
        rewrite lookup_total_app_r by (rewrite length_take, length_replicate; lia).
        rewrite lookup_total_drop, length_take, length_replicate. f_equal. lia.
Qed.

Lemma bitmap_bit_lookup bitmap q :
  0 <= q < Z.of_nat (length bitmap) -> bitmap !! Z.to_nat q = Some (bitmap_bit bitmap q).
Proof. intros Hq. unfold bitmap_bit. apply list_lookup_lookup_total_lt. zify. lia. Qed.

(** ** The layout of the tables *)

Lemma special_files_range x : x ∈ special_files <-> VDFS2_FSFILE <= x <= VDFS2_LSFILE.
Proof. unfold special_files. rewrite elem_of_seqZ. unfold VDFS2_SF_NR, VDFS2_LSFILE, VDFS2_FSFILE, VDFS2_SMALL_AREA_BITMAP. lia. Qed.

Lemma SF_INDEX_inj x y : x ∈ special_files -> y ∈ special_files -> VDFS2_SF_INDEX x = VDFS2_SF_INDEX y -> x = y.
Proof. rewrite !special_files_range. unfold VDFS2_SF_INDEX, VDFS2_FSFILE. lia. Qed.

Lemma SF_INDEX_lt x : x ∈ special_files -> (VDFS2_SF_INDEX x < 7)%nat.
Proof. rewrite special_files_range. unfold VDFS2_SF_INDEX, VDFS2_FSFILE, VDFS2_LSFILE, VDFS2_SMALL_AREA_BITMAP. lia. Qed.

Local Abbreviation off t x := (VDFS2_GET_TABLE_OFFSET t x).
Local Abbreviation last t x := (VDFS2_LAST_TABLE_INDEX t x).
Definition start_word (t : vdfs2_base_table) (x : Z) : Z := word_index (VDFS2_GET_TABLE_OFFSET t x).

Record layout_ok (t : vdfs2_base_table) : Prop := {
  lay_offsets : length (translation_table_offsets t) = 7%nat;
  lay_lasts : length (last_page_index t) = 7%nat;
  lay_range x : x ∈ special_files -> 0 <= last t x < 2 ^ 31 /\ BASE_TABLE_SIZE <= off t x /\ off t x mod 8 = BASE_TABLE_SIZE mod 8;
  lay_end x : x ∈ special_files -> off t x + 8 * (last t x + 1) <= checksum_offset t;
  lay_checksum : checksum_offset t mod 8 = BASE_TABLE_SIZE mod 8 /\
    word_index (checksum_offset t) <= Z.of_nat (length (table_words t)) /\ checksum_offset t < 2 ^ 31;
  lay_disjoint x y : x ∈ special_files -> y ∈ special_files -> x <> y ->
    off t x + 8 * (last t x + 1) <= off t y \/ off t y + 8 * (last t y + 1) <= off t x;
}.

Lemma start_word_off t x : layout_ok t -> x ∈ special_files -> 0 <= start_word t x /\ off t x = BASE_TABLE_SIZE + 8 * start_word t x.
Proof.
  intros Hl Hx. destruct (lay_range t Hl x Hx) as (_ & ? & ?). unfold start_word, word_index, BASE_TABLE_SIZE in *. lia.
Qed.

Lemma checksum_word t : layout_ok t -> checksum_offset t = BASE_TABLE_SIZE + 8 * word_index (checksum_offset t).
Proof. intros Hl. destruct (lay_checksum t Hl). unfold word_index, BASE_TABLE_SIZE in *. lia. Qed.

Lemma table_word_lt t x k :
  layout_ok t -> x ∈ special_files -> 0 <= k <= last t x ->
  (table_word t x k < length (table_words t))%nat /\ Z.of_nat (table_word t x k) = start_word t x + k.
Proof.
  intros Hl Hx Hk. destruct (start_word_off t x Hl Hx). pose proof (lay_end t Hl x Hx).
  pose proof (checksum_word t Hl). destruct (lay_checksum t Hl) as (_ & ? & _).
  unfold table_word. fold (start_word t x). lia.
Qed.

Lemma table_word_inj t x y k j :
  layout_ok t -> x ∈ special_files -> y ∈ special_files -> 0 <= k <= last t x -> 0 <= j <= last t y ->
  table_word t x k = table_word t y j -> x = y /\ k = j.
Proof.
  intros Hl Hx Hy Hk Hj Heq.
  destruct (table_word_lt t x k Hl Hx Hk) as [_ H1]. destruct (table_word_lt t y j Hl Hy Hj) as [_ H2].
  destruct (start_word_off t x Hl Hx). destruct (start_word_off t y Hl Hy).
  destruct (decide (x = y)) as [->|Hne]; [split; [done|lia]|].
  destruct (lay_disjoint t Hl x y Hx Hy Hne); lia.
Qed.

(** The iblock of entry [k] of file [x]. *)
Definition entry_at (t : vdfs2_base_table) (x k e : Z) : Prop :=
  x ∈ special_files /\ 0 <= k <= VDFS2_LAST_TABLE_INDEX t x /\ table_words t !! table_word t x k = Some e.

Lemma entry_exists t x k : layout_ok t -> x ∈ special_files -> 0 <= k <= last t x -> exists e, entry_at t x k e.
Proof.
  intros Hl Hx Hk. destruct (table_word_lt t x k Hl Hx Hk) as [Hlt _].
  apply lookup_lt_is_Some_2 in Hlt as [e He]. by exists e.
Qed.

Lemma entry_fun t x k e e' : entry_at t x k e -> entry_at t x k e' -> e = e'.
Proof. intros (_ & _ & H1) (_ & _ & H2). congruence. Qed.

Lemma set_word_layout t i w : layout_ok t -> layout_ok (set_words t (<[i := w]> (table_words t))).
Proof. intros []. split; try done. simpl. by rewrite length_insert. Qed.

Lemma set_word_entry t x k e e0 y j e' :
  layout_ok t -> entry_at t x k e0 ->
  entry_at (set_words t (<[table_word t x k := e]> (table_words t))) y j e' <->
  (y = x /\ j = k /\ e' = e) \/ (entry_at t y j e' /\ (y <> x \/ j <> k)).
Proof.
  intros Hl (Hx & Hk & He). unfold entry_at. cbn [set_words table_words].
  change (VDFS2_LAST_TABLE_INDEX (set_words t _) y) with (last t y).
  change (table_word (set_words t _) y j) with (table_word t y j).
  split.
  - intros (Hy & Hj & Hw). destruct (decide (y = x /\ j = k)) as [[-> ->]|Hne].
    + left. rewrite list_lookup_insert_eq in Hw by (by eapply lookup_lt_Some). by injection Hw.
    + right. rewrite list_lookup_insert_ne in Hw; [|intros Heq; destruct Hne; apply eq_sym, (table_word_inj t) in Heq; naive_solver].
      split; [done|]. destruct (decide (y = x)); [right; naive_solver|by left].
  - intros [(-> & -> & ->)|[(Hy & Hj & Hw) Hne]].
    + split; [done|]. split; [done|]. apply list_lookup_insert_eq. by eapply lookup_lt_Some.
    + split; [done|]. split; [done|]. rewrite list_lookup_insert_ne; [done|].
      intros Heq. apply eq_sym, (table_word_inj t) in Heq as [-> ->]; try done. naive_solver.
Qed.

(** ** The blocks of the entries *)

Definition in_entry (g : snapshot_geometry) (x e p : Z) : Prop := e <= p < e + 2 ^ entry_order g x.

Definition covers_block (g : snapshot_geometry) (t : vdfs2_base_table) (p : Z) : Prop :=
  exists x k e, entry_at t x k e /\ in_entry g x e p.

Record tables_ok (g : snapshot_geometry) (t : vdfs2_base_table) (size : Z) : Prop := {
  tb_layout : layout_ok t;
  tb_range x k e : entry_at t x k e -> 0 <= e /\ e + 2 ^ entry_order g x <= size /\ e mod 2 ^ entry_order g x = 0;
  tb_disjoint x k e y j e' p : entry_at t x k e -> entry_at t y j e' -> in_entry g x e p -> in_entry g y e' p -> x = y /\ k = j;
}.

Definition orders_ok (g : snapshot_geometry) : Prop := 0 <= leb_order g < 31 /\ 0 <= page_order g < 31.

Lemma entry_order_range g x : orders_ok g -> 0 <= entry_order g x < 31.
Proof. intros []. unfold entry_order. by case_match. Qed.

Lemma entry_size_pos g x : orders_ok g -> 0 < 2 ^ entry_order g x.
Proof. intros H. pose proof (entry_order_range g x H). apply Z.pow_pos_nonneg; lia. Qed.

Lemma in_entry_start g x e : orders_ok g -> in_entry g x e e.
Proof. intros H. pose proof (entry_size_pos g x H). unfold in_entry. lia. Qed.

Lemma mask_mod o e : 0 <= o -> Z.land e (Z.shiftl 1 o - 1) = e mod 2 ^ o.
Proof. intros. rewrite Z.shiftl_1_l, <-Z.land_ones by done. f_equal. rewrite Z.ones_equiv. lia. Qed.

(** ** A free place for an entry *)

Definition free_at (bitmap : list bool) (q nr : Z) : Prop :=
  0 <= q /\ q + nr <= Z.of_nat (length bitmap) /\ forall p, q <= p < q + nr -> bitmap_bit bitmap p = false.

Definition room (g : snapshot_geometry) (s : vdfs2_snapshot_info) (x : Z) : Prop :=
  exists q, q mod 2 ^ entry_order g x = 0 /\ free_at (snapshot_bitmap s) q (2 ^ entry_order g x).

Record bitmaps_ok (s : vdfs2_snapshot_info) : Prop := {
  bm_next : length (next_snapshot_bitmap s) = length (snapshot_bitmap s);
  bm_moved : length (moved_iblock s) = length (snapshot_bitmap s);
  bm_int : Z.of_nat (length (snapshot_bitmap s)) < 2 ^ 31;
  bm_hints : 0 <= hint_btree s /\ 0 <= hint_bitmaps s;
}.

(** The bits [q, q + n) of a bitmap become [v]. *)
Definition filled (v : bool) (bitmap bitmap' : list bool) (q n : Z) : Prop :=
  length bitmap' = length bitmap /\
  forall p, 0 <= p -> bitmap_bit bitmap' p = if bool_decide (q <= p < q + n) then v else bitmap_bit bitmap p.

Section moves.
Context `{!AreaSearch, !AreaSearchLaws}.

Lemma search_area g (s : vdfs2_snapshot_info) x q :
  orders_ok g -> bitmaps_ok s -> q mod 2 ^ entry_order g x = 0 -> free_at (snapshot_bitmap s) q (2 ^ entry_order g x) ->
  forall hint, 0 <= hint ->
  let size := bitmap_size_in_bits s in
  let mask := Z.shiftl 1 (entry_order g x) - 1 in
  let nr := Z.shiftl 1 (entry_order g x) in
  let r := bitmap_find_next_zero_area (snapshot_bitmap s) size hint nr mask in
  (r mod 2 ^ entry_order g x = 0 /\ free_at (snapshot_bitmap s) r (2 ^ entry_order g x)) \/ (size < r /\ hint <> 0).
Proof using Type*.
  intros Hg Hb Hq (Hq0 & Hq1 & Hq2) hint Hh. cbv zeta. pose proof (entry_size_pos g x Hg).
  pose proof (entry_order_range g x Hg).
  assert (Hnr : Z.shiftl 1 (entry_order g x) = 2 ^ entry_order g x) by (rewrite Z.shiftl_1_l; done).
  pose proof (bitmap_find_next_zero_area_spec (snapshot_bitmap s) (bitmap_size_in_bits s) hint
    (Z.shiftl 1 (entry_order g x)) (Z.shiftl 1 (entry_order g x) - 1) Hh ltac:(lia) eq_refl) as Hspec.
  cbv zeta in Hspec. set (r := bitmap_find_next_zero_area _ _ _ _ _) in *.
  rewrite mask_mod in Hspec by lia. rewrite Hnr in Hspec. unfold bitmap_size_in_bits in *.
  destruct Hspec as [(Hr1 & Hr2 & Hr3 & Hr4)|[Hr1 Hr2]].
  - left. split; [done|]. split; [lia|]. split; [lia|done].
  - right. split; [done|]. intros ->. destruct (Hr2 q) as (p & Hp & Hb'); [lia|lia|rewrite <-Hnr, mask_mod by lia; done|].
    rewrite Hq2 in Hb' by done. done.
Qed.

Lemma get_new_meta_iblock_ok g s x :
  orders_ok g -> bitmaps_ok s -> room g s x ->
  exists pos a b c h1 h2, get_new_meta_iblock g s x = Ret (pos, set_hints (set_bitmaps s a b c) h1 h2) /\
    pos mod 2 ^ entry_order g x = 0 /\ free_at (snapshot_bitmap s) pos (2 ^ entry_order g x) /\
    filled true (snapshot_bitmap s) a pos (2 ^ entry_order g x) /\
    filled true (next_snapshot_bitmap s) b pos (2 ^ entry_order g x) /\
    filled true (moved_iblock s) c pos (2 ^ entry_order g x) /\ 0 <= h1 /\ 0 <= h2.
Proof using Type*.
  intros Hg Hb (q & Hq & Hfree). pose proof (entry_size_pos g x Hg).
  unfold get_new_meta_iblock. cbv zeta.
  set (hint := if is_tree x then _ else _). assert (Hh : 0 <= hint) by (destruct (bm_hints s Hb); subst hint; by case_match).
  pose proof (search_area g s x q Hg Hb Hq Hfree hint Hh) as Hs1. pose proof (search_area g s x q Hg Hb Hq Hfree 0 ltac:(lia)) as Hs2.
  cbv zeta in Hs1, Hs2. unfold bitmap_size_in_bits in *.
  set (r1 := bitmap_find_next_zero_area _ _ hint _ _) in *. set (r0 := bitmap_find_next_zero_area _ _ 0 _ _) in *.
  assert (exists pos, (if Z.of_nat (length (snapshot_bitmap s)) <? r1 then
      if Z.of_nat (length (snapshot_bitmap s)) <? r0 then Bug else Ret r0 else Ret r1) = Ret pos /\
      pos mod 2 ^ entry_order g x = 0 /\ free_at (snapshot_bitmap s) pos (2 ^ entry_order g x)) as (pos & Heq & Hal & Hf).
  { destruct Hs2 as [[H20 H21]|[? []]]; [|done].
    destruct (Z.ltb_spec (Z.of_nat (length (snapshot_bitmap s))) r1) as [Hlt|Hge].
    - destruct (Z.ltb_spec (Z.of_nat (length (snapshot_bitmap s))) r0); [destruct H21 as (? & ? & _); lia|by exists r0].
    - destruct Hs1 as [[? ?]|[? ?]]; [by exists r1|lia]. }
  rewrite Heq. cbn [mbind outcome_bind]. destruct Hf as (Hf0 & Hf1 & Hf2). pose proof (bm_int s Hb).
  rewrite !s32_small, Z.shiftl_1_l by (rewrite ?Z.shiftl_1_l; lia).
  destruct (bitmap_fill_ok true (snapshot_bitmap s) pos (2 ^ entry_order g x)) as (a & Ha & Ha1 & Ha2); [lia..|].
  destruct (bitmap_fill_ok true (next_snapshot_bitmap s) pos (2 ^ entry_order g x)) as (b & Hb1 & Hb2 & Hb3);
    [rewrite ?(bm_next s Hb); lia..|].
  destruct (bitmap_fill_ok true (moved_iblock s) pos (2 ^ entry_order g x)) as (c & Hc1 & Hc2 & Hc3);
    [rewrite ?(bm_moved s Hb); lia..|].
  unfold bitmap_set. rewrite Ha. cbn [mbind outcome_bind]. rewrite Hb1. cbn [mbind outcome_bind].
  rewrite Hc1. cbn [mbind outcome_bind]. destruct (bm_hints s Hb) as [Hh1 Hh2].
  exists pos, a, b, c, (if is_tree x then pos + 2 ^ entry_order g x else hint_btree s),
    (if is_tree x then hint_bitmaps s else pos + 2 ^ entry_order g x).
  split; [by destruct (is_tree x)|]. split; [done|]. split; [done|]. do 3 (split; [done|]).
  destruct (is_tree x); lia.
Qed.
End moves.

(** ** Copy-on-write, relative to the committed table [t0] *)

Record cow (g : snapshot_geometry) (t0 : vdfs2_base_table) (s : vdfs2_snapshot_info) : Prop := {
  cow_bitmaps : bitmaps_ok s;
  cow_tables : tables_ok g (base_t s) (bitmap_size_in_bits s);
  (** the next snapshot holds the blocks of the current tables *)
  cow_next p : 0 <= p < bitmap_size_in_bits s ->
    (bitmap_bit (next_snapshot_bitmap s) p = true <-> covers_block g (base_t s) p);
  (** a place in use is one of the committed tables or one given out since *)
  cow_snap p : 0 <= p < bitmap_size_in_bits s ->
    (bitmap_bit (snapshot_bitmap s) p = true <-> covers_block g t0 p \/ bitmap_bit (moved_iblock s) p = true);
  (** what was given out since is no committed block *)
  cow_moved p : 0 <= p < bitmap_size_in_bits s -> bitmap_bit (moved_iblock s) p = true ->
    ~ covers_block g t0 p /\ bitmap_bit (next_snapshot_bitmap s) p = true;
  (** an entry moved as a whole, or is still where the committed table has it *)
  cow_entry x k e : entry_at (base_t s) x k e ->
    (forall p, in_entry g x e p -> bitmap_bit (moved_iblock s) p = true) \/
    ((forall p, in_entry g x e p -> bitmap_bit (moved_iblock s) p = false) /\ entry_at t0 x k e);
}.

Section facts.
Context (g : snapshot_geometry) (t0 : vdfs2_base_table) (Hg : orders_ok g).

Lemma entry_block_range s x k e p :
  cow g t0 s -> entry_at (base_t s) x k e -> in_entry g x e p -> 0 <= p < bitmap_size_in_bits s.
Proof using Type. intros Hc He Hp. destruct (tb_range _ _ _ (cow_tables _ _ _ Hc) _ _ _ He). unfold in_entry in Hp. lia. Qed.

Lemma entry_block_used s x k e p :
  cow g t0 s -> entry_at (base_t s) x k e -> in_entry g x e p -> bitmap_bit (snapshot_bitmap s) p = true.
Proof using Type.
  intros Hc He Hp. apply (cow_snap g t0 s Hc); [by eapply entry_block_range|].
  destruct (cow_entry g t0 s Hc x k e He) as [Hm|[_ H0]]; [right; by apply Hm|]. left. by exists x, k, e.
Qed.

(** Entry [k] of [x] goes to a free place, or is new there. *)
Lemma cow_update s s' x k pos :
  cow g t0 s -> bitmaps_ok s' -> layout_ok (base_t s') -> k <= VDFS2_LAST_TABLE_INDEX (base_t s') x ->
  pos mod 2 ^ entry_order g x = 0 -> free_at (snapshot_bitmap s) pos (2 ^ entry_order g x) ->
  filled true (snapshot_bitmap s) (snapshot_bitmap s') pos (2 ^ entry_order g x) ->
  filled true (moved_iblock s) (moved_iblock s') pos (2 ^ entry_order g x) ->
  (forall y j e', entry_at (base_t s') y j e' <->
    (y = x /\ j = k /\ e' = pos) \/ (entry_at (base_t s) y j e' /\ (y <> x \/ j <> k))) ->
  (forall e p, entry_at (base_t s) x k e -> in_entry g x e p -> bitmap_bit (moved_iblock s) p = false) ->
  (forall p, 0 <= p < bitmap_size_in_bits s -> bitmap_bit (next_snapshot_bitmap s') p = true <->
    in_entry g x pos p \/ (bitmap_bit (next_snapshot_bitmap s) p = true /\
      ~ exists e, entry_at (base_t s) x k e /\ in_entry g x e p)) ->
  cow g t0 s'.
Proof using Hg.
  intros Hc Hb' Hl' Hk Hal (Hf0 & Hf1 & Hf2) [Hsl Hs] [Hml Hm] He Hun Hn.
  assert (Hsz : bitmap_size_in_bits s' = bitmap_size_in_bits s) by (unfold bitmap_size_in_bits; by rewrite Hsl).
  fold (bitmap_size_in_bits s) in Hf1. pose proof (cow_tables g t0 s Hc) as Ht.
  assert (Hnew : forall p, in_entry g x pos p -> 0 <= p < bitmap_size_in_bits s) by (unfold in_entry; lia).
  assert (Hfree : forall y j e' p, entry_at (base_t s) y j e' -> in_entry g y e' p -> ~ in_entry g x pos p).
  { intros y j e' p Hy Hp Hp'. pose proof (entry_block_used s y j e' p Hc Hy Hp) as H1. rewrite Hf2 in H1; [done|exact Hp']. }
  assert (Hs' : forall p, 0 <= p -> bitmap_bit (snapshot_bitmap s') p = true <->
    in_entry g x pos p \/ bitmap_bit (snapshot_bitmap s) p = true).
  { intros p Hp. rewrite Hs by done. unfold in_entry. case_bool_decide; naive_solver. }
  assert (Hm' : forall p, 0 <= p -> bitmap_bit (moved_iblock s') p = true <->
    in_entry g x pos p \/ bitmap_bit (moved_iblock s) p = true).
  { intros p Hp. rewrite Hm by done. unfold in_entry. case_bool_decide; naive_solver. }
  split; try rewrite Hsz; try done.
  - split; [done|..].
    + intros y j e' [(-> & -> & ->)|[Hy _]]%He; [lia|]. by apply (tb_range _ _ _ Ht) in Hy.
    + intros y j e1 z i e2 p [(-> & -> & ->)|[Hy _]]%He [(-> & -> & ->)|[Hz _]]%He Hp1 Hp2; [done|..].
      * by destruct (Hfree z i e2 p).
      * by destruct (Hfree y j e1 p).
      * by apply (tb_disjoint _ _ _ Ht y j e1 z i e2 p).
  - intros p Hp. rewrite Hn, (cow_next g t0 s Hc) by done. split.
    + intros [Hp'|[(y & j & e' & Hy & Hp') Hne]].
      * exists x, k, pos. split; [|done]. apply He. by left.
      * exists y, j, e'. split; [|done]. apply He. right. split; [done|].
        destruct (decide (y = x)) as [->|]; [|by left]. right. intros ->. destruct Hne. by exists e'.
    + intros (y & j & e' & [(-> & -> & ->)|[Hy Hne]]%He & Hp'); [by left|]. right. split; [by exists y, j, e'|].
      intros (e & He0 & Hp0). destruct (tb_disjoint _ _ _ Ht y j e' x k e p); naive_solver.
  - intros p Hp. rewrite Hs', Hm', (cow_snap g t0 s Hc) by lia. naive_solver.
  - intros p Hp [Hp'|Hp']%Hm'; [..|lia].
    + split; [|apply Hn; [done|by left]]. intros Hcov.
      assert (H1 : bitmap_bit (snapshot_bitmap s) p = true) by (apply (cow_snap g t0 s Hc); [done|by left]).
      rewrite Hf2 in H1; [done|exact Hp'].
    + destruct (cow_moved g t0 s Hc p Hp Hp') as [Hc0 Hnx]. split; [done|]. apply Hn; [done|]. right. split; [done|].
      intros (e & He0 & Hp0). specialize (Hun e p He0 Hp0). congruence.
  - intros y j e' [(-> & -> & ->)|[Hy Hne]]%He.
    + left. intros p Hp. apply Hm'; [specialize (Hnew p Hp); lia|by left].
    + destruct (cow_entry g t0 s Hc y j e' Hy) as [Hmv|[Hmv H0]].
      * left. intros p Hp. apply Hm'; [|right; by apply Hmv]. destruct (entry_block_range s y j e' p Hc Hy Hp). done.
      * right. split; [|done]. intros p Hp. destruct (entry_block_range s y j e' p Hc Hy Hp).
        rewrite Hm by done. case_bool_decide; [|by apply Hmv]. by destruct (Hfree y j e' p Hy Hp).
Qed.

(** *** Room: free places as large as the largest entry *)

Definition slot_order : Z := Z.max (leb_order g) (page_order g).

Definition slot_free (bitmap : list bool) (q : Z) : Prop :=
  forall p, q * 2 ^ slot_order <= p < (q + 1) * 2 ^ slot_order -> bitmap_bit bitmap p = false.

(** [bitmap] has [n] free slots. *)
Definition free_slots (bitmap : list bool) (n : nat) : Prop :=
  exists qs, NoDup qs /\ length qs = n /\
    forall q, q ∈ qs -> 0 <= q /\ (q + 1) * 2 ^ slot_order <= Z.of_nat (length bitmap) /\ slot_free bitmap q.

Lemma slot_order_entry x : 0 <= entry_order g x <= slot_order.
Proof using Hg. unfold slot_order. pose proof (entry_order_range g x Hg). unfold entry_order in *. case_match; lia. Qed.

Lemma slot_split x : 2 ^ slot_order = 2 ^ (slot_order - entry_order g x) * 2 ^ entry_order g x /\ 0 < 2 ^ (slot_order - entry_order g x).
Proof using Hg.
  pose proof (slot_order_entry x). rewrite <-Z.pow_add_r by lia. split; [f_equal; lia|]. apply Z.pow_pos_nonneg; lia.
Qed.

Lemma free_slots_room s x n : free_slots (snapshot_bitmap s) (S n) -> room g s x.
Proof using Hg.
  intros (qs & _ & Hlen & Hq). destruct qs as [|q qs]; [done|]. destruct (Hq q) as (H0 & H1 & H2); [set_solver|].
  destruct (slot_split x) as [Hs Hs0]. pose proof (entry_size_pos g x Hg) as Hpos.
  assert (2 ^ entry_order g x <= 2 ^ slot_order) by (rewrite Hs; nia).
  exists (q * 2 ^ slot_order). split; [rewrite Hs, Z.mul_assoc; apply Z.mod_mul; lia|].
  split; [nia|]. split; [lia|]. intros p Hp. apply H2. lia.
Qed.

#[local] Ltac Zify.zify_post_hook ::= idtac.

Lemma free_slots_fill bitmap bitmap' x pos n :
  free_slots bitmap (S n) -> 0 <= pos -> pos mod 2 ^ entry_order g x = 0 ->
  filled true bitmap bitmap' pos (2 ^ entry_order g x) -> free_slots bitmap' n.
Proof using Hg.
  intros (qs & Hnd & Hlen & Hqs) Hpos Hal [Hl Hf]. pose proof (entry_size_pos g x Hg) as Hep.
  destruct (slot_split x) as [Hs Hs0]. set (r := pos / 2 ^ slot_order).
  assert (Hr : r * 2 ^ slot_order <= pos /\ pos + 2 ^ entry_order g x <= (r + 1) * 2 ^ slot_order).
  { pose proof (Z.div_mod pos (2 ^ slot_order) ltac:(nia)) as Hd. pose proof (Z.mod_pos_bound pos (2 ^ slot_order) ltac:(nia)) as Hb.
    pose proof (Z.div_mod pos (2 ^ entry_order g x) ltac:(lia)) as Hd'. rewrite Hal, Z.add_0_r in Hd'.
    fold r in Hd. split; [lia|]. set (u := pos / 2 ^ entry_order g x) in *.
    set (E := 2 ^ entry_order g x) in *. set (D := 2 ^ (slot_order - entry_order g x)) in *. rewrite Hs in Hd, Hb |- *.
    assert (u < (r + 1) * D) by (apply (Z.mul_lt_mono_pos_r E); lia).
    assert ((u + 1) * E <= (r + 1) * D * E) by (apply Z.mul_le_mono_nonneg_r; lia). lia. }
  assert (Hkeep : forall q, q ∈ qs -> q <> r -> 0 <= q /\ (q + 1) * 2 ^ slot_order <= Z.of_nat (length bitmap') /\ slot_free bitmap' q).
  { intros q Hq Hne. destruct (Hqs q Hq) as (H0 & H1 & H2). split; [done|]. split; [by rewrite Hl|].
    intros p Hp. rewrite Hf by nia. rewrite bool_decide_false; [by apply H2|]. nia. }
  exists (take n (filter (fun q => q <> r) qs)). split; [eapply sublist_NoDup; [|apply sublist_take]; by apply NoDup_filter|].
  assert (Hsub : qs ⊆+ r :: filter (fun q => q <> r) qs).
  { apply NoDup_submseteq; [done|]. intros q Hq. rewrite elem_of_cons, list_elem_of_filter. destruct (decide (q = r)); naive_solver. }
  apply submseteq_length in Hsub. simpl in Hsub. split; [rewrite length_take; lia|].
  intros q Hq. apply subseteq_take in Hq. apply list_elem_of_filter in Hq as [? ?]. by apply Hkeep.
Qed.
End facts.

(** ** Moving one block *)

(** Copies of a state that agree on what [cow] reads. *)
Lemma cow_same g t0 s s' :
  base_t s' = base_t s -> snapshot_bitmap s' = snapshot_bitmap s -> next_snapshot_bitmap s' = next_snapshot_bitmap s ->
  moved_iblock s' = moved_iblock s -> hint_btree s' = hint_btree s -> hint_bitmaps s' = hint_bitmaps s ->
  cow g t0 s -> cow g t0 s'.
Proof.
  intros H1 H2 H3 H4 H5 H6 [[] ? ? ? ? ?].
  assert (bitmap_size_in_bits s' = bitmap_size_in_bits s) as Hsz by (unfold bitmap_size_in_bits; by rewrite H2).
  split; rewrite ?H1, ?H2, ?H3, ?H4, ?Hsz; try done. split; rewrite ?H2, ?H3, ?H4, ?H5, ?H6; done.
Qed.

(** The extended table replays the moves made since the committed table, while
    it is not given up. *)
Definition ext_size (e : vdfs2_extended_table) : Z :=
  EXT_RECORD_SIZE * Z.of_nat (length (et_records e)) + EXT_TABLE_SIZE + CRC32_SIZE.

Record log_ok (t0 : vdfs2_base_table) (s : vdfs2_snapshot_info) : Prop := {
  log_replays : use_base_table s = false -> apply_records t0 (et_records (extended_t s)) = Ret (base_t s);
  log_bound : ext_size (extended_t s) <= Z.shiftl 1 PAGE_SHIFT;
}.

(** What stays of a table when entries move. *)
Definition same_layout (t t' : vdfs2_base_table) : Prop :=
  checksum_offset t' = checksum_offset t /\ last_page_index t' = last_page_index t /\
  translation_table_offsets t' = translation_table_offsets t /\ length (table_words t') = length (table_words t).

Lemma apply_records_app t records r :
  apply_records t (records ++ [r]) = t' ← apply_records t records; apply_records t' [r].
Proof.
  revert t. induction records as [|q records IH]; intros t; [done|]. cbn [app apply_records].
  destruct (BUG_ON _); cbn [mbind outcome_bind]; [|done]. destruct (deref _); cbn [mbind outcome_bind]; [|done]. apply IH.
Qed.

Section moving.
Context `{!AreaSearch, !AreaSearchLaws} (g : snapshot_geometry) (t0 : vdfs2_base_table) (Hg : orders_ok g).

Lemma move_iblock_ok s x e page :
  cow g t0 s -> let k := GET_TABLE_INDEX g x page in
  entry_at (base_t s) x k e -> (forall p, in_entry g x e p -> bitmap_bit (moved_iblock s) p = false) -> room g s x ->
  exists pos a b c h1 h2,
    let t' := set_words (base_t s) (<[table_word (base_t s) x k := pos]> (table_words (base_t s))) in
    let s' := set_base_t (set_bitmaps (set_hints (set_bitmaps s a b c) h1 h2) a b c) t' in
    move_iblock g s x e page = Ret (pos, s') /\ cow g t0 s' /\ pos mod 2 ^ entry_order g x = 0 /\
    filled true (snapshot_bitmap s) a pos (2 ^ entry_order g x) /\ filled true (moved_iblock s) c pos (2 ^ entry_order g x) /\
    0 <= pos < 2 ^ 31.
Proof using Type*.
  intros Hc k He Hun Hroom. pose proof (cow_tables _ _ _ Hc) as Ht. pose proof (cow_bitmaps _ _ _ Hc) as Hb.
  pose proof (tb_range _ _ _ Ht _ _ _ He) as (He0 & He1 & He2). pose proof (entry_size_pos g x Hg) as Hpos.
  pose proof (bm_int s Hb) as Hint. unfold bitmap_size_in_bits in He1. destruct He as (Hx & Hk & Hw).
  destruct (get_new_meta_iblock_ok g s x Hg Hb Hroom)
    as (pos & a & b & c & h1 & h2 & Heq & Hal & Hfree & Ha & Hbb & Hcc & Hh1 & Hh2).
  unfold move_iblock. cbv zeta. fold k. rewrite (proj2 (Z.ltb_ge _ _)) by lia. cbn [BUG_ON mbind outcome_bind].
  rewrite Heq. cbn [mbind outcome_bind]. rewrite s32_small by lia. rewrite Z.shiftl_1_l.
  destruct Hbb as [Hbl Hbf].
  destruct (bitmap_fill_ok false b e (2 ^ entry_order g x)) as (b' & Hb1 & Hb2 & Hb3); [lia..|rewrite Hbl, ?(bm_next s Hb); lia|].
  unfold bitmap_clear. cbn [next_snapshot_bitmap set_hints set_bitmaps]. rewrite Hb1. cbn [mbind outcome_bind set_hints set_bitmaps base_t].
  rewrite Hw. cbn [deref mbind outcome_bind].
  exists pos, a, b', c, h1, h2. cbv zeta. split; [done|]. split; [|split; [done|]; split; [done|]; split; [done|]].
  2: { destruct Hfree as (? & ? & _). lia. }
  apply (cow_update g t0 Hg s) with x k pos; simpl; try done.
  - split; simpl; [by rewrite Hb2, Hbl, (bm_next s Hb), (proj1 Ha)|by rewrite (proj1 Hcc), (bm_moved s Hb), (proj1 Ha)
      |by rewrite (proj1 Ha)|done].
  - apply set_word_layout, Ht.
  - change (VDFS2_LAST_TABLE_INDEX (set_words _ _) x) with (VDFS2_LAST_TABLE_INDEX (base_t s) x). lia.
  - intros y j e'. apply set_word_entry with e; [apply Ht|done].
  - intros e' p (_ & _ & Hw') Hp. assert (e' = e) as -> by congruence. by apply Hun.
  - intros p Hp. rewrite Hb3 by lia. rewrite Hbf by lia. fold (in_entry g x e p) (in_entry g x pos p).
    assert (Hsome : (exists e1, entry_at (base_t s) x k e1 /\ in_entry g x e1 p) <-> in_entry g x e p).
    { split; [|intros; by exists e]. intros (e1 & (_ & _ & Hw') & Hp1). by assert (e1 = e) as -> by congruence. }
    rewrite Hsome.
    assert (Hdis : in_entry g x pos p -> ~ in_entry g x e p).
    { intros Hp1 Hp2. pose proof (entry_block_used g t0 s x k e p Hc ltac:(done) Hp2) as Hu.
      destruct Hfree as (_ & _ & Hf). rewrite Hf in Hu; [done|exact Hp1]. }
    unfold in_entry in *. repeat case_bool_decide; naive_solver.
Qed.

Lemma update_extended_table_ok s x page pos :
  let k := GET_TABLE_INDEX g x page in
  let s' := update_extended_table g s x page pos in
  (ext_size (extended_t s) <= Z.shiftl 1 PAGE_SHIFT -> ext_size (extended_t s') <= Z.shiftl 1 PAGE_SHIFT) /\
  (use_base_table s' = false -> use_base_table s = false /\
    et_records (extended_t s') = et_records (extended_t s) ++ [ExtRecord x k pos]) /\
  base_t s' = base_t s /\ snapshot_bitmap s' = snapshot_bitmap s /\ next_snapshot_bitmap s' = next_snapshot_bitmap s /\
  moved_iblock s' = moved_iblock s /\ hint_btree s' = hint_btree s /\ hint_bitmaps s' = hint_bitmaps s /\ flags s' = flags s.
Proof using Type.
  intros k s'. unfold s', update_extended_table. destruct (use_base_table s) eqn:Hu; [naive_solver congruence|].
  case_match eqn:Hsz; simpl; [naive_solver congruence|]. apply Z.ltb_ge in Hsz.
  split; [|done]. unfold ext_size in *. simpl. rewrite length_app. simpl. lia.
Qed.

(** What one call of [vdfs2_add_chunk_no_lock] for entry [k] of [x] achieves. *)
Record chunk_added (s : vdfs2_snapshot_info) (x k : Z) (s' : vdfs2_snapshot_info) : Prop := {
  ca_cow : cow g t0 s';
  ca_log : log_ok t0 s -> log_ok t0 s';
  ca_flags : flags s' = 0;
  ca_layout : same_layout (base_t s) (base_t s');
  (** its place is none of the committed blocks *)
  ca_moved e : entry_at (base_t s') x k e -> forall p, in_entry g x e p -> bitmap_bit (moved_iblock s') p = true;
  ca_others y j e : y <> x \/ j <> k -> entry_at (base_t s') y j e <-> entry_at (base_t s) y j e;
  ca_still p : 0 <= p < bitmap_size_in_bits s -> bitmap_bit (moved_iblock s) p = true -> bitmap_bit (moved_iblock s') p = true;
  ca_size : bitmap_size_in_bits s' = bitmap_size_in_bits s;
  ca_room n : free_slots g (snapshot_bitmap s) (S n) -> free_slots g (snapshot_bitmap s') n;
}.

Lemma add_chunk_ok s x page :
  cow g t0 s -> flags s = 0 -> x ∈ special_files ->
  let k := GET_TABLE_INDEX g x page in 0 <= k <= VDFS2_LAST_TABLE_INDEX (base_t s) x -> room g s x ->
  exists s', vdfs2_add_chunk_no_lock g s x page = Ret s' /\ chunk_added s x k s'.
Proof using Type*.
  intros Hc Hfl Hx k Hk Hroom. pose proof (cow_tables _ _ _ Hc) as Ht. pose proof (cow_bitmaps _ _ _ Hc) as Hb.
  destruct (entry_exists (base_t s) x k (tb_layout _ _ _ Ht) Hx Hk) as [e He].
  pose proof (tb_range _ _ _ Ht _ _ _ He) as (He0 & He1 & He2). pose proof (entry_size_pos g x Hg) as Hpos.
  unfold vdfs2_add_chunk_no_lock. pose proof (proj1 (special_files_range x) Hx) as Hxr.
  rewrite (proj2 (Z.ltb_ge x _)), (proj2 (Z.ltb_ge _ x)) by lia. cbn [orb BUG_ON mbind outcome_bind].
  rewrite Hfl, Z.eqb_refl. cbn [negb BUG_ON mbind outcome_bind].
  unfold vdfs2_get_meta_iblock. cbv zeta. fold k. rewrite (proj2 (Z.ltb_ge _ k)) by lia.
  rewrite (proj2 (proj2 He)). cbn [deref mbind outcome_bind]. rewrite Z.eqb_refl. cbn [negb BUG_ON mbind outcome_bind].
  unfold bitmap_size_in_bits in He1. rewrite bitmap_bit_lookup by (rewrite (bm_moved s Hb); lia). cbn [deref mbind outcome_bind].
  pose proof (in_entry_start g x e Hg) as Hstart.
  destruct (cow_entry _ _ _ Hc x k e He) as [Hm|[Hm _]].
  - rewrite (Hm e Hstart). exists s. split; [done|]. split; try done.
    + intros e' He'. by rewrite (entry_fun _ _ _ _ _ He' He).
    + intros n (qs & Hn1 & Hn2 & Hn3). destruct qs as [|q qs]; [done|]. injection Hn2 as Hn2. apply NoDup_cons in Hn1 as [_ Hn1].
      exists qs. split; [done|]. split; [done|]. intros. apply Hn3. set_solver.
  - rewrite (Hm e Hstart). destruct (move_iblock_ok s x e page Hc He Hm Hroom)
      as (pos & a & b & c & h1 & h2 & Heq & Hc' & Hal & Ha & Hcc & Hr). cbv zeta in Heq, Hc'. fold k in Heq, Hc'.
    rewrite Heq. cbn [mbind outcome_bind].
    assert (is_tree x && negb (Z.land pos (Z.shiftl 1 (leb_order g) - 1) =? 0) = false) as ->.
    { unfold entry_order in Hal. destruct (is_tree x); [|done]. rewrite mask_mod by apply Hg. by rewrite Hal. }
    cbn [BUG_ON mbind outcome_bind].
    set (s1 := set_base_t _ _) in *. pose proof (update_extended_table_ok s1 x page pos) as Hu. cbv zeta in Hu. fold k in Hu.
    set (s2 := update_extended_table g s1 x page pos) in *. clearbody s2.
    destruct Hu as (Hub & Hul & Hu1 & Hu2 & Hu3 & Hu4 & Hu5 & Hu6 & Hu7).
    eexists. split; [done|]. split; cbn [set_dirty_pages_count base_t snapshot_bitmap moved_iblock flags].
    + apply (cow_same g t0 s1); done.
    + intros [Hl1 Hl2]. split; [|by apply Hub]. cbn [set_dirty_pages_count use_base_table extended_t base_t]. intros Hus.
      destruct (Hul Hus) as [Hus1 ->]. rewrite apply_records_app. replace (et_records (extended_t s1)) with (et_records (extended_t s)) by done.
      rewrite Hl1 by done. cbn [mbind outcome_bind apply_records object_id table_index meta_iblock].
      rewrite (proj2 (Z.ltb_ge _ k)) by lia. rewrite (proj2 (proj2 He)). cbn [BUG_ON deref mbind outcome_bind]. by rewrite Hu1.
    + by rewrite Hu7.
    + rewrite Hu1. split; [done|]. split; [done|]. split; [done|]. apply length_insert.
    + intros e'. rewrite Hu1, Hu4. intros He'%(set_word_entry _ _ _ _ e); [|apply Ht|done].
      assert (e' = pos) as -> by naive_solver. intros p Hp. destruct Hcc as [_ Hcc]. cbn. unfold in_entry in Hp.
      rewrite Hcc by lia. by rewrite bool_decide_true.
    + intros y j e' Hne. rewrite Hu1. unfold s1. cbn [set_base_t base_t]. rewrite (set_word_entry _ _ _ _ e); [|apply Ht|done].
      naive_solver.
    + intros p Hp Hmv. rewrite Hu4. cbn. destruct Hcc as [_ Hcc]. rewrite Hcc by lia. by case_bool_decide.
    + unfold bitmap_size_in_bits. cbn [snapshot_bitmap set_dirty_pages_count]. rewrite Hu2. cbn. by rewrite (proj1 Ha).
    + intros n Hn. rewrite Hu2. cbn. by apply (free_slots_fill g Hg) with (snapshot_bitmap s) x pos; [|lia|..].
Qed.
End moving.

(** ** Loading: the bitmaps of the tables *)

Lemma mark_entries_ok words order bitmap :
  0 <= order -> Z.of_nat (length bitmap) < 2 ^ 31 ->
  (forall w, w ∈ words -> 0 <= w /\ w + 2 ^ order <= Z.of_nat (length bitmap)) ->
  exists bitmap', mark_entries bitmap words order = Ret bitmap' /\ length bitmap' = length bitmap /\
    forall p, 0 <= p -> bitmap_bit bitmap' p = true <->
      bitmap_bit bitmap p = true \/ exists w, w ∈ words /\ w <= p < w + 2 ^ order.
Proof.
  intros Ho. revert bitmap. induction words as [|w words IH]; intros bitmap Hint Hw; simpl.
  - exists bitmap. split; [done|]. split; [done|]. intros p _. set_solver.
  - assert (0 < 2 ^ order) by (apply Z.pow_pos_nonneg; lia). destruct (Hw w) as [Hw0 Hw1]; [set_solver|].
    rewrite s32_small, Z.shiftl_1_l by lia.
    destruct (bitmap_fill_ok true bitmap w (2 ^ order)) as (b & Hb & Hl & Hf); [lia..|].
    unfold bitmap_set. rewrite Hb. simpl. destruct (IH b) as (b' & -> & Hl' & Hf'); [lia|rewrite Hl; set_solver|].
    exists b'. split; [done|]. split; [lia|]. intros p Hp. rewrite Hf', Hf by done.
    setoid_rewrite elem_of_cons. split.
    + intros [Hbit|(v & Hv & Hr)]; [|right; exists v; by auto]. case_bool_decide; [|by left]. right. exists w. by auto.
    + intros [Hbit|(v & [->|Hv] & Hr)]; [left; by case_bool_decide|left; by rewrite bool_decide_true|right; by eauto].
Qed.

Lemma table_entries g t x e size :
  tables_ok g t size -> x ∈ special_files ->
  e ∈ take (Z.to_nat (VDFS2_LAST_TABLE_INDEX t x + 1)) (drop (table_word t x 0) (table_words t)) <->
  exists k, entry_at t x k e.
Proof.
  intros Ht Hx. pose proof (tb_layout _ _ _ Ht) as Hl. destruct (lay_range t Hl x Hx) as [Hr _].
  rewrite elem_of_take. setoid_rewrite lookup_drop.
  assert (Hword : forall k, 0 <= k -> table_word t x k = (table_word t x 0 + Z.to_nat k)%nat).
  { intros k Hk. pose proof (proj1 (start_word_off t x Hl Hx)). unfold table_word. fold (start_word t x). lia. }
  split.
  - intros (i & Hi & Hlt). exists (Z.of_nat i). split; [done|]. split; [lia|]. rewrite Hword, Nat2Z.id by lia. done.
  - intros (k & _ & Hk & Hw). exists (Z.to_nat k). rewrite Hword in Hw by lia. split; [done|lia].
Qed.

Lemma mark_tables_ok g t files bitmap :
  orders_ok g -> Z.of_nat (length bitmap) < 2 ^ 31 -> tables_ok g t (Z.of_nat (length bitmap)) ->
  (forall x, x ∈ files -> x ∈ special_files) ->
  exists bitmap', mark_tables g t files bitmap = Ret bitmap' /\ length bitmap' = length bitmap /\
    forall p, 0 <= p -> bitmap_bit bitmap' p = true <->
      bitmap_bit bitmap p = true \/ exists x k e, x ∈ files /\ entry_at t x k e /\ in_entry g x e p.
Proof.
  intros Hg. revert bitmap. induction files as [|x files IH]; intros bitmap Hint Ht Hfiles; simpl.
  - exists bitmap. split; [done|]. split; [done|]. set_solver.
  - assert (Hx : x ∈ special_files) by (apply Hfiles; set_solver).
    destruct (lay_range t (tb_layout _ _ _ Ht) x Hx) as (_ & Hoff & _). unfold BASE_TABLE_SIZE in Hoff.
    rewrite (proj2 (Z.eqb_neq _ _)) by lia. pose proof (entry_order_range g x Hg).
    destruct (mark_entries_ok (take (Z.to_nat (VDFS2_LAST_TABLE_INDEX t x + 1)) (drop (table_word t x 0) (table_words t)))
      (entry_order g x) bitmap) as (b & -> & Hl & Hb); [lia|done|..].
    { intros w [k Hw]%(table_entries g t x w _ Ht Hx). by destruct (tb_range _ _ _ Ht _ _ _ Hw) as (? & ? & _). }
    simpl. destruct (IH b) as (b' & -> & Hl' & Hb'); [lia|by rewrite Hl|set_solver|].
    exists b'. split; [done|]. split; [lia|]. intros p Hp. rewrite Hb', Hb by done.
    setoid_rewrite (table_entries g t x _ _ Ht Hx). setoid_rewrite elem_of_cons. unfold in_entry. split.
    + intros [[Hbit|(w & [k Hk] & Hr)]|(y & k & e & Hy & He & Hi)]; [by left|right; exists x, k, w; by auto|right; exists y, k, e; by auto].
    + intros [Hbit|(y & k & e & [->|Hy] & He & Hi)]; [by auto|left; right; exists e; by eauto|right; by exists y, k, e].
Qed.

(** A state whose table is the committed one. *)
Definition committed (g : snapshot_geometry) (s : vdfs2_snapshot_info) : Prop := cow g (base_t s) s.

Lemma build_snapshot_bitmaps_ok g s :
  orders_ok g -> bitmap_size_in_bits s < 2 ^ 31 -> tables_ok g (base_t s) (bitmap_size_in_bits s) ->
  0 <= hint_btree s -> 0 <= hint_bitmaps s ->
  snapshot_bitmap s = replicate (length (snapshot_bitmap s)) false ->
  moved_iblock s = replicate (length (snapshot_bitmap s)) false ->
  exists s', build_snapshot_bitmaps g s = Ret s' /\ committed g s' /\ base_t s' = base_t s /\
    extended_t s' = extended_t s /\ use_base_table s' = use_base_table s /\ flags s' = flags s /\
    bitmap_size_in_bits s' = bitmap_size_in_bits s.
Proof.
  intros Hg Hint Ht Hh1 Hh2 Hz Hm. unfold build_snapshot_bitmaps.
  destruct (mark_tables_ok g (base_t s) special_files (snapshot_bitmap s) Hg Hint Ht) as (b & -> & Hl & Hb); [done|].
  simpl. eexists. split; [done|]. split; [|split; [done|]; split; [done|]; split; [done|]; split; [done|];
    unfold bitmap_size_in_bits; simpl; by rewrite Hl].
  assert (Hf : forall p, 0 <= p < bitmap_size_in_bits s -> bitmap_bit (replicate (length (snapshot_bitmap s)) false) p = false).
  { intros p Hp. unfold bitmap_bit. unfold bitmap_size_in_bits in Hp. apply lookup_total_replicate_2. lia. }
  assert (Hcov : forall p, 0 <= p < bitmap_size_in_bits s -> bitmap_bit b p = true <-> covers_block g (base_t s) p).
  { intros p Hp. rewrite Hb, Hz, Hf by lia. unfold covers_block. split.
    - intros [|(x & k & e & _ & ? & ?)]; [done|]. eauto.
    - intros (x & k & e & He & Hp'). right. exists x, k, e. split; [apply He|done]. }
  unfold bitmap_size_in_bits in *. split; cbn; unfold bitmap_size_in_bits; cbn; rewrite ?Hl, ?Hm; try done.
  - split; cbn; rewrite ?Hl, ?Hm, ?length_replicate; done.
  - intros p Hp. rewrite Hcov, Hf by done. naive_solver.
  - intros p Hp. by rewrite Hf.
  - intros x k e He. right. split; [|done]. intros p Hp. apply Hf. pose proof (tb_range _ _ _ Ht _ _ _ He) as (? & ? & _).
    unfold in_entry in Hp. lia.
Qed.

(** ** A transaction: the blocks touched between two commits *)

Fixpoint vdfs2_add_chunks `{!AreaSearch} (g : snapshot_geometry) (s : vdfs2_snapshot_info) (touches : list (Z * Z))
    : outcome vdfs2_snapshot_info :=
  match touches with
  | [] => Ret s
  | (x, page_index) :: touches => s ← vdfs2_add_chunk_no_lock g s x page_index; vdfs2_add_chunks g s touches
  end.

Definition touch_valid (g : snapshot_geometry) (t : vdfs2_base_table) (touch : Z * Z) : Prop :=
  touch.1 ∈ special_files /\ 0 <= GET_TABLE_INDEX g touch.1 touch.2 <= VDFS2_LAST_TABLE_INDEX t touch.1.

(** Entry [k] of [x] is touched. *)
Definition touched (g : snapshot_geometry) (touches : list (Z * Z)) (x k : Z) : Prop :=
  exists page_index, (x, page_index) ∈ touches /\ GET_TABLE_INDEX g x page_index = k.

Definition entry_moved (g : snapshot_geometry) (s : vdfs2_snapshot_info) (x k : Z) : Prop :=
  forall e, entry_at (base_t s) x k e -> forall p, in_entry g x e p -> bitmap_bit (moved_iblock s) p = true.

Section transaction.
Context `{!AreaSearch, !AreaSearchLaws} (g : snapshot_geometry) (t0 : vdfs2_base_table) (Hg : orders_ok g).

Lemma same_layout_last t t' x : same_layout t t' -> VDFS2_LAST_TABLE_INDEX t' x = VDFS2_LAST_TABLE_INDEX t x.
Proof using Type. intros (_ & Hl & _). unfold VDFS2_LAST_TABLE_INDEX. by rewrite Hl. Qed.

Lemma same_layout_trans t1 t2 t3 : same_layout t1 t2 -> same_layout t2 t3 -> same_layout t1 t3.
Proof using Type. intros (?&?&?&?) (?&?&?&?). repeat split; congruence. Qed.

(** An entry that moved stays outside the committed blocks. *)
Lemma entry_moved_keep s x k s' y j : cow g t0 s -> chunk_added g t0 s x k s' -> entry_moved g s y j -> entry_moved g s' y j.
Proof using Type.
  intros Hc Ha Hm e He p Hp. destruct (decide (y = x /\ j = k)) as [[-> ->]|Hne].
  - by apply (ca_moved _ _ _ _ _ _ Ha e).
  - assert (Hne' : y <> x \/ j <> k) by (destruct (decide (y = x)); naive_solver).
    rewrite (ca_others _ _ _ _ _ _ Ha _ _ _ Hne') in He. apply (ca_still _ _ _ _ _ _ Ha); [|by apply (Hm e)].
    by apply (entry_block_range g t0 s y j e).
Qed.

Lemma add_chunks_ok touches s :
  cow g t0 s -> log_ok t0 s -> flags s = 0 -> Forall (touch_valid g (base_t s)) touches ->
  free_slots g (snapshot_bitmap s) (length touches) ->
  exists s', vdfs2_add_chunks g s touches = Ret s' /\ cow g t0 s' /\ log_ok t0 s' /\ flags s' = 0 /\
    same_layout (base_t s) (base_t s') /\ bitmap_size_in_bits s' = bitmap_size_in_bits s /\
    (forall x k, touched g touches x k \/ entry_moved g s x k -> entry_moved g s' x k) /\
    (forall x k e, ~ touched g touches x k -> entry_at (base_t s') x k e <-> entry_at (base_t s) x k e).
Proof using Type*.
  revert s. induction touches as [|[x page] touches IH]; intros s Hc Hlog Hfl Hv Hfree; simpl.
  - exists s. split; [done|]. do 5 (split; [done|]). split; [|done]. intros x k [(page & Hin & _)|]; [set_solver|done].
  - apply Forall_cons in Hv as [[Hx Hk] Hv]. simpl in *.
    destruct (add_chunk_ok g t0 Hg s x page Hc Hfl Hx Hk (free_slots_room g Hg _ _ _ Hfree)) as (s1 & -> & Ha). simpl.
    destruct (IH s1) as (s' & Heq & Hc' & Hlog' & Hfl' & Hlay & Hsz & Hm & Ho);
      [by apply (ca_cow _ _ _ _ _ _ Ha)|by apply (ca_log _ _ _ _ _ _ Ha)|by apply (ca_flags _ _ _ _ _ _ Ha)| |
       by apply (ca_room _ _ _ _ _ _ Ha)|].
    { eapply Forall_impl; [exact Hv|]. intros [y q] [Hy Hq]. split; [done|]. simpl in *.
      by rewrite (same_layout_last _ _ _ (ca_layout _ _ _ _ _ _ Ha)). }
    exists s'. split; [done|]. do 3 (split; [done|]). split; [by eapply same_layout_trans; [apply (ca_layout _ _ _ _ _ _ Ha)|]|].
    split; [by rewrite Hsz; apply (ca_size _ _ _ _ _ _ Ha)|]. split.
    + intros y j Hy. apply Hm. destruct Hy as [(q & Hin & Hq)|Hy]; [|right; by apply (entry_moved_keep s x (GET_TABLE_INDEX g x page))].
      apply elem_of_cons in Hin as [[= -> ->]|Hin]; [|left; by exists q].
      right. subst j. intros e. apply (ca_moved _ _ _ _ _ _ Ha).
    + intros y j e Hn. rewrite Ho.
      * apply (ca_others _ _ _ _ _ _ Ha). destruct (decide (y = x)) as [->|]; [|by left]. right. intros ->.
        destruct Hn. exists page. split; [set_solver|done].
      * intros (q & Hin & Hq). destruct Hn. exists q. split; [set_solver|done].
Qed.

(** The blocks of a moved entry hold nothing of the committed tables. *)
Lemma entry_moved_outside s x k e p :
  cow g t0 s -> entry_moved g s x k -> entry_at (base_t s) x k e -> in_entry g x e p -> ~ covers_block g t0 p.
Proof using Type.
  intros Hc Hm He Hp. apply (cow_moved _ _ _ Hc); [by apply (entry_block_range g t0 s x k e)|by apply (Hm e)].
Qed.

(** *** The commit *)

Lemma update_bitmaps_ok s : cow g t0 s -> committed g (vdfs2_update_bitmaps s) /\ base_t (vdfs2_update_bitmaps s) = base_t s.
Proof using Type.
  intros Hc. split; [|done]. destruct (cow_bitmaps _ _ _ Hc).
  assert (Hsz : bitmap_size_in_bits (vdfs2_update_bitmaps s) = bitmap_size_in_bits s).
  { unfold bitmap_size_in_bits, vdfs2_update_bitmaps. cbn. by rewrite bm_next0. }
  assert (Hf : forall p, 0 <= p < bitmap_size_in_bits s -> bitmap_bit (replicate (length (moved_iblock s)) false) p = false).
  { intros p Hp. unfold bitmap_bit, bitmap_size_in_bits in *. apply lookup_total_replicate_2. lia. }
  split; try rewrite Hsz; cbn [vdfs2_update_bitmaps set_bitmaps base_t snapshot_bitmap next_snapshot_bitmap moved_iblock].
  - split; cbn; rewrite ?length_replicate; congruence || done || (split; lia).
  - apply Hc.
  - apply (cow_next _ _ _ Hc).
  - intros p Hp. rewrite Hf by done. rewrite (cow_next _ _ _ Hc) by done. naive_solver.
  - intros p Hp. by rewrite Hf.
  - intros x k e He. right. split; [|done]. intros p Hp. apply Hf. by apply (entry_block_range g t0 s x k e).
Qed.
End transaction.
