(* ===== verification/SnapshotGrow.v ===== *)
(** * Correctness of the snapshot manager: a table that grows *)
From Stdlib Require Import ZArith Lia.
From stdpp Require Import base numbers list sets.
From S2P Require Import Prelude FsmTree Bits Fsm Snapshot SnapshotFacts.

(** ** Making place in the words *)

Lemma memmove_words_ok words dest src n :
  0 <= src -> src <= dest -> 0 <= n -> dest + n <= Z.of_nat (length words) ->
  exists words', memmove_words words dest src n = Ret words' /\ length words' = length words /\
    (forall i, (Z.of_nat i < dest) -> words' !! i = words !! i) /\
    (forall i, src <= Z.of_nat i < src + n -> words' !! (i + Z.to_nat (dest - src))%nat = words !! i).
Proof.
  intros. unfold memmove_words. rewrite bool_decide_true by lia. eexists. split; [done|].
  rewrite length_inserts. split; [done|]. split.
  - intros i Hi. apply list_lookup_inserts_lt. lia.
  - intros i Hi. rewrite list_lookup_inserts.
    + rewrite lookup_take_lt, lookup_drop by lia. f_equal. lia.
    + rewrite length_take, length_drop. lia.
    + lia.
Qed.

(** A table with another last index of [x]. *)
Definition bump (t : vdfs2_base_table) (x last : Z) : vdfs2_base_table :=
  BaseTable (bt_mount_count t) (bt_sync_count t) (checksum_offset t) (<[VDFS2_SF_INDEX x := last]> (last_page_index t))
    (translation_table_offsets t) (table_words t).

Lemma bump_last t x l y :
  length (last_page_index t) = 7%nat -> x ∈ special_files -> y ∈ special_files ->
  VDFS2_LAST_TABLE_INDEX (bump t x l) y = if decide (y = x) then l else VDFS2_LAST_TABLE_INDEX t y.
Proof.
  intros Hl Hx Hy. unfold VDFS2_LAST_TABLE_INDEX, bump. cbn [last_page_index]. pose proof (SF_INDEX_lt x Hx).
  case_decide as Heq.
  - subst. apply list_lookup_total_insert_eq. lia.
  - apply list_lookup_total_insert_ne. intros Hi. by apply SF_INDEX_inj in Hi.
Qed.

Lemma bump_layout t x l l' : layout_ok (bump t x l) -> x ∈ special_files -> 0 <= l' <= l -> layout_ok (bump t x l').
Proof.
  intros [H1 H2 H3 H4 H5 H6] Hx Hl.
  assert (Hlen : length (last_page_index t) = 7%nat) by (simpl in H2; by rewrite length_insert in H2).
  assert (Hle : forall y, y ∈ special_files -> VDFS2_LAST_TABLE_INDEX (bump t x l') y <= VDFS2_LAST_TABLE_INDEX (bump t x l) y).
  { intros y Hy. rewrite !bump_last by done. case_decide; lia. }
  assert (Hpos : forall y, y ∈ special_files -> 0 <= VDFS2_LAST_TABLE_INDEX (bump t x l') y).
  { intros y Hy. destruct (H3 y Hy) as [Hr _]. rewrite bump_last in * by done. case_decide; lia. }
  split; try done.
  - simpl. by rewrite length_insert.
  - intros y Hy. destruct (H3 y Hy) as (? & ? & ?). specialize (Hle y Hy). specialize (Hpos y Hy). split; [lia|]. done.
  - intros y Hy. specialize (H4 y Hy). specialize (Hle y Hy). change (VDFS2_GET_TABLE_OFFSET (bump t x l') y) with
      (VDFS2_GET_TABLE_OFFSET (bump t x l) y). change (checksum_offset (bump t x l')) with (checksum_offset (bump t x l)). lia.
  - intros y z Hy Hz Hne. specialize (H6 y z Hy Hz Hne). pose proof (Hle y Hy). pose proof (Hle z Hz).
    change (VDFS2_GET_TABLE_OFFSET (bump t x l') y) with (VDFS2_GET_TABLE_OFFSET (bump t x l) y).
    change (VDFS2_GET_TABLE_OFFSET (bump t x l') z) with (VDFS2_GET_TABLE_OFFSET (bump t x l) z). lia.
Qed.

Lemma bump_same t x : layout_ok t -> x ∈ special_files -> bump t x (VDFS2_LAST_TABLE_INDEX t x) = t.
Proof.
  intros Hl Hx. unfold bump. rewrite list_insert_id; [by destruct t|]. unfold VDFS2_LAST_TABLE_INDEX.
  apply list_lookup_lookup_total_lt. pose proof (SF_INDEX_lt x Hx). rewrite (lay_lasts t Hl). lia.
Qed.

(** The table after the move: room for [n] more words behind those of [x]. *)
Definition spread (t : vdfs2_base_table) (x n : Z) (words : list Z) : vdfs2_base_table :=
  BaseTable (bt_mount_count t) (bt_sync_count t) (u32 (checksum_offset t + 8 * n)) (last_page_index t)
    (shift_offsets (translation_table_offsets t) (VDFS2_GET_TABLE_OFFSET t x) (8 * n)) words.

Section spread.
Context (t : vdfs2_base_table) (x n : Z) (words : list Z).
Context (Hl : layout_ok t) (Hx : x ∈ special_files) (Hn : 0 <= n) (Hsmall : checksum_offset t + 8 * n < 2 ^ 31).
Context (Hlast : VDFS2_LAST_TABLE_INDEX t x + n < 2 ^ 31).
Context (Hcap : word_index (checksum_offset t) + n <= Z.of_nat (length words)).
Let src := start_word t x + VDFS2_LAST_TABLE_INDEX t x + 1.
Context (Hlow : forall i, Z.of_nat i < src + n -> words !! i = table_words t !! i).
Context (Hhigh : forall i, src <= Z.of_nat i < word_index (checksum_offset t) -> words !! (i + Z.to_nat n)%nat = table_words t !! i).

Lemma spread_offset y : y ∈ special_files ->
  VDFS2_GET_TABLE_OFFSET (spread t x n words) y =
    if decide (VDFS2_GET_TABLE_OFFSET t y <= VDFS2_GET_TABLE_OFFSET t x) then VDFS2_GET_TABLE_OFFSET t y
    else VDFS2_GET_TABLE_OFFSET t y + 8 * n.
Proof using Hl Hx Hn Hsmall.
  intros Hy. unfold VDFS2_GET_TABLE_OFFSET at 1, spread, shift_offsets. cbn [translation_table_offsets].
  destruct (lookup_lt_is_Some_2 (translation_table_offsets t) (VDFS2_SF_INDEX y)) as [o Ho];
    [rewrite (lay_offsets t Hl); by apply SF_INDEX_lt|].
  assert (Hoff : VDFS2_GET_TABLE_OFFSET t y = o) by (by apply list_lookup_total_correct).
  rewrite list_lookup_total_alt, (list_lookup_fmap _ (translation_table_offsets t)), Ho. cbn [fmap option_fmap option_map default].
  rewrite <-Hoff.
  destruct (lay_range t Hl y Hy) as (? & ? & ?). pose proof (lay_end t Hl y Hy).
  unfold BASE_TABLE_SIZE in *. case_decide; [by rewrite (proj2 (Z.leb_le _ _))|].
  rewrite (proj2 (Z.leb_gt _ _)) by lia. apply u32_small. lia.
Qed.

(** Where another table lies with respect to the one of [x]. *)
Lemma other_side y : y ∈ special_files -> y <> x ->
  let off := VDFS2_GET_TABLE_OFFSET t in let last := VDFS2_LAST_TABLE_INDEX t in
  (off y < off x /\ off y + 8 * (last y + 1) <= off x) \/ (off x < off y /\ off x + 8 * (last x + 1) <= off y).
Proof using Hl Hx words.
  intros Hy Hne. cbv zeta. destruct (lay_range t Hl x Hx) as (? & _). destruct (lay_range t Hl y Hy) as (? & _).
  destruct (lay_disjoint t Hl y x Hy Hx Hne); lia.
Qed.

Lemma spread_layout : layout_ok (bump (spread t x n words) x (VDFS2_LAST_TABLE_INDEX t x + n)).
Proof using Hl Hx Hn Hsmall Hlast Hcap.
  pose proof (lay_range t Hl x Hx) as (Hx1 & Hx2 & Hx3). pose proof (lay_lasts t Hl) as Hlen7.
  pose proof (lay_end t Hl x Hx) as Hxe. destruct (lay_checksum t Hl) as (Hc1 & Hc2 & Hc3).
  assert (Hcs : u32 (checksum_offset t + 8 * n) = checksum_offset t + 8 * n) by (apply u32_small; unfold BASE_TABLE_SIZE in *; lia).
  assert (Hb : forall y, y ∈ special_files -> VDFS2_LAST_TABLE_INDEX (bump (spread t x n words) x (VDFS2_LAST_TABLE_INDEX t x + n)) y
    = if decide (y = x) then VDFS2_LAST_TABLE_INDEX t x + n else VDFS2_LAST_TABLE_INDEX t y) by (intros y Hy; by rewrite bump_last).
  assert (Ho : forall y, VDFS2_GET_TABLE_OFFSET (bump (spread t x n words) x (VDFS2_LAST_TABLE_INDEX t x + n)) y
    = VDFS2_GET_TABLE_OFFSET (spread t x n words) y) by done.
  split.
  - simpl. unfold shift_offsets. rewrite length_map. apply Hl.
  - simpl. by rewrite length_insert.
  - intros y Hy. rewrite Hb, Ho, spread_offset by done. destruct (lay_range t Hl y Hy) as (? & ? & ?). repeat case_decide; lia.
  - intros y Hy. rewrite Hb, Ho, spread_offset by done. cbn [bump spread checksum_offset]. rewrite Hcs.
    pose proof (lay_end t Hl y Hy). destruct (decide (y = x)) as [->|Hne]; [rewrite decide_True by lia; lia|].
    case_decide; lia.
  - cbn [bump spread checksum_offset table_words]. rewrite Hcs. unfold word_index, BASE_TABLE_SIZE in *. split; [lia|]. split; lia.
  - intros y z Hy Hz Hne. rewrite !Hb, !Ho, !spread_offset by done. pose proof (lay_disjoint t Hl y z Hy Hz Hne) as Hd.
    destruct (lay_range t Hl y Hy) as (? & _). destruct (lay_range t Hl z Hz) as (? & _).
    assert (Hys : y <> x -> _) by (exact (fun H => other_side y Hy H)). assert (Hzs : z <> x -> _) by (exact (fun H => other_side z Hz H)).
    cbv zeta in Hys, Hzs. destruct (decide (y = x)) as [->|Hyx]; [|specialize (Hys Hyx)];
      (destruct (decide (z = x)) as [->|Hzx]; [|specialize (Hzs Hzx)]); try done; repeat case_decide; lia.
Qed.

Lemma spread_word y j : y ∈ special_files -> 0 <= j <= VDFS2_LAST_TABLE_INDEX t y ->
  words !! table_word (spread t x n words) y j = table_words t !! table_word t y j.
Proof using Hl Hx Hn Hsmall Hlow Hhigh.
  intros Hy Hj. destruct (lay_range t Hl x Hx) as [Hlx _]. destruct (start_word_off t x Hl Hx) as [Hsx1 Hsx2]. destruct (start_word_off t y Hl Hy) as [Hsy1 Hsy2].
  destruct (table_word_lt t y j Hl Hy Hj) as [_ Hw]. pose proof (lay_end t Hl y Hy) as Hend. pose proof (checksum_word t Hl) as Hcw.
  unfold table_word at 1. rewrite spread_offset by done. case_decide as Hd.
  - fold (start_word t y). replace (Z.to_nat (start_word t y + j)) with (table_word t y j) by lia. apply Hlow.
    destruct (decide (y = x)) as [->|Hne]; [unfold src; lia|]. pose proof (other_side y Hy Hne). cbv zeta in *. unfold src. lia.
  - assert (Hwi : word_index (VDFS2_GET_TABLE_OFFSET t y + 8 * n) = start_word t y + n) by (unfold word_index in *; rewrite Hsy2; unfold BASE_TABLE_SIZE; lia).
    rewrite Hwi. replace (Z.to_nat (start_word t y + n + j)) with (table_word t y j + Z.to_nat n)%nat by lia. apply Hhigh.
    assert (Hne : y <> x) by (intros ->; lia). pose proof (other_side y Hy Hne). cbv zeta in *. unfold src. lia.
Qed.

Lemma spread_entry y j e : entry_at (spread t x n words) y j e <-> entry_at t y j e.
Proof using Hl Hx Hn Hsmall Hlow Hhigh.
  unfold entry_at. change (VDFS2_LAST_TABLE_INDEX (spread t x n words) y) with (VDFS2_LAST_TABLE_INDEX t y).
  cbn [spread table_words]. split; intros (Hy & Hj & He); (split; [done|]); (split; [done|]);
    pose proof (spread_word y j Hy Hj) as Hw; congruence.
Qed.
End spread.

(** ** Filling the new words *)

Lemma cow_table g t0 s t :
  cow g t0 s -> layout_ok t -> (forall y j e, entry_at t y j e <-> entry_at (base_t s) y j e) -> cow g t0 (set_base_t s t).
Proof.
  intros [Hb [Hl Hr Hd] Hn Hs Hm He] Hl' Heq. split; try done.
  - by destruct Hb.
  - split; [done|..]; cbn [set_base_t base_t].
    + intros y j e. rewrite Heq. apply Hr.
    + intros y j e z i e' p. rewrite !Heq. apply Hd.
  - intros p Hp. cbn [set_base_t base_t next_snapshot_bitmap]. rewrite Hn by done. unfold covers_block. by setoid_rewrite Heq.
  - cbn [set_base_t base_t moved_iblock]. setoid_rewrite Heq. apply He.
Qed.

Lemma bump_entry t x k l w y j e :
  layout_ok (bump t x l) -> x ∈ special_files -> k = VDFS2_LAST_TABLE_INDEX t x + 1 -> layout_ok t -> 0 <= k <= l ->
  entry_at (bump (set_words t (<[table_word t x k := w]> (table_words t))) x k) y j e <->
  (y = x /\ j = k /\ e = w) \/ (entry_at t y j e /\ (y <> x \/ j <> k)).
Proof.
  intros Hlb Hx -> Hl Hk. set (k := VDFS2_LAST_TABLE_INDEX t x + 1) in *. pose proof (lay_lasts t Hl) as Hlen.
  assert (Hlk : layout_ok (bump t x k)) by (by apply bump_layout with l).
  assert (Hw : forall z i, table_word (bump (set_words t (<[table_word t x k := w]> (table_words t))) x k) z i = table_word (bump t x k) z i) by done.
  assert (Hlast : forall z, VDFS2_LAST_TABLE_INDEX (bump (set_words t (<[table_word t x k := w]> (table_words t))) x k) z
    = VDFS2_LAST_TABLE_INDEX (bump t x k) z) by done.
  assert (Hbx : VDFS2_LAST_TABLE_INDEX (bump t x k) x = k) by (by rewrite bump_last, decide_True by done).
  assert (Hinj : forall z i, z ∈ special_files -> 0 <= i <= VDFS2_LAST_TABLE_INDEX (bump t x k) z ->
    table_word t x k = table_word t z i -> x = z /\ k = i).
  { intros z i Hz Hi. apply (table_word_inj (bump t x k)); [done..|rewrite Hbx; lia|done]. }
  destruct (table_word_lt (bump t x k) x k Hlk Hx) as [Hlt _]; [rewrite Hbx; lia|].
  unfold entry_at. rewrite Hw, Hlast. cbn [bump set_words table_words].
  change (table_word (bump t x k) y j) with (table_word t y j). split.
  - intros (Hy & Hj & He). destruct (decide (y = x /\ j = k)) as [[-> ->]|Hne].
    + left. rewrite list_lookup_insert_eq in He by done. by injection He.
    + right. rewrite list_lookup_insert_ne in He by (intros Heq; apply Hinj in Heq; naive_solver).
      rewrite bump_last in Hj by done. split; [split; [done|]; split; [|done]|destruct (decide (y = x)); naive_solver].
      case_decide; [subst y|done]. unfold k in *. destruct (decide (j = VDFS2_LAST_TABLE_INDEX t x + 1)); [naive_solver|lia].
  - intros [(-> & -> & ->)|[(Hy & Hj & He) Hne]].
    + split; [done|]. split; [rewrite Hbx; lia|]. by apply list_lookup_insert_eq.
    + assert (Hj' : 0 <= j <= VDFS2_LAST_TABLE_INDEX (bump t x k) y) by (rewrite bump_last by done; case_decide; subst; lia).
      split; [done|]. split; [done|]. rewrite list_lookup_insert_ne; [done|]. intros Heq. apply Hinj in Heq; naive_solver.
Qed.

Section fill.
Context `{!AreaSearch, !AreaSearchLaws} (g : snapshot_geometry) (t0 : vdfs2_base_table) (Hg : orders_ok g).

Lemma fill_step s x l :
  cow g t0 s -> x ∈ special_files -> let k := VDFS2_LAST_TABLE_INDEX (base_t s) x + 1 in
  layout_ok (bump (base_t s) x l) -> 0 <= k <= l -> room g s x ->
  exists pos a b c h1 h2,
    let t' := set_words (base_t s) (<[table_word (base_t s) x k := pos]> (table_words (base_t s))) in
    let s' := set_base_t (set_hints (set_bitmaps s a b c) h1 h2) t' in
    get_new_meta_iblock g s x = Ret (pos, set_hints (set_bitmaps s a b c) h1 h2) /\
    (exists w, table_words (base_t s) !! table_word (base_t s) x k = Some w) /\
    cow g t0 (set_base_t s' (bump t' x k)) /\
    filled true (snapshot_bitmap s) a pos (2 ^ entry_order g x) /\ filled true (moved_iblock s) c pos (2 ^ entry_order g x) /\
    pos mod 2 ^ entry_order g x = 0 /\ 0 <= pos.
Proof using Type*.
  intros Hc Hx k Hlay Hk Hroom. pose proof (cow_tables _ _ _ Hc) as Ht. pose proof (cow_bitmaps _ _ _ Hc) as Hb.
  pose proof (tb_layout _ _ _ Ht) as Hl. pose proof (entry_size_pos g x Hg) as Hpos.
  assert (Hlk : layout_ok (bump (base_t s) x k)) by (by apply bump_layout with l).
  assert (Hbx : VDFS2_LAST_TABLE_INDEX (bump (base_t s) x k) x = k) by (rewrite bump_last, decide_True; done || apply Hl).
  destruct (table_word_lt _ x k Hlk Hx) as [Hlt _]; [rewrite Hbx; lia|].
  destruct (get_new_meta_iblock_ok g s x Hg Hb Hroom)
    as (pos & a & b & c & h1 & h2 & Heq & Hal & Hfree & Ha & Hbb & Hcc & Hh1 & Hh2).
  exists pos, a, b, c, h1, h2. cbv zeta. split; [done|]. split; [by apply lookup_lt_is_Some_2 in Hlt|].
  split; [|split; [done|]; split; [done|]; split; [done|]; apply Hfree].
  apply (cow_update g t0 Hg s) with x k pos; cbn [set_base_t set_hints set_bitmaps base_t snapshot_bitmap next_snapshot_bitmap moved_iblock];
    try done.
  - split; cbn; [by rewrite (proj1 Hbb), (bm_next s Hb), (proj1 Ha)|by rewrite (proj1 Hcc), (bm_moved s Hb), (proj1 Ha)
      |rewrite (proj1 Ha); apply (bm_int s Hb)|done].
  - destruct Hlk as [? ? ? ? ? ?]. split; try done. simpl. by rewrite length_insert.
  - change (VDFS2_LAST_TABLE_INDEX (bump (set_words _ _) x k) x) with (VDFS2_LAST_TABLE_INDEX (bump (base_t s) x k) x). lia.
  - intros y j e. by apply bump_entry with l.
  - intros e p (_ & Hk' & _). unfold k in Hk'. lia.
  - intros p Hp. rewrite (proj2 Hbb) by lia. unfold in_entry.
    assert (~ exists e, entry_at (base_t s) x k e /\ e <= p < e + 2 ^ entry_order g x) as Hno.
    { intros (e & (_ & Hk' & _) & _). unfold k in Hk'. lia. }
    case_bool_decide; naive_solver.
Qed.

(** What growing the table of [x] achieves, from [s] (where its
    last index is [k - 1]) to [s']. *)
Record grown (s : vdfs2_snapshot_info) (x k : Z) (s' : vdfs2_snapshot_info) : Prop := {
  gr_cow : cow g t0 s';
  gr_old y j e : entry_at (base_t s) y j e -> entry_at (base_t s') y j e;
  gr_new y j e : entry_at (base_t s') y j e -> entry_at (base_t s) y j e \/ (y = x /\ k <= j);
  gr_moved j : k <= j -> entry_moved g s' x j;
  gr_still p : 0 <= p < bitmap_size_in_bits s -> bitmap_bit (moved_iblock s) p = true -> bitmap_bit (moved_iblock s') p = true;
  gr_size : bitmap_size_in_bits s' = bitmap_size_in_bits s;
  gr_rest : flags s' = flags s /\ extended_t s' = extended_t s /\ use_base_table s' = use_base_table s;
}.

Lemma grown_trans s x k s1 s2 : grown s x k s1 -> grown s1 x (k + 1) s2 -> grown s x k s2.
Proof using Type.
  intros [C1 O1 N1 M1 S1 Z1 R1] [C2 O2 N2 M2 S2 Z2 R2]. split.
  - done.
  - intros y j e He. by apply O2, O1.
  - intros y j e [He|[-> Hj]]%N2; [|right; split; [done|lia]]. by apply N1 in He.
  - intros j Hj. destruct (decide (j = k)) as [->|]; [|apply M2; lia]. intros e He p Hp.
    destruct (N2 _ _ _ He) as [He1|[_ Hj']]; [|lia]. apply S2; [by apply (entry_block_range g t0 s1 x k e)|].
    by apply (M1 k Hj e).
  - intros p Hp Hm. apply S2; [by rewrite Z1|]. by apply S1.
  - congruence.
  - naive_solver congruence.
Qed.

Lemma get_new_set_base s t x :
  get_new_meta_iblock g (set_base_t s t) x = '(p, s') ← get_new_meta_iblock g s x; Ret (p, set_base_t s' t).
Proof using Type.
  unfold get_new_meta_iblock. cbv zeta.
  cbn [set_base_t snapshot_bitmap next_snapshot_bitmap moved_iblock hint_btree hint_bitmaps].
  change (bitmap_size_in_bits (set_base_t s t)) with (bitmap_size_in_bits s).
  set (o := if _ <? _ then _ else _). destruct o as [pos|]; [|done]. cbn [mbind outcome_bind].
  destruct (bitmap_set (snapshot_bitmap s) _ _); [|done]. cbn [mbind outcome_bind].
  destruct (bitmap_set (next_snapshot_bitmap s) _ _); [|done]. cbn [mbind outcome_bind].
  destruct (bitmap_set (moved_iblock s) _ _); [|done]. cbn [mbind outcome_bind]. by destruct (is_tree x).
Qed.

Lemma bump_bump t x a b : bump (bump t x a) x b = bump t x b.
Proof using Type. unfold bump. simpl. by rewrite list_insert_insert_eq. Qed.

(** [s] stands for a state of the loop: the code sets the last index at the end only. *)
Lemma fill_new_entries_ok n s x :
  x ∈ special_files -> forall k, let s0 := set_base_t s (bump (base_t s) x (k - 1)) in
  cow g t0 s0 -> 0 <= k -> layout_ok (bump (base_t s) x (k - 1 + Z.of_nat n)) -> free_slots g (snapshot_bitmap s) n ->
  exists s', fill_new_entries g s x n k = Ret s' /\
    grown s0 x k (set_base_t s' (bump (base_t s') x (k - 1 + Z.of_nat n))) /\ last_page_index (base_t s') = last_page_index (base_t s) /\
    VDFS2_LAST_TABLE_INDEX (base_t s') x = VDFS2_LAST_TABLE_INDEX (base_t s) x.
Proof using Type*.
  intros Hx. revert s. induction n as [|n IH]; intros s k s0 Hc Hk Hlay Hfree; simpl.
  - exists s. split; [done|]. split; [|done]. rewrite Z.add_0_r. fold s0. split; try done; [naive_solver|].
    intros j Hj e (_ & Hj' & _). unfold s0 in Hj'. cbn [set_base_t base_t] in Hj'.
    pose proof (lay_lasts _ (tb_layout _ _ _ (cow_tables _ _ _ Hc))) as Hlen. simpl in Hlen. rewrite length_insert in Hlen.
    rewrite bump_last, decide_True in Hj' by done. lia.
  - pose proof (tb_layout _ _ _ (cow_tables _ _ _ Hc)) as Hl0.
    assert (Hlen : length (last_page_index (base_t s)) = 7%nat) by (pose proof (lay_lasts _ Hl0) as Hlen; simpl in Hlen; by rewrite length_insert in Hlen).
    assert (Hlast : VDFS2_LAST_TABLE_INDEX (base_t s0) x + 1 = k) by (unfold s0; cbn [set_base_t base_t]; rewrite bump_last, decide_True by done; lia).
    destruct (fill_step s0 x (k - 1 + Z.of_nat (S n)) Hc Hx)
      as (pos & a & b & c & h1 & h2 & Heq & [w Hw] & Hc' & Ha & Hcc & Hal & Hpos).
    { unfold s0; cbn [set_base_t base_t]. by rewrite bump_bump. }
    { rewrite Hlast. lia. }
    { by apply (free_slots_room g Hg) with n. }
    cbv zeta in *. rewrite Hlast in Hc', Hw.
    assert (Heq' : get_new_meta_iblock g s x = Ret (pos, set_hints (set_bitmaps s a b c) h1 h2)).
    { replace s with (set_base_t s0 (base_t s)) at 1 by (by destruct s). rewrite get_new_set_base, Heq. done. }
    rewrite Heq'. cbn [mbind outcome_bind set_hints set_bitmaps base_t].
    change (table_words (base_t s) !! table_word (base_t s) x k = Some w) in Hw. rewrite Hw. cbn [deref mbind outcome_bind].
    set (s1 := set_base_t _ _).
    assert (Hb1 : base_t s1 = set_words (base_t s) (<[table_word (base_t s) x k := pos]> (table_words (base_t s)))) by done.
    assert (Hbt : bump (base_t s1) x k =
      bump (set_words (base_t s0) (<[table_word (base_t s0) x k := pos]> (table_words (base_t s0)))) x k).
    { unfold bump. simpl. by rewrite list_insert_insert_eq. }
    assert (Hc1 : cow g t0 (set_base_t s1 (bump (base_t s1) x k))) by (rewrite Hbt; exact Hc').
    destruct (IH s1 (k + 1)) as (s' & Hs' & Hgr & Hll & Hlx).
    { by rewrite Z.add_simpl_r. }
    { lia. }
    { replace (k + 1 - 1 + Z.of_nat n) with (k - 1 + Z.of_nat (S n)) by lia. destruct Hlay. split; try done. simpl. by rewrite length_insert. }
    { by apply (free_slots_fill g Hg) with (snapshot_bitmap s) x pos. }
    exists s'. split; [done|]. split; [|by rewrite Hll, Hlx].
    replace (k - 1 + Z.of_nat (S n)) with (k + 1 - 1 + Z.of_nat n) by lia.
    apply grown_trans with (2 := Hgr). rewrite Z.add_simpl_r.
    assert (Hent : forall y j e, entry_at (bump (base_t s1) x k) y j e <->
      (y = x /\ j = k /\ e = pos) \/ (entry_at (base_t s0) y j e /\ (y <> x \/ j <> k))).
    { intros y j e. rewrite Hbt. apply bump_entry with (k - 1 + Z.of_nat (S n)); [|done|done|done|lia].
      unfold s0. cbn [set_base_t base_t]. by rewrite bump_bump. }
    split; cbn [set_base_t base_t moved_iblock flags extended_t use_base_table]; try done.
    + intros y j e He. apply Hent. right. split; [done|]. destruct He as (_ & Hj & _). destruct (decide (y = x)) as [->|]; [right; lia|by left].
    + intros y j e [(-> & -> & _)|[He _]]%Hent; [right; split; [done|lia]|by left].
    + intros j Hj e [(_ & -> & ->)|[He Hne]]%Hent p Hp.
      * cbn. unfold in_entry in Hp. rewrite (proj2 Hcc) by lia. by rewrite bool_decide_true.
      * destruct He as (_ & Hj' & _). rewrite <-Hlast in Hj. lia.
    + intros p Hp Hm. cbn. rewrite (proj2 Hcc) by lia. by case_bool_decide.
    + unfold bitmap_size_in_bits. cbn. by rewrite (proj1 Ha).
Qed.
End fill.

(** ** The whole operation *)

Section grow.
Context `{!AreaSearch, !AreaSearchLaws} (g : snapshot_geometry) (t0 : vdfs2_base_table) (Hg : orders_ok g).

Lemma insert_new_iblocks_ok s x new n :
  cow g t0 s -> x ∈ special_files -> let t := base_t s in
  new = VDFS2_LAST_TABLE_INDEX t x + Z.of_nat n -> new < 2 ^ 31 -> checksum_offset t + 8 * Z.of_nat n < 2 ^ 31 ->
  word_index (checksum_offset t) + Z.of_nat n <= Z.of_nat (length (table_words t)) ->
  free_slots g (snapshot_bitmap s) n ->
  exists s', insert_new_iblocks g s x new = Ret s' /\ grown g t0 s x (VDFS2_LAST_TABLE_INDEX t x + 1) s' /\
    VDFS2_LAST_TABLE_INDEX (base_t s') x = new.
Proof using Type*.
  intros Hc Hx t Hnew Hsmall Hcs Hcap Hfree. pose proof (cow_tables _ _ _ Hc) as Ht. pose proof (tb_layout _ _ _ Ht) as Hl.
  destruct (lay_range t Hl x Hx) as (Hlx & Hox & _). destruct (start_word_off t x Hl Hx) as [Hsw Hoff].
  pose proof (checksum_word t Hl) as Hcw. pose proof (lay_end t Hl x Hx) as Hend.
  set (last := VDFS2_LAST_TABLE_INDEX t x) in *. set (off := VDFS2_GET_TABLE_OFFSET t x) in *.
  unfold insert_new_iblocks. cbv zeta. fold t last off.
  rewrite (proj2 (Z.ltb_ge new last)) by lia. cbn [BUG_ON mbind outcome_bind].
  assert (Hsrc : word_index (off + 8 * (last + 1)) = start_word t x + last + 1) by (unfold word_index, BASE_TABLE_SIZE in *; lia).
  assert (Hdst : word_index (off + 8 * (last + 1) + 8 * (new - last)) = start_word t x + last + 1 + Z.of_nat n)
    by (unfold word_index, BASE_TABLE_SIZE in *; lia).
  assert (Hsz : (checksum_offset t - (off + 8 * (last + 1))) / 8 = word_index (checksum_offset t) - (start_word t x + last + 1))
    by (unfold BASE_TABLE_SIZE in *; lia).
  rewrite Hsrc, Hdst, Hsz.
  destruct (memmove_words_ok (table_words t) (start_word t x + last + 1 + Z.of_nat n) (start_word t x + last + 1)
    (word_index (checksum_offset t) - (start_word t x + last + 1))) as (words & -> & Hwl & Hlow & Hhigh); [lia..|].
  cbn [mbind outcome_bind]. replace (new - last) with (Z.of_nat n) by lia.
  set (s1 := set_base_t s _).
  assert (Hb1 : base_t s1 = spread t x (Z.of_nat n) words) by done.
  assert (Hcap' : word_index (checksum_offset t) + Z.of_nat n <= Z.of_nat (length words)) by lia.
  assert (Hhigh' : forall i, start_word t x + VDFS2_LAST_TABLE_INDEX t x + 1 <= Z.of_nat i < word_index (checksum_offset t) ->
    words !! (i + Z.to_nat (Z.of_nat n))%nat = table_words t !! i).
  { intros i Hi. rewrite <-(Hhigh i) by (fold last in Hi; lia). f_equal. lia. }
  assert (Hlay : layout_ok (bump (base_t s1) x (last + Z.of_nat n))) by (rewrite Hb1; apply spread_layout; done || lia).
  assert (Hent : forall y j e, entry_at (base_t s1) y j e <-> entry_at t y j e).
  { intros y j e. rewrite Hb1. apply spread_entry; done || lia. }
  assert (Hlast1 : VDFS2_LAST_TABLE_INDEX (base_t s1) x = last) by done.
  assert (Hbl : bump (base_t s1) x last = base_t s1).
  { rewrite <-Hlast1. unfold bump. rewrite list_insert_id; [by destruct (base_t s1)|].
    apply list_lookup_lookup_total_lt. pose proof (SF_INDEX_lt x Hx). rewrite Hb1. cbn [spread last_page_index]. rewrite (lay_lasts t Hl). lia. }
  assert (Hl1 : layout_ok (base_t s1)) by (rewrite <-Hbl; apply bump_layout with (last + Z.of_nat n); done || lia).
  assert (Hc1 : cow g t0 s1) by (by apply cow_table).
  rewrite Nat2Z.id.
  destruct (fill_new_entries_ok g t0 Hg n s1 x Hx (last + 1)) as (s2 & -> & Hgr & Hlp & _).
  - rewrite Z.add_simpl_r, Hbl. by replace (set_base_t s1 (base_t s1)) with s1 by (by destruct s1).
  - lia.
  - by rewrite Z.add_simpl_r.
  - done.
  - rewrite !Z.add_simpl_r, Hbl in Hgr. replace (set_base_t s1 (base_t s1)) with s1 in Hgr by (by destruct s1).
    cbn [mbind outcome_bind]. eexists. split; [done|].
    rewrite (u32_small new) by lia. subst new. fold (bump (base_t s2) x (last + Z.of_nat n)).
    pose proof (gr_cow _ _ _ _ _ _ Hgr) as Hc2. split.
    + destruct Hgr as [Hgc Hgo Hgn Hgm Hgs Hgz Hgr]. split; try done.
      * by apply (cow_same g t0 (set_base_t s2 (bump (base_t s2) x (last + Z.of_nat n)))).
      * intros y j e He. by apply Hgo, Hent.
      * intros y j e He%Hgn. by rewrite Hent in He.
    + change (VDFS2_LAST_TABLE_INDEX (bump (base_t s2) x (last + Z.of_nat n)) x = last + Z.of_nat n).
      rewrite bump_last, decide_True; [done|done| |done|done]. rewrite Hlp, Hb1. apply (lay_lasts t Hl).
Qed.
End grow.
