(* ===== verification/Areas.v ===== *)
(** * The extents of the metadata area and of the tables area *)
From Stdlib Require Import ZArith Lia.
From stdpp Require Import base numbers list sets.
From S2P Require Import Prelude FsmTree Bits Fsm FsmFacts FsmTreeSpec BitsFacts Snapshot.

#[local] Ltac Zify.zify_post_hook ::= idtac.

(** ** Position in an area and place on the device *)

(** The area as one sequence of units, [2 ^ shift] to a block. *)
Definition area_units (extents : list vdfs2_extent) (shift : Z) : list Z :=
  concat (map (fun e => seqZ (Z.shiftl (begin e) shift) (Z.shiftl (ext_length e) shift)) extents).

Definition extents_small (extents : list vdfs2_extent) (shift : Z) : Prop :=
  Forall (fun e => 0 <= ext_length e /\ Z.shiftl (ext_length e) shift < 2 ^ 32) extents.

Lemma get_sector_loop_ok extents shift isector first :
  0 <= shift -> extents_small extents shift -> first <= isector ->
  match get_sector_loop extents isector first shift with
  | Some (r, n) => 0 < n /\ isector - first + n <= Z.of_nat (length (area_units extents shift)) /\
      forall j, 0 <= j < n -> area_units extents shift !! Z.to_nat (isector - first + j) = Some (r + j)
  | None => Z.of_nat (length (area_units extents shift)) <= isector - first
  end.
Proof.
  intros Hs Hsm. revert first. induction extents as [|e extents IH]; intros first Hf; simpl; [lia|].
  apply Forall_cons in Hsm as [[He0 He1] Hsm]. specialize (IH Hsm).
  assert (0 <= Z.shiftl (ext_length e) shift) by (apply Z.shiftl_nonneg; lia).
  unfold area_units. cbn [map concat]. fold (area_units extents shift).
  rewrite length_app, length_seqZ. rewrite u32_small by lia.
  set (n := Z.shiftl (ext_length e) shift) in *.
  destruct (Z.leb_spec first isector); [|lia]. destruct (Z.ltb_spec isector (first + n)); cbn [andb].
  - split; [lia|]. split; [lia|]. intros j Hj. rewrite lookup_app_l by (rewrite length_seqZ; lia).
    rewrite lookup_seqZ_lt by lia. f_equal. lia.
  - specialize (IH (first + n) ltac:(lia)). destruct (get_sector_loop _ _ _ _) as [[r k]|].
    + destruct IH as (? & ? & Hr). split; [done|]. split; [lia|]. intros j Hj.
      rewrite lookup_app_r by (rewrite length_seqZ; lia). rewrite length_seqZ, <-Hr by done. f_equal. lia.
    + lia.
Qed.

(** ** Growing an area *)

Lemma used_extents_spec extents :
  (used_extents extents <= length extents)%nat /\
  Forall (fun e => begin e <> 0) (take (used_extents extents) extents).
Proof.
  induction extents as [|e extents [IH1 IH2]]; simpl; [done|].
  destruct (Z.eqb_spec (begin e) 0); simpl; [split; [lia|constructor]|]. split; [lia|]. by constructor.
Qed.

(** The blocks of the used extents. *)
Definition area_blocks (extents : list vdfs2_extent) : list Z :=
  area_units (take (used_extents extents) extents) 0.

Lemma area_units_app a b shift : area_units (a ++ b) shift = area_units a shift ++ area_units b shift.
Proof. unfold area_units. by rewrite map_app, concat_app. Qed.

Lemma area_units_one e : area_units [e] 0 = seqZ (begin e) (ext_length e).
Proof. unfold area_units. simpl. by rewrite app_nil_r, !Z.shiftl_0_r. Qed.

Lemma seqZ_join b n m : 0 <= n -> 0 <= m -> seqZ b (n + m) = seqZ b n ++ seqZ (b + n) m.
Proof. intros. by apply seqZ_app. Qed.

Lemma used_extents_app a l :
  Forall (fun e => begin e <> 0) a -> used_extents (a ++ l) = (length a + used_extents l)%nat.
Proof. induction 1 as [|e a He _ IH]; simpl; [done|]. rewrite (proj2 (Z.eqb_neq _ _)) by done. by rewrite IH. Qed.

Lemma take_used a e l : Forall (fun e => begin e <> 0) a -> begin e <> 0 -> used_extents l = O ->
  area_blocks (a ++ e :: l) = area_units a 0 ++ seqZ (begin e) (ext_length e).
Proof.
  intros Ha He Hl. unfold area_blocks. rewrite cons_middle, app_assoc, used_extents_app by (apply Forall_app; split; [done|by constructor]).
  rewrite Hl, Nat.add_0_r, take_app_length, area_units_app, area_units_one. done.
Qed.

Lemma expand_area_ok g fsm extents n tbc :
  geometry_ok g -> fsm_inv g fsm -> request_ok g true n -> (0 < used_extents extents < length extents)%nat ->
  Forall (fun e => begin e = 0) (drop (used_extents extents) extents) ->
  Forall (fun e => 0 <= ext_length e /\ ext_length e + n < 2 ^ 32) extents -> 0 <= tbc -> tbc + n < 2 ^ 32 ->
  exists ret extents' tbc' fsm', expand_area g fsm extents n tbc [] = Ret (ret, extents', tbc', fsm', []) /\ fsm_inv g fsm' /\
    ((ret = - ENOSPC /\ extents' = extents /\ tbc' = tbc /\ fsm' = fsm) \/
     (ret = 0 /\ tbc' = tbc + n /\ length extents' = length extents /\ exists start,
        allocated g false true n fsm fsm' start n /\ area_blocks extents' = area_blocks extents ++ seqZ start n)).
Proof.
  intros Hg Hinv Hreq [Hu0 Hu1] Hzero Hext Htbc0 Htbc1. unfold expand_area. cbv zeta.
  destruct (used_extents_spec extents) as [_ Hbeg]. pose proof (req_len g true n Hreq) as Hn.
  rewrite decide_False by lia.
  destruct (used_extents extents) as [|i] eqn:Hu; [lia|].
  destruct (split_at_S extents i) as (a & e & l & -> & Hla); [lia|].
  rewrite drop_S_middle in Hzero by lia. rewrite take_S_middle in Hbeg by lia.
  apply Forall_app in Hbeg as [Ha He]. rewrite Forall_singleton in He.
  apply Forall_app in Hext as [_ [[He0 He1] _]%Forall_cons].
  assert (Hl : used_extents l = O) by (destruct l as [|z l]; [done|]; apply Forall_cons in Hzero as [Hz _]; simpl; by rewrite Hz).
  rewrite lookup_middle by done. cbn [deref mbind outcome_bind].
  destruct (get_free_block_ok g Hg fsm (begin e + ext_length e) n true false Hinv Hreq)
    as (start & len' & fsm' & -> & Hinv' & Hcase). cbn [mbind outcome_bind].
  destruct Hcase as [(-> & -> & ->)|Hal].
  { rewrite Z.eqb_refl. do 4 eexists. split; [done|]. split; [done|]. by left. }
  pose proof Hal as (Hst & _ & _ & Hfull & _). destruct (Hfull eq_refl) as [-> _].
  rewrite (proj2 (Z.eqb_neq start 0)), (u32_small (tbc + n)) by lia.
  destruct (Z.eqb_spec (begin e + ext_length e) start) as [Hadj|Hadj].
  - rewrite u32_small by lia. rewrite insert_middle by lia. do 4 eexists. split; [done|]. split; [done|]. right.
    split; [done|]. split; [done|]. split; [by rewrite !length_app|]. exists start. split; [done|].
    rewrite (take_used a e l Ha He Hl), (take_used a (Extent (begin e) (ext_length e + n)) l Ha He Hl). cbn [begin ext_length].
    rewrite seqZ_join, Hadj, app_assoc by lia. done.
  - destruct l as [|z l]; [rewrite length_app in Hu1; simpl in Hu1; lia|].
    rewrite (take_used a e (z :: l) Ha He Hl).
    rewrite (cons_middle e a (z :: l)), app_assoc, insert_middle by (rewrite length_app; simpl; lia).
    do 4 eexists. split; [done|]. split; [done|]. right. split; [done|]. split; [done|]. split; [by rewrite !length_app|].
    exists start. split; [done|]. rewrite take_used; [|apply Forall_app; split; [done|by constructor]|cbn; lia|].
    + cbn [begin ext_length]. by rewrite area_units_app, area_units_one.
    + apply Forall_cons in Hzero as [_ Hzl]. destruct l as [|y l]; [done|]. apply Forall_cons in Hzl as [Hy _]. simpl. by rewrite Hy.
Qed.
