(* ===== verification/Commit.v ===== *)
(** * The commit ([vdfs2_sync_metadata] of [data.c]) *)
From Stdlib Require Import ZArith Lia.
From stdpp Require Import base numbers list sets.
From S2P Require Import Prelude FsmTree Bits Fsm FsmFacts FsmTreeFacts FsmTreeSpec BitsFacts Snapshot SnapshotFacts.

(** The results of the device writes of a commit, 0 or a negative error. *)
Record commit_io := CommitIO {
  second_super : Z;   (* vdfs2_sync_second_super *)
  meta_write : Z;     (* vdfs2_meta_write *)
  table_io : Z;       (* vdfs2_table_IO, in vdfs2_update_translation_tables *)
  first_super : Z;    (* vdfs2_sync_first_super *)
}.

Definition set_exsb_dirty (e : vdfs2_exsb) (d : bool) : vdfs2_exsb :=
  Exsb (meta e) (meta_tbc e) (tables e) (tables_tbc e) d.

Section sync.
Context `{!BitSearch}.

(** The last part, when the metadata is written and the free space rebuilt. *)
Definition commit_tables (io : commit_io) (mount_counter : Z) (s : vdfs2_snapshot_info) (exsb : vdfs2_exsb)
    : Z * vdfs2_snapshot_info * vdfs2_exsb :=
  let '(ret, _, _, _, s) :=
    vdfs2_update_translation_tables (vdfs2_update_bitmaps s) (tables_tbc exsb) mount_counter (table_io io) in
  if negb (ret =? 0) then (ret, s, exsb)
  else if exsb_dirty exsb then
    (first_super io, s, if first_super io =? 0 then set_exsb_dirty exsb false else exsb)
  else (ret, s, exsb).

Definition vdfs2_sync_metadata (g : fsm_geometry) (io : commit_io) (mount_counter : Z) (s : vdfs2_snapshot_info)
    (fsm : vdfs2_fsm_info) (exsb : vdfs2_exsb) (m : memory)
    : outcome (Z * vdfs2_snapshot_info * vdfs2_fsm_info * vdfs2_exsb * memory) :=
  if dirty_pages_count s =? 0 then Ret (0, s, fsm, exsb, m)
  else
    let s := if exsb_dirty exsb then set_extended_t s (extended_t s) true else s in
    if exsb_dirty exsb && negb (second_super io =? 0) then Ret (second_super io, s, fsm, exsb, m)
    else if negb (meta_write io =? 0) then Ret (meta_write io, s, fsm, exsb, m)
    else
      '(ret, fsm, m) ← fsm_rebuild g fsm m;
      if negb (ret =? 0) then Ret (ret, s, fsm, exsb, m)
      else let '(ret, s, exsb) := commit_tables io mount_counter s exsb in Ret (ret, s, fsm, exsb, m).
End sync.

(** ** Facts *)

(** The table on disk has no gaps: its end is where the tables end. *)
Definition dense (t : vdfs2_base_table) : Prop := base_checksum_offset t = checksum_offset t.

Lemma tables_ok_counts g t m c size : tables_ok g t size -> tables_ok g (BaseTable m c (checksum_offset t) (last_page_index t)
  (translation_table_offsets t) (table_words t)) size.
Proof. intros [[] ? ?]. split; [by split|done|done]. Qed.

Definition no_log (s : vdfs2_snapshot_info) : Prop := et_records (extended_t s) = [].

Section facts.
Context (g : snapshot_geometry).

(** The state after the tables are handed to the device. *)
Lemma update_translation_tables_ok s tbc mount err :
  committed g s -> dense (base_t s) ->
  exists type start stop s', vdfs2_update_translation_tables s tbc mount err = (err, type, start, stop, s') /\
    committed g s' /\ no_log s' /\ dirty_pages_count s' = 0 /\
    snapshot_bitmap s' = snapshot_bitmap s /\ table_words (base_t s') = table_words (base_t s) /\
    same_layout (base_t s) (base_t s') /\ flags s' = flags s /\ extended_t s' = ExtTable 0 0 0 [].
Proof using Type.
  intros Hc Hd. unfold vdfs2_update_translation_tables. destruct (pick_table s tbc) as [[[type start] n] use].
  destruct type; do 4 eexists; (split; [done|]).
  - split; [|by repeat split; rewrite ?Hd]. cbn [base_t set_written set_base_t]. rewrite Hd.
    unfold committed in *. cbn [set_written base_t set_base_t].
    destruct Hc as [Hb Ht Hn Hs Hm He]. split.
    + by destruct Hb.
    + by apply tables_ok_counts.
    + exact Hn.
    + exact Hs.
    + exact Hm.
    + exact He.
  - split; [|done]. unfold committed in *. cbn [set_written base_t].
    by apply (cow_same g (base_t s) s).
Qed.

(** After the writes: the state is committed and nothing is left to write. *)
Lemma commit_tables_ok io mount t0 s exsb :
  cow g t0 s -> dense (base_t s) ->
  exists ret s' exsb', commit_tables io mount s exsb = (ret, s', exsb') /\
    (ret = 0 <-> table_io io = 0 /\ (exsb_dirty exsb = true -> first_super io = 0)) /\
    (ret = 0 -> exsb_dirty exsb' = false) /\
    committed g s' /\ no_log s' /\ dirty_pages_count s' = 0 /\ snapshot_bitmap s' = next_snapshot_bitmap s /\
    table_words (base_t s') = table_words (base_t s) /\ same_layout (base_t s) (base_t s') /\ flags s' = flags s.
Proof using Type.
  intros Hc Hd. destruct (update_bitmaps_ok g t0 s Hc) as [Hc' Hb].
  destruct (update_translation_tables_ok (vdfs2_update_bitmaps s) (tables_tbc exsb) mount (table_io io) Hc')
    as (type & start & stop & s' & Heq & H1 & H2 & H3 & H4 & H5 & H6 & H7 & _); [done|].
  unfold commit_tables. rewrite Heq. destruct (Z.eqb_spec (table_io io) 0) as [->|Hne]; cbn [negb].
  - destruct (exsb_dirty exsb) eqn:Hdirty.
    + do 3 eexists. split; [done|]. split; [naive_solver|]. split; [intros ->; done|]. done.
    + do 3 eexists. split; [done|]. split; [naive_solver|]. done.
  - do 3 eexists. split; [done|]. split; [naive_solver|]. split; [done|]. done.
Qed.
End facts.

(** The free space manager starts over from the bitmap. *)
Lemma fsm_rebuild_ok `{!BitSearch, !BitSearchLaws} g fsm :
  geometry_ok g -> erase_geometry_ok g -> fits FSM_BMP_MAGIC_LEN (block_size g) 0 (total_blocks g) (data fsm) ->
  tree_ok 32 (tree fsm) -> 2 <= total_blocks g ->
  used g fsm 0 = true -> used g fsm (total_blocks g - 1) = used g fsm (total_blocks g - 2) ->
  exists fsm', fsm_rebuild g fsm [] = Ret (0, fsm', []) /\ fsm_inv g fsm' /\ data fsm' = data fsm /\
    forall x, blocks (tree fsm') x <-> 0 <= x < total_blocks g /\ used g fsm x = false.
Proof.
  intros Hg He Hf (Hwf & Hr & _) Hn Hz Hl. unfold fsm_rebuild.
  assert (Hne : root (tree fsm) <> ROOT_ERR) by (intros Herr; unfold rooted in Hr; rewrite Herr in Hr; done).
  destruct (fsm_btree_destroy_ok 32 ltac:(lia) (tree fsm) Hwf Hne) as (freed & b & Hd & Hb & _).
  assert (b = vdfs2_init_fsm_btree) as ->.
  { unfold fsm_btree_destroy in Hd. destruct Hwf as [Ho _]. destruct (tree fsm) as [o r]; cbn in *.
    destruct r; cbn in Hd; [by injection Hd as <- <-; subst o|done|].
    destruct (destroy_loop _ _ _); cbn in Hd; [|done]. injection Hd as _ <-. by subst o. }
  rewrite Hd. cbn [mbind outcome_bind].
  destruct (fsm_get_tree_ok g Hg (set_next_free_blocks (set_free_blocks_count (set_tree fsm vdfs2_init_fsm_btree) 0) 0))
    as (fsm' & Hrun & Hinv & Hdata & Hbl); try done. by exists fsm'.
Qed.

(** ** The area of the tables *)

(** The live tables: a base table of [len] sectors at [b], in one half of the
    area, and the extended tables behind it, up to [isector]. *)
Record area_ok (half : Z) (s : vdfs2_snapshot_info) (b len : Z) : Prop := {
  ar_half : b = 0 \/ b = half;
  ar_len : 0 < len /\ len + 8 * VDFS2_SNAPSHOT_TABLES_COUNT <= half;
  ar_count : 0 <= exteneded_table_count s <= VDFS2_SNAPSHOT_TABLES_COUNT;
  ar_end : b + len <= isector s <= b + len + 8 * exteneded_table_count s;
}.

Definition table_sectors (checksum_off : Z) : Z := DIV_ROUND_UP (checksum_off + CRC32_SIZE) SECTOR_SIZE.

Definition area_half (tables_tbc : Z) : Z := Z.shiftr (Z.shiftl tables_tbc (PAGE_SHIFT - SECTOR_SIZE_SHIFT)) 1.

Lemma table_sectors_eq off : DIV_ROUND_UP (off + CRC32_SIZE) SECTOR_SIZE = table_sectors off.
Proof. done. Qed.

Lemma table_sectors_pos off : 0 <= off -> 0 < table_sectors off.
Proof. intros. unfold table_sectors, DIV_ROUND_UP, CRC32_SIZE, SECTOR_SIZE. rewrite Z.quot_div_nonneg by lia. lia. Qed.

Lemma table_sectors_ext s : ext_size (extended_t s) <= Z.shiftl 1 PAGE_SHIFT ->
  0 < table_sectors (ext_checksum_offset (extended_t s)) <= 8.
Proof.
  unfold ext_size, ext_checksum_offset. change (Z.shiftl 1 PAGE_SHIFT) with 4096. unfold EXT_RECORD_SIZE, EXT_TABLE_SIZE, CRC32_SIZE.
  intros. rewrite u32_small by lia. unfold table_sectors, DIV_ROUND_UP, CRC32_SIZE, SECTOR_SIZE. rewrite Z.quot_div_nonneg by lia. lia.
Qed.

Lemma base_checksum_offset_nonneg t : 0 <= base_checksum_offset t.
Proof. apply Z.mod_pos_bound. lia. Qed.

Lemma pick_table_eq s tbc : 0 <= tbc < 2 ^ 28 ->
  pick_table s tbc =
    if (VDFS2_SNAPSHOT_TABLES_COUNT <=? exteneded_table_count s) || use_base_table s
    then (SNAPSHOT_BASE_TABLE, if area_half tbc <? isector s then 0 else area_half tbc, 0, false)
    else (SNAPSHOT_EXT_TABLE, isector s, u8 (exteneded_table_count s + 1), use_base_table s).
Proof.
  intros Htbc.
  assert (Hu : u32 (Z.shiftl tbc (PAGE_SHIFT - SECTOR_SIZE_SHIFT)) = Z.shiftl tbc (PAGE_SHIFT - SECTOR_SIZE_SHIFT)).
  { apply u32_small. rewrite Z.shiftl_mul_pow2 by (unfold PAGE_SHIFT, SECTOR_SIZE_SHIFT; lia).
    replace (2 ^ (PAGE_SHIFT - SECTOR_SIZE_SHIFT)) with 8 by done. lia. }
  unfold pick_table. rewrite Hu. reflexivity.
Qed.

Lemma write_tables_ok s tbc mount b len :
  let half := area_half tbc in
  0 <= tbc < 2 ^ 28 -> area_ok half s b len -> ext_size (extended_t s) <= Z.shiftl 1 PAGE_SHIFT ->
  table_sectors (base_checksum_offset (base_t s)) + 8 * VDFS2_SNAPSHOT_TABLES_COUNT <= half ->
  exists type start stop s', vdfs2_update_translation_tables s tbc mount 0 = (0, type, start, stop, s') /\
    0 <= start < stop /\ stop <= 2 * half /\ (stop <= b \/ isector s <= start) /\ isector s' = stop /\
    match type with
    | SNAPSHOT_BASE_TABLE => area_ok half s' start (stop - start)
    | SNAPSHOT_EXT_TABLE => start = isector s /\ area_ok half s' b len
    end.
Proof.
  intros half Htbc [Hh Hlen Hcount Hend] Hext Hbase.
  unfold vdfs2_update_translation_tables. rewrite (pick_table_eq s tbc Htbc). fold half. clearbody half.
  pose proof (table_sectors_ext s Hext) as He. pose proof (table_sectors_pos _ (base_checksum_offset_nonneg (base_t s))) as Hb.
  clear Hext. assert (Hvc : VDFS2_SNAPSHOT_TABLES_COUNT = 8) by done.
  destruct ((VDFS2_SNAPSHOT_TABLES_COUNT <=? exteneded_table_count s) || use_base_table s) eqn:Hpick.
  - cbv beta iota zeta. rewrite table_sectors_eq. set (n := table_sectors (base_checksum_offset (base_t s))) in *.
    clearbody n. set (st := if half <? isector s then 0 else half).
    assert (Hst : (st = 0 /\ half < isector s) \/ (st = half /\ isector s <= half)) by (unfold st; destruct (Z.ltb_spec half (isector s)); lia).
    clearbody st. exists SNAPSHOT_BASE_TABLE, st, (st + n). eexists. split; [reflexivity|].
    split; [lia|]. split; [lia|]. split; [lia|]. split; [reflexivity|].
    split; cbn [exteneded_table_count isector set_written]; rewrite ?Z.eqb_refl; lia.
  - apply orb_false_iff in Hpick as [Hlt _]. apply Z.leb_gt in Hlt.
    cbv beta iota zeta. rewrite table_sectors_eq. set (n := table_sectors (ext_checksum_offset (extended_t s))) in *.
    clearbody n. assert (Hc8 : u8 (exteneded_table_count s + 1) = exteneded_table_count s + 1) by (apply Z.mod_small; lia).
    rewrite Hc8. exists SNAPSHOT_EXT_TABLE, (isector s), (isector s + n). eexists. split; [reflexivity|].
    split; [lia|]. split; [lia|]. split; [lia|]. split; [reflexivity|]. split; [reflexivity|].
    split; cbn [exteneded_table_count isector set_written]; rewrite ?Z.eqb_refl; lia.
Qed.

(** ** Loading a chain of extended tables *)

(** Tables written by consecutive commits of one mount, behind the base table. *)
Fixpoint chain (t : vdfs2_base_table) (sector mount sync : Z) (es : list vdfs2_extended_table)
    (load : Z -> Z * vdfs2_extended_table * Z) (t' : vdfs2_base_table) (sector' : Z) : Prop :=
  match es with
  | [] => t' = t /\ sector' = sector
  | e :: es =>
      load sector = (0, e, VDFS2_SNAPSHOT_VERSION mount (sync + 1)) /\
      et_mount_count e = mount /\ et_sync_count e = sync + 1 /\
      exists t1, apply_records t (et_records e) = Ret t1 /\
        chain (set_counts t1 mount (sync + 1)) (sector + table_sectors (et_checksum_offset e)) mount (sync + 1) es load t' sector'
  end.

Lemma version_parts m c : 0 <= m < 2 ^ 32 -> 0 <= c < 2 ^ 32 ->
  VDFS2_MOUNT_COUNT (VDFS2_SNAPSHOT_VERSION m c) = m /\ VDFS2_SYNC_COUNT (VDFS2_SNAPSHOT_VERSION m c) = c.
Proof.
  intros Hm Hc. unfold VDFS2_MOUNT_COUNT, VDFS2_SYNC_COUNT, VDFS2_SNAPSHOT_VERSION.
  change 4294967295 with (Z.ones 32). rewrite !(Z.land_comm (Z.ones 32)), !Z.land_ones by lia.
  assert (Hcs : Z.shiftr c 32 = 0) by (apply Z.shiftr_eq_0; [lia|]; destruct (decide (c = 0)) as [->|]; [done|apply Z.log2_lt_pow2; lia]).
  rewrite Z.shiftr_lor, Hcs, Z.lor_0_r, Z.shiftr_shiftl_l, Z.shiftl_0_r, Z.mod_small by lia. split; [done|].
  rewrite <-Z.land_ones, Z.land_lor_distr_l, !Z.land_ones by lia.
  rewrite Z.shiftl_mul_pow2, Z.mod_mul by lia. rewrite Z.lor_0_l. by apply Z.mod_small.
Qed.

Lemma apply_extended_tables_ok load es n t sector mount sync applied t' sector' :
  (length es <= n)%nat -> 0 <= mount < 2 ^ 32 -> 0 <= sync -> sync + Z.of_nat (length es) < 2 ^ 32 - 1 ->
  chain t sector mount sync es load t' sector' ->
  ((length es < n)%nat -> exists e v, load sector' = (0, e, v) /\
     (VDFS2_MOUNT_COUNT v <> mount \/ VDFS2_SYNC_COUNT v <> sync + Z.of_nat (length es) + 1)) ->
  apply_extended_tables load n t (VDFS2_SNAPSHOT_VERSION mount sync) sector applied
    = Ret (0, t', sector', applied + Z.of_nat (length es)).
Proof.
  intros Hn Hm. revert t sector sync n applied Hn. induction es as [|e es IH]; intros t sector sync n applied Hn Hs Hmax Hch Hstop.
  - destruct Hch as [-> ->]. destruct n as [|n]; cbn [apply_extended_tables length]; [do 2 f_equal; lia|].
    destruct Hstop as (e & v & -> & Hv); [simpl; lia|]. destruct (version_parts mount sync) as [H1 H2]; [lia..|]. rewrite H1, H2.
    simpl in Hv, Hmax. rewrite u32_small by lia. cbn [Z.eqb negb].
    destruct (Z.eqb_spec (VDFS2_MOUNT_COUNT v) mount), (Z.eqb_spec (VDFS2_SYNC_COUNT v) (sync + 1)); simpl; try (do 2 f_equal; lia).
  - destruct n as [|n]; [simpl in Hn; lia|]. simpl length in *. cbn [apply_extended_tables chain] in *.
    destruct Hch as (-> & Hem & Hes & t1 & Hap & Hch).
    destruct (version_parts mount sync) as [H1 H2]; [lia..|]. destruct (version_parts mount (sync + 1)) as [H3 H4]; [lia..|].
    rewrite H1, H2, H3, H4, u32_small, !Z.eqb_refl by lia. cbn [negb orb].
    unfold parse_extended_table. rewrite Hap. cbn [mbind outcome_bind]. cbn [set_counts bt_mount_count bt_sync_count]. rewrite Hem, Hes.
    fold (table_sectors (et_checksum_offset e)). rewrite IH with (sync := sync + 1); [do 2 f_equal; lia|lia..|done|].
    intros Hlt. destruct Hstop as (e' & v & ? & ?); [lia|]. exists e', v. split; [done|]. lia.
Qed.

Lemma no_log_ok s : no_log s -> log_ok (base_t s) s.
Proof. intros Hn. unfold no_log in Hn. split; unfold ext_size; rewrite Hn; [done|by vm_compute]. Qed.
