(* ===== verification/SnapshotTheorems.v ===== *)
(** * The properties of the snapshot manager and of the commit

    Each theorem is followed by its witness, the theorem applied to a volume with
    seven special files of one block each. *)
From Stdlib Require Import ZArith Lia.
From stdpp Require Import base numbers list sets.
From S2P Require Import Prelude FsmTree FsmTreeSpec Bits BitsFacts Fsm FsmFacts FsmTheorems.
From S2P Require Import Snapshot SnapshotFacts SnapshotGrow Areas Commit.

(** ** A search for the free areas *)

Fixpoint area_from (fuel : nat) (bitmap : list bool) (size q nr align_mask : Z) : Z :=
  match fuel with
  | O => size + 1
  | S fuel =>
      if size <? q + nr then size + 1
      else if (Z.land q align_mask =? 0) && bool_decide (Forall (fun p => bitmap_bit bitmap p = false) (seqZ q nr)) then q
      else area_from fuel bitmap size (q + 1) nr align_mask
  end.

#[export] Instance linear_area : AreaSearch := fun bitmap size start nr align_mask =>
  area_from (Z.to_nat (size - start + 1)) bitmap size start nr align_mask.

#[export] Instance linear_area_laws : AreaSearchLaws.
Proof.
  intros bitmap size start nr align_mask Hs Hnr Hsize. cbv zeta. unfold bitmap_find_next_zero_area, linear_area.
  assert (Hfuel : size - start + 1 <= Z.of_nat (Z.to_nat (size - start + 1))) by lia. revert Hfuel.
  generalize (Z.to_nat (size - start + 1)) as fuel. intros fuel. revert start Hs.
  induction fuel as [|fuel IH]; intros q Hq Hfuel; cbn [area_from].
  { right. split; [lia|]. lia. }
  destruct (Z.ltb_spec size (q + nr)) as [Hlt|Hge].
  { right. split; [lia|]. lia. }
  assert (Hnext : ~ (Z.land q align_mask = 0 /\ Forall (fun p => bitmap_bit bitmap p = false) (seqZ q nr)) ->
    let r := area_from fuel bitmap size (q + 1) nr align_mask in
    (q <= r /\ r + nr <= size /\ Z.land r align_mask = 0 /\ (forall p, r <= p < r + nr -> bitmap_bit bitmap p = false)) \/
    (size < r /\ forall q0, q <= q0 -> q0 + nr <= size -> Z.land q0 align_mask = 0 ->
      exists p, q0 <= p < q0 + nr /\ bitmap_bit bitmap p = true)).
  { intros Hno. destruct (IH (q + 1)) as [(?&?&?&?)|[? Hall]]; [lia|lia|left; split_and!; [lia|done..]|right].
    split; [done|]. intros q0 Hq0 Hfit Hal. destruct (decide (q0 = q)) as [->|]; [|apply Hall; [lia|done..]].
    assert (Hf : ~ Forall (fun p => bitmap_bit bitmap p = false) (seqZ q nr)) by naive_solver.
    apply not_Forall_Exists in Hf; [|apply _]. apply Exists_exists in Hf as (p & Hp%elem_of_seqZ & Hb). exists p. split; [lia|].
    by apply not_false_is_true. }
  destruct (Z.eqb_spec (Z.land q align_mask) 0) as [Hal|Hal]; cbn [andb]; [|apply Hnext; naive_solver].
  case_bool_decide as Hall; [|apply Hnext; naive_solver].
  left. split; [lia|]. split; [lia|]. split; [done|]. intros p Hp. rewrite Forall_forall in Hall. apply Hall, elem_of_seqZ. lia.
Qed.

(** ** The volume of the witnesses *)

Definition orders_ex : snapshot_geometry := SnapshotGeometry 0 0 12 12.
Definition table_ex : vdfs2_base_table :=
  BaseTable 1 5 156 (replicate 7 0) [100; 108; 116; 124; 132; 140; 148] [0; 1; 2; 3; 4; 5; 6; 0; 0; 0].
Definition raw_ex : vdfs2_snapshot_info :=
  SnapshotInfo table_ex (ExtTable 0 0 0 []) (replicate 16 false) (replicate 16 false) (replicate 16 false)
    0 0 1 0 1 5 false 0 0.
Definition bits_ex : list bool := replicate 7 true ++ replicate 9 false.
Definition s_ex : vdfs2_snapshot_info := set_bitmaps raw_ex bits_ex bits_ex (replicate 16 false).

Lemma orders_ex_ok : orders_ok orders_ex.
Proof. by repeat split. Qed.

Lemma file_cases x : x ∈ special_files -> x = 2 \/ x = 3 \/ x = 4 \/ x = 5 \/ x = 6 \/ x = 7 \/ x = 8.
Proof. rewrite special_files_range. unfold VDFS2_FSFILE, VDFS2_LSFILE, VDFS2_SMALL_AREA_BITMAP. lia. Qed.

Lemma layout_ex_ok : layout_ok table_ex.
Proof.
  split.
  - done.
  - done.
  - intros x Hx%file_cases. repeat (destruct Hx as [->|Hx]; [by vm_compute|]). subst. by vm_compute.
  - intros x Hx%file_cases. repeat (destruct Hx as [->|Hx]; [by vm_compute|]). subst. by vm_compute.
  - by vm_compute.
  - intros x y Hx%file_cases Hy%file_cases. unfold VDFS2_GET_TABLE_OFFSET, VDFS2_LAST_TABLE_INDEX, VDFS2_SF_INDEX, VDFS2_FSFILE.
    cbn [table_ex translation_table_offsets last_page_index].
    destruct Hx as [->|[->|[->|[->|[->|[->| ->]]]]]], Hy as [->|[->|[->|[->|[->|[->| ->]]]]]]; intros Hne;
      solve [done | left; by vm_compute | right; by vm_compute].
Qed.

Lemma entry_ex x k e : entry_at table_ex x k e <-> x ∈ special_files /\ k = 0 /\ e = x - 2.
Proof.
  split.
  - intros (Hx & Hk & He). split; [done|]. apply file_cases in Hx.
    assert (Hl : VDFS2_LAST_TABLE_INDEX table_ex x = 0) by (destruct Hx as [->|[->|[->|[->|[->|[->| ->]]]]]]; by vm_compute).
    assert (k = 0) as -> by lia. destruct Hx as [->|[->|[->|[->|[->|[->| ->]]]]]]; vm_compute in He; by injection He as <-.
  - intros (Hx & -> & ->). split; [done|]. apply file_cases in Hx.
    destruct Hx as [->|[->|[->|[->|[->|[->| ->]]]]]]; by vm_compute.
Qed.

Lemma tables_ex_ok : tables_ok orders_ex table_ex 16.
Proof.
  assert (Ho : forall x, entry_order orders_ex x = 0) by (intros x; unfold entry_order; by destruct (is_tree x)).
  split; [apply layout_ex_ok|..].
  - intros x k e (Hx & -> & ->)%entry_ex. rewrite Ho. apply file_cases in Hx. lia.
  - intros x k e y j e' p (Hx & -> & ->)%entry_ex (Hy & -> & ->)%entry_ex. unfold in_entry. rewrite !Ho. lia.
Qed.

Lemma s_ex_committed : committed orders_ex s_ex.
Proof.
  destruct (build_snapshot_bitmaps_ok orders_ex raw_ex orders_ex_ok) as (s & Hrun & Hc & _);
    [by vm_compute|apply tables_ex_ok|by vm_compute..|].
  assert (Ret s = Ret s_ex) as [= <-]; [|done]. rewrite <-Hrun. by vm_compute.
Qed.

(** [free_slots] of a bitmap whose entries all have one block. *)
Lemma free_slots_ex n : (n <= 9)%nat -> free_slots orders_ex bits_ex n.
Proof.
  intros Hn. exists (seqZ 7 (Z.of_nat n)). split; [apply NoDup_seqZ|]. split; [rewrite length_seqZ; lia|].
  intros q Hq%elem_of_seqZ. change (2 ^ slot_order orders_ex) with 1.
  split; [lia|]. split; [change (Z.of_nat (length bits_ex)) with 16; lia|].
  intros p Hp. change (2 ^ slot_order orders_ex) with 1 in Hp. assert (p = q) as -> by lia. unfold bits_ex, bitmap_bit.
  rewrite lookup_total_app_r by (rewrite length_replicate; lia). apply lookup_total_replicate_2. rewrite length_replicate. lia.
Qed.

(** ** Copy-on-write *)

(** C1: copy-on-write.  From a committed state, any sequence of touched blocks for
    which the metadata area has a free place each ends without reaching a [BUG]:
    the tables stay consistent (no two entries overlap), every touched block has
    a place outside all the blocks of the committed tables, and every other entry
    is where it was. *)
Theorem copy_on_write `{HA : !AreaSearch} `{HL : !AreaSearchLaws} (g : snapshot_geometry) s touches :
  orders_ok g -> committed g s -> no_log s -> flags s = 0 ->
  Forall (touch_valid g (base_t s)) touches -> free_slots g (snapshot_bitmap s) (length touches) ->
  exists s', vdfs2_add_chunks g s touches = Ret s' /\ tables_ok g (base_t s') (bitmap_size_in_bits s') /\
    (forall x k e p, touched g touches x k -> entry_at (base_t s') x k e -> in_entry g x e p ->
       ~ covers_block g (base_t s) p) /\
    (forall x k e, ~ touched g touches x k -> entry_at (base_t s') x k e <-> entry_at (base_t s) x k e).
Proof.
  intros Hg Hc Hlog Hfl Hv Hfree. assert (Hl : log_ok (base_t s) s) by (by apply no_log_ok).
  destruct (add_chunks_ok g (base_t s) Hg touches s Hc Hl Hfl Hv Hfree) as (s' & Hrun & Hc' & _ & _ & _ & _ & Hm & Ho).
  exists s'. split; [done|]. split; [apply Hc'|]. split; [|done].
  intros x k e p Ht. apply (entry_moved_outside g (base_t s)); [done|]. apply Hm. by left.
Qed.

Lemma touches_ex_ok : Forall (touch_valid orders_ex (base_t s_ex)) [(2, 0); (3, 0); (2, 0)].
Proof. repeat constructor; cbn [fst snd]; try apply special_files_range; by vm_compute. Qed.

Lemma copy_on_write_witness :
  exists s', vdfs2_add_chunks orders_ex s_ex [(2, 0); (3, 0); (2, 0)] = Ret s' /\
    tables_ok orders_ex (base_t s') (bitmap_size_in_bits s') /\
    (forall x k e p, touched orders_ex [(2, 0); (3, 0); (2, 0)] x k -> entry_at (base_t s') x k e ->
       in_entry orders_ex x e p -> ~ covers_block orders_ex (base_t s_ex) p) /\
    (forall x k e, ~ touched orders_ex [(2, 0); (3, 0); (2, 0)] x k ->
       entry_at (base_t s') x k e <-> entry_at (base_t s_ex) x k e).
Proof.
  apply (copy_on_write (HA := linear_area) orders_ex s_ex [(2, 0); (3, 0); (2, 0)]);
    [apply orders_ex_ok | apply s_ex_committed | reflexivity | reflexivity | apply touches_ex_ok | apply free_slots_ex; simpl; lia].
Defined.

(** C2: the extended table is a redo log.  While the state does not ask for a full
    base table, replaying the records of the extended table on the committed
    table gives the current table; and the extended table with its checksum
    never outgrows its page. *)
Theorem extended_table_replays `{HA : !AreaSearch} `{HL : !AreaSearchLaws} (g : snapshot_geometry) s touches :
  orders_ok g -> committed g s -> no_log s -> flags s = 0 ->
  Forall (touch_valid g (base_t s)) touches -> free_slots g (snapshot_bitmap s) (length touches) ->
  exists s', vdfs2_add_chunks g s touches = Ret s' /\
    (use_base_table s' = false -> apply_records (base_t s) (et_records (extended_t s')) = Ret (base_t s')) /\
    ext_size (extended_t s') <= Z.shiftl 1 PAGE_SHIFT.
Proof.
  intros Hg Hc Hlog Hfl Hv Hfree. assert (Hl : log_ok (base_t s) s) by (by apply no_log_ok).
  destruct (add_chunks_ok g (base_t s) Hg touches s Hc Hl Hfl Hv Hfree) as (s' & Hrun & _ & [] & _).
  by exists s'.
Qed.

Lemma extended_table_replays_witness :
  exists s', vdfs2_add_chunks orders_ex s_ex [(2, 0); (3, 0); (2, 0)] = Ret s' /\
    (use_base_table s' = false -> apply_records (base_t s_ex) (et_records (extended_t s')) = Ret (base_t s')) /\
    ext_size (extended_t s') <= Z.shiftl 1 PAGE_SHIFT.
Proof.
  apply (extended_table_replays (HA := linear_area) orders_ex s_ex [(2, 0); (3, 0); (2, 0)]);
    [apply orders_ex_ok | apply s_ex_committed | reflexivity | reflexivity | apply touches_ex_ok | apply free_slots_ex; simpl; lia].
Defined.

(** C13: [insert_new_iblocks] makes the table of a special file longer: all the
    entries of all the tables keep their iblocks although the words behind the
    table move, the new entries get places outside the committed blocks, the
    last index becomes the one asked for and the tables stay consistent. *)
Theorem insert_iblocks_correct `{HA : !AreaSearch} `{HL : !AreaSearchLaws} (g : snapshot_geometry) s x (n : nat) :
  let t := base_t s in let last := VDFS2_LAST_TABLE_INDEX t x in
  orders_ok g -> committed g s -> x ∈ special_files -> last + Z.of_nat n < 2 ^ 31 ->
  checksum_offset t + 8 * Z.of_nat n < 2 ^ 31 ->
  word_index (checksum_offset t) + Z.of_nat n <= Z.of_nat (length (table_words t)) ->
  free_slots g (snapshot_bitmap s) n ->
  exists s', insert_new_iblocks g s x (last + Z.of_nat n) = Ret s' /\
    tables_ok g (base_t s') (bitmap_size_in_bits s') /\
    VDFS2_LAST_TABLE_INDEX (base_t s') x = last + Z.of_nat n /\
    (forall y j e, entry_at t y j e -> entry_at (base_t s') y j e) /\
    (forall y j e, entry_at (base_t s') y j e -> entry_at t y j e \/ (y = x /\ last < j)) /\
    (forall j e p, last < j -> entry_at (base_t s') x j e -> in_entry g x e p -> ~ covers_block g t p).
Proof.
  intros t last Hg Hc Hx Hsmall Hcs Hcap Hfree.
  destruct (insert_new_iblocks_ok g (base_t s) Hg s x (last + Z.of_nat n) n Hc Hx) as (s' & Hrun & Hgr & Hlast); try done.
  exists s'. split; [done|]. destruct Hgr as [Hc' Ho Hn Hm _ _ _]. split; [apply Hc'|]. split; [done|]. split; [done|]. split.
  - intros y j e [He|[-> Hj]]%Hn; [by left|right; split; [done|unfold last, t; lia]].
  - intros j e p Hj. apply (entry_moved_outside g (base_t s)); [done|]. apply Hm. unfold last, t in Hj. lia.
Qed.

Lemma insert_iblocks_correct_witness :
  exists s', insert_new_iblocks orders_ex s_ex 3 2 = Ret s' /\
    tables_ok orders_ex (base_t s') (bitmap_size_in_bits s') /\
    VDFS2_LAST_TABLE_INDEX (base_t s') 3 = 2 /\
    (forall y j e, entry_at table_ex y j e -> entry_at (base_t s') y j e) /\
    (forall y j e, entry_at (base_t s') y j e -> entry_at table_ex y j e \/ (y = 3 /\ 0 < j)) /\
    (forall j e p, 0 < j -> entry_at (base_t s') 3 j e -> in_entry orders_ex 3 e p -> ~ covers_block orders_ex table_ex p).
Proof.
  apply (insert_iblocks_correct (HA := linear_area) orders_ex s_ex 3 2);
    [apply orders_ex_ok | apply s_ex_committed | apply special_files_range; by vm_compute | by vm_compute .. | apply free_slots_ex; lia].
Defined.

(** C10: [build_snapshot_bitmaps] at mount time makes the bitmap of exactly the
    blocks that the translation tables point to, and so a committed state. *)
Theorem build_bitmaps_correct (g : snapshot_geometry) s :
  orders_ok g -> bitmap_size_in_bits s < 2 ^ 31 -> tables_ok g (base_t s) (bitmap_size_in_bits s) ->
  0 <= hint_btree s -> 0 <= hint_bitmaps s ->
  snapshot_bitmap s = replicate (length (snapshot_bitmap s)) false ->
  moved_iblock s = replicate (length (snapshot_bitmap s)) false ->
  exists s', build_snapshot_bitmaps g s = Ret s' /\ committed g s' /\ base_t s' = base_t s /\
    forall p, 0 <= p < bitmap_size_in_bits s ->
      bitmap_bit (snapshot_bitmap s') p = true <-> covers_block g (base_t s) p.
Proof.
  intros Hg Hint Ht Hh1 Hh2 Hz Hm.
  destruct (build_snapshot_bitmaps_ok g s Hg Hint Ht Hh1 Hh2 Hz Hm) as (s' & Hrun & Hc & Hb & _ & _ & _ & Hsz).
  exists s'. split; [done|]. split; [done|]. split; [done|]. intros p Hp. rewrite <-Hsz in Hp.
  rewrite (cow_snap _ _ _ Hc p Hp), Hb. split; [|by left]. intros [|Hmv]; [done|].
  apply (cow_moved _ _ _ Hc p Hp) in Hmv as [Hno Hnx]. destruct Hno. by apply (cow_next _ _ _ Hc).
Qed.

Lemma build_bitmaps_correct_witness :
  exists s', build_snapshot_bitmaps orders_ex raw_ex = Ret s' /\ committed orders_ex s' /\ base_t s' = table_ex /\
    forall p, 0 <= p < 16 -> bitmap_bit (snapshot_bitmap s') p = true <-> covers_block orders_ex table_ex p.
Proof.
  apply (build_bitmaps_correct orders_ex raw_ex); [apply orders_ex_ok|by vm_compute|apply tables_ex_ok|by vm_compute..].
Defined.

(** ** The commit *)

(** A commit that runs to its end: something is dirty, the writes succeed. *)
Definition commit_ready (io : commit_io) (s : vdfs2_snapshot_info) (exsb : vdfs2_exsb) : Prop :=
  dirty_pages_count s <> 0 /\ second_super io = 0 /\ meta_write io = 0 /\ table_io io = 0 /\ first_super io = 0.

(** The bitmap of the volume is one from which the tree of free blocks can be built. *)
Definition volume_ok `{!BitSearch} (g : fsm_geometry) (fsm : vdfs2_fsm_info) : Prop :=
  geometry_ok g /\ erase_geometry_ok g /\ fits FSM_BMP_MAGIC_LEN (block_size g) 0 (total_blocks g) (data fsm) /\
  tree_ok 32 (tree fsm) /\ 2 <= total_blocks g /\ used g fsm 0 = true /\
  used g fsm (total_blocks g - 1) = used g fsm (total_blocks g - 2).

(** C5: a successful [vdfs2_sync_metadata] makes the current tables the committed
    ones: the result is 0, the state after it is committed (the bitmap of the
    snapshot is that of the tables, nothing counts as moved), the log of the
    extended table is empty, the superblock is clean, and the tree of free blocks
    is that of the clear bits, so that blocks freed before the commit can be given
    out after it. *)
Theorem commit_correct `{HB : !BitSearch} `{HBL : !BitSearchLaws} (g : snapshot_geometry) (gf : fsm_geometry)
    io mount t0 s fsm exsb :
  cow g t0 s -> dense (base_t s) -> commit_ready io s exsb -> volume_ok gf fsm ->
  exists s' fsm' exsb', vdfs2_sync_metadata gf io mount s fsm exsb [] = Ret (0, s', fsm', exsb', []) /\
    committed g s' /\ table_words (base_t s') = table_words (base_t s) /\ same_layout (base_t s) (base_t s') /\
    no_log s' /\ dirty_pages_count s' = 0 /\ exsb_dirty exsb' = false /\
    fsm_inv gf fsm' /\ (forall b, blocks (tree fsm') b <-> 0 <= b < total_blocks gf /\ used gf fsm b = false).
Proof.
  intros Hc Hd (Hdirty & H1 & H2 & H3 & H4) (Hg & He & Hf & Ht & Hn & Hz & Hl).
  unfold vdfs2_sync_metadata. rewrite (proj2 (Z.eqb_neq _ _) Hdirty), H1, H2, Z.eqb_refl, andb_false_r. cbn [negb].
  destruct (fsm_rebuild_ok gf fsm Hg He Hf Ht Hn Hz Hl) as (fsm' & -> & Hinv & _ & Hbl).
  cbn [mbind outcome_bind]. rewrite Z.eqb_refl. cbn [negb].
  set (s1 := if exsb_dirty exsb then _ else s).
  assert (Hc1 : cow g t0 s1) by (unfold s1; case_match; [by apply (cow_same g t0 s)|done]).
  assert (Hb1 : base_t s1 = base_t s) by (unfold s1; by case_match).
  destruct (commit_tables_ok g io mount t0 s1 exsb Hc1) as (ret & s' & exsb' & -> & Hret & Hclean & Hc' & Hnl & Hdp & _ & Hw & Hlay & _);
    [by rewrite Hb1|].
  assert (ret = 0) as -> by naive_solver. rewrite Hb1 in Hw, Hlay. exists s', fsm', exsb'. naive_solver.
Qed.

Definition dirty_ex : vdfs2_snapshot_info := set_dirty_pages_count s_ex 1.
Definition exsb_ex : vdfs2_exsb := Exsb [Extent 64 16] 16 [Extent 32 32] 32 true.

Lemma dirty_ex_cow : cow orders_ex table_ex dirty_ex.
Proof. by apply (cow_same orders_ex table_ex s_ex); [..|apply s_ex_committed]. Qed.

Lemma volume_ex_ok : volume_ok (H := linear_search) geometry_ex fsm_ex.
Proof.
  split; [apply geometry_ex_ok|]. split; [apply erase_ex_ok|]. split; [by vm_compute|]. split; [apply fsm_ex_inv|].
  by vm_compute.
Qed.

Lemma commit_correct_witness :
  exists s' fsm' exsb', vdfs2_sync_metadata geometry_ex (CommitIO 0 0 0 0) 1 dirty_ex fsm_ex exsb_ex []
      = Ret (0, s', fsm', exsb', []) /\
    committed orders_ex s' /\ table_words (base_t s') = table_words table_ex /\ same_layout table_ex (base_t s') /\
    no_log s' /\ dirty_pages_count s' = 0 /\ exsb_dirty exsb' = false /\
    fsm_inv geometry_ex fsm' /\
    (forall b, blocks (tree fsm') b <-> 0 <= b < total_blocks geometry_ex /\ used geometry_ex fsm_ex b = false).
Proof.
  apply (commit_correct (HB := linear_search) orders_ex geometry_ex (CommitIO 0 0 0 0) 1 table_ex dirty_ex fsm_ex exsb_ex);
    [apply dirty_ex_cow | by vm_compute | by vm_compute | apply volume_ex_ok].
Defined.

(** C15: a commit whose table write fails returns the error, but has already dropped
    the old bitmap: the blocks of an entry that moved are free in the snapshot
    bitmap although the tables on the device still point to them, so that the
    next transaction may overwrite the only committed copy. *)
Theorem failed_commit_frees_committed (g : snapshot_geometry) io mount t0 s exsb x k e p :
  cow g t0 s -> dense (base_t s) -> table_io io <> 0 ->
  entry_at t0 x k e -> in_entry g x e p -> 0 <= p < bitmap_size_in_bits s -> ~ covers_block g (base_t s) p ->
  exists s' exsb', commit_tables io mount s exsb = (table_io io, s', exsb') /\
    covers_block g t0 p /\ bitmap_bit (snapshot_bitmap s') p = false.
Proof.
  intros Hc Hd Hio He Hp Hr Hno.
  destruct (commit_tables_ok g io mount t0 s exsb Hc Hd) as (ret & s' & exsb' & Heq & _ & _ & _ & _ & _ & Hs & _).
  unfold commit_tables in *. destruct (vdfs2_update_translation_tables _ _ _ _) as [[[[r ty] st] sp] s1] eqn:Hu.
  assert (r = table_io io) as ->.
  { unfold vdfs2_update_translation_tables in Hu. destruct (pick_table _ _) as [[[? ?] ?] ?]. by injection Hu as <- _ _ _ _. }
  rewrite (proj2 (Z.eqb_neq _ _) Hio) in *. cbn [negb] in *. injection Heq as <- <- <-.
  exists s1, exsb. split; [done|]. split; [by exists x, k, e|]. rewrite Hs. apply not_true_is_false.
  by rewrite (cow_next _ _ _ Hc p Hr).
Qed.

(** The volume after file 2 moved from block 0 to block 7. *)
Definition moved_ex : vdfs2_snapshot_info :=
  match vdfs2_add_chunk_no_lock (H := linear_area) orders_ex s_ex 2 0 with Ret s => s | Bug => s_ex end.

Lemma moved_ex_cow : cow orders_ex table_ex moved_ex.
Proof.
  destruct (add_chunk_ok (H := linear_area) orders_ex table_ex orders_ex_ok s_ex 2 0) as (s & Hrun & Ha);
    [apply s_ex_committed|done|apply special_files_range; by vm_compute|by vm_compute|
     apply (free_slots_room orders_ex orders_ex_ok s_ex 2 0), free_slots_ex; lia|].
  unfold moved_ex. rewrite Hrun. apply Ha.
Qed.

Lemma failed_commit_frees_committed_witness :
  exists s' exsb', commit_tables (CommitIO 0 0 (- EIO) 0) 1 moved_ex exsb_ex = (- EIO, s', exsb') /\
    covers_block orders_ex table_ex 0 /\ bitmap_bit (snapshot_bitmap s') 0 = false.
Proof.
  apply (failed_commit_frees_committed orders_ex (CommitIO 0 0 (- EIO) 0) 1 table_ex moved_ex exsb_ex 2 0 0 0);
    [apply moved_ex_cow | by vm_compute | done | apply entry_ex; split; [apply special_files_range; by vm_compute|done]
    | by vm_compute | by vm_compute |].
  intros Hcov. apply (cow_next _ _ _ moved_ex_cow 0) in Hcov; [|by vm_compute]. by vm_compute in Hcov.
Defined.



(** C14: loading replays a chain of extended tables: when the sectors behind the base
    table hold the tables of consecutive commits of one mount, the loader applies
    exactly these, in order, stops at the first table of another version, and ends
    at the sector behind the last one. *)
Theorem extended_chain_loaded (load : Z -> Z * vdfs2_extended_table * Z) es t sector mount sync t' sector' :
  (length es <= VDFS2_SNAPSHOT_EXT_TABLES)%nat -> 0 <= mount < 2 ^ 32 -> 0 <= sync ->
  sync + Z.of_nat (length es) < 2 ^ 32 - 1 -> chain t sector mount sync es load t' sector' ->
  ((length es < VDFS2_SNAPSHOT_EXT_TABLES)%nat -> exists e v, load sector' = (0, e, v) /\
     (VDFS2_MOUNT_COUNT v <> mount \/ VDFS2_SYNC_COUNT v <> sync + Z.of_nat (length es) + 1)) ->
  apply_extended_tables load VDFS2_SNAPSHOT_EXT_TABLES t (VDFS2_SNAPSHOT_VERSION mount sync) sector 0
    = Ret (0, t', sector', Z.of_nat (length es)).
Proof. intros. rewrite (apply_extended_tables_ok load es _ t sector mount sync 0 t' sector'); done. Qed.

Definition ext_table_ex : vdfs2_extended_table := ExtTable 1 6 37 [ExtRecord 2 0 7].
Definition load_ex (sector : Z) : Z * vdfs2_extended_table * Z :=
  if sector =? 1 then (0, ext_table_ex, VDFS2_SNAPSHOT_VERSION 1 6) else (0, ExtTable 0 0 0 [], 0).

Lemma extended_chain_loaded_witness :
  exists t', apply_extended_tables load_ex VDFS2_SNAPSHOT_EXT_TABLES table_ex (VDFS2_SNAPSHOT_VERSION 1 5) 1 0
    = Ret (0, t', 2, 1) /\ table_words t' = [7; 1; 2; 3; 4; 5; 6; 0; 0; 0].
Proof.
  eexists. split; [|exact (eq_refl : table_words (set_counts (set_words table_ex [7; 1; 2; 3; 4; 5; 6; 0; 0; 0]) 1 6) = _)].
  apply (extended_chain_loaded load_ex [ext_table_ex] table_ex 1 1 5);
    [simpl; unfold VDFS2_SNAPSHOT_EXT_TABLES; lia | lia | lia | simpl; lia | | ].
  - split; [done|]. split; [done|]. split; [done|]. eexists. split; [by vm_compute|]. by split.
  - intros _. exists (ExtTable 0 0 0 []), 0. split; [done|]. by left.
Defined.

(** ** Areas *)

(** C18: [get_sector] and [get_meta_block] read an area as the concatenation of its
    extents: a position inside the area is translated to the unit of the device
    that stands there, together with the number of units that follow without a
    gap, and a position behind the area is refused. *)
Theorem area_translation extents shift isector :
  0 <= shift -> extents_small extents shift -> 0 <= isector ->
  match get_sector_loop extents isector 0 shift with
  | Some (r, n) => 0 < n /\ isector + n <= Z.of_nat (length (area_units extents shift)) /\
      forall j, 0 <= j < n -> area_units extents shift !! Z.to_nat (isector + j) = Some (r + j)
  | None => Z.of_nat (length (area_units extents shift)) <= isector
  end.
Proof.
  intros Hs Hsm Hi. pose proof (get_sector_loop_ok extents shift isector 0 Hs Hsm Hi) as H. rewrite Z.sub_0_r in H. exact H.
Qed.

Lemma area_translation_witness :
  match get_sector_loop [Extent 10 2; Extent 40 3] 17 0 3 with
  | Some (r, n) => 0 < n /\ 17 + n <= Z.of_nat (length (area_units [Extent 10 2; Extent 40 3] 3)) /\
      forall j, 0 <= j < n -> area_units [Extent 10 2; Extent 40 3] 3 !! Z.to_nat (17 + j) = Some (r + j)
  | None => Z.of_nat (length (area_units [Extent 10 2; Extent 40 3] 3)) <= 17
  end.
Proof. apply (area_translation [Extent 10 2; Extent 40 3] 3 17); [lia | repeat constructor; by vm_compute | lia]. Defined.


