(* ===== verification/Bytes.v ===== *)
(** * Raw memory: reading and writing parts of a buffer *)
From Stdlib Require Import ZArith Lia.
From stdpp Require Import base numbers list.
From S2P Require Import Prelude Bits.

(** Accesses outside the buffer are invalid. *)
Definition in_buffer (data : list Z) (off len : Z) : bool :=
  bool_decide (0 <= off /\ 0 <= len /\ off + len <= Z.of_nat (length data)).

Definition mem_read (data : list Z) (off len : Z) : outcome (list Z) :=
  if in_buffer data off len then Ret (bytes_at data off len) else Bug.

Definition mem_write (data : list Z) (off : Z) (bs : list Z) : outcome (list Z) :=
  if in_buffer data off (Z.of_nat (length bs)) then Ret (put_bytes data off bs) else Bug.

Definition memmove (data : list Z) (dst src len : Z) : outcome (list Z) :=
  bs ← mem_read data src len; mem_write data dst bs.

(** Little-endian words. *)
Definition le32_to_cpu (bs : list Z) : Z :=
  (bs !!! 0%nat) + 256 * (bs !!! 1%nat) + 65536 * (bs !!! 2%nat) + 16777216 * (bs !!! 3%nat).

Definition le32_at (data : list Z) (off : Z) : Z := le32_to_cpu (bytes_at data off 4).

(** ** Facts *)

Lemma in_buffer_true data off len : 0 <= off -> 0 <= len -> off + len <= Z.of_nat (length data) -> in_buffer data off len = true.
Proof. intros. unfold in_buffer. by rewrite bool_decide_true by lia. Qed.

Lemma length_put_bytes data off bs : length (put_bytes data off bs) = length data.
Proof. apply length_inserts. Qed.

Lemma length_bytes_at data off len :
  0 <= off -> 0 <= len -> off + len <= Z.of_nat (length data) -> length (bytes_at data off len) = Z.to_nat len.
Proof. intros. unfold bytes_at. rewrite length_take, length_drop. lia. Qed.

Lemma lookup_bytes_at data off len i :
  0 <= off -> (i < Z.to_nat len)%nat -> bytes_at data off len !! i = data !! (Z.to_nat off + i)%nat.
Proof. intros. unfold bytes_at. by rewrite lookup_take_lt, lookup_drop by lia. Qed.

Lemma bytes_at_eq d1 d2 o1 o2 len :
  0 <= o1 -> 0 <= o2 -> 0 <= len ->
  (forall i, 0 <= i < len -> d1 !! Z.to_nat (o1 + i) = d2 !! Z.to_nat (o2 + i)) ->
  bytes_at d1 o1 len = bytes_at d2 o2 len.
Proof.
  intros H1 H2 Hl Heq. apply list_eq. intros i. destruct (decide (i < Z.to_nat len)%nat).
  - rewrite !lookup_bytes_at by done. specialize (Heq (Z.of_nat i)).
    replace (Z.to_nat o1 + i)%nat with (Z.to_nat (o1 + Z.of_nat i)) by lia.
    replace (Z.to_nat o2 + i)%nat with (Z.to_nat (o2 + Z.of_nat i)) by lia. apply Heq. lia.
  - unfold bytes_at. by rewrite !lookup_take_ge by lia.
Qed.

Lemma lookup_put_inside data off bs j :
  0 <= off -> off + Z.of_nat (length bs) <= Z.of_nat (length data) -> off <= j < off + Z.of_nat (length bs) ->
  put_bytes data off bs !! Z.to_nat j = bs !! Z.to_nat (j - off).
Proof. intros. unfold put_bytes. rewrite list_lookup_inserts by lia. f_equal. lia. Qed.

Lemma lookup_put_outside data off bs j :
  0 <= off -> 0 <= j -> j < off \/ off + Z.of_nat (length bs) <= j ->
  put_bytes data off bs !! Z.to_nat j = data !! Z.to_nat j.
Proof.
  intros Ho Hj [H|H]; unfold put_bytes; [apply list_lookup_inserts_lt; lia|apply list_lookup_inserts_ge; lia].
Qed.

Lemma bytes_at_put_other data off bs o n :
  0 <= off -> 0 <= o -> 0 <= n -> o + n <= off \/ off + Z.of_nat (length bs) <= o ->
  bytes_at (put_bytes data off bs) o n = bytes_at data o n.
Proof. intros. apply bytes_at_eq; [done..|]. intros i Hi. apply lookup_put_outside; lia. Qed.

Lemma bytes_at_put_inside data off bs o n :
  0 <= off -> off + Z.of_nat (length bs) <= Z.of_nat (length data) -> 0 <= n -> off <= o -> o + n <= off + Z.of_nat (length bs) ->
  bytes_at (put_bytes data off bs) o n = bytes_at bs (o - off) n.
Proof.
  intros. apply bytes_at_eq; [lia..|]. intros i Hi. rewrite lookup_put_inside by lia. f_equal. lia.
Qed.

Lemma bytes_at_nested data s m k n :
  0 <= s -> 0 <= k -> 0 <= n -> k + n <= m -> bytes_at (bytes_at data s m) k n = bytes_at data (s + k) n.
Proof.
  intros. apply bytes_at_eq; [lia..|]. intros i Hi. rewrite lookup_bytes_at by lia. f_equal. lia.
Qed.

Lemma bytes_at_full bs : bytes_at bs 0 (Z.of_nat (length bs)) = bs.
Proof. unfold bytes_at. change (drop (Z.to_nat 0) bs) with bs. by rewrite Nat2Z.id, firstn_all. Qed.

Lemma mem_write_ok data off bs :
  0 <= off -> off + Z.of_nat (length bs) <= Z.of_nat (length data) -> mem_write data off bs = Ret (put_bytes data off bs).
Proof. intros. unfold mem_write. by rewrite in_buffer_true by lia. Qed.

Lemma mem_read_ok data off len :
  0 <= off -> 0 <= len -> off + len <= Z.of_nat (length data) -> mem_read data off len = Ret (bytes_at data off len).
Proof. intros. unfold mem_read. by rewrite in_buffer_true by lia. Qed.

(** [memmove] copies as if through a second buffer. *)
Lemma memmove_ok data dst src len :
  0 <= src -> 0 <= dst -> 0 <= len -> src + len <= Z.of_nat (length data) -> dst + len <= Z.of_nat (length data) ->
  exists data', memmove data dst src len = Ret data' /\ length data' = length data /\
    (forall o n, 0 <= n -> dst <= o -> o + n <= dst + len -> bytes_at data' o n = bytes_at data (o - dst + src) n) /\
    (forall o n, 0 <= n -> 0 <= o -> o + n <= dst \/ dst + len <= o -> bytes_at data' o n = bytes_at data o n).
Proof.
  intros. unfold memmove. rewrite mem_read_ok by lia. cbn [mbind outcome_bind].
  pose proof (length_bytes_at data src len) as Hl. rewrite mem_write_ok by (rewrite ?Hl; lia).
  eexists. split; [done|]. split; [apply length_put_bytes|]. split.
  - intros o n ? ? ?. rewrite bytes_at_put_inside by (rewrite ?Hl; lia). rewrite bytes_at_nested by lia. f_equal. lia.
  - intros o n ? ? ?. apply bytes_at_put_other; [lia..|]. rewrite Hl; lia.
Qed.

Lemma length_le32_bytes x : length (le32_bytes x) = 4%nat.
Proof. done. Qed.

Lemma land_255 x : Z.land x 255 = x mod 256.
Proof. change 255 with (Z.ones 8). by rewrite Z.land_ones by lia. Qed.

Lemma le32_round x : 0 <= x < 2 ^ 32 -> le32_to_cpu (le32_bytes x) = x.
Proof.
  intros Hx. unfold le32_to_cpu, le32_bytes. cbn [lookup_total list_lookup_total].
  rewrite !land_255, !Z.shiftr_div_pow2 by lia.
  change (2 ^ 8) with 256. change (2 ^ 16) with 65536. change (2 ^ 24) with 16777216. change (2 ^ 32) with 4294967296 in Hx.
  lia.
Qed.

Lemma le32_at_put data off x :
  0 <= off -> off + 4 <= Z.of_nat (length data) -> 0 <= x < 2 ^ 32 -> le32_at (put_bytes data off (le32_bytes x)) off = x.
Proof.
  intros. unfold le32_at. rewrite bytes_at_put_inside by (rewrite ?length_le32_bytes; lia).
  rewrite Z.sub_diag. change 4 with (Z.of_nat (length (le32_bytes x))). rewrite bytes_at_full. by apply le32_round.
Qed.

Lemma le32_at_put_other data off bs o :
  0 <= off -> 0 <= o -> o + 4 <= off \/ off + Z.of_nat (length bs) <= o -> le32_at (put_bytes data off bs) o = le32_at data o.
Proof. intros. unfold le32_at. by rewrite bytes_at_put_other. Qed.

(** A part of a part that was written before. *)
Lemma bytes_at_put_put data off bs k w :
  0 <= off -> off + Z.of_nat (length bs) <= Z.of_nat (length data) -> 0 <= k -> k + Z.of_nat (length w) <= Z.of_nat (length bs) ->
  bytes_at (put_bytes (put_bytes data off bs) (off + k) w) off (Z.of_nat (length bs)) = put_bytes bs k w.
Proof.
  intros. apply list_eq. intros i. destruct (decide (i < length bs)%nat) as [Hi|Hi].
  - rewrite lookup_bytes_at by lia. replace (Z.to_nat off + i)%nat with (Z.to_nat (off + Z.of_nat i)) by lia.
    destruct (decide (k <= Z.of_nat i < k + Z.of_nat (length w))).
    + rewrite lookup_put_inside by (rewrite ?length_put_bytes; lia).
      replace i with (Z.to_nat (Z.of_nat i)) at 2 by lia. rewrite lookup_put_inside by lia. f_equal. lia.
    + rewrite lookup_put_outside, lookup_put_inside by lia.
      replace i with (Z.to_nat (Z.of_nat i)) at 2 by lia. rewrite lookup_put_outside by lia. f_equal. lia.
  - unfold bytes_at. rewrite lookup_take_ge by lia. symmetry. apply lookup_ge_None_2. rewrite length_put_bytes. lia.
Qed.

(** ** Bytes in range *)

Definition is_byte (b : Z) : Prop := 0 <= b < 256.

Lemma bytes_le32 x : Forall is_byte (le32_bytes x).
Proof. unfold le32_bytes, is_byte. rewrite !land_255. repeat constructor; lia. Qed.

Lemma bytes_bytes_at d o n : Forall is_byte d -> Forall is_byte (bytes_at d o n).
Proof. intros. unfold bytes_at. by apply Forall_take, Forall_drop. Qed.

Lemma bytes_put d o bs : Forall is_byte d -> Forall is_byte bs -> Forall is_byte (put_bytes d o bs).
Proof.
  intros Hd Hb. apply Forall_lookup. intros i x Hx. unfold put_bytes in Hx.
  apply list_lookup_inserts_Some in Hx as [[_ Hx]|(_ & _ & Hx)]; by eapply Forall_lookup_1; [|exact Hx].
Qed.

Lemma le32_encode a b c e : is_byte a -> is_byte b -> is_byte c -> is_byte e -> le32_bytes (le32_to_cpu [a; b; c; e]) = [a; b; c; e].
Proof.
  unfold is_byte, le32_to_cpu, le32_bytes. cbn [lookup_total list_lookup_total]. intros.
  rewrite !land_255, !Z.shiftr_div_pow2 by lia. change (2 ^ 8) with 256. change (2 ^ 16) with 65536. change (2 ^ 24) with 16777216.
  repeat f_equal; lia.
Qed.

(** Writing back the word that is there changes nothing. *)
Lemma put_le32_same d o : Forall is_byte d -> 0 <= o -> o + 4 <= Z.of_nat (length d) -> put_bytes d o (le32_bytes (le32_at d o)) = d.
Proof.
  intros Hd Ho Hl. unfold le32_at. pose proof (length_bytes_at d o 4 Ho ltac:(lia) Hl) as Hlen.
  pose proof (bytes_bytes_at d o 4 Hd) as Hb. destruct (bytes_at d o 4) as [|a [|b [|c [|e [|? ?]]]]] eqn:Heq; try done.
  repeat (apply Forall_cons in Hb as [? Hb]). rewrite le32_encode, <-Heq by done.
  apply list_eq. intros i. destruct (decide (o <= Z.of_nat i < o + 4)).
  - replace i with (Z.to_nat (Z.of_nat i)) at 1 by lia.
    rewrite lookup_put_inside by (rewrite ?length_bytes_at by lia; lia). rewrite lookup_bytes_at by lia. f_equal. lia.
  - replace i with (Z.to_nat (Z.of_nat i)) at 1 by lia.
    rewrite lookup_put_outside by (rewrite ?length_bytes_at by lia; lia). f_equal. lia.
Qed.

Lemma memmove_bytes d dst src len d' : memmove d dst src len = Ret d' -> Forall is_byte d -> Forall is_byte d'.
Proof.
  unfold memmove, mem_read, mem_write. destruct (in_buffer d src len); [|done]. cbn [mbind outcome_bind].
  destruct (in_buffer _ _ _); [|done]. intros [= <-] Hd. apply bytes_put; [done|by apply bytes_bytes_at].
Qed.
