(* ===== verification/BtreeNode.v ===== *)
(** * Nodes of the metadata trees ([btree.c]): records inside a bnode

    A bnode is a buffer of [node_size] bytes: the descriptor, the records one after
    the other, free space, and at the end the table of the offsets of the
    records, which grows downwards; the entry behind the last one holds the
    offset of the free space. *)
From Stdlib Require Import ZArith Lia.
From stdpp Require Import base numbers list.
From S2P Require Import Prelude Bits Bytes.

(** The descriptor.  Its bytes are the first [DSCR_SIZE] of the buffer; here they
    are the fields, and an access to these bytes through an offset is [Bug]. *)
Record vdfs2_gen_node_descr := NodeDescr {
  free_space : Z;      (* __le16 *)
  recs_count : Z;      (* __le16 *)
  node_id : Z;
  prev_node_id : Z;
  next_node_id : Z;
  node_type : Z;
}.

Record vdfs2_bnode := Bnode { dscr : vdfs2_gen_node_descr; data : list Z }.

Definition VDFS2_NODE_INDEX : Z := 1.
Definition VDFS2_NODE_LEAF : Z := 2.
Definition VDFS2_INVALID_NODE_ID : Z := 0.
Definition VDFS2_BNODE_FIRST_OFFSET : Z := 4.
Definition VDFS2_BT_INVALID_OFFSET : Z := 4294967295.

(** sizeof(struct vdfs2_gen_node_descr), sizeof(vdfs2_bt_off_t). *)
Definition DSCR_SIZE : Z := 29.
Definition OFF_SIZE : Z := 4.

(** sizeof(struct vdfs2_generic_key): magic, [key_len] at 4, [record_len] at 8. *)
Definition GENERIC_KEY_SIZE : Z := 12.
Definition VDFS2_KEY_LEN (key : list Z) : Z := le32_at key 4.
Definition VDFS2_RECORD_LEN (key : list Z) : Z := le32_at key 8.

(** VDFS2_MAX_BTREE_REC_LEN is a constant of the layout of the catalog records. *)

(** A pointer or an error code ([ERR_PTR]). *)
Inductive err_ptr (A : Type) : Type :=
  | PTR (a : A)
  | ERR_PTR (err : Z).
Arguments PTR {A} a.
Arguments ERR_PTR {A} err.

Definition set_data (n : vdfs2_bnode) d := Bnode (dscr n) d.
Definition set_counters (n : vdfs2_bnode) free count :=
  Bnode (NodeDescr free count (node_id (dscr n)) (prev_node_id (dscr n)) (next_node_id (dscr n)) (node_type (dscr n))) (data n).
Definition set_links (n : vdfs2_bnode) prev next :=
  Bnode (NodeDescr (free_space (dscr n)) (recs_count (dscr n)) (node_id (dscr n)) prev next (node_type (dscr n))) (data n).

Definition node_read (n : vdfs2_bnode) (off len : Z) : outcome (list Z) :=
  if off <? DSCR_SIZE then Bug else mem_read (data n) off len.
Definition node_write (n : vdfs2_bnode) (off : Z) (bs : list Z) : outcome vdfs2_bnode :=
  if off <? DSCR_SIZE then Bug else d ← mem_write (data n) off bs; Ret (set_data n d).
Definition node_memmove (n : vdfs2_bnode) (dst src len : Z) : outcome vdfs2_bnode :=
  if (dst <? DSCR_SIZE) || (src <? DSCR_SIZE) then Bug else d ← memmove (data n) dst src len; Ret (set_data n d).
Definition node_read32 (n : vdfs2_bnode) (off : Z) : outcome Z := bs ← node_read n off 4; Ret (le32_to_cpu bs).

(** The record at an offset. *)
Definition node_record (n : vdfs2_bnode) (off : Z) : outcome (list Z) :=
  len ← node_read32 n (off + 8); node_read n off len.

Section node.
Context (node_size : Z) (mount_finished : bool) (max_rec_len : Z).

(** What the code does where it finds a node broken. *)
Definition broken {A} (a : A) : outcome A := if mount_finished then Bug else Ret a.

Definition vdfs2_get_offset_addr (index : Z) : outcome (err_ptr Z) :=
  let ret := node_size - VDFS2_BNODE_FIRST_OFFSET - OFF_SIZE * (index + 1) in
  if node_size <=? u32 ret then broken (ERR_PTR (- EFAULT)) else Ret (PTR ret).

Definition vdfs2_get_offset (n : vdfs2_bnode) (index : Z) : outcome Z :=
  p ← vdfs2_get_offset_addr index;
  match p with
  | ERR_PTR _ => Ret VDFS2_BT_INVALID_OFFSET
  | PTR a => node_read32 n a
  end.

Definition is_offset_correct (offset : Z) : bool := negb (offset =? 0) && negb (node_size <=? offset).

Fixpoint check_offsets (n : vdfs2_bnode) (k : nat) (i : Z) : outcome Z :=
  match k with
  | O => Ret 0
  | S k => offset ← vdfs2_get_offset n i; if negb (is_offset_correct offset) then Ret (-1) else check_offsets n k (i + 1)
  end.

Definition check_bnode_offset_area (n : vdfs2_bnode) : outcome Z := check_offsets n (Z.to_nat (recs_count (dscr n))) 0.

Definition get_record (n : vdfs2_bnode) (index : Z) : outcome (err_ptr Z) :=
  if recs_count (dscr n) <? u32 index then Ret (ERR_PTR (- EINVAL))
  else
    offset ← vdfs2_get_offset n index;
    if negb (is_offset_correct offset) then Ret (ERR_PTR (- EINVAL)) else Ret (PTR offset).

Definition check_set_offset (n : vdfs2_bnode) (index new_val : Z) : outcome (Z * vdfs2_bnode) :=
  p ← vdfs2_get_offset_addr index;
  match p with
  | ERR_PTR _ => broken (- EFAULT, n)
  | PTR a =>
      if negb (is_offset_correct new_val) then broken (- EFAULT, n)
      else n ← node_write n a (le32_bytes new_val); Ret (0, n)
  end.

(** Compares the length the key has, not the one it will be stored with. *)
Definition is_node_full (n : vdfs2_bnode) (gen_key : list Z) : bool :=
  free_space (dscr n) <? VDFS2_RECORD_LEN gen_key + OFF_SIZE.

Definition init_new_node_descr (n : vdfs2_bnode) (type : Z) : outcome vdfs2_bnode :=
  let d := NodeDescr (u16 (node_size - DSCR_SIZE - OFF_SIZE - VDFS2_BNODE_FIRST_OFFSET)) 0 (node_id (dscr n))
             VDFS2_INVALID_NODE_ID VDFS2_INVALID_NODE_ID type in
  '(err, n) ← check_set_offset (Bnode d (data n)) 0 DSCR_SIZE;
  _ ← BUG_ON (negb (err =? 0));
  Ret n.

(** Room for a new offset at [insert_pos]: the offsets behind it move down. *)
Definition move_offsets (n : vdfs2_bnode) (addr recs_count insert_pos : Z) : outcome vdfs2_bnode :=
  let moving_offsets_num := recs_count - insert_pos in
  if 0 <? moving_offsets_num then node_memmove n addr (addr + OFF_SIZE) (moving_offsets_num * OFF_SIZE) else Ret n.

Definition insert_into_node (n : vdfs2_bnode) (new_record : list Z) (insert_pos : Z) : outcome (Z * vdfs2_bnode) :=
  let record_len := VDFS2_RECORD_LEN new_record in
  _ ← BUG_ON (free_space (dscr n) <? record_len);
  p ← vdfs2_get_offset_addr (recs_count (dscr n));
  match p with
  | ERR_PTR e => Ret (e, n)
  | PTR addr =>
      offset ← node_read32 n addr;
      if negb (is_offset_correct offset) then Ret (- EFAULT, n)
      else
        bs ← mem_read new_record 0 record_len;
        n ← node_write n offset bs;
        n ← move_offsets n addr (recs_count (dscr n)) insert_pos;
        '(err, n) ← check_set_offset n insert_pos offset;
        if negb (err =? 0) then Ret (err, n)
        else
          _ ← BUG_ON (free_space (dscr n) <? OFF_SIZE);
          let n := set_counters n (u16 (free_space (dscr n) - (record_len + OFF_SIZE))) (u16 (recs_count (dscr n) + 1)) in
          check_set_offset n (recs_count (dscr n)) (offset + record_len)
  end.

Definition __place_into_node (n : vdfs2_bnode) (new_key : list Z) (new_rec_len insert_pos : Z) (place_only_key : bool)
    : outcome (err_ptr Z * vdfs2_bnode) :=
  let data_len := if place_only_key then VDFS2_KEY_LEN new_key else u16 new_rec_len in
  let count := recs_count (dscr n) in
  _ ← BUG_ON (free_space (dscr n) <? new_rec_len + OFF_SIZE);
  p ← vdfs2_get_offset_addr count;
  match p with
  | ERR_PTR e => Ret (ERR_PTR e, n)
  | PTR addr =>
      offset ← node_read32 n addr;
      if negb (is_offset_correct offset) then Ret (ERR_PTR (- EFAULT), n)
      else
        bs ← mem_read new_key 0 data_len;
        n ← node_write n offset bs;
        n ← node_write n (offset + 8) (le32_bytes new_rec_len);
        n ← move_offsets n addr count insert_pos;
        '(err, n) ← check_set_offset n insert_pos offset;
        if negb (err =? 0) then Ret (ERR_PTR err, n)
        else
          let n := set_counters n (u16 (free_space (dscr n) - (new_rec_len + OFF_SIZE))) (u16 (count + 1)) in
          '(err, n) ← check_set_offset n (u16 (count + 1)) (offset + new_rec_len);
          if negb (err =? 0) then Ret (ERR_PTR err, n) else Ret (PTR offset, n)
  end.

Definition append_bnode (n : vdfs2_bnode) (append_record : list Z) : outcome (Z * vdfs2_bnode) :=
  '(p, n) ← __place_into_node n append_record (VDFS2_RECORD_LEN append_record) (recs_count (dscr n)) false;
  Ret (match p with PTR _ => 0 | ERR_PTR e => e end, n).

(** The result record is at [insert_pos] of the node. *)
Definition insert_key_into_bnode (n : vdfs2_bnode) (new_key : list Z) (new_rec_len insert_pos : Z) : outcome (Z * vdfs2_bnode) :=
  '(p, n) ← __place_into_node n new_key new_rec_len insert_pos true;
  Ret (match p with PTR _ => 0 | ERR_PTR e => e end, n).

(** The two loops of [delete_from_node]. *)
Fixpoint lower_offsets (n : vdfs2_bnode) (k : nat) (i del_offset rec_len : Z) : outcome (Z * vdfs2_bnode) :=
  match k with
  | O => Ret (0, n)
  | S k =>
      cur_offs ← vdfs2_get_offset n i;
      if del_offset <? cur_offs then
        '(err, n) ← check_set_offset n i (cur_offs - rec_len);
        if negb (err =? 0) then Ret (err, n) else lower_offsets n k (i + 1) del_offset rec_len
      else lower_offsets n k (i + 1) del_offset rec_len
  end.

Fixpoint close_gap (n : vdfs2_bnode) (k : nat) (i : Z) : outcome (Z * vdfs2_bnode) :=
  match k with
  | O => Ret (0, n)
  | S k =>
      next_offset ← vdfs2_get_offset n (i + 1);
      '(err, n) ← check_set_offset n i next_offset;
      if negb (err =? 0) then Ret (err, n) else close_gap n k (i + 1)
  end.

Definition delete_from_node (n : vdfs2_bnode) (del_index : Z) : outcome (Z * vdfs2_bnode) :=
  p ← get_record n del_index;
  match p with
  | ERR_PTR _ => broken (- EFAULT, n)
  | PTR del_key =>
      rec_len ← node_read32 n (del_key + 8);
      let count := recs_count (dscr n) in
      free_space_offset ← vdfs2_get_offset n count;
      del_offset ← vdfs2_get_offset n del_index;
      if negb (is_offset_correct free_space_offset) || negb (is_offset_correct del_offset) then broken (- EFAULT, n)
      else if max_rec_len <? rec_len then broken (- EFAULT, n)
      else
        n ← node_memmove n del_key (del_key + rec_len) (free_space_offset - del_offset - rec_len);
        '(err, n) ← lower_offsets n (Z.to_nat count) 0 del_offset rec_len;
        if negb (err =? 0) then Ret (err, n)
        else
          '(err, n) ← close_gap n (Z.to_nat (count - del_index)) del_index;
          if negb (err =? 0) then Ret (err, n)
          else
            let n := set_counters n (u16 (free_space (dscr n) + (rec_len + OFF_SIZE))) (u16 (count - 1)) in
            check_set_offset n (u16 (count - 1)) (free_space_offset - rec_len)
  end.

(** [comp_fn record key]: negative, zero or positive. *)
Section search.
Context (comp_fn : list Z -> list Z -> Z).

Fixpoint search_loop (fuel : nat) (n : vdfs2_bnode) (key : list Z) (first first_record last : Z) : outcome (err_ptr Z * Z) :=
  if first <? last - 1 then
    match fuel with
    | O => Bug
    | S fuel =>
        let mid := first + Z.shiftr (last + 1 - first) 1 in
        p ← get_record n mid;
        match p with
        | ERR_PTR e => Ret (ERR_PTR e, -1)
        | PTR record =>
            r ← node_record n record;
            let cmp_res := comp_fn r key in
            if cmp_res =? 0 then Ret (PTR record, mid)
            else if cmp_res <? 0 then search_loop fuel n key mid record last
            else search_loop fuel n key first first_record mid
        end
    end
  else Ret (PTR first_record, first).

(** The result: the record and [*pos]. *)
Definition binary_search (n : vdfs2_bnode) (key : list Z) : outcome (err_ptr Z * Z) :=
  let last := recs_count (dscr n) - 1 in
  p ← get_record n 0;
  match p with
  | ERR_PTR e => Ret (ERR_PTR e, -1)
  | PTR first_record =>
      r ← node_record n first_record;
      let cmp_res := comp_fn r key in
      if 0 <? cmp_res then Ret (ERR_PTR (- ENOENT), -1)
      else if (cmp_res =? 0) || (last =? 0) then Ret (PTR first_record, 0)
      else
        p ← get_record n last;
        match p with
        | ERR_PTR e => Ret (ERR_PTR e, -1)
        | PTR record =>
            r ← node_record n record;
            if comp_fn r key <=? 0 then Ret (PTR record, last)
            else search_loop (Z.to_nat last) n key 0 first_record last
        end
  end.
End search.

(** ** Splitting and merging *)

Inductive node_side := LEFT_BNODE | RIGHT_BNODE.

(** The loop of [split_bnode].  [res] is where the new record went. *)
Fixpoint split_loop (fuel : nat) (orig left_bnode right_bnode : vdfs2_bnode) (new_key : list Z) (new_rec_len insert_pos : Z)
    (i : Z) (inserted : bool) (used_space : Z) (part_to_insert : bool) (res : option (node_side * Z))
    : outcome (Z * vdfs2_bnode * vdfs2_bnode * option (node_side * Z)) :=
  if (i <? recs_count (dscr orig)) || negb inserted then
    match fuel with
    | O => Bug
    | S fuel =>
        let new_rec_select := (i =? insert_pos) && negb inserted in
        p ← (if new_rec_select then Ret (PTR new_key)
             else
               p ← get_record orig i;
               match p with ERR_PTR e => Ret (ERR_PTR e) | PTR off => r ← node_record orig off; Ret (PTR r) end);
        match p with
        | ERR_PTR e => Ret (e, left_bnode, right_bnode, res)
        | PTR key =>
            let used_space := u32 (used_space + (VDFS2_RECORD_LEN key + OFF_SIZE)) in
            let ins_bnode := if part_to_insert then right_bnode else left_bnode in
            let pos := recs_count (dscr ins_bnode) in
            '(err, ins_bnode) ← (if new_rec_select then insert_key_into_bnode ins_bnode key new_rec_len pos
                                 else append_bnode ins_bnode key);
            let left_bnode := if part_to_insert then left_bnode else ins_bnode in
            let right_bnode := if part_to_insert then ins_bnode else right_bnode in
            let res := if new_rec_select then Some (if part_to_insert then RIGHT_BNODE else LEFT_BNODE, pos) else res in
            if negb (err =? 0) then Ret (err, left_bnode, right_bnode, res)
            else
              split_loop fuel orig left_bnode right_bnode new_key new_rec_len insert_pos
                (if new_rec_select then i else i + 1) (inserted || new_rec_select) used_space
                (part_to_insert || (Z.quot node_size 2 <? used_space)) res
        end
    end
  else Ret (0, left_bnode, right_bnode, res).

(** [next] is what [__vdfs2_get_bnode] returns for the old right neighbour, and
    the last component of the result that node after the call. *)
Definition split_bnode (left_bnode right_bnode : vdfs2_bnode) (next : err_ptr vdfs2_bnode) (new_key : list Z)
    (new_rec_len insert_pos : Z)
    : outcome (Z * vdfs2_bnode * vdfs2_bnode * option (node_side * Z) * err_ptr vdfs2_bnode) :=
  let type := node_type (dscr left_bnode) in
  let orig := left_bnode in
  right_bnode ← init_new_node_descr right_bnode type;
  left_bnode ← init_new_node_descr left_bnode type;
  let used_space := u32 (node_size - free_space (dscr left_bnode)) in
  _ ← BUG_ON (recs_count (dscr orig) =? 0);
  '(err, left_bnode, right_bnode, res) ←
    split_loop (S (Z.to_nat (recs_count (dscr orig)))) orig left_bnode right_bnode new_key new_rec_len insert_pos
      0 false used_space false None;
  if negb (err =? 0) then Ret (err, orig, right_bnode, res, next)
  else
    let orig_next := next_node_id (dscr orig) in
    let left_bnode := set_links left_bnode (prev_node_id (dscr orig)) (node_id (dscr right_bnode)) in
    let right_bnode := set_links right_bnode (node_id (dscr left_bnode)) orig_next in
    if orig_next =? VDFS2_INVALID_NODE_ID then Ret (0, left_bnode, right_bnode, res, next)
    else
      match next with
      | ERR_PTR _ => Ret (err, orig, right_bnode, res, next)
      | PTR next_right_bnode =>
          Ret (0, left_bnode, right_bnode, res,
               PTR (set_links next_right_bnode (node_id (dscr right_bnode)) (next_node_id (dscr next_right_bnode))))
      end.

(** The offsets of the right node behind those of the left one; the last is the
    offset of the free space. *)
Fixpoint append_offsets (left_bnode right_bnode : vdfs2_bnode) (k : nat) (i left_count start_offset : Z) : outcome (Z * vdfs2_bnode) :=
  match k with
  | O => Ret (0, left_bnode)
  | S k =>
      offset ← vdfs2_get_offset right_bnode i;
      '(err, left_bnode) ← check_set_offset left_bnode (i + left_count) (u32 (start_offset + offset - DSCR_SIZE));
      if negb (err =? 0) then broken (- EFAULT, left_bnode)
      else append_offsets left_bnode right_bnode k (i + 1) left_count start_offset
  end.

(** [btree_merge] from the check of the nodes to the link of the left one. *)
Definition merge_nodes (left_bnode right_bnode : vdfs2_bnode) : outcome (Z * vdfs2_bnode) :=
  cl ← check_bnode_offset_area left_bnode;
  cr ← check_bnode_offset_area right_bnode;
  if negb (cl =? 0) || negb (cr =? 0) then broken (- EFAULT, left_bnode)
  else
    let left_count := recs_count (dscr left_bnode) in
    let right_count := recs_count (dscr right_bnode) in
    p ← vdfs2_get_offset_addr left_count;
    match p with
    | ERR_PTR e => Ret (e, left_bnode)
    | PTR addr =>
        left_free_space ← node_read32 left_bnode addr;
        right_end ← vdfs2_get_offset right_bnode right_count;
        bs ← mem_read (data right_bnode) DSCR_SIZE (right_end - DSCR_SIZE);
        left_bnode ← node_write left_bnode left_free_space bs;
        start_offset ← vdfs2_get_offset left_bnode left_count;
        '(err, left_bnode) ← append_offsets left_bnode right_bnode (S (Z.to_nat right_count)) 0 left_count start_offset;
        if negb (err =? 0) then Ret (err, left_bnode)
        else
          let left_bnode :=
            set_counters left_bnode
              (u16 (free_space (dscr left_bnode) - ((right_end - DSCR_SIZE) + right_count * OFF_SIZE)))
              (u16 (left_count + right_count)) in
          Ret (0, set_links left_bnode (prev_node_id (dscr left_bnode)) (next_node_id (dscr right_bnode)))
    end.

(** The record for the parent of a node: its first key and its id. *)
Definition form_new_adding_record (new_node : vdfs2_bnode) (max_record_len : Z) : outcome (list Z) :=
  p ← get_record new_node 0;
  match p with
  | ERR_PTR _ => Bug
  | PTR off =>
      new_key ← node_record new_node off;
      _ ← BUG_ON (max_record_len <? VDFS2_RECORD_LEN new_key);
      key ← mem_read new_key 0 (VDFS2_KEY_LEN new_key);
      key ← mem_write key 8 (le32_bytes (u32 (VDFS2_KEY_LEN new_key + 4)));
      Ret (key ++ le32_bytes (node_id (dscr new_node)))
  end.
End node.
