(* ===== verification/BtreeNodeFacts.v ===== *)
(** * Correctness of the operations inside a bnode

    The contents of a node is the list of its records in the order of the offset
    table; each operation on the bytes is an operation on this list. *)
From Stdlib Require Import ZArith Lia.
From stdpp Require Import base numbers list sets.
From S2P Require Import Prelude Bits Bytes BtreeNode.

(** ** The contents of a node *)

(** An entry: the offset of a record and its bytes. *)
Abbreviation entry := (Z * list Z)%type.

Definition entry_len (e : entry) : Z := Z.of_nat (length e.2).

Definition entries_apart (e e' : entry) : Prop := e.1 + entry_len e <= e'.1 \/ e'.1 + entry_len e' <= e.1.

Fixpoint all_apart (es : list entry) : Prop :=
  match es with
  | [] => True
  | e :: es => Forall (entries_apart e) es /\ all_apart es
  end.

Lemma entries_apart_sym e e' : entries_apart e e' -> entries_apart e' e.
Proof. unfold entries_apart. lia. Qed.

Lemma all_apart_app A B : all_apart (A ++ B) <-> all_apart A /\ all_apart B /\ Forall (fun a => Forall (entries_apart a) B) A.
Proof.
  induction A as [|a A IH]; simpl; [naive_solver|]. rewrite Forall_app, IH, Forall_cons. naive_solver.
Qed.

Lemma all_apart_insert A e B : all_apart (A ++ B) -> Forall (entries_apart e) (A ++ B) -> all_apart (A ++ e :: B).
Proof.
  rewrite !all_apart_app, Forall_app. simpl. intros (HA & HB & HAB) [H1 H2]. split; [done|]. split; [done|].
  rewrite !Forall_forall in *. intros a Ha. constructor; [apply entries_apart_sym; auto|auto].
Qed.

Lemma all_apart_delete A e B : all_apart (A ++ e :: B) -> all_apart (A ++ B) /\ Forall (entries_apart e) (A ++ B).
Proof.
  rewrite !all_apart_app, Forall_app. simpl. intros (HA & [He HB] & HAB). rewrite !Forall_forall in *. split.
  - split; [done|]. split; [done|]. intros a Ha. specialize (HAB a Ha). by apply Forall_cons in HAB as [_ HAB].
  - split; [|done]. intros a Ha. specialize (HAB a Ha). apply Forall_cons in HAB as [HAB _]. by apply entries_apart_sym.
Qed.

Lemma all_apart_map f es :
  (forall e e', e ∈ es -> e' ∈ es -> entries_apart e e' -> entries_apart (f e) (f e')) -> all_apart es -> all_apart (map f es).
Proof.
  induction es as [|e es IH]; intros Hf; simpl; [done|]. intros [He Hes]. split.
  - rewrite Forall_forall in He |- *. intros e' (e0 & -> & He0)%list_elem_of_fmap. apply Hf; [set_solver..|auto].
  - apply IH; [|done]. intros. apply Hf; [set_solver..|done].
Qed.

Fixpoint total_len (es : list entry) : Z :=
  match es with
  | [] => 0
  | e :: es => entry_len e + total_len es
  end.

Lemma total_len_app A B : total_len (A ++ B) = total_len A + total_len B.
Proof. induction A as [|a A IH]; simpl; [done|]. rewrite IH. lia. Qed.

Section facts.
Context (N : Z) (mf : bool) (HN : 64 <= N < 65536).

(** The address of the offset [i] of the table. *)
Definition saddr (i : Z) : Z := N - VDFS2_BNODE_FIRST_OFFSET - OFF_SIZE * (i + 1).
Definition slot (d : list Z) (i : Z) : Z := le32_at d (saddr i).

Record entry_ok (d : list Z) (F : Z) (e : entry) : Prop := {
  eo_bytes : bytes_at d e.1 (entry_len e) = e.2;
  eo_low : DSCR_SIZE <= e.1;
  eo_high : e.1 + entry_len e <= F;
  eo_len : VDFS2_RECORD_LEN e.2 = entry_len e;
  eo_min : GENERIC_KEY_SIZE <= entry_len e;
}.

(** A node with free space from [F] and the entries [es]. *)
Record node_ok (n : vdfs2_bnode) (F : Z) (es : list entry) : Prop := {
  no_size : Z.of_nat (length (data n)) = N;
  no_bytes : Forall is_byte (data n);
  no_count : recs_count (dscr n) = Z.of_nat (length es);
  no_slots i e : es !! i = Some e -> slot (data n) (Z.of_nat i) = e.1;
  no_end : slot (data n) (Z.of_nat (length es)) = F;
  no_entries : Forall (entry_ok (data n) F) es;
  no_apart : all_apart es;
  (** the records leave no gap *)
  no_total : F = DSCR_SIZE + total_len es;
  no_free : DSCR_SIZE <= F /\ F <= saddr (Z.of_nat (length es)) /\ free_space (dscr n) = saddr (Z.of_nat (length es)) - F;
}.

(** What the node promises to the tree: its records, and the room for more. *)
Definition records (es : list entry) : list (list Z) := map snd es.

(** ** Slots *)

Lemma node_write_ok n off bs : DSCR_SIZE <= off -> off + Z.of_nat (length bs) <= Z.of_nat (length (data n)) ->
  node_write n off bs = Ret (set_data n (put_bytes (data n) off bs)).
Proof using Type.
  intros Ho Hl. unfold node_write. rewrite (proj2 (Z.ltb_ge _ _)) by lia. unfold DSCR_SIZE in Ho. by rewrite mem_write_ok by lia.
Qed.

Lemma saddr_S i : saddr (i + 1) = saddr i - 4.
Proof using Type. unfold saddr, OFF_SIZE. lia. Qed.

Lemma offset_addr_ok i : 0 <= i -> 0 <= saddr i -> vdfs2_get_offset_addr N mf i = Ret (PTR (saddr i)).
Proof using HN.
  intros Hi Hs. unfold vdfs2_get_offset_addr. fold (saddr i).
  assert (saddr i < N) by (unfold saddr, VDFS2_BNODE_FIRST_OFFSET, OFF_SIZE; lia).
  rewrite u32_small by lia. by rewrite (proj2 (Z.leb_gt _ _)) by lia.
Qed.

Lemma saddr_bound i : 0 <= i -> saddr i + 4 <= N - 4.
Proof using Type. unfold saddr, VDFS2_BNODE_FIRST_OFFSET, OFF_SIZE. lia. Qed.

Lemma read32_ok n off : DSCR_SIZE <= off -> off + 4 <= Z.of_nat (length (data n)) -> node_read32 n off = Ret (le32_at (data n) off).
Proof using Type.
  intros Ho Hl. unfold DSCR_SIZE in Ho. unfold node_read32, node_read. rewrite (proj2 (Z.ltb_ge _ _)) by (unfold DSCR_SIZE; lia).
  by rewrite mem_read_ok by lia.
Qed.

Lemma get_offset_ok n i :
  Z.of_nat (length (data n)) = N -> 0 <= i -> DSCR_SIZE <= saddr i -> vdfs2_get_offset N mf n i = Ret (slot (data n) i).
Proof using HN.
  intros Hl Hi Hs. pose proof (saddr_bound i Hi). unfold DSCR_SIZE in Hs. unfold vdfs2_get_offset. rewrite offset_addr_ok by lia.
  cbn [mbind outcome_bind]. apply read32_ok; unfold DSCR_SIZE; lia.
Qed.

Lemma offset_correct o : DSCR_SIZE <= o < N -> is_offset_correct N o = true.
Proof using Type.
  unfold DSCR_SIZE, is_offset_correct. intros. rewrite (proj2 (Z.eqb_neq _ _)), (proj2 (Z.leb_gt _ _)) by lia. done.
Qed.

Definition put_slot (d : list Z) (i v : Z) : list Z := put_bytes d (saddr i) (le32_bytes v).

Lemma set_offset_ok n i v :
  Z.of_nat (length (data n)) = N -> 0 <= i -> DSCR_SIZE <= saddr i -> DSCR_SIZE <= v < N ->
  check_set_offset N mf n i v = Ret (0, set_data n (put_slot (data n) i v)).
Proof using HN.
  intros Hl Hi Hs Hv. pose proof (saddr_bound i Hi). pose proof (offset_correct v Hv) as Hc. unfold DSCR_SIZE in Hs, Hv.
  unfold check_set_offset. rewrite offset_addr_ok by lia. cbn [mbind outcome_bind]. rewrite Hc. cbn [negb].
  unfold node_write. rewrite (proj2 (Z.ltb_ge _ _)) by (unfold DSCR_SIZE; lia). rewrite mem_write_ok by (rewrite ?length_le32_bytes; lia). done.
Qed.

Lemma length_put_slot d i v : length (put_slot d i v) = length d.
Proof using Type. apply length_put_bytes. Qed.

Lemma slot_put_same d i v :
  Z.of_nat (length d) = N -> 0 <= i -> DSCR_SIZE <= saddr i -> DSCR_SIZE <= v < N -> slot (put_slot d i v) i = v.
Proof using HN. intros Hl Hi Hs Hv. pose proof (saddr_bound i Hi). unfold DSCR_SIZE in *. apply le32_at_put; lia. Qed.

Lemma slot_put_other d i j v : 0 <= saddr i -> 0 <= saddr j -> i <> j -> slot (put_slot d i v) j = slot d j.
Proof using Type.
  intros Hi Hj Hne. apply le32_at_put_other; [lia..|]. rewrite length_le32_bytes. unfold saddr, OFF_SIZE in *. lia.
Qed.

(** Parts of the buffer below the table. *)
Definition same_below (lim : Z) (d d' : list Z) : Prop :=
  forall o n, 0 <= o -> 0 <= n -> o + n <= lim -> bytes_at d' o n = bytes_at d o n.

Lemma same_below_put lim d i v : 0 <= saddr i -> lim <= saddr i -> same_below lim d (put_slot d i v).
Proof using Type. intros Hs Hlim o n Ho Hn Hon. apply bytes_at_put_other; [lia..|]. rewrite length_le32_bytes. lia. Qed.

Lemma same_below_trans lim d1 d2 d3 : same_below lim d1 d2 -> same_below lim d2 d3 -> same_below lim d1 d3.
Proof using Type. intros H1 H2 o n Ho Hn Hon. by rewrite H2, H1. Qed.

(** ** Records *)

Lemma record_ok n F e : entry_ok (data n) F e -> F <= Z.of_nat (length (data n)) -> node_record n e.1 = Ret e.2.
Proof using Type.
  intros [Hb Hlow Hhigh Hlen Hmin] HF. unfold DSCR_SIZE, GENERIC_KEY_SIZE in *. unfold node_record.
  rewrite read32_ok by (unfold DSCR_SIZE; lia). cbn [mbind outcome_bind].
  assert (Hl : le32_at (data n) (e.1 + 8) = entry_len e).
  { rewrite <-Hlen. unfold VDFS2_RECORD_LEN, le32_at. f_equal. rewrite <-Hb. symmetry. apply bytes_at_nested; lia. }
  rewrite Hl. unfold node_read. rewrite (proj2 (Z.ltb_ge _ _)) by (unfold DSCR_SIZE; lia). rewrite mem_read_ok by lia.
  by rewrite Hb.
Qed.

Lemma get_record_ok n F es i e : node_ok n F es -> es !! i = Some e -> get_record N mf n (Z.of_nat i) = Ret (PTR e.1).
Proof using HN.
  intros Hn He. pose proof (lookup_lt_Some _ _ _ He) as Hlt. destruct (no_free _ _ _ Hn) as (HF & HF' & _).
  pose proof (Forall_lookup_1 _ _ _ _ (no_entries _ _ _ Hn) He) as [_ Hlow Hhigh _ Hmin]. unfold DSCR_SIZE, GENERIC_KEY_SIZE in *.
  pose proof (saddr_bound (Z.of_nat (length es)) ltac:(lia)).
  assert (saddr (Z.of_nat (length es)) <= saddr (Z.of_nat i)) by (unfold saddr, OFF_SIZE; lia).
  unfold get_record. rewrite (no_count _ _ _ Hn), u32_small.
  2: { unfold saddr, OFF_SIZE, VDFS2_BNODE_FIRST_OFFSET in *. lia. }
  rewrite (proj2 (Z.ltb_ge _ _)) by lia.
  rewrite get_offset_ok; [|apply (no_size _ _ _ Hn)|lia|unfold DSCR_SIZE; lia]. cbn [mbind outcome_bind].
  rewrite (no_slots _ _ _ Hn i e He), offset_correct by (unfold DSCR_SIZE; lia). done.
Qed.

(** Records survive writes elsewhere. *)
Lemma entry_ok_same d d' F F' e : F <= F' -> same_below F d d' -> entry_ok d F e -> entry_ok d' F' e.
Proof using Type.
  intros HF Hs [Hb Hlow Hhigh Hlen Hmin]. split; try done; [|lia].
  unfold DSCR_SIZE, GENERIC_KEY_SIZE in *. rewrite Hs by lia. done.
Qed.

(** ** Insertion *)

Lemma move_offsets_ok n count pos :
  Z.of_nat (length (data n)) = N -> 0 <= pos <= count -> DSCR_SIZE <= saddr count ->
  exists d, move_offsets n (saddr count) count pos = Ret (set_data n d) /\ length d = length (data n) /\
    (Forall is_byte (data n) -> Forall is_byte d) /\
    same_below (saddr count) (data n) d /\
    (forall j, 0 <= j < pos -> slot d j = slot (data n) j) /\ (forall j, pos <= j < count -> slot d (j + 1) = slot (data n) j).
Proof using HN.
  intros Hl Hp Hs. unfold move_offsets. destruct (Z.ltb_spec 0 (count - pos)) as [Hlt|Hge].
  - unfold DSCR_SIZE in Hs. pose proof (saddr_bound pos ltac:(lia)).
    assert (Hrel : saddr count + OFF_SIZE * (count - pos) = saddr pos) by (unfold saddr; lia). unfold OFF_SIZE in Hrel.
    destruct (memmove_ok (data n) (saddr count) (saddr count + OFF_SIZE) ((count - pos) * OFF_SIZE)) as (d & Hm & Hld & Hin & Hout);
      [unfold OFF_SIZE; lia..|].
    exists d. unfold node_memmove. rewrite !(proj2 (Z.ltb_ge _ DSCR_SIZE)) by (unfold DSCR_SIZE, OFF_SIZE; lia).
    cbn [orb]. rewrite Hm. split; [done|]. split; [done|]. split; [by apply (memmove_bytes _ _ _ _ _ Hm)|].
    unfold OFF_SIZE in Hin, Hout. split; [|split].
    + intros o k Ho Hk Hok. apply Hout; lia.
    + intros j Hj. unfold slot, le32_at. rewrite Hout; [done|lia|unfold saddr, OFF_SIZE in *; lia|right; unfold saddr, OFF_SIZE in *; lia].
    + intros j Hj. unfold slot, le32_at. rewrite Hin; [|lia|unfold saddr, OFF_SIZE in *; lia|unfold saddr, OFF_SIZE in *; lia].
      do 2 f_equal. unfold saddr, OFF_SIZE. lia.
  - assert (pos = count) as -> by lia. exists (data n). split; [by destruct n|]. split; [done|]. split; [done|]. split; [done|]. split; [done|lia].
Qed.

(** The slots after an insertion at [length A], before the end is written. *)
Lemma insert_slots d d' (A B : list entry) F r :
  (forall i e, (A ++ B) !! i = Some e -> slot d (Z.of_nat i) = e.1) ->
  (forall j, 0 <= j < Z.of_nat (length A) -> slot d' j = slot d j) -> slot d' (Z.of_nat (length A)) = F ->
  (forall j, Z.of_nat (length A) <= j < Z.of_nat (length (A ++ B)) -> slot d' (j + 1) = slot d j) ->
  forall i e, (A ++ (F, r) :: B) !! i = Some e -> slot d' (Z.of_nat i) = e.1.
Proof using Type.
  intros Hs Hlow Hat Hhigh i e He. destruct (decide (i < length A)%nat) as [Hlt|Hge].
  - rewrite lookup_app_l in He by done. rewrite Hlow by lia. apply Hs. by rewrite lookup_app_l.
  - rewrite lookup_app_r in He by lia. destruct (decide (i = length A)) as [->|Hne].
    + rewrite Nat.sub_diag in He. injection He as <-. by rewrite Hat.
    + destruct (i - length A)%nat as [|k] eqn:Hk; [lia|]. simpl in He. pose proof (lookup_lt_Some _ _ _ He) as HB.
      replace (Z.of_nat i) with (Z.of_nat (i - 1) + 1) by lia. rewrite Hhigh by (rewrite length_app; lia). apply Hs.
      rewrite lookup_app_r by lia. by replace (i - 1 - length A)%nat with k by lia.
Qed.

(** The node with the record placed and the table and counters updated. *)
Lemma node_ok_insert n d A B F r L f c :
  node_ok n F (A ++ B) -> Z.of_nat (length d) = N -> Forall is_byte d ->
  L = Z.of_nat (length r) -> GENERIC_KEY_SIZE <= L -> VDFS2_RECORD_LEN r = L -> bytes_at d F L = r ->
  same_below F (data n) d ->
  (forall j, 0 <= j < Z.of_nat (length A) -> slot d j = slot (data n) j) -> slot d (Z.of_nat (length A)) = F ->
  (forall j, Z.of_nat (length A) <= j < Z.of_nat (length (A ++ B)) -> slot d (j + 1) = slot (data n) j) ->
  slot d (Z.of_nat (length (A ++ B)) + 1) = F + L -> L + OFF_SIZE <= free_space (dscr n) ->
  f = free_space (dscr n) - (L + OFF_SIZE) -> c = recs_count (dscr n) + 1 ->
  node_ok (set_counters (set_data n d) f c) (F + L) (A ++ (F, r) :: B).
Proof using HN.
  intros Hn Hld Hbd HL Hmin Hrl Hb Hsame Hlow Hat Hhigh Hend Hfit -> ->. destruct (no_free _ _ _ Hn) as (HF1 & HF2 & HF3).
  assert (Hlen : length (A ++ (F, r) :: B) = S (length (A ++ B))) by (rewrite !length_app; simpl; lia).
  assert (Hsucc : Z.of_nat (length (A ++ (F, r) :: B)) = Z.of_nat (length (A ++ B)) + 1) by lia.
  unfold GENERIC_KEY_SIZE in Hmin.
  split; cbn [set_counters set_data data dscr recs_count free_space].
  - done.
  - done.
  - rewrite (no_count _ _ _ Hn). lia.
  - apply (insert_slots (data n)); [apply (no_slots _ _ _ Hn)|done..].
  - by rewrite Hsucc.
  - assert (Hold : Forall (entry_ok d (F + L)) (A ++ B)).
    { eapply Forall_impl; [apply (no_entries _ _ _ Hn)|]. intros e He. apply (entry_ok_same (data n) d F); [lia|done|done]. }
    apply Forall_app in Hold as [HA HB]. apply Forall_app. split; [done|]. constructor; [|done].
    split; cbn [fst snd]; unfold entry_len; cbn [snd]; rewrite <-?HL; try done; lia.
  - apply all_apart_insert; [apply (no_apart _ _ _ Hn)|]. eapply Forall_impl; [apply (no_entries _ _ _ Hn)|].
    intros e [_ _ Hh _ _]. right. simpl. lia.
  - pose proof (no_total _ _ _ Hn) as Ht. rewrite total_len_app in *. simpl. unfold entry_len at 1. simpl. lia.
  - rewrite Hsucc, saddr_S. unfold OFF_SIZE in *. lia.
Qed.

Lemma set_counters_links n d f c : node_id (dscr (set_counters (set_data n d) f c)) = node_id (dscr n) /\
  prev_node_id (dscr (set_counters (set_data n d) f c)) = prev_node_id (dscr n) /\
  next_node_id (dscr (set_counters (set_data n d) f c)) = next_node_id (dscr n) /\
  node_type (dscr (set_counters (set_data n d) f c)) = node_type (dscr n).
Proof using Type. done. Qed.

Definition same_links (n n' : vdfs2_bnode) : Prop :=
  node_id (dscr n') = node_id (dscr n) /\ prev_node_id (dscr n') = prev_node_id (dscr n) /\
  next_node_id (dscr n') = next_node_id (dscr n) /\ node_type (dscr n') = node_type (dscr n).

(** The bytes stored for a new record: those of the key, with the length that
    the record will have, and then what the memory held before. *)
Definition stored (new_key : list Z) (data_len L : Z) (r : list Z) : Prop :=
  Z.of_nat (length r) = L /\ bytes_at r 0 data_len = put_bytes (bytes_at new_key 0 data_len) 8 (le32_bytes L).

Lemma place_into_node_ok n F A B new_key L only :
  node_ok n F (A ++ B) -> let data_len := if only : bool then VDFS2_KEY_LEN new_key else u16 L in
  GENERIC_KEY_SIZE <= data_len <= L -> data_len <= Z.of_nat (length new_key) -> Forall is_byte new_key -> L + OFF_SIZE <= free_space (dscr n) ->
  exists n' r, __place_into_node N mf n new_key L (Z.of_nat (length A)) only = Ret (PTR F, n') /\
    node_ok n' (F + L) (A ++ (F, r) :: B) /\ stored new_key data_len L r /\ same_links n n'.
Proof using HN.
  intros Hn data_len [Hd1 Hd2] Hd3 Hbk Hfit. destruct (no_free _ _ _ Hn) as (HF1 & HF2 & HF3).
  pose proof (no_size _ _ _ Hn) as Hsz. pose proof (no_count _ _ _ Hn) as Hcnt.
  set (count := Z.of_nat (length (A ++ B))) in *.
  assert (Hc0 : Z.of_nat (length A) <= count) by (unfold count; rewrite length_app; lia).
  pose proof (saddr_bound count ltac:(lia)) as Hsb. unfold DSCR_SIZE, GENERIC_KEY_SIZE, OFF_SIZE in Hd1, HF1, Hfit.
  unfold __place_into_node. cbv zeta. fold data_len.
  rewrite (proj2 (Z.ltb_ge _ _)) by (unfold OFF_SIZE; lia). cbn [BUG_ON mbind outcome_bind].
  rewrite Hcnt, offset_addr_ok by lia. cbn [mbind outcome_bind].
  rewrite read32_ok by (unfold DSCR_SIZE; lia). cbn [mbind outcome_bind]. fold (slot (data n) count).
  assert (Hend : slot (data n) count = F) by apply (no_end _ _ _ Hn).
  rewrite Hend, offset_correct by (unfold DSCR_SIZE; lia). cbn [negb].
  rewrite mem_read_ok by lia. cbn [mbind outcome_bind].
  assert (Hkl : Z.of_nat (length (bytes_at new_key 0 data_len)) = data_len) by (rewrite length_bytes_at; lia).
  rewrite node_write_ok by (unfold DSCR_SIZE; lia). cbn [mbind outcome_bind]. set (d1 := put_bytes (data n) F _).
  assert (Hl1 : Z.of_nat (length d1) = N) by (unfold d1; by rewrite length_put_bytes).
  rewrite node_write_ok; [|unfold DSCR_SIZE; lia|rewrite length_le32_bytes; cbn [set_data data]; lia].
  cbn [mbind outcome_bind set_data data]. set (d2 := put_bytes d1 (F + 8) _).
  assert (Hl2 : Z.of_nat (length d2) = N) by (unfold d2; by rewrite length_put_bytes).
  change (set_data (set_data n d1) d2) with (set_data n d2).
  assert (Hb2 : same_below F (data n) d2).
  { intros o k Ho Hk Hok. unfold d2, d1. rewrite !bytes_at_put_other; rewrite ?length_le32_bytes; try done; lia. }
  assert (Hs2 : forall j, 0 <= j <= count -> slot d2 j = slot (data n) j).
  { intros j Hj. assert (saddr count <= saddr j) by (unfold saddr, OFF_SIZE; lia). unfold slot, d2, d1.
    rewrite !le32_at_put_other; rewrite ?length_le32_bytes; try done; lia. }
  assert (Hcl : 4 * count <= N) by (unfold saddr, OFF_SIZE, VDFS2_BNODE_FIRST_OFFSET in *; lia).
  destruct (move_offsets_ok (set_data n d2) count (Z.of_nat (length A))) as (d3 & Hm & Hl3 & Hby3 & Hb3 & Hlow3 & Hhigh3);
    [done|lia|unfold DSCR_SIZE; lia|]. cbn [set_data data] in *.
  rewrite Hm. cbn [mbind outcome_bind]. change (set_data (set_data n d2) d3) with (set_data n d3).
  assert (Hsa : saddr count <= saddr (Z.of_nat (length A))) by (unfold saddr, OFF_SIZE; lia).
  rewrite set_offset_ok; [|cbn; lia|lia|unfold DSCR_SIZE; lia|unfold DSCR_SIZE; lia]. cbn [mbind outcome_bind].
  rewrite Z.eqb_refl. cbn [negb set_data data dscr]. set (d4 := put_slot d3 _ F).
  assert (Hu : u16 (count + 1) = count + 1) by (unfold u16; apply Z.mod_small; lia). rewrite Hu.
  assert (Hf : u16 (free_space (dscr n) - (L + OFF_SIZE)) = free_space (dscr n) - (L + OFF_SIZE)).
  { unfold u16. apply Z.mod_small. unfold OFF_SIZE. lia. }
  rewrite Hf. set (n4 := set_counters _ _ _).
  assert (Hl4 : Z.of_nat (length d4) = N) by (unfold d4; rewrite length_put_slot; lia).
  pose proof (saddr_S count) as HsS.
  rewrite set_offset_ok; [|done|lia|unfold DSCR_SIZE; lia|unfold DSCR_SIZE; lia]. cbn [mbind outcome_bind].
  rewrite Z.eqb_refl. cbn [negb]. cbn [set_counters data n4]. set (d5 := put_slot d4 (count + 1) (F + L)).
  change (set_data n4 d5) with (set_counters (set_data n d5) (free_space (dscr n) - (L + OFF_SIZE)) (count + 1)).
  assert (Hb5 : same_below (F + L) d2 d5).
  { apply (same_below_trans _ _ d4); [|apply same_below_put; lia].
    apply (same_below_trans _ _ d3); [|apply same_below_put; lia].
    intros o k Ho Hk Hok. apply Hb3; lia. }
  exists (set_counters (set_data n d5) (free_space (dscr n) - (L + OFF_SIZE)) (count + 1)), (bytes_at d5 F L).
  split; [done|].
  assert (Hr : bytes_at d5 F L = bytes_at d2 F L) by (apply Hb5; lia).
  assert (Hkb : bytes_at d2 F data_len = put_bytes (bytes_at new_key 0 data_len) 8 (le32_bytes L)).
  { unfold d2, d1. rewrite <-Hkl at 2. apply bytes_at_put_put; rewrite ?length_le32_bytes; lia. }
  assert (Hst : stored new_key data_len L (bytes_at d5 F L)).
  { split; [rewrite Hr, length_bytes_at; lia|]. rewrite Hr, bytes_at_nested by lia. by rewrite Z.add_0_r. }
  split; [|split; [done|done]].
  apply (node_ok_insert n d5 A B F (bytes_at d5 F L) L); try done.
  - unfold d5. rewrite length_put_slot. lia.
  - apply bytes_put; [|apply bytes_le32]. apply bytes_put; [|apply bytes_le32]. apply Hby3.
    apply bytes_put; [|apply bytes_le32]. apply bytes_put; [apply (no_bytes _ _ _ Hn)|by apply bytes_bytes_at].
  - by destruct Hst.
  - unfold GENERIC_KEY_SIZE; lia.
  - rewrite Hr. unfold VDFS2_RECORD_LEN, le32_at. rewrite bytes_at_nested by lia. fold (le32_at d2 (F + 8)).
    apply le32_at_put; unfold saddr, VDFS2_BNODE_FIRST_OFFSET, OFF_SIZE in *; lia.
  - intros o k Ho Hk Hok. rewrite Hb5 by lia. by apply Hb2.
  - intros j Hj. unfold d5, d4. rewrite !slot_put_other by (unfold saddr, OFF_SIZE in *; lia). rewrite Hlow3 by lia. apply Hs2. lia.
  - unfold d5. rewrite slot_put_other by (unfold saddr, OFF_SIZE in *; lia). apply slot_put_same; unfold DSCR_SIZE; lia.
  - intros j Hj. fold count in Hj. unfold d5, d4. rewrite !slot_put_other by (unfold saddr, OFF_SIZE in *; lia).
    rewrite Hhigh3 by lia. apply Hs2. lia.
  - fold count. unfold d5. apply slot_put_same; unfold DSCR_SIZE; lia.
  - by rewrite Hcnt.
Qed.

(** A record stored as it is. *)
Lemma stored_whole r r' : Forall is_byte r -> VDFS2_RECORD_LEN r = Z.of_nat (length r) -> GENERIC_KEY_SIZE <= Z.of_nat (length r) ->
  stored r (Z.of_nat (length r)) (Z.of_nat (length r)) r' -> r' = r.
Proof using Type.
  unfold GENERIC_KEY_SIZE. intros Hb Hl Hmin [Hlen Hr]. rewrite <-Hlen, bytes_at_full in Hr. rewrite Hr, Hlen, bytes_at_full.
  rewrite <-Hl. unfold VDFS2_RECORD_LEN. apply put_le32_same; [done|lia..].
Qed.

Definition record_ok_to_store (r : list Z) : Prop :=
  Forall is_byte r /\ VDFS2_RECORD_LEN r = Z.of_nat (length r) /\ GENERIC_KEY_SIZE <= Z.of_nat (length r).

Lemma append_bnode_ok n F es r :
  node_ok n F es -> record_ok_to_store r -> Z.of_nat (length r) + OFF_SIZE <= free_space (dscr n) ->
  exists n', append_bnode N mf n r = Ret (0, n') /\ node_ok n' (F + Z.of_nat (length r)) (es ++ [(F, r)]) /\ same_links n n'.
Proof using HN.
  intros Hn (Hb & Hl & Hmin) Hfit. unfold append_bnode. rewrite Hl, (no_count _ _ _ Hn).
  destruct (no_free _ _ _ Hn) as (HF1 & HF2 & HF3). unfold DSCR_SIZE, OFF_SIZE in *.
  assert (Hu : u16 (Z.of_nat (length r)) = Z.of_nat (length r)).
  { apply Z.mod_small. unfold saddr, VDFS2_BNODE_FIRST_OFFSET, OFF_SIZE in *. lia. }
  destruct (place_into_node_ok n F es [] r (Z.of_nat (length r)) false) as (n' & r' & Heq & Hn' & Hst & Hsl);
    [by rewrite app_nil_r|rewrite Hu; lia|rewrite Hu; lia|done|unfold OFF_SIZE; lia|].
  rewrite Heq. cbn [mbind outcome_bind]. exists n'. split; [done|]. split; [|done]. cbn zeta iota in Hst. rewrite Hu in Hst.
  by rewrite (stored_whole r r' Hb Hl Hmin Hst) in Hn'.
Qed.

Lemma insert_key_into_bnode_ok n F A B new_key L :
  node_ok n F (A ++ B) -> GENERIC_KEY_SIZE <= VDFS2_KEY_LEN new_key <= L -> VDFS2_KEY_LEN new_key <= Z.of_nat (length new_key) ->
  Forall is_byte new_key -> L + OFF_SIZE <= free_space (dscr n) ->
  exists n' r, insert_key_into_bnode N mf n new_key L (Z.of_nat (length A)) = Ret (0, n') /\
    node_ok n' (F + L) (A ++ (F, r) :: B) /\ stored new_key (VDFS2_KEY_LEN new_key) L r /\ same_links n n'.
Proof using HN.
  intros Hn Hk Hkl Hb Hfit. unfold insert_key_into_bnode.
  destruct (place_into_node_ok n F A B new_key L true Hn Hk Hkl Hb Hfit) as (n' & r & -> & H). by exists n', r.
Qed.

Lemma init_new_node_descr_ok n type :
  Z.of_nat (length (data n)) = N -> Forall is_byte (data n) ->
  exists n', init_new_node_descr N mf n type = Ret n' /\ node_ok n' DSCR_SIZE [] /\ node_type (dscr n') = type /\
    node_id (dscr n') = node_id (dscr n) /\ next_node_id (dscr n') = 0 /\ prev_node_id (dscr n') = 0.
Proof using HN.
  intros Hl Hb. unfold init_new_node_descr.
  assert (Hs : DSCR_SIZE <= saddr 0) by (unfold saddr, DSCR_SIZE, OFF_SIZE, VDFS2_BNODE_FIRST_OFFSET; lia).
  assert (Hd : DSCR_SIZE <= DSCR_SIZE < N) by (unfold DSCR_SIZE; lia).
  rewrite set_offset_ok by (done || lia). cbn [mbind outcome_bind]. rewrite Z.eqb_refl. cbn [negb BUG_ON mbind outcome_bind].
  eexists. split; [done|]. split; [|done].
  split; cbn [set_data data dscr recs_count free_space length].
  - by rewrite length_put_slot.
  - apply bytes_put; [done|apply bytes_le32].
  - done.
  - intros i e He. by rewrite lookup_nil in He.
  - apply slot_put_same; done || lia.
  - constructor.
  - done.
  - done.
  - split; [lia|]. split; [done|]. unfold u16. rewrite Z.mod_small; unfold saddr, DSCR_SIZE, OFF_SIZE, VDFS2_BNODE_FIRST_OFFSET in *; lia.
Qed.

(** ** Deletion *)

Definition lowered (del len o : Z) : Z := if del <? o then o - len else o.

Lemma set_set_data n d d' : set_data (set_data n d) d' = set_data n d'.
Proof using Type. done. Qed.

(** A table of [M] offsets below [lim]. *)
Definition table_ok (d : list Z) (M : Z) : Prop :=
  Z.of_nat (length d) = N /\ Forall is_byte d /\ forall j, 0 <= j < M -> DSCR_SIZE <= saddr j.

Lemma lower_offsets_ok k n i del len M :
  table_ok (data n) M -> 0 <= i -> i + Z.of_nat k <= M ->
  (forall j, i <= j < i + Z.of_nat k -> DSCR_SIZE <= slot (data n) j < N /\ DSCR_SIZE <= lowered del len (slot (data n) j) < N) ->
  exists d, lower_offsets N mf n k i del len = Ret (0, set_data n d) /\ table_ok d M /\ same_below (saddr (M - 1)) (data n) d /\
    forall j, 0 <= j -> DSCR_SIZE <= saddr j ->
      slot d j = if bool_decide (i <= j < i + Z.of_nat k) then lowered del len (slot (data n) j) else slot (data n) j.
Proof using HN.
  revert n i. induction k as [|k IH]; intros n i Ht Hi Hk Hs.
  - exists (data n). split; [by destruct n|]. split; [done|]. split; [done|]. intros j Hj _. rewrite bool_decide_false by lia. done.
  - destruct Ht as (Hl & Hb & Haddr). destruct (Hs i) as [H1 H2]; [lia|]. pose proof (Haddr i ltac:(lia)) as Hsi.
    cbn [lower_offsets]. rewrite get_offset_ok by (done || lia). cbn [mbind outcome_bind].
    unfold lowered in H2. unfold DSCR_SIZE in Hsi.
    destruct (Z.ltb_spec del (slot (data n) i)) as [Hlt|Hge].
    + rewrite set_offset_ok; [|done|lia|unfold DSCR_SIZE; lia|done]. cbn [mbind outcome_bind]. rewrite Z.eqb_refl. cbn [negb].
      destruct (IH (set_data n (put_slot (data n) i (slot (data n) i - len))) (i + 1)) as (d & Heq & Ht' & Hsb & Hsl);
        cbn [set_data data] in *.
      { split; [by rewrite length_put_slot|]. split; [apply bytes_put; [done|apply bytes_le32]|done]. }
      { lia. } { lia. }
      { intros j Hj. rewrite slot_put_other; [apply Hs; lia|lia| |lia]. pose proof (Haddr j ltac:(lia)). unfold DSCR_SIZE in *. lia. }
      exists d. rewrite Heq. split; [done|]. split; [done|]. split.
      { apply (same_below_trans _ _ (put_slot (data n) i (slot (data n) i - len))); [|done].
        apply same_below_put; [lia|]. unfold saddr, OFF_SIZE. lia. }
      intros j Hj Hsj. rewrite Hsl by done. unfold DSCR_SIZE in Hsj. destruct (decide (j = i)) as [->|Hne].
      * rewrite bool_decide_false, bool_decide_true by lia. rewrite slot_put_same by (unfold DSCR_SIZE in *; done || lia).
        unfold lowered. by rewrite (proj2 (Z.ltb_lt _ _)).
      * rewrite slot_put_other by lia. repeat case_bool_decide; try done; lia.
    + destruct (IH n (i + 1)) as (d & Heq & Ht' & Hsb & Hsl); [done|lia|lia|intros; apply Hs; lia|].
      exists d. rewrite Heq. split; [done|]. split; [done|]. split; [done|]. intros j Hj Hsj. rewrite Hsl by done.
      destruct (decide (j = i)) as [->|Hne].
      * rewrite bool_decide_false, bool_decide_true by lia. unfold lowered. by rewrite (proj2 (Z.ltb_ge _ _)).
      * repeat case_bool_decide; try done; lia.
Qed.

Lemma close_gap_ok k n i M :
  table_ok (data n) M -> 0 <= i -> i + Z.of_nat k < M ->
  (forall j, i < j <= i + Z.of_nat k -> DSCR_SIZE <= slot (data n) j < N) ->
  exists d, close_gap N mf n k i = Ret (0, set_data n d) /\ table_ok d M /\ same_below (saddr (M - 1)) (data n) d /\
    forall j, 0 <= j -> DSCR_SIZE <= saddr j ->
      slot d j = if bool_decide (i <= j < i + Z.of_nat k) then slot (data n) (j + 1) else slot (data n) j.
Proof using HN.
  revert n i. induction k as [|k IH]; intros n i Ht Hi Hk Hs.
  - exists (data n). split; [by destruct n|]. split; [done|]. split; [done|]. intros j Hj _. rewrite bool_decide_false by lia. done.
  - destruct Ht as (Hl & Hb & Haddr). pose proof (Hs (i + 1) ltac:(lia)) as H1. pose proof (Haddr i ltac:(lia)) as Hsi.
    pose proof (Haddr (i + 1) ltac:(lia)) as Hsi1. unfold DSCR_SIZE in Hsi, Hsi1.
    cbn [close_gap]. rewrite get_offset_ok by (unfold DSCR_SIZE; done || lia). cbn [mbind outcome_bind].
    rewrite set_offset_ok; [|done|lia|unfold DSCR_SIZE; lia|done]. cbn [mbind outcome_bind]. rewrite Z.eqb_refl. cbn [negb].
    destruct (IH (set_data n (put_slot (data n) i (slot (data n) (i + 1)))) (i + 1)) as (d & Heq & Ht' & Hsb & Hsl);
      cbn [set_data data] in *.
    { split; [by rewrite length_put_slot|]. split; [apply bytes_put; [done|apply bytes_le32]|done]. }
    { lia. } { lia. }
    { intros j Hj. rewrite slot_put_other; [apply Hs; lia|lia| |lia]. pose proof (Haddr j ltac:(lia)). unfold DSCR_SIZE in *. lia. }
    exists d. rewrite Heq. split; [done|]. split; [done|]. split.
    { apply (same_below_trans _ _ (put_slot (data n) i (slot (data n) (i + 1)))); [|done].
      apply same_below_put; [lia|]. unfold saddr, OFF_SIZE. lia. }
    intros j Hj Hsj. rewrite Hsl by done. unfold DSCR_SIZE in Hsj. destruct (decide (j = i)) as [->|Hne].
    + rewrite bool_decide_false, bool_decide_true by lia. by rewrite slot_put_same by (unfold DSCR_SIZE in *; done || lia).
    + rewrite (slot_put_other _ i j) by lia. repeat case_bool_decide; try done; try lia.
      rewrite slot_put_other; [done|lia| |lia]. pose proof (Haddr (j + 1) ltac:(lia)). unfold DSCR_SIZE in *. lia.
Qed.

Definition lower_entry (del len : Z) (e : entry) : entry := (lowered del len e.1, e.2).

Lemma total_len_lower del len es : total_len (map (lower_entry del len) es) = total_len es.
Proof using Type. induction es as [|e es IH]; simpl; [done|]. by rewrite IH. Qed.

(** The bytes after the move: those before the deleted record stay, those behind
    it are [len] lower. *)
Lemma lowered_entry_ok d d' F e e0 :
  entry_ok d F e -> entry_ok d F e0 -> entries_apart e0 e -> Z.of_nat (length d') = Z.of_nat (length d) ->
  let len := entry_len e0 in
  (forall o n, 0 <= o -> 0 <= n -> o + n <= e0.1 -> bytes_at d' o n = bytes_at d o n) ->
  (forall o n, 0 <= n -> e0.1 <= o -> o + n <= F - len -> bytes_at d' o n = bytes_at d (o + len) n) ->
  entry_ok d' (F - len) (lower_entry e0.1 len e).
Proof using Type.
  intros [Hb Hlo Hhi Hl Hm] [_ Hlo0 Hhi0 _ Hm0] Hap Hld len Hbelow Habove.
  unfold DSCR_SIZE, GENERIC_KEY_SIZE, entries_apart, len in *.
  unfold lower_entry, lowered. destruct (Z.ltb_spec e0.1 e.1) as [Hlt|Hge].
  - split; cbn [fst snd]; change (entry_len (e.1 - entry_len e0, e.2)) with (entry_len e);
      unfold DSCR_SIZE, GENERIC_KEY_SIZE; try done; try lia.
    rewrite Habove by lia. transitivity (bytes_at d e.1 (entry_len e)); [f_equal; lia|done].
  - split; cbn [fst snd]; change (entry_len (e.1, e.2)) with (entry_len e); unfold DSCR_SIZE, GENERIC_KEY_SIZE; try done; try lia.
    by rewrite Hbelow by lia.
Qed.

Lemma lowered_apart e0 e e' F d :
  entry_ok d F e -> entry_ok d F e' -> entry_ok d F e0 -> entries_apart e0 e -> entries_apart e0 e' -> entries_apart e e' ->
  entries_apart (lower_entry e0.1 (entry_len e0) e) (lower_entry e0.1 (entry_len e0) e').
Proof using Type.
  intros [_ _ _ _ H1] [_ _ _ _ H2] [_ _ _ _ H3]. unfold entries_apart, lower_entry, lowered, GENERIC_KEY_SIZE in *. cbn [fst].
  change (entry_len (?o, e.2)) with (entry_len e). unfold entry_len in *. cbn [snd] in *.
  destruct (Z.ltb_spec e0.1 e.1), (Z.ltb_spec e0.1 e'.1); lia.
Qed.

Lemma delete_from_node_ok max n F A e0 B :
  node_ok n F (A ++ e0 :: B) -> entry_len e0 <= max ->
  exists n', delete_from_node N mf max n (Z.of_nat (length A)) = Ret (0, n') /\
    node_ok n' (F - entry_len e0) (map (lower_entry e0.1 (entry_len e0)) (A ++ B)) /\ same_links n n'.
Proof using HN.
  intros Hn Hmax. destruct (no_free _ _ _ Hn) as (HF1 & HF2 & HF3). pose proof (no_size _ _ _ Hn) as Hsz.
  pose proof (no_count _ _ _ Hn) as Hcnt. set (count := Z.of_nat (length (A ++ e0 :: B))) in *.
  assert (Hc : count = Z.of_nat (length A) + 1 + Z.of_nat (length B)) by (unfold count; rewrite length_app; simpl; lia).
  set (i := Z.of_nat (length A)) in *. assert (He0 : (A ++ e0 :: B) !! length A = Some e0) by (by apply list_lookup_middle).
  pose proof (Forall_lookup_1 _ _ _ _ (no_entries _ _ _ Hn) He0) as Ho0. pose proof Ho0 as [Hb0 Hlo Hhi Hl0 Hm0].
  pose proof (saddr_bound count ltac:(lia)) as Hsb. unfold DSCR_SIZE, GENERIC_KEY_SIZE in Hlo, Hm0, HF1.
  set (len := entry_len e0) in *. set (o := e0.1) in *.
  assert (Hslots : forall j, 0 <= j <= count -> saddr count <= saddr j) by (intros j Hj; unfold saddr, OFF_SIZE; lia).
  assert (Htab : table_ok (data n) (count + 1)).
  { split; [done|]. split; [apply (no_bytes _ _ _ Hn)|]. intros j Hj. unfold DSCR_SIZE. specialize (Hslots j). lia. }
  unfold delete_from_node. unfold i. rewrite (get_record_ok _ _ _ _ _ Hn He0). fold i o. cbn [mbind outcome_bind].
  rewrite read32_ok by (unfold DSCR_SIZE; lia). cbn [mbind outcome_bind].
  assert (Hrl : le32_at (data n) (o + 8) = len).
  { rewrite <-Hl0. unfold VDFS2_RECORD_LEN, le32_at. f_equal. rewrite <-Hb0. symmetry. apply bytes_at_nested; lia. }
  rewrite Hrl, Hcnt, (get_offset_ok n count); [|done|lia|unfold DSCR_SIZE; lia]. cbn [mbind outcome_bind].
  assert (Hend : slot (data n) count = F) by apply (no_end _ _ _ Hn).
  pose proof (Hslots i ltac:(lia)) as Hsi.
  rewrite Hend, (get_offset_ok n i); [|done|lia|unfold DSCR_SIZE; lia]. cbn [mbind outcome_bind].
  assert (Hsl : slot (data n) i = o) by (apply (no_slots _ _ _ Hn _ _ He0)).
  rewrite Hsl, !offset_correct by (unfold DSCR_SIZE; lia). cbn [negb orb]. rewrite (proj2 (Z.ltb_ge _ _)) by lia.
  destruct (memmove_ok (data n) o (o + len) (F - o - len)) as (d1 & Hm & Hld & Hin & Hout); [lia..|].
  unfold node_memmove. rewrite !(proj2 (Z.ltb_ge _ DSCR_SIZE)) by (unfold DSCR_SIZE; lia). cbn [orb]. rewrite Hm. cbn [mbind outcome_bind].
  assert (Hs1 : forall j, 0 <= j <= count -> slot d1 j = slot (data n) j).
  { intros j Hj. specialize (Hslots j Hj). unfold slot, le32_at. rewrite Hout; [done|lia|lia|lia]. }
  assert (Hentry : forall j e, (A ++ e0 :: B) !! j = Some e -> slot d1 (Z.of_nat j) = e.1 /\ DSCR_SIZE <= e.1 < N /\
    DSCR_SIZE <= lowered o len e.1 < N).
  { intros j e He. pose proof (lookup_lt_Some _ _ _ He). rewrite Hs1 by lia. split; [by apply (no_slots _ _ _ Hn)|].
    pose proof (Forall_lookup_1 _ _ _ _ (no_entries _ _ _ Hn) He) as [_ H1 H2 _ H3]. unfold DSCR_SIZE, GENERIC_KEY_SIZE in *.
    split; [lia|]. unfold lowered. destruct (Z.ltb_spec o e.1) as [Hlt|]; [|lia].
    destruct (all_apart_delete _ _ _ (no_apart _ _ _ Hn)) as [_ Hap]. rewrite Forall_forall in Hap.
    assert (Hne : e ∈ A ++ B).
    { apply list_elem_of_lookup_2 in He. apply elem_of_app in He as [?|[->|?]%elem_of_cons]; [set_solver|lia|set_solver]. }
    destruct (Hap e Hne) as [Hap'|Hap']; fold len o in Hap'; lia. }
  destruct (lower_offsets_ok (Z.to_nat count) (set_data n d1) 0 o len (count + 1)) as (d2 & -> & Ht2 & Hb2 & Hs2);
    cbn [set_data data] in *.
  { split; [by rewrite Hld|]. split; [apply (memmove_bytes _ _ _ _ _ Hm), (no_bytes _ _ _ Hn)|apply Htab]. }
  { lia. } { lia. }
  { intros j Hj. destruct (lookup_lt_is_Some_2 (A ++ e0 :: B) (Z.to_nat j)) as [e He]; [unfold count in Hj; lia|].
    destruct (Hentry _ _ He) as (Hse & H1 & H2). rewrite Z2Nat.id in Hse by lia. by rewrite Hse. }
  cbn [mbind outcome_bind]. rewrite Z.eqb_refl. cbn [negb]. rewrite set_set_data.
  assert (Hs2' : forall j e, (A ++ e0 :: B) !! j = Some e -> slot d2 (Z.of_nat j) = lowered o len e.1).
  { intros j e He. pose proof (lookup_lt_Some _ _ _ He). destruct (Hentry _ _ He) as (<- & _ & _).
    rewrite Hs2; [rewrite bool_decide_true by lia; done|lia|]. apply Htab. lia. }
  assert (Hs2e : slot d2 count = F).
  { rewrite Hs2; [rewrite bool_decide_false by lia|lia|apply Htab; lia]. by rewrite Hs1 by lia. }
  destruct (close_gap_ok (Z.to_nat (count - i)) (set_data n d2) i (count + 1)) as (d3 & -> & Ht3 & Hb3 & Hs3);
    cbn [set_data data] in *; [done|lia|lia| |].
  { intros j Hj. destruct (decide (j = count)) as [->|]; [rewrite Hs2e; unfold DSCR_SIZE; lia|].
    destruct (lookup_lt_is_Some_2 (A ++ e0 :: B) (Z.to_nat j)) as [e He]; [unfold count in *; lia|].
    specialize (Hs2' _ _ He). rewrite Z2Nat.id in Hs2' by lia. rewrite Hs2'. by apply (Hentry _ _ He). }
  cbn [mbind outcome_bind]. rewrite Z.eqb_refl. cbn [negb]. rewrite set_set_data.
  assert (Hcl : 4 * count <= N) by (unfold saddr, OFF_SIZE, VDFS2_BNODE_FIRST_OFFSET in *; lia).
  assert (Hu1 : u16 (count - 1) = count - 1) by (apply Z.mod_small; lia).
  assert (Hu2 : u16 (free_space (dscr n) + (len + OFF_SIZE)) = free_space (dscr n) + (len + OFF_SIZE)).
  { apply Z.mod_small. unfold saddr, OFF_SIZE, VDFS2_BNODE_FIRST_OFFSET in *. lia. }
  cbn [set_data dscr]. rewrite Hu1, Hu2. destruct Ht3 as (Hl3 & Hby3 & _).
  assert (Hsc : saddr (count - 1) = saddr count + 4) by (unfold saddr, OFF_SIZE; lia).
  rewrite set_offset_ok; [|done|lia|unfold DSCR_SIZE; lia|unfold DSCR_SIZE; lia].
  eexists. split; [done|]. split; [|done]. cbn [set_counters set_data data].
  set (d4 := put_slot d3 (count - 1) (F - len)).
  assert (Hb4 : same_below (saddr count) d1 d4).
  { apply (same_below_trans _ _ d3); [|apply same_below_put; lia]. rewrite Z.add_simpl_r in Hb2, Hb3.
    by apply (same_below_trans _ _ d2). }
  destruct (all_apart_delete _ _ _ (no_apart _ _ _ Hn)) as [HAB Hap0].
  assert (Hent : Forall (entry_ok (data n) F) (A ++ B)).
  { pose proof (no_entries _ _ _ Hn) as He. apply Forall_app in He as [HA HB]. apply Forall_cons in HB as [_ HB]. by apply Forall_app. }
  rewrite Forall_forall in Hap0. rewrite Forall_forall in Hent.
  assert (HlenAB : Z.of_nat (length (map (lower_entry o len) (A ++ B))) = count - 1) by (rewrite length_map, length_app; lia).
  split; cbn [set_counters set_data data dscr recs_count free_space].
  - unfold d4. by rewrite length_put_slot.
  - apply bytes_put; [done|apply bytes_le32].
  - lia.
  - intros j e He. pose proof (lookup_lt_Some _ _ _ He) as Hj. rewrite list_lookup_fmap in He.
    destruct ((A ++ B) !! j) as [e'|] eqn:He'; [|done]. injection He as <-. cbn [lower_entry fst].
    assert (Hsj : DSCR_SIZE <= saddr (Z.of_nat j)) by (apply Htab; lia).
    unfold d4. rewrite slot_put_other; [|unfold DSCR_SIZE in *; lia|unfold DSCR_SIZE in *; lia|lia]. rewrite Hs3 by (done || lia).
    case_bool_decide as Hd.
    + replace (Z.of_nat j + 1) with (Z.of_nat (S j)) by lia. apply Hs2'. unfold i in Hd.
      rewrite lookup_app_r in He' by lia. rewrite lookup_app_r by lia. by replace (S j - length A)%nat with (S (j - length A)) by lia.
    + apply Hs2'. unfold i in Hd. rewrite lookup_app_l in He' by lia. by rewrite lookup_app_l by lia.
  - rewrite HlenAB. apply slot_put_same; unfold DSCR_SIZE; lia.
  - apply Forall_map, Forall_forall. intros e He. unfold o, len. apply (lowered_entry_ok (data n)); auto.
    + unfold d4. rewrite length_put_slot. lia.
    + fold o. intros o' k Ho' Hk Hok. rewrite Hb4 by lia. apply Hout; lia.
    + fold o len. intros o' k Hk Ho' Hok. rewrite Hb4 by lia. rewrite Hin by lia. f_equal. lia.
  - apply all_apart_map; [|done]. intros e e' He He' Hee. unfold o, len. apply (lowered_apart e0 e e' F (data n)); auto.
  - pose proof (no_total _ _ _ Hn) as Ht. rewrite total_len_lower. rewrite total_len_app in *. simpl in Ht. unfold len. lia.
  - rewrite HlenAB, Hsc. unfold DSCR_SIZE, OFF_SIZE. lia.
Qed.
End facts.
