(* ===== verification/BtreeNodeOps.v ===== *)
(** * Correctness of the search, the split and the merge of bnodes *)
From Stdlib Require Import ZArith Lia.
From stdpp Require Import base numbers list sets.
From S2P Require Import Prelude Bits Bytes BtreeNode BtreeNodeFacts.

Section search.
Context (N : Z) (mf : bool) (HN : 64 <= N < 65536).
Lemma node_record_ok n F es i e : node_ok N n F es -> es !! i = Some e -> node_record n e.1 = Ret e.2.
Proof using Type.
  intros Hn He. apply (record_ok n F).
  - apply (Forall_lookup_1 _ _ _ _ (no_entries _ _ _ _ Hn) He).
  - destruct (no_free _ _ _ _ Hn) as (? & ? & _). rewrite (no_size _ _ _ _ Hn).
    unfold saddr, VDFS2_BNODE_FIRST_OFFSET, OFF_SIZE in *. lia.
Qed.

Context (comp_fn : list Z -> list Z -> Z) (key : list Z).

(** The records are in strict order around the key. *)
Definition ordered (es : list entry) : Prop :=
  forall i j a b, (i < j)%nat -> es !! i = Some a -> es !! j = Some b -> 0 <= comp_fn a.2 key -> 0 < comp_fn b.2 key.

(** The last entry that is not above the key. *)
Definition found_at (es : list entry) (pos : Z) (e : entry) : Prop :=
  0 <= pos /\ es !! Z.to_nat pos = Some e /\ comp_fn e.2 key <= 0 /\
  forall j b, pos < Z.of_nat j -> es !! j = Some b -> 0 < comp_fn b.2 key.

Lemma search_loop_ok n F es fuel first last f l :
  node_ok N n F es -> ordered es -> 0 <= first < last -> last - first <= Z.of_nat fuel + 1 ->
  es !! Z.to_nat first = Some f -> es !! Z.to_nat last = Some l -> comp_fn f.2 key <= 0 -> 0 < comp_fn l.2 key ->
  exists pos e, search_loop N mf comp_fn fuel n key first f.1 last = Ret (PTR e.1, pos) /\ found_at es pos e.
Proof using HN.
  intros Hn Hord. revert first last f l. induction fuel as [|fuel IH]; intros first last f l Hfl Hfuel Hf Hl Hcf Hcl; cbn [search_loop].
  all: destruct (Z.ltb_spec first (last - 1)) as [Hlt|Hge]; [try lia|].
  1, 3: exists first, f; split; [done|]; split; [lia|]; split; [done|]; split; [done|]; intros j b Hj Hb;
    (destruct (decide (Z.of_nat j = last)) as [<-|Hne]; [rewrite Nat2Z.id in Hl; by simplify_eq|]);
    by apply (Hord (Z.to_nat last) j l b); [lia|done|done|lia].
  set (mid := first + Z.shiftr (last + 1 - first) 1).
  assert (Hmid : first < mid < last).
  { unfold mid. rewrite Z.shiftr_div_pow2 by lia. change (2 ^ 1) with 2. lia. }
  destruct (lookup_lt_is_Some_2 es (Z.to_nat mid)) as [e He].
  { apply lookup_lt_Some in Hl. lia. }
  cbv zeta. fold mid. pose proof (get_record_ok N mf HN n F es _ e Hn He) as Hg. rewrite Z2Nat.id in Hg by lia.
  rewrite Hg. cbn [mbind outcome_bind].
  rewrite (node_record_ok n F es _ e Hn He). cbn [mbind outcome_bind].
  destruct (Z.eqb_spec (comp_fn e.2 key) 0) as [Heq|Hne].
  { exists mid, e. split; [done|]. split; [lia|]. split; [done|]. split; [lia|]. intros j b Hj Hb.
    apply (Hord (Z.to_nat mid) j e b); [lia|done|done|lia]. }
  destruct (Z.ltb_spec (comp_fn e.2 key) 0).
  - apply (IH mid last e l); done || lia.
  - apply (IH first mid f e); done || lia.
Qed.

Lemma binary_search_ok n F e0 es :
  node_ok N n F (e0 :: es) -> ordered (e0 :: es) ->
  if decide (0 < comp_fn e0.2 key) then binary_search N mf comp_fn n key = Ret (ERR_PTR (- ENOENT), -1)
  else exists pos e, binary_search N mf comp_fn n key = Ret (PTR e.1, pos) /\ found_at (e0 :: es) pos e.
Proof using HN.
  intros Hn Hord. unfold binary_search.
  pose proof (get_record_ok N mf HN n F _ 0%nat e0 Hn eq_refl) as Hg0. change (Z.of_nat 0) with 0 in Hg0.
  rewrite Hg0. cbn [mbind outcome_bind]. rewrite (node_record_ok n F _ 0%nat e0 Hn eq_refl). cbn [mbind outcome_bind].
  rewrite (no_count _ _ _ _ Hn). set (last := Z.of_nat (length (e0 :: es)) - 1).
  case_decide as Hd; [by rewrite (proj2 (Z.ltb_lt _ _))|]. rewrite (proj2 (Z.ltb_ge _ _)) by lia.
  destruct (lookup_lt_is_Some_2 (e0 :: es) (Z.to_nat last)) as [l Hl]; [unfold last; simpl; lia|].
  assert (Hlast : forall j b, (e0 :: es) !! j = Some b -> Z.of_nat j <= last).
  { intros j b Hb%lookup_lt_Some. unfold last. lia. }
  destruct (Z.eqb_spec (comp_fn e0.2 key) 0) as [Heq|Hne]; cbn [orb].
  { exists 0, e0. split; [done|]. split; [lia|]. split; [done|]. split; [lia|]. intros j b Hj Hb.
    apply (Hord 0%nat j e0 b); [lia|done|done|lia]. }
  destruct (Z.eqb_spec last 0) as [Hz|Hnz].
  { exists 0, e0. split; [done|]. split; [lia|]. split; [done|]. split; [lia|]. intros j b Hj Hb. apply Hlast in Hb. lia. }
  assert (0 <= last) by (unfold last; simpl; lia).
  pose proof (get_record_ok N mf HN n F _ _ l Hn Hl) as Hgl. rewrite Z2Nat.id in Hgl by lia. rewrite Hgl. cbn [mbind outcome_bind].
  rewrite (node_record_ok n F _ _ l Hn Hl). cbn [mbind outcome_bind].
  destruct (Z.leb_spec (comp_fn l.2 key) 0) as [Hle|Hgt].
  { exists last, l. split; [done|]. split; [lia|]. split; [done|]. split; [lia|]. intros j b Hj Hb. apply Hlast in Hb. lia. }
  apply (search_loop_ok n F (e0 :: es) (Z.to_nat last) 0 last e0 l); try done; lia.
Qed.
End search.

(** ** Splitting *)

(** The bytes that records need, with their offsets. *)
Fixpoint payload (rs : list (list Z)) : Z :=
  match rs with
  | [] => 0
  | r :: rs => Z.of_nat (length r) + OFF_SIZE + payload rs
  end.

Lemma payload_app a b : payload (a ++ b) = payload a + payload b.
Proof. induction a as [|r a IH]; simpl; [done|]. rewrite IH. lia. Qed.

Lemma payload_nonneg rs : 0 <= payload rs.
Proof. induction rs as [|r rs IH]; simpl; unfold OFF_SIZE; lia. Qed.

Lemma records_app a b : records (a ++ b) = records a ++ records b.
Proof. apply map_app. Qed.

Lemma payload_total es : payload (records es) = total_len es + 4 * Z.of_nat (length es).
Proof. induction es as [|e es IH]; simpl; [done|]. rewrite IH. unfold entry_len, OFF_SIZE. lia. Qed.

Section split.
Context (N : Z) (mf : bool) (HN : 128 <= N < 65536).

Lemma free_payload n F es : node_ok N n F es -> free_space (dscr n) = N - 37 - payload (records es).
Proof using Type.
  intros Hn. destruct (no_free _ _ _ _ Hn) as (_ & _ & Hf). pose proof (no_total _ _ _ _ Hn) as Ht. rewrite payload_total, Hf.
  unfold saddr, VDFS2_BNODE_FIRST_OFFSET, OFF_SIZE, DSCR_SIZE in *. lia.
Qed.

Lemma node_records_ok n F es : node_ok N n F es -> Forall record_ok_to_store (records es).
Proof using Type.
  intros Hn. apply Forall_map. eapply Forall_impl; [apply (no_entries _ _ _ _ Hn)|]. intros e [Hb Hlo Hhi Hl Hm].
  split; [|done]. rewrite <-Hb. apply bytes_bytes_at, (no_bytes _ _ _ _ Hn).
Qed.

(** The new record, and the sizes for which a split always has room. *)
Record split_request (new_key : list Z) (L : Z) : Prop := {
  sr_bytes : Forall is_byte new_key;
  sr_key : GENERIC_KEY_SIZE <= VDFS2_KEY_LEN new_key <= L;
  sr_avail : VDFS2_KEY_LEN new_key <= Z.of_nat (length new_key);
  sr_claimed : L <= VDFS2_RECORD_LEN new_key;
  sr_size : VDFS2_RECORD_LEN new_key <= N / 2 - 42;
}.

Definition fits_half (r : list Z) : Prop := Z.of_nat (length r) <= N / 2 - 42.

(** What is left to distribute: original records and ([None]) the new one. *)
Fixpoint todo_payload (L : Z) (todo : list (option (list Z))) : Z :=
  match todo with
  | [] => 0
  | Some r :: todo => Z.of_nat (length r) + OFF_SIZE + todo_payload L todo
  | None :: todo => L + OFF_SIZE + todo_payload L todo
  end.

Lemma todo_payload_nonneg L todo : 0 <= L -> 0 <= todo_payload L todo.
Proof using Type. intros HL. induction todo as [|[r|] todo IH]; simpl; unfold OFF_SIZE; lia. Qed.

Definition todo_list (rs : list (list Z)) (i pos : nat) (inserted : bool) : list (option (list Z)) :=
  if inserted then map Some (drop i rs) else map Some (take (pos - i) (drop i rs)) ++ None :: map Some (drop pos rs).

Lemma todo_list_new rs pos : (pos <= length rs)%nat -> todo_list rs pos pos false = None :: todo_list rs pos pos true.
Proof using Type. intros. unfold todo_list. by rewrite Nat.sub_diag, take_0. Qed.

Lemma todo_list_old rs i pos (inserted : bool) r :
  rs !! i = Some r -> (inserted = false -> (i < pos)%nat) ->
  todo_list rs i pos inserted = Some r :: todo_list rs (S i) pos inserted.
Proof using Type.
  intros Hr Hi. unfold todo_list. rewrite (drop_S rs r i Hr). destruct inserted; [done|]. specialize (Hi eq_refl).
  destruct (pos - i)%nat as [|k] eqn:Hk; [lia|]. simpl. by replace (pos - S i)%nat with k by lia.
Qed.

Definition placed (res : option (node_side * Z)) (LE RE : list entry) (r : list Z) : Prop :=
  match res with
  | Some (side, p) => 0 <= p /\ records (match side with LEFT_BNODE => LE | RIGHT_BNODE => RE end) !! Z.to_nat p = Some r
  | None => False
  end.

Lemma placed_app res LE RE LE' RE' r : placed res LE RE r -> placed res (LE ++ LE') (RE ++ RE') r.
Proof using Type.
  destruct res as [[[] p]|]; simpl; [..|done]; intros [? Hl]; (split; [done|]); rewrite records_app; by apply lookup_app_l_Some.
Qed.

(** The state of the loop: [half] is [part_to_insert]. *)
Record split_state (R : Z) (left right : vdfs2_bnode) F1 LE F2 RE (used : Z) (half : bool) (todo : list (option (list Z))) : Prop := {
  ss_left : node_ok N left F1 LE;
  ss_right : node_ok N right F2 RE;
  ss_first : half = false -> RE = [] /\ 37 + payload (records LE) <= used <= N / 2;
  ss_second : half = true -> todo_payload R todo <= N - 37 - payload (records RE);
  ss_used : 0 <= used /\ used + todo_payload R todo <= N + R + OFF_SIZE;
}.

(** One record more, in the node that is being filled. *)
Lemma split_state_step R left right F1 LE F2 RE used (half : bool) x todo len node' F' r claimed :
  let size := match x with Some r0 => Z.of_nat (length r0) | None => R end in
  split_state R left right F1 LE F2 RE used half (x :: todo) -> 0 <= R <= N / 2 - 42 ->
  claimed = size -> len = Z.of_nat (length r) -> len <= size ->
  node_ok N node' (F' + len) ((if half then RE else LE) ++ [(F', r)]) ->
  split_state R (if half then left else node') (if half then node' else right)
    (if half then F1 else F' + len) (if half then LE else LE ++ [(F', r)])
    (if half then F' + len else F2) (if half then RE ++ [(F', r)] else RE)
    (used + (claimed + OFF_SIZE)) (half || (N / 2 <? used + (claimed + OFF_SIZE))) todo.
Proof using HN.
  intros size [Hl Hr Hf Hs Hu] HR -> Hlen Hle Hn'.
  assert (Htp : todo_payload R (x :: todo) = size + OFF_SIZE + todo_payload R todo) by (by destruct x).
  rewrite Htp in *. pose proof (todo_payload_nonneg R todo ltac:(lia)). unfold OFF_SIZE in *.
  destruct half; cbn [orb] in *.
  - split; try done; [|unfold OFF_SIZE; lia]. intros _. specialize (Hs eq_refl). rewrite records_app, payload_app. simpl. unfold OFF_SIZE. lia.
  - destruct (Hf eq_refl) as (-> & Hp & Hhalf). split; try done; [..|unfold OFF_SIZE; lia].
    + intros Hlt. apply Z.ltb_ge in Hlt. split; [done|]. rewrite records_app, payload_app. simpl. unfold OFF_SIZE. lia.
    + intros Hlt. apply Z.ltb_lt in Hlt. simpl. lia.
Qed.

(** Both nodes get a record, the right one when the records do not fit in one. *)
Definition fills_left (LE : list entry) (half : bool) (todo : list (option (list Z))) : Prop :=
  LE <> [] \/ half = false /\ todo <> [].
Definition fills_right (R : Z) (RE : list entry) (used : Z) (half : bool) (todo : list (option (list Z))) : Prop :=
  RE <> [] \/ half = true /\ todo <> [] \/ half = false /\ N - 38 < used + todo_payload R todo.

Lemma fills_left_step LE (half : bool) x todo e c : fills_left LE half (x :: todo) -> fills_left (if half then LE else LE ++ [e]) c todo.
Proof using Type. destruct half; intros [?|[? ?]]; try done; left; [done|by destruct LE..]. Qed.

Lemma fills_right_step R left right F1 LE F2 RE used (half : bool) x todo e claimed :
  let size := match x with Some r0 => Z.of_nat (length r0) | None => R end in
  split_state R left right F1 LE F2 RE used half (x :: todo) -> size <= N / 2 - 42 -> claimed = size ->
  fills_right R RE used half (x :: todo) ->
  fills_right R (if half then RE ++ [e] else RE) (used + (claimed + OFF_SIZE)) (half || (N / 2 <? used + (claimed + OFF_SIZE))) todo.
Proof using HN.
  intros size Hst Hsz -> [Hne|[[-> Hne]|[-> Hsum]]].
  - left. destruct half; [by destruct RE|done].
  - left. by destruct RE.
  - right. destruct (ss_first _ _ _ _ _ _ _ _ _ _ Hst eq_refl) as (_ & _ & Hhalf).
    assert (Htp : todo_payload R (x :: todo) = size + OFF_SIZE + todo_payload R todo) by (by destruct x). rewrite Htp in Hsum. cbn [orb].
    destruct (Z.ltb_spec (N / 2) (used + (size + OFF_SIZE))) as [Hlt|Hge]; [left|right; split; [done|lia]].
    split; [done|]. intros ->. cbn in Hsum. unfold OFF_SIZE in Hsum. lia.
Qed.

Lemma fills_both_end R left right F1 LE F2 RE used (half : bool) :
  split_state R left right F1 LE F2 RE used half [] ->
  (fills_left LE half [] -> LE <> []) /\ (fills_right R RE used half [] -> RE <> []).
Proof using HN.
  intros Hst. split; [by intros [?|[_ ?]]|]. intros [?|[[_ ?]|[-> Hsum]]]; [done|done|].
  destruct (ss_first _ _ _ _ _ _ _ _ _ _ Hst eq_refl) as (_ & _ & Hhalf). cbn in Hsum. lia.
Qed.

(** There is room for the next record. *)
Lemma split_state_room R left right F1 LE F2 RE used (half : bool) x todo len :
  let size := match x with Some r0 => Z.of_nat (length r0) | None => R end in
  split_state R left right F1 LE F2 RE used half (x :: todo) -> 0 <= R -> size <= N / 2 - 42 -> len <= size ->
  len + OFF_SIZE <= free_space (dscr (if half then right else left)).
Proof using HN.
  intros size [Hl Hr Hf Hs Hu] HR Hsz Hlen.
  assert (Htp : todo_payload R (x :: todo) = size + OFF_SIZE + todo_payload R todo) by (by destruct x).
  rewrite Htp in *. pose proof (todo_payload_nonneg R todo ltac:(lia)). unfold OFF_SIZE in *. destruct half.
  - specialize (Hs eq_refl). rewrite (free_payload right F2 RE Hr). lia.
  - destruct (Hf eq_refl) as (-> & Hp & Hhalf). rewrite (free_payload left F1 LE Hl). lia.
Qed.

Lemma same_links_trans n1 n2 n3 : same_links n1 n2 -> same_links n2 n3 -> same_links n1 n3.
Proof using Type. unfold same_links. intros (?&?&?&?) (?&?&?&?). repeat split; congruence. Qed.

Lemma split_loop_ok orig F0 rs new_key L pos fuel :
  (exists es, node_ok N orig F0 es /\ records es = rs) -> Forall fits_half rs -> split_request new_key L -> (pos <= length rs)%nat ->
  let R := VDFS2_RECORD_LEN new_key in
  forall i inserted left right F1 LE F2 RE used half res (known : option (list Z)),
  let todo := todo_list rs i pos inserted in
  split_state R left right F1 LE F2 RE used half todo -> (i <= length rs)%nat -> (inserted = false -> (i <= pos)%nat) ->
  (length todo <= fuel)%nat ->
  (if inserted : bool then exists r, known = Some r /\ placed res LE RE r /\ stored new_key (VDFS2_KEY_LEN new_key) L r
   else known = None) ->
  exists left' right' res' F1' LE' F2' RE' r,
    split_loop N mf fuel orig left right new_key L (Z.of_nat pos) (Z.of_nat i) inserted used half res
      = Ret (0, left', right', res') /\
    node_ok N left' F1' LE' /\ node_ok N right' F2' RE' /\
    records (LE' ++ RE') = records (LE ++ RE) ++ map (default r) todo /\
    (forall r0, known = Some r0 -> r = r0) /\ placed res' LE' RE' r /\ stored new_key (VDFS2_KEY_LEN new_key) L r /\
    same_links left left' /\ same_links right right' /\
    (fills_left LE half todo -> LE' <> []) /\ (fills_right R RE used half todo -> RE' <> []).
Proof using HN.
  intros (es & Ho & Hrs) Hfit Hreq Hpos R. pose proof (no_count _ _ _ _ Ho) as Hcnt.
  assert (Hlen : length es = length rs) by (rewrite <-Hrs; unfold records; by rewrite length_map).
  destruct Hreq as [Hby Hkey Hav Hcl Hsz]. fold R in Hcl, Hsz. unfold GENERIC_KEY_SIZE in Hkey.
  assert (HR : 0 <= R <= N / 2 - 42) by lia.
  induction fuel as [|fuel IH]; intros i inserted left right F1 LE F2 RE used half res known todo Hst Hi Hip Hfuel Hknown.
  all: cbn [split_loop]; rewrite Hcnt, Hlen.
  all: destruct (decide (inserted = true /\ i = length rs)) as [[-> ->]|Hmore].
  1, 3: destruct Hknown as (r & -> & Hpl & Hsr); rewrite (proj2 (Z.ltb_ge _ _)) by lia; cbn [orb negb];
    assert (Htodo : todo = []) by (unfold todo, todo_list; by rewrite drop_ge);
    exists left, right, res, F1, LE, F2, RE, r; rewrite Htodo in Hst |- *; cbn [map]; rewrite app_nil_r;
    pose proof (fills_both_end _ _ _ _ _ _ _ _ _ Hst) as Hboth; destruct Hst as [Hs1 Hs2 _ _ _];
    split; [done|]; split; [exact Hs1|]; split; [exact Hs2|]; split; [done|]; split; [by intros r0 [= ->]|];
    split; [exact Hpl|]; split; [exact Hsr|]; split; [by repeat split|]; split; [by repeat split|exact Hboth].
  { exfalso. assert (todo = []) as Hnil by (apply length_zero_iff_nil; lia). unfold todo, todo_list in Hnil. destruct inserted.
    - apply (f_equal length) in Hnil. rewrite length_map, length_drop in Hnil. simpl in Hnil. apply Hmore. split; [done|lia].
    - by destruct (map Some (take (pos - i) (drop i rs))). }
  assert (Hcond : (Z.of_nat i <? Z.of_nat (length rs)) || negb inserted = true).
  { destruct inserted; [|by rewrite orb_true_r]. rewrite orb_false_r. apply Z.ltb_lt. destruct (decide (i = length rs)); [naive_solver|lia]. }
  rewrite Hcond. cbv zeta.
  destruct (decide (inserted = false /\ i = pos)) as [[-> ->]|Hold].
  - rewrite Z.eqb_refl. cbn [andb negb mbind outcome_bind].
    assert (Htd : todo = None :: todo_list rs pos pos true) by (by apply todo_list_new). rewrite Htd in Hst, Hfuel |- *.
    pose proof (split_state_room R left right F1 LE F2 RE used half None _ L Hst ltac:(lia) ltac:(simpl; lia) Hcl) as Hroom.
    assert (Hins : node_ok N (if half then right else left) (if half then F2 else F1) ((if half then RE else LE) ++ []))
      by (rewrite app_nil_r; destruct half; apply Hst).
    destruct (insert_key_into_bnode_ok N mf ltac:(lia) _ _ _ [] new_key L Hins) as (n' & r & Hrun & Hn' & Hsr & Hlk);
      [unfold GENERIC_KEY_SIZE; lia|done|done|done|].
    assert (Hcnt' : recs_count (dscr (if half then right else left)) = Z.of_nat (length (if half then RE else LE))).
    { rewrite (no_count _ _ _ _ Hins), app_nil_r. done. }
    rewrite Hcnt', Hrun. cbn [mbind outcome_bind]. rewrite Z.eqb_refl. cbn [negb].
    fold R. pose proof (ss_used _ _ _ _ _ _ _ _ _ _ Hst) as Hu. cbn [todo_payload] in Hu.
    pose proof (todo_payload_nonneg R (todo_list rs pos pos true) ltac:(lia)) as Htn. unfold OFF_SIZE in Hu.
    rewrite (u32_small (used + (R + OFF_SIZE))) by (unfold OFF_SIZE; lia).
    rewrite Z.quot_div_nonneg by lia.
    pose proof (split_state_step R left right F1 LE F2 RE used half None _ L n' _ r R Hst ltac:(lia) eq_refl
      ltac:(symmetry; apply Hsr) Hcl Hn') as Hst'.
    destruct (IH pos true (if half then left else n') (if half then n' else right)
      _ (if half then LE else LE ++ [(if half then F2 else F1, r)]) _ (if half then RE ++ [(if half then F2 else F1, r)] else RE)
      _ _ (Some (if half then RIGHT_BNODE else LEFT_BNODE, Z.of_nat (length (if half then RE else LE)))) (Some r) Hst')
      as (left' & right' & res' & F1' & LE' & F2' & RE' & r' & Heq & Hl' & Hr' & Hrec & Hk & Hpl & Hsr' & Hlk1 & Hlk2 & Hfl & Hfr);
      [done|done|cbn [length] in Hfuel; lia| |].
    { exists r. split; [done|]. split; [|done]. destruct half; cbn [placed]; (split; [lia|]);
        rewrite records_app, Nat2Z.id; apply list_lookup_middle; unfold records; by rewrite length_map. }
    exists left', right', res', F1', LE', F2', RE', r'. rewrite (Hk r eq_refl) in *. split; [|split; [exact Hl'|split; [exact Hr'|]]].
    { rewrite <-Heq. by destruct half. }
    split; [|split; [congruence|split; [exact Hpl|split; [exact Hsr|]]]].
    + rewrite Hrec. cbn [map default]. rewrite (cons_middle r), app_assoc. f_equal. destruct half.
      * by rewrite app_assoc, records_app.
      * destruct (ss_first _ _ _ _ _ _ _ _ _ _ Hst eq_refl) as [-> _]. by rewrite !app_nil_r, records_app.
    + assert (Hl12 : same_links left left' /\ same_links right right') by (destruct half; split; done || by apply (same_links_trans _ n')).
      destruct Hl12 as [Hl1 Hl2]. split; [exact Hl1|]. split; [exact Hl2|]. split; intros Hfills.
      * apply Hfl. by apply (fills_left_step LE half None).
      * apply Hfr. apply (fills_right_step R left right F1 LE F2 RE used half None _ _ R Hst); [simpl; lia|done|done].
  - assert (Hir : (i < length rs)%nat) by (destruct inserted; [destruct (decide (i = length rs)); naive_solver lia|
      specialize (Hip eq_refl); destruct (decide (i = pos)); naive_solver lia]).
    destruct (lookup_lt_is_Some_2 rs i Hir) as [r Hr].
    assert (Hsel : (Z.of_nat i =? Z.of_nat pos) && negb inserted = false).
    { destruct inserted; [by rewrite andb_false_r|]. rewrite andb_true_r. apply Z.eqb_neq. intros ?. apply Hold. split; [done|lia]. }
    rewrite Hsel. rewrite <-Hrs in Hr. unfold records in Hr. rewrite list_lookup_fmap in Hr.
    destruct (es !! i) as [e|] eqn:He; [|done]. injection Hr as Hr.
    rewrite (get_record_ok N mf ltac:(lia) orig F0 es i e Ho He). cbn [mbind outcome_bind].
    rewrite (node_record_ok N orig F0 es i e Ho He). cbn [mbind outcome_bind]. rewrite Hr.
    assert (Hri : rs !! i = Some r) by (rewrite <-Hrs; unfold records; rewrite list_lookup_fmap, He; simpl; by rewrite Hr).
    assert (Htd : todo = Some r :: todo_list rs (S i) pos inserted).
    { apply todo_list_old; [done|]. intros Hins. specialize (Hip Hins). destruct (decide (i = pos)); [naive_solver|lia]. }
    rewrite Htd in Hst, Hfuel |- *. pose proof (Forall_lookup_1 _ _ _ _ Hfit Hri) as Hfr. unfold fits_half in Hfr.
    pose proof (node_records_ok orig F0 es Ho) as Hstore. rewrite Hrs in Hstore.
    pose proof (Forall_lookup_1 _ _ _ _ Hstore Hri) as Hsto. pose proof Hsto as (_ & Hrl & _).
    pose proof (split_state_room R left right F1 LE F2 RE used half (Some r) _ (Z.of_nat (length r)) Hst ltac:(lia) Hfr ltac:(simpl; lia)) as Hroom.
    assert (Hins : node_ok N (if half then right else left) (if half then F2 else F1) (if half then RE else LE))
      by (destruct half; apply Hst).
    destruct (append_bnode_ok N mf ltac:(lia) _ _ _ r Hins Hsto Hroom) as (n' & Hrun & Hn' & Hlk).
    rewrite Hrun. cbn [mbind outcome_bind]. rewrite Z.eqb_refl. cbn [negb]. rewrite orb_false_r, Hrl.
    pose proof (ss_used _ _ _ _ _ _ _ _ _ _ Hst) as Hu. cbn [todo_payload] in Hu.
    pose proof (todo_payload_nonneg R (todo_list rs (S i) pos inserted) ltac:(lia)) as Htn. unfold OFF_SIZE in Hu.
    rewrite (u32_small (used + (Z.of_nat (length r) + OFF_SIZE))) by (unfold OFF_SIZE; lia).
    rewrite Z.quot_div_nonneg by lia.
    pose proof (split_state_step R left right F1 LE F2 RE used half (Some r) _ (Z.of_nat (length r)) n' _ r (Z.of_nat (length r))
      Hst ltac:(lia) eq_refl eq_refl ltac:(simpl; lia) Hn') as Hst'.
    destruct (IH (S i) inserted (if half then left else n') (if half then n' else right)
      _ (if half then LE else LE ++ [(if half then F2 else F1, r)]) _ (if half then RE ++ [(if half then F2 else F1, r)] else RE)
      _ _ res known Hst')
      as (left' & right' & res' & F1' & LE' & F2' & RE' & r' & Heq & Hl' & Hr' & Hrec & Hk & Hpl & Hsr' & Hlk1 & Hlk2 & Hfl & Hfrt);
      [lia| |cbn [length] in Hfuel; lia| |].
    { intros Hi'. specialize (Hip Hi'). destruct (decide (i = pos)); [naive_solver|lia]. }
    { destruct inserted; [|done]. destruct Hknown as (r0 & -> & Hp0 & Hs0). exists r0. split; [done|]. split; [|done].
      destruct half; [rewrite <-(app_nil_r LE)|rewrite <-(app_nil_r RE)]; by apply placed_app. }
    exists left', right', res', F1', LE', F2', RE', r'. split; [|split; [exact Hl'|split; [exact Hr'|]]].
    { rewrite <-Heq. replace (Z.of_nat (S i)) with (Z.of_nat i + 1) by lia. by destruct half. }
    split; [|split; [done|split; [exact Hpl|split; [exact Hsr'|]]]].
    + rewrite Hrec. cbn [map default]. rewrite (cons_middle r), app_assoc. f_equal. destruct half.
      * by rewrite app_assoc, records_app.
      * destruct (ss_first _ _ _ _ _ _ _ _ _ _ Hst eq_refl) as [-> _]. by rewrite !app_nil_r, records_app.
    + assert (Hl12 : same_links left left' /\ same_links right right') by (destruct half; split; done || by apply (same_links_trans _ n')).
      destruct Hl12 as [Hl1 Hl2]. split; [exact Hl1|]. split; [exact Hl2|]. split; intros Hfills.
      * apply Hfl. by apply (fills_left_step LE half (Some r)).
      * apply Hfrt. by apply (fills_right_step R left right F1 LE F2 RE used half (Some r) _ _ _ Hst).
Qed.
End split.

Section split_merge.
Context (N : Z) (mf : bool) (HN : 128 <= N < 65536).

Lemma node_ok_links n F es prev next : node_ok N n F es -> node_ok N (set_links n prev next) F es.
Proof using Type. by intros []. Qed.

(** A buffer for a node. *)
Definition raw_node (n : vdfs2_bnode) : Prop := Z.of_nat (length (data n)) = N /\ Forall is_byte (data n).

Lemma todo_payload_some R rs : todo_payload R (map Some rs) = payload rs.
Proof using Type. induction rs as [|r rs IH]; simpl; [done|]. by rewrite IH. Qed.

Lemma todo_payload_app R a b : todo_payload R (a ++ b) = todo_payload R a + todo_payload R b.
Proof using Type. induction a as [|[r|] a IH]; simpl; [done|..]; rewrite IH; lia. Qed.

(** What a successful split makes of the records [A ++ B] and the new one. *)
Record split_done (left right left' right' : vdfs2_bnode) (A B : list (list Z)) new_key L (res : option (node_side * Z)) : Prop := {
  sd_nodes : exists F1 LE F2 RE r, node_ok N left' F1 LE /\ node_ok N right' F2 RE /\
    records LE ++ records RE = A ++ r :: B /\ stored new_key (VDFS2_KEY_LEN new_key) L r /\ placed res LE RE r;
  sd_ids : node_id (dscr left') = node_id (dscr left) /\ node_id (dscr right') = node_id (dscr right);
  sd_types : node_type (dscr left') = node_type (dscr left) /\ node_type (dscr right') = node_type (dscr left);
  sd_links : prev_node_id (dscr left') = prev_node_id (dscr left) /\ next_node_id (dscr left') = node_id (dscr right) /\
    prev_node_id (dscr right') = node_id (dscr left) /\ next_node_id (dscr right') = next_node_id (dscr left);
  (** a full node leaves records on both sides *)
  sd_full : is_node_full left new_key = true ->
    forall F1 LE F2 RE, node_ok N left' F1 LE -> node_ok N right' F2 RE -> LE <> [] /\ RE <> [];
}.

Definition split_hyps (left right : vdfs2_bnode) (A B : list (list Z)) new_key L : Prop :=
  (exists F es, node_ok N left F es /\ records es = A ++ B) /\ raw_node right /\ A ++ B <> [] /\
  Forall (fits_half N) (A ++ B) /\ split_request N new_key L.

Lemma split_bnode_ok left right next A B new_key L :
  split_hyps left right A B new_key L ->
  exists left' right' res, split_done left right left' right' A B new_key L res /\
    split_bnode N mf left right next new_key L (Z.of_nat (length A)) =
      if decide (next_node_id (dscr left) = 0) then Ret (0, left', right', res, next)
      else match next with
           | ERR_PTR _ => Ret (0, left, right', res, next)
           | PTR nb => Ret (0, left', right', res, PTR (set_links nb (node_id (dscr right)) (next_node_id (dscr nb))))
           end.
Proof using HN.
  intros ((F & es & Hn & Hrs) & [Hrl Hrb] & Hne & Hfit & Hreq). unfold split_bnode. cbv zeta.
  destruct (init_new_node_descr_ok N mf ltac:(lia) right (node_type (dscr left)) Hrl Hrb) as (r0 & -> & Hr0 & Htr & Hidr & _).
  cbn [mbind outcome_bind].
  destruct (init_new_node_descr_ok N mf ltac:(lia) left (node_type (dscr left)) (no_size _ _ _ _ Hn) (no_bytes _ _ _ _ Hn))
    as (l0 & -> & Hl0 & Htl & Hidl & _).
  cbn [mbind outcome_bind]. pose proof (no_count _ _ _ _ Hn) as Hcnt.
  assert (Hlen : length es = length (A ++ B)) by (rewrite <-Hrs; unfold records; by rewrite length_map).
  assert (Hpos : (0 < length (A ++ B))%nat) by (destruct (A ++ B); [done|simpl; lia]).
  rewrite Hcnt, Hlen, (proj2 (Z.eqb_neq (Z.of_nat (length (A ++ B))) 0)) by lia. cbn [BUG_ON mbind outcome_bind].
  pose proof (free_payload N l0 _ _ Hl0) as Hfl. simpl in Hfl. rewrite Hfl, u32_small, Nat2Z.id by lia.
  replace (N - (N - 37 - 0)) with 37 by lia.
  pose proof (free_payload N left _ _ Hn) as Hfo. rewrite Hrs in Hfo. pose proof (no_free _ _ _ _ Hn) as (_ & Hf1 & Hf2).
  destruct Hreq as [Hby Hkey Hav Hcl Hsz]. unfold GENERIC_KEY_SIZE in Hkey.
  assert (Htodo : todo_list (A ++ B) 0 (length A) false = map Some A ++ None :: map Some B).
  { unfold todo_list. rewrite Nat.sub_0_r, drop_0, take_app_length, drop_app_length. done. }
  destruct (split_loop_ok N mf HN left F (A ++ B) new_key L (length A) (S (length (A ++ B)))
    ltac:(by exists es) Hfit ltac:(by split) ltac:(rewrite length_app; lia) 0 false l0 r0 DSCR_SIZE [] DSCR_SIZE [] 37 false None None)
    as (l1 & r1 & res & F1 & LE & F2 & RE & r & Heq & Hl1 & Hr1 & Hrec & _ & Hpl & Hst & Hlk1 & Hlk2 & Hfll & Hfrr).
  { rewrite Htodo. split; try done.
    - intros _. split; [done|]. simpl. lia.
    - rewrite todo_payload_app. simpl. rewrite !todo_payload_some. rewrite payload_app in Hfo. unfold OFF_SIZE. lia. }
  { lia. } { lia. }
  { rewrite Htodo, length_app. simpl. rewrite !length_map, length_app. lia. }
  { done. }
  change (Z.of_nat 0) with 0 in Heq. rewrite Heq. cbn [mbind outcome_bind]. rewrite Z.eqb_refl. cbn [negb].
  destruct Hlk1 as (Hi1 & _ & _ & Ht1). destruct Hlk2 as (Hi2 & _ & _ & Ht2).
  set (left' := set_links l1 _ _). set (right' := set_links r1 _ _).
  exists left', right', res. split.
  - split.
    + exists F1, LE, F2, RE, r. split; [by apply node_ok_links|]. split; [by apply node_ok_links|].
      split; [|done]. rewrite <-records_app, Hrec, Htodo, map_app. simpl. rewrite !map_map. simpl. by rewrite !map_id.
    + cbn. split; congruence.
    + cbn. split; congruence.
    + cbn. split_and!; congruence.
    + intros Hfull F1' LE' F2' RE' Ho1 Ho2. rewrite Htodo in Hfll, Hfrr.
      assert (HLE : LE <> []) by (apply Hfll; right; split; [done|by destruct A]).
      assert (HRE : RE <> []).
      { apply Hfrr. right. right. split; [done|]. rewrite todo_payload_app. simpl. rewrite !todo_payload_some. rewrite payload_app in Hfo.
        unfold is_node_full in Hfull. apply Z.ltb_lt in Hfull. lia. }
      pose proof (no_count _ _ _ _ Ho1) as Hc1. pose proof (no_count _ _ _ _ Ho2) as Hc2.
      pose proof (no_count _ _ _ _ Hl1) as Hc3. pose proof (no_count _ _ _ _ Hr1) as Hc4. cbn [left' right' set_links dscr recs_count] in Hc1, Hc2.
      split; intros ->; cbn [length] in Hc1, Hc2; [destruct LE|destruct RE]; cbn [length] in Hc3, Hc4; done || lia.
  - assert (Hid : node_id (dscr right') = node_id (dscr right)) by (cbn; congruence). rewrite Hid.
    change VDFS2_INVALID_NODE_ID with 0. case_decide as Hd; [by rewrite Hd, Z.eqb_refl|]. rewrite (proj2 (Z.eqb_neq _ _)) by done.
    by destruct next.
Qed.
End split_merge.
