(* ===== verification/BtreeMerge.v ===== *)
(** * Merging two bnodes: [btree_merge] appends the records of the right node and
    their offsets to the left one *)
From Stdlib Require Import ZArith Lia.
From stdpp Require Import base numbers list sets.
From S2P Require Import Prelude Bits Bytes BtreeNode BtreeNodeFacts BtreeNodeOps.

Definition shift_entry (k : Z) (e : entry) : entry := (e.1 + k, e.2).

Lemma records_shift k es : records (map (shift_entry k) es) = records es.
Proof. unfold records. by rewrite map_map. Qed.

Lemma total_len_shift k es : total_len (map (shift_entry k) es) = total_len es.
Proof. induction es as [|e es IH]; simpl; [done|]. by rewrite IH. Qed.

Section merge.
Context (N : Z) (mf : bool) (HN : 64 <= N < 65536).

(** Every offset of the table of a good node is inside it. *)
Lemma slot_range n F es j :
  node_ok N n F es -> 0 <= j <= Z.of_nat (length es) -> DSCR_SIZE <= slot N (data n) j <= F /\ saddr N (Z.of_nat (length es)) <= saddr N j.
Proof using Type.
  intros Hn Hj. destruct (no_free _ _ _ _ Hn) as (HF & HF' & _). split; [|unfold saddr, OFF_SIZE; lia].
  destruct (decide (j = Z.of_nat (length es))) as [->|Hne]; [rewrite (no_end _ _ _ _ Hn); lia|].
  destruct (lookup_lt_is_Some_2 es (Z.to_nat j)) as [e He]; [lia|].
  pose proof (no_slots _ _ _ _ Hn _ _ He) as Hs. rewrite Z2Nat.id in Hs by lia. rewrite Hs.
  destruct (Forall_lookup_1 _ _ _ _ (no_entries _ _ _ _ Hn) He) as [_ Hlow Hhigh _ Hmin]. unfold GENERIC_KEY_SIZE in Hmin. lia.
Qed.

Lemma node_slot n F es j :
  node_ok N n F es -> 0 <= j <= Z.of_nat (length es) -> vdfs2_get_offset N mf n j = Ret (slot N (data n) j).
Proof using HN.
  intros Hn Hj. destruct (slot_range n F es j Hn Hj) as [_ Hs]. destruct (no_free _ _ _ _ Hn) as (HF & HF' & _).
  apply get_offset_ok; [done|apply (no_size _ _ _ _ Hn)|lia|lia].
Qed.

Lemma slot_correct n F es j :
  node_ok N n F es -> 0 <= j <= Z.of_nat (length es) -> is_offset_correct N (slot N (data n) j) = true.
Proof using HN.
  intros Hn Hj. destruct (slot_range n F es j Hn Hj) as [Hs _]. destruct (no_free _ _ _ _ Hn) as (_ & HF' & _).
  apply offset_correct. pose proof (saddr_bound N (Z.of_nat (length es)) ltac:(lia)). lia.
Qed.

Lemma check_offsets_ok n F es k i :
  node_ok N n F es -> 0 <= i -> i + Z.of_nat k <= Z.of_nat (length es) -> check_offsets N mf n k i = Ret 0.
Proof using HN.
  intros Hn. revert i. induction k as [|k IH]; intros i Hi Hk; [done|]. cbn [check_offsets].
  rewrite (node_slot n F es) by (done || lia). cbn [mbind outcome_bind].
  rewrite (slot_correct n F es) by (done || lia). cbn [negb]. apply IH; lia.
Qed.

Lemma check_bnode_offset_area_ok n F es : node_ok N n F es -> check_bnode_offset_area N mf n = Ret 0.
Proof using HN. intros Hn. apply (check_offsets_ok n F es); [done|lia|]. rewrite (no_count _ _ _ _ Hn). lia. Qed.

Section append.
Context (right : vdfs2_bnode) (F : Z) (es : list entry) (Hr : node_ok N right F es).
Context (cl start : Z) (Hcl : 0 <= cl) (Hstart : DSCR_SIZE <= start).
Context (Hroom : start + F - DSCR_SIZE <= saddr N (cl + Z.of_nat (length es))).

Lemma append_offsets_ok k i left :
  Z.of_nat (length (data left)) = N -> Forall is_byte (data left) -> 0 <= i -> i + Z.of_nat k <= Z.of_nat (length es) + 1 ->
  exists d, append_offsets N mf left right k i cl start = Ret (0, set_data left d) /\
    Z.of_nat (length d) = N /\ Forall is_byte d /\ same_below (saddr N (cl + Z.of_nat (length es))) (data left) d /\
    forall j, 0 <= j <= cl + Z.of_nat (length es) ->
      slot N d j = if bool_decide (cl + i <= j < cl + i + Z.of_nat k) then start + slot N (data right) (j - cl) - DSCR_SIZE
                   else slot N (data left) j.
Proof using HN Hr Hcl Hstart Hroom.
  destruct (no_free _ _ _ _ Hr) as (HF & _ & _). unfold DSCR_SIZE in HF, Hstart, Hroom.
  assert (Hsa : forall j, 0 <= j <= cl + Z.of_nat (length es) -> saddr N (cl + Z.of_nat (length es)) <= saddr N j)
    by (intros j Hj; unfold saddr, OFF_SIZE; lia).
  revert i left. induction k as [|k IH]; intros i left Hl Hb Hi Hk.
  - exists (data left). split; [by destruct left|]. split; [done|]. split; [done|]. split; [done|].
    intros j Hj. by rewrite bool_decide_false by lia.
  - cbn [append_offsets]. rewrite (node_slot right F es) by (done || lia). cbn [mbind outcome_bind].
    destruct (slot_range right F es i Hr ltac:(lia)) as [Hsl _]. unfold DSCR_SIZE in Hsl.
    pose proof (Hsa (i + cl) ltac:(lia)) as Hsi. pose proof (saddr_bound N (i + cl) ltac:(lia)) as Hub.
    rewrite u32_small by (unfold DSCR_SIZE; lia).
    rewrite set_offset_ok by (unfold DSCR_SIZE; done || lia). cbn [mbind outcome_bind]. rewrite Z.eqb_refl. cbn [negb].
    set (v := start + slot N (data right) i - DSCR_SIZE).
    destruct (IH (i + 1) (set_data left (put_slot N (data left) (i + cl) v))) as (d & Heq & Hld & Hbd & Hsame & Hslots);
      [cbn [set_data data]; by rewrite length_put_slot|apply bytes_put; [done|apply bytes_le32]|lia|lia|].
    exists d. rewrite Heq. split; [done|]. split; [done|]. split; [done|]. cbn [set_data data] in Hsame, Hslots. split.
    { apply (same_below_trans _ _ (put_slot N (data left) (i + cl) v)); [|done]. apply same_below_put; lia. }
    intros j Hj. rewrite Hslots by done. pose proof (Hsa j Hj) as Hsj. destruct (decide (j = i + cl)) as [->|Hne].
    + rewrite bool_decide_false, bool_decide_true by lia. rewrite slot_put_same by (unfold v, DSCR_SIZE; done || lia).
      unfold v. by replace (i + cl - cl) with i by lia.
    + rewrite slot_put_other by lia. repeat case_bool_decide; done || lia.
Qed.
End append.

(** The records of the right node at their new place. *)
Lemma shifted_entry_ok d d' F e k :
  entry_ok d F e -> 0 <= k ->
  (forall o n, 0 <= n -> DSCR_SIZE <= o -> o + n <= F -> bytes_at d' (o + k) n = bytes_at d o n) ->
  entry_ok d' (F + k) (shift_entry k e).
Proof using Type.
  intros [Hb Hlo Hhi Hl Hm] Hk Hmove. split; cbn [fst snd shift_entry]; change (entry_len (shift_entry k e)) with (entry_len e); try done; [|lia..].
  unfold GENERIC_KEY_SIZE in Hm. by rewrite Hmove by lia.
Qed.

Lemma merge_nodes_ok left right Fl ls Fr rs :
  node_ok N left Fl ls -> node_ok N right Fr rs -> payload (records rs) <= free_space (dscr left) ->
  exists n', merge_nodes N mf left right = Ret (0, n') /\ (exists F es, node_ok N n' F es /\ records es = records ls ++ records rs) /\
    node_id (dscr n') = node_id (dscr left) /\ node_type (dscr n') = node_type (dscr left) /\
    prev_node_id (dscr n') = prev_node_id (dscr left) /\ next_node_id (dscr n') = next_node_id (dscr right).
Proof using HN.
  intros Hl Hr Hroom. destruct (no_free _ _ _ _ Hl) as (HF1 & HF2 & HF3). destruct (no_free _ _ _ _ Hr) as (HF4 & HF5 & _).
  pose proof (no_total _ _ _ _ Hr) as Htr. rewrite payload_total in Hroom. unfold DSCR_SIZE in *.
  pose proof (no_size _ _ _ _ Hl) as Hsl. pose proof (no_size _ _ _ _ Hr) as Hsr.
  set (cl := Z.of_nat (length ls)) in *. set (cr := Z.of_nat (length rs)) in *.
  assert (Hsa : saddr N (cl + cr) = saddr N cl - 4 * cr) by (unfold saddr, OFF_SIZE; lia).
  pose proof (saddr_bound N cl ltac:(lia)) as Hsb. pose proof (saddr_bound N cr ltac:(lia)) as Hsbr.
  unfold merge_nodes. rewrite (check_bnode_offset_area_ok left Fl ls Hl), (check_bnode_offset_area_ok right Fr rs Hr).
  cbn [mbind outcome_bind]. rewrite Z.eqb_refl. cbn [negb orb]. cbv zeta.
  rewrite (no_count _ _ _ _ Hl), (no_count _ _ _ _ Hr). fold cl cr.
  rewrite offset_addr_ok by lia. cbn [mbind outcome_bind].
  rewrite read32_ok by (unfold DSCR_SIZE; lia). cbn [mbind outcome_bind]. fold (slot N (data left) cl).
  assert (Hend : slot N (data left) cl = Fl) by apply (no_end _ _ _ _ Hl).
  assert (Hendr : slot N (data right) cr = Fr) by apply (no_end _ _ _ _ Hr).
  rewrite Hend, (node_slot right Fr rs) by (done || lia). cbn [mbind outcome_bind]. rewrite Hendr.
  rewrite mem_read_ok by (unfold DSCR_SIZE; lia). cbn [mbind outcome_bind].
  assert (Hbl : Z.of_nat (length (bytes_at (data right) DSCR_SIZE (Fr - DSCR_SIZE))) = Fr - 29)
    by (unfold DSCR_SIZE; rewrite length_bytes_at; lia).
  rewrite node_write_ok by (unfold DSCR_SIZE in *; lia). cbn [mbind outcome_bind].
  set (d1 := put_bytes (data left) Fl _).
  assert (Hl1 : Z.of_nat (length d1) = N) by (unfold d1; by rewrite length_put_bytes).
  assert (Hb1 : Forall is_byte d1) by (apply bytes_put; [apply (no_bytes _ _ _ _ Hl)|apply bytes_bytes_at, (no_bytes _ _ _ _ Hr)]).
  assert (Hs1 : forall j, 0 <= j <= cl -> slot N d1 j = slot N (data left) j).
  { intros j Hj. assert (saddr N cl <= saddr N j) by (unfold saddr, OFF_SIZE; lia). unfold slot, d1.
    apply le32_at_put_other; lia. }
  rewrite get_offset_ok by (cbn [set_data data]; unfold DSCR_SIZE; done || lia). cbn [mbind outcome_bind set_data data].
  rewrite Hs1, Hend by lia. replace (S (Z.to_nat cr)) with (S (length rs)) by lia.
  destruct (append_offsets_ok right Fr rs Hr cl Fl ltac:(lia) ltac:(unfold DSCR_SIZE; lia) ltac:(fold cr; unfold DSCR_SIZE; lia)
    (S (length rs)) 0 (set_data left d1) Hl1 Hb1 ltac:(lia) ltac:(lia)) as (d & Heq & Hld & Hbd & Hsame & Hslots).
  rewrite Heq. cbn [mbind outcome_bind set_data data dscr] in *. rewrite Z.eqb_refl. cbn [negb].
  assert (Hmoved : forall o n, 0 <= n -> DSCR_SIZE <= o -> o + n <= Fr -> bytes_at d (o + (Fl - 29)) n = bytes_at (data right) o n).
  { unfold DSCR_SIZE. intros o n Hn Ho Hon. fold cr in Hsame. rewrite Hsame by lia. unfold d1. rewrite bytes_at_put_inside by lia.
    unfold DSCR_SIZE. rewrite bytes_at_nested by lia. f_equal. lia. }
  eexists. split; [done|]. split; [|done]. exists (Fl + Fr - 29), (ls ++ map (shift_entry (Fl - 29)) rs).
  split; [|by rewrite records_app, records_shift]. apply node_ok_links.
  split; cbn [set_counters set_data data dscr recs_count free_space]; rewrite ?length_app, ?length_map, ?Nat2Z.inj_add; fold cl cr.
  - done.
  - done.
  - unfold u16. apply Z.mod_small. unfold saddr, OFF_SIZE, VDFS2_BNODE_FIRST_OFFSET in *. lia.
  - intros i e He. destruct (decide (i < length ls)%nat) as [Hlt|Hge].
    + rewrite lookup_app_l in He by done. rewrite Hslots, bool_decide_false, Hs1 by lia. by apply (no_slots _ _ _ _ Hl).
    + rewrite lookup_app_r in He by lia. rewrite list_lookup_fmap in He. apply fmap_Some in He as (e0 & He0 & ->).
      pose proof (lookup_lt_Some _ _ _ He0) as Hlt. rewrite Hslots, bool_decide_true by lia.
      replace (Z.of_nat i - cl) with (Z.of_nat (i - length ls)) by lia. rewrite (no_slots _ _ _ _ Hr _ _ He0).
      simpl. unfold DSCR_SIZE. lia.
  - rewrite Hslots, bool_decide_true by lia. replace (cl + cr - cl) with cr by lia. rewrite Hendr. unfold DSCR_SIZE. lia.
  - apply Forall_app. split.
    + eapply Forall_impl; [apply (no_entries _ _ _ _ Hl)|]. intros e He. apply (entry_ok_same (data left) d Fl); [lia| |done].
      intros o n Ho Hn Hon. fold cr in Hsame. rewrite Hsame by lia. unfold d1. rewrite bytes_at_put_other by lia. done.
    + apply Forall_map. eapply Forall_impl; [apply (no_entries _ _ _ _ Hr)|]. intros e He.
      replace (Fl + Fr - 29) with (Fr + (Fl - 29)) by lia. apply (shifted_entry_ok (data right)); [done|lia|done].
  - apply all_apart_app. split; [apply (no_apart _ _ _ _ Hl)|]. split.
    + apply all_apart_map; [|apply (no_apart _ _ _ _ Hr)]. intros e e' _ _. unfold entries_apart.
      change (entry_len (shift_entry ?k ?x)) with (entry_len x). simpl. lia.
    + eapply Forall_impl; [apply (no_entries _ _ _ _ Hl)|]. intros a [_ _ Hhi _ _]. apply Forall_map.
      eapply Forall_impl; [apply (no_entries _ _ _ _ Hr)|]. intros b [_ Hlo _ _ _]. left. unfold DSCR_SIZE in Hlo. simpl. lia.
  - rewrite total_len_app, total_len_shift. pose proof (no_total _ _ _ _ Hl). unfold DSCR_SIZE in *. lia.
  - unfold DSCR_SIZE, u16, OFF_SIZE. split; [lia|]. split; [lia|]. rewrite Z.mod_small; [lia|].
    unfold saddr, OFF_SIZE, VDFS2_BNODE_FIRST_OFFSET in *. lia.
Qed.
End merge.
