(* ===== verification/BtreeBuild.v ===== *)
(** * Nodes built record by record, and the keys of the examples *)
From Stdlib Require Import ZArith Lia.
From stdpp Require Import base numbers list sets.
From S2P Require Import Prelude Bits Bytes BtreeNode BtreeNodeFacts BtreeNodeOps.

(** An empty buffer with the ids of a node. *)
Definition blank_node (N id prev next : Z) : vdfs2_bnode :=
  Bnode (NodeDescr 0 0 id prev next VDFS2_NODE_LEAF) (replicate (Z.to_nat N) 0).

Fixpoint append_all (N : Z) (n : vdfs2_bnode) (rs : list (list Z)) : outcome vdfs2_bnode :=
  match rs with
  | [] => Ret n
  | r :: rs => '(_, n) ← append_bnode N true n r; append_all N n rs
  end.

Definition build_node (N id prev next type : Z) (rs : list (list Z)) : outcome vdfs2_bnode :=
  n ← init_new_node_descr N true (blank_node N id prev next) type;
  n ← append_all N n rs;
  Ret (set_links n prev next).

(** The entries of such a node, from the offset of the first one. *)
Fixpoint entries_from (o : Z) (rs : list (list Z)) : list entry :=
  match rs with
  | [] => []
  | r :: rs => (o, r) :: entries_from (o + Z.of_nat (length r)) rs
  end.

Lemma records_from o rs : records (entries_from o rs) = rs.
Proof. revert o. induction rs as [|r rs IH]; intros o; [done|]. cbn. f_equal. apply IH. Qed.

Section build.
Context (N : Z) (HN : 128 <= N < 65536).

Lemma append_all_ok rs n F es :
  node_ok N n F es -> Forall record_ok_to_store rs -> payload rs <= free_space (dscr n) ->
  exists n' F', append_all N n rs = Ret n' /\ node_ok N n' F' (es ++ entries_from F rs) /\ same_links n n'.
Proof using HN.
  revert n F es. induction rs as [|r rs IH]; intros n F es Hn Hrs Hroom.
  { exists n, F. rewrite app_nil_r. split; [done|]. split; [done|]. by unfold same_links. }
  apply Forall_cons in Hrs as [Hr Hrs]. cbn [payload] in Hroom. pose proof (payload_nonneg rs).
  destruct (append_bnode_ok N true ltac:(lia) n F es r Hn Hr ltac:(lia)) as (n1 & Heq & Hn1 & Hlk).
  pose proof (free_payload N n F es Hn) as H1. pose proof (free_payload N n1 _ _ Hn1) as H2.
  rewrite records_app, payload_app in H2. cbn in H2.
  destruct (IH n1 _ _ Hn1 Hrs ltac:(lia)) as (n2 & F2 & Heq2 & Hn2 & Hlk2). exists n2, F2. cbn [append_all].
  rewrite Heq. cbn [mbind outcome_bind]. rewrite Heq2. split; [done|]. split; [|by apply (same_links_trans _ n1)].
  by rewrite <-app_assoc in Hn2.
Qed.

Lemma build_node_ok id prev next type rs :
  Forall record_ok_to_store rs -> payload rs <= N - 37 ->
  exists n F, build_node N id prev next type rs = Ret n /\ node_ok N n F (entries_from DSCR_SIZE rs) /\
    node_id (dscr n) = id /\ prev_node_id (dscr n) = prev /\ next_node_id (dscr n) = next /\ node_type (dscr n) = type.
Proof using HN.
  intros Hrs Hroom. unfold build_node.
  destruct (init_new_node_descr_ok N true ltac:(lia) (blank_node N id prev next) type) as (n0 & -> & Hn0 & Ht & Hid & _).
  { cbn. rewrite length_replicate. lia. }
  { apply Forall_replicate. unfold is_byte. lia. }
  cbn [mbind outcome_bind]. pose proof (free_payload N n0 _ _ Hn0) as Hf. cbn in Hf.
  destruct (append_all_ok rs n0 _ _ Hn0 Hrs ltac:(lia)) as (n & F & -> & Hn & Hi & _ & _ & Ht'). cbn [mbind outcome_bind].
  exists (set_links n prev next), F. split; [done|]. split; [by apply node_ok_links|]. cbn. by rewrite Hi, Ht', Ht.
Qed.
End build.

(** ** Keys of the examples: a number behind the generic key *)

Definition ex_key (k claimed : Z) : list Z := replicate 4 0 ++ le32_bytes 16 ++ le32_bytes claimed ++ le32_bytes k.
Definition ex_record (k : Z) (value : list Z) : list Z := ex_key k (16 + Z.of_nat (length value)) ++ value.
Definition ex_cmp (r key : list Z) : Z := le32_at r 12 - le32_at key 12.
