(* ===== verification/BtreeTheorems.v ===== *)
(** * The properties of the operations inside bnodes

    Each theorem is followed by its witness on nodes of 128 bytes. *)
From Stdlib Require Import ZArith Lia.
From stdpp Require Import base numbers list sets.
From S2P Require Import Prelude Bits Bytes BtreeNode BtreeNodeFacts BtreeNodeOps BtreeMerge BtreeBuild.

(** ** The nodes of the witnesses *)

Definition recs_ex : list (list Z) := [ex_record 10 [1; 2]; ex_record 20 [3]; ex_record 30 []].
Definition node_ex : vdfs2_bnode := match build_node 128 1 0 0 VDFS2_NODE_LEAF recs_ex with Ret n => n | Bug => blank_node 128 1 0 0 end.
Definition right_ex : vdfs2_bnode :=
  match build_node 128 2 1 0 VDFS2_NODE_LEAF [ex_record 40 [7]] with Ret n => n | Bug => blank_node 128 2 1 0 end.

Lemma ex_record_ok k value : Forall is_byte value -> 16 + Z.of_nat (length value) < 2 ^ 32 -> record_ok_to_store (ex_record k value).
Proof.
  intros Hv Hl. assert (Hlen : length (ex_record k value) = (16 + length value)%nat).
  { unfold ex_record, ex_key. rewrite !length_app, length_replicate, !length_le32_bytes. lia. }
  split; [|split].
  - unfold ex_record, ex_key. rewrite !Forall_app. split_and!; try done; try apply bytes_le32. by apply Forall_replicate.
  - rewrite Hlen. unfold VDFS2_RECORD_LEN, le32_at, ex_record, ex_key. change (bytes_at _ 8 4) with (le32_bytes (16 + Z.of_nat (length value))).
    rewrite le32_round; lia.
  - unfold GENERIC_KEY_SIZE. lia.
Qed.

Lemma recs_ex_ok : Forall record_ok_to_store recs_ex.
Proof. unfold recs_ex. rewrite !Forall_cons. split_and!; try done; apply ex_record_ok; simpl; try lia; repeat constructor; lia. Qed.

Lemma node_ex_ok : exists F, node_ok 128 node_ex F (entries_from DSCR_SIZE recs_ex).
Proof.
  destruct (build_node_ok 128 ltac:(lia) 1 0 0 VDFS2_NODE_LEAF recs_ex) as (n & F & Heq & Hn & _).
  - apply recs_ex_ok.
  - by vm_compute.
  - exists F. unfold node_ex. by rewrite Heq.
Qed.

Lemma right_ex_ok : exists F, node_ok 128 right_ex F (entries_from DSCR_SIZE [ex_record 40 [7]]).
Proof.
  destruct (build_node_ok 128 ltac:(lia) 2 1 0 VDFS2_NODE_LEAF [ex_record 40 [7]]) as (n & F & Heq & Hn & _).
  - rewrite Forall_singleton. apply ex_record_ok; simpl; [repeat constructor; lia|lia].
  - by vm_compute.
  - exists F. unfold right_ex. by rewrite Heq.
Qed.

(** ** Placing and removing a record *)

(** C25: [insert_key_into_bnode] puts a record of the wanted length at the wanted
    place of the offset table: the records before and behind it are unchanged,
    its key is the new key with the new length, and the links of the node stay;
    without room for the record and its offset it stops at its [BUG_ON]. *)
Theorem node_insert_correct N mf n F A B new_key L :
  64 <= N < 65536 -> node_ok N n F (A ++ B) -> GENERIC_KEY_SIZE <= VDFS2_KEY_LEN new_key <= L ->
  VDFS2_KEY_LEN new_key <= Z.of_nat (length new_key) -> Forall is_byte new_key ->
  (L + OFF_SIZE <= free_space (dscr n) ->
    exists n' r, insert_key_into_bnode N mf n new_key L (Z.of_nat (length A)) = Ret (0, n') /\
      node_ok N n' (F + L) (A ++ (F, r) :: B) /\ stored new_key (VDFS2_KEY_LEN new_key) L r /\ same_links n n') /\
  (free_space (dscr n) < L + OFF_SIZE -> insert_key_into_bnode N mf n new_key L (Z.of_nat (length A)) = Bug).
Proof.
  intros HN Hn Hk Hkl Hb. split; intros Hfit; [by apply insert_key_into_bnode_ok|].
  unfold insert_key_into_bnode, __place_into_node. cbv zeta. by rewrite (proj2 (Z.ltb_lt (free_space (dscr n)) _)) by lia.
Qed.

Lemma node_insert_correct_witness :
  exists F n' r, insert_key_into_bnode 128 true node_ex (ex_key 15 16) 16 1 = Ret (0, n') /\
    node_ok 128 n' (F + 16) (take 1 (entries_from DSCR_SIZE recs_ex) ++ (F, r) :: drop 1 (entries_from DSCR_SIZE recs_ex)) /\
    stored (ex_key 15 16) 16 16 r /\ same_links node_ex n'.
Proof.
  destruct node_ex_ok as [F HF]. exists F.
  refine (proj1 (node_insert_correct 128 true node_ex F (take 1 (entries_from DSCR_SIZE recs_ex)) (drop 1 (entries_from DSCR_SIZE recs_ex))
    (ex_key 15 16) 16 _ _ _ _ _) _).
  - lia.
  - rewrite take_drop. exact HF.
  - by vm_compute.
  - by vm_compute.
  - repeat constructor; by vm_compute.
  - by vm_compute.
Defined.

(** C26: [delete_from_node] removes exactly the record at the index: the others keep
    their order and contents though the bytes behind the record move, and the
    node is again without gaps. *)
Theorem node_delete_correct N mf max n F A e B :
  64 <= N < 65536 -> node_ok N n F (A ++ e :: B) -> entry_len e <= max ->
  exists n' F' es, delete_from_node N mf max n (Z.of_nat (length A)) = Ret (0, n') /\ node_ok N n' F' es /\
    records es = records A ++ records B /\ free_space (dscr n') = free_space (dscr n) + entry_len e + OFF_SIZE /\ same_links n n'.
Proof.
  intros HN Hn Hmax. destruct (delete_from_node_ok N mf HN max n F A e B Hn Hmax) as (n' & Heq & Hn' & Hlk).
  exists n', (F - entry_len e), (map (lower_entry e.1 (entry_len e)) (A ++ B)). split; [done|]. split; [done|]. split; [|split; [|done]].
  - unfold records. by rewrite map_map, map_app.
  - destruct (no_free _ _ _ _ Hn') as (_ & _ & ->). destruct (no_free _ _ _ _ Hn) as (_ & _ & ->).
    rewrite length_map, !length_app. simpl. unfold saddr, OFF_SIZE. lia.
Qed.

Lemma node_delete_correct_witness :
  exists n' F' es, delete_from_node 128 true 100 node_ex 1 = Ret (0, n') /\ node_ok 128 n' F' es /\
    records es = [ex_record 10 [1; 2]; ex_record 30 []] /\ free_space (dscr n') = free_space (dscr node_ex) + 17 + 4 /\ same_links node_ex n'.
Proof.
  destruct node_ex_ok as [F HF].
  apply (node_delete_correct 128 true 100 node_ex F [(29, ex_record 10 [1; 2])] (47, ex_record 20 [3]) [(64, ex_record 30 [])]);
    [lia|exact HF|by vm_compute].
Defined.

(** A record that is placed and then removed leaves no trace: the node holds
    the same records in the same order with the same free space. *)
Lemma node_insert_delete N mf max n F A B new_key L :
  64 <= N < 65536 -> node_ok N n F (A ++ B) -> GENERIC_KEY_SIZE <= VDFS2_KEY_LEN new_key <= L ->
  VDFS2_KEY_LEN new_key <= Z.of_nat (length new_key) -> Forall is_byte new_key -> L + OFF_SIZE <= free_space (dscr n) -> L <= max ->
  exists n1 n2 es, insert_key_into_bnode N mf n new_key L (Z.of_nat (length A)) = Ret (0, n1) /\
    delete_from_node N mf max n1 (Z.of_nat (length A)) = Ret (0, n2) /\ node_ok N n2 F es /\
    records es = records (A ++ B) /\ dscr n2 = dscr n.
Proof.
  intros HN Hn Hk Hkl Hb Hfit Hmax.
  destruct (insert_key_into_bnode_ok N mf HN n F A B new_key L Hn Hk Hkl Hb Hfit) as (n1 & r & Heq1 & Hn1 & [Hr _] & Hl1).
  destruct (delete_from_node_ok N mf HN max n1 (F + L) A (F, r) B Hn1) as (n2 & Heq2 & Hn2 & Hl2).
  { unfold entry_len. simpl. lia. }
  unfold entry_len in Hn2. cbn [fst snd] in Hn2. replace (F + L - Z.of_nat (length r)) with F in Hn2 by lia.
  eexists n1, n2, _. split; [done|]. split; [done|]. split; [exact Hn2|].
  split; [unfold records; by rewrite map_map|].
  destruct (no_free _ _ _ _ Hn2) as (_ & _ & Hf2). destruct (no_free _ _ _ _ Hn) as (_ & _ & Hf).
  pose proof (no_count _ _ _ _ Hn2) as Hc2. pose proof (no_count _ _ _ _ Hn) as Hc. rewrite length_map in Hf2, Hc2.
  destruct Hl1 as (? & ? & ? & ?), Hl2 as (? & ? & ? & ?). destruct (dscr n), (dscr n2). simpl in *. congruence.
Qed.

Lemma node_insert_delete_witness :
  exists F n1 n2 es, insert_key_into_bnode 128 true node_ex (ex_key 15 16) 16 1 = Ret (0, n1) /\
    delete_from_node 128 true 100 n1 1 = Ret (0, n2) /\ node_ok 128 n2 F es /\
    records es = recs_ex /\ dscr n2 = dscr node_ex.
Proof.
  destruct node_ex_ok as [F HF]. exists F.
  refine (node_insert_delete 128 true 100 node_ex F (take 1 (entries_from DSCR_SIZE recs_ex)) (drop 1 (entries_from DSCR_SIZE recs_ex))
    (ex_key 15 16) 16 _ _ _ _ _ _ _).
  - lia.
  - rewrite take_drop. exact HF.
  - by vm_compute.
  - by vm_compute.
  - repeat constructor; by vm_compute.
  - by vm_compute.
  - lia.
Defined.

(** ** The search *)

(** The number of leading records that are not above the key. *)
Fixpoint not_above (comp_fn : list Z -> list Z -> Z) (key : list Z) (es : list entry) : nat :=
  match es with
  | [] => O
  | e :: es => if comp_fn e.2 key <=? 0 then S (not_above comp_fn key es) else O
  end.

Lemma found_not_above comp_fn key es pos e :
  found_at comp_fn key es pos e -> ordered comp_fn key es -> not_above comp_fn key es = S (Z.to_nat pos).
Proof.
  intros (Hp & He & Hc & Hafter) Hord.
  assert (Hbelow : forall i a, (i <= Z.to_nat pos)%nat -> es !! i = Some a -> comp_fn a.2 key <= 0).
  { intros i a Hi Ha. destruct (decide (i = Z.to_nat pos)) as [->|Hne]; [by simplify_eq|].
    destruct (Z.le_gt_cases (comp_fn a.2 key) 0) as [|Hgt]; [done|].
    specialize (Hord i (Z.to_nat pos) a e ltac:(lia) Ha He ltac:(lia)). lia. }
  assert (Habove : forall j b, (Z.to_nat pos < j)%nat -> es !! j = Some b -> 0 < comp_fn b.2 key) by (intros j b Hj; apply Hafter; lia).
  clear Hafter Hord Hc Hp. revert es He Hbelow Habove. induction (Z.to_nat pos) as [|p IH]; intros [|a es] He Hbelow Habove; try done.
  - simpl. rewrite (proj2 (Z.leb_le _ _)) by (by apply (Hbelow 0%nat)). destruct es as [|b es]; [done|]. simpl.
    by rewrite (proj2 (Z.leb_gt _ _)) by (by apply (Habove 1%nat); [lia|]).
  - simpl. rewrite (proj2 (Z.leb_le _ _)) by (apply (Hbelow 0%nat); [lia|done]). f_equal. apply IH; [done|..].
    + intros i c Hi Hcc. apply (Hbelow (S i)); [lia|done].
    + intros j c Hj Hcc. apply (Habove (S j)); [lia|done].
Qed.

(** C24: [binary_search] agrees with a linear scan: it finds the last record that is
    not above the key, and [-ENOENT] when the first is above it; its loop ends. *)
Theorem search_is_scan N mf comp_fn n F es key :
  64 <= N < 65536 -> node_ok N n F es -> es <> [] -> ordered comp_fn key es ->
  binary_search N mf comp_fn n key =
    match not_above comp_fn key es with
    | O => Ret (ERR_PTR (- ENOENT), -1)
    | S p => Ret (PTR (es !!! p).1, Z.of_nat p)
    end.
Proof.
  intros HN Hn Hne Hord. destruct es as [|e0 es]; [done|].
  pose proof (binary_search_ok N mf HN comp_fn key n F e0 es Hn Hord) as Hs. case_decide as Hd.
  - rewrite Hs. simpl. by rewrite (proj2 (Z.leb_gt _ _)) by lia.
  - destruct Hs as (pos & e & -> & Hf). rewrite (found_not_above _ _ _ _ _ Hf Hord). destruct Hf as (Hp & He & _).
    rewrite Z2Nat.id by lia. by rewrite (list_lookup_total_correct _ _ _ He).
Qed.

Lemma search_is_scan_witness : binary_search 128 true ex_cmp node_ex (ex_key 25 16) = Ret (PTR 47, 1).
Proof.
  destruct node_ex_ok as [F HF].
  rewrite (search_is_scan 128 true ex_cmp node_ex F (entries_from DSCR_SIZE recs_ex) (ex_key 25 16)); [by vm_compute|lia|exact HF|done|].
  intros i j a b Hij Ha Hb. destruct i as [|[|[|i]]]; [..|done]; destruct j as [|[|[|j]]]; try lia; try done;
    injection Ha as <-; injection Hb as <-; by vm_compute.
Defined.

(** ** Splitting and merging *)

(** C22: [split_bnode] distributes the records of the left node and the new one over
    the two nodes: together they hold all of them in order, each node is well
    formed, the new record is where the result says, and the nodes are linked with
    each other and with the old neighbours. *)
Theorem split_correct N mf left right next A B new_key L :
  128 <= N < 65536 -> split_hyps N left right A B new_key L ->
  (next_node_id (dscr left) <> 0 -> exists nb, next = PTR nb) ->
  exists left' right' res next', split_bnode N mf left right next new_key L (Z.of_nat (length A)) = Ret (0, left', right', res, next') /\
    split_done N left right left' right' A B new_key L res /\
    (next_node_id (dscr left) <> 0 -> forall nb, next = PTR nb ->
       next' = PTR (set_links nb (node_id (dscr right)) (next_node_id (dscr nb)))).
Proof.
  intros HN Hh Hnext. destruct (split_bnode_ok N mf HN left right next A B new_key L Hh) as (left' & right' & res & Hd & Heq).
  exists left', right', res. destruct (decide (next_node_id (dscr left) = 0)) as [Hz|Hnz].
  - exists next. split; [done|]. split; [done|]. done.
  - destruct (Hnext Hnz) as [nb ->]. eexists. split; [done|]. split; [done|]. by intros _ ? [= ->].
Qed.

Lemma split_ex_hyps next_id : split_hyps 128 (set_links node_ex 0 next_id) (blank_node 128 2 0 0) [ex_record 10 [1; 2]]
    [ex_record 20 [3]; ex_record 30 []] (ex_key 15 16) 16.
Proof.
  split_and!.
  - destruct node_ex_ok as [F HF]. exists F, (entries_from DSCR_SIZE recs_ex). split; [by apply node_ok_links|by rewrite records_from].
  - split; [done|]. cbn [blank_node data]. apply Forall_replicate. unfold is_byte. lia.
  - done.
  - repeat constructor; by vm_compute.
  - split; [repeat constructor; by vm_compute|by vm_compute..].
Qed.

Lemma split_correct_witness :
  exists left' right' res next',
    split_bnode 128 true (set_links node_ex 0 0) (blank_node 128 2 0 0) (ERR_PTR (- EIO)) (ex_key 15 16) 16 1 = Ret (0, left', right', res, next') /\
    split_done 128 (set_links node_ex 0 0) (blank_node 128 2 0 0) left' right' [ex_record 10 [1; 2]]
      [ex_record 20 [3]; ex_record 30 []] (ex_key 15 16) 16 res.
Proof.
  destruct (split_correct 128 true (set_links node_ex 0 0) (blank_node 128 2 0 0) (ERR_PTR (- EIO)) [ex_record 10 [1; 2]]
    [ex_record 20 [3]; ex_record 30 []] (ex_key 15 16) 16) as (l & r & res & next & Heq & Hd & _).
  - lia.
  - apply split_ex_hyps.
  - done.
  - exists l, r, res, next. split; [exact Heq|exact Hd].
Defined.

(** C27: when the right neighbour cannot be read, [split_bnode] restores the left
    node and still returns 0: the caller takes the insertion for done, and the new
    record is nowhere in the left node. *)
Theorem split_loses_record N mf left right e A B new_key L :
  128 <= N < 65536 -> split_hyps N left right A B new_key L -> next_node_id (dscr left) <> 0 ->
  exists right' res, split_bnode N mf left right (ERR_PTR e) new_key L (Z.of_nat (length A)) = Ret (0, left, right', res, ERR_PTR e).
Proof.
  intros HN Hh Hnz. destruct (split_bnode_ok N mf HN left right (ERR_PTR e) A B new_key L Hh) as (left' & right' & res & _ & Heq).
  exists right', res. rewrite Heq. by rewrite decide_False by done.
Qed.

Lemma split_loses_record_witness :
  exists right' res, split_bnode 128 true (set_links node_ex 0 9) (blank_node 128 2 0 0) (ERR_PTR (- EIO)) (ex_key 15 16) 16 1 =
    Ret (0, set_links node_ex 0 9, right', res, ERR_PTR (- EIO)).
Proof.
  apply (split_loses_record 128 true (set_links node_ex 0 9) (blank_node 128 2 0 0) (- EIO) [ex_record 10 [1; 2]]
    [ex_record 20 [3]; ex_record 30 []]); [lia|apply split_ex_hyps|done].
Defined.

(** C23: under the condition that [rebalance] tests (the free space of both nodes is
    at least the size of a node), the records of the right node fit into the left
    one, and [btree_merge] puts them behind those of the left node, unchanged and
    in order, and takes over the link to the next node. *)
Theorem merge_correct N mf left right Fl ls Fr rs :
  128 <= N < 65536 -> node_ok N left Fl ls -> node_ok N right Fr rs ->
  N <= free_space (dscr left) + free_space (dscr right) ->
  exists n', merge_nodes N mf left right = Ret (0, n') /\ (exists F es, node_ok N n' F es /\ records es = records ls ++ records rs) /\
    node_id (dscr n') = node_id (dscr left) /\ prev_node_id (dscr n') = prev_node_id (dscr left) /\
    next_node_id (dscr n') = next_node_id (dscr right).
Proof.
  intros HN Hl Hr Hfree. pose proof (free_payload N left Fl ls Hl) as H1. pose proof (free_payload N right Fr rs Hr) as H2.
  pose proof (payload_nonneg (records ls)).
  destruct (merge_nodes_ok N mf ltac:(lia) left right Fl ls Fr rs Hl Hr ltac:(lia)) as (n' & ? & ? & ? & ? & ? & ?). by exists n'.
Qed.

Lemma merge_correct_witness :
  exists n', merge_nodes 128 true (set_links right_ex 0 3) (set_links right_ex 2 9) = Ret (0, n') /\
    (exists F es, node_ok 128 n' F es /\ records es = [ex_record 40 [7]; ex_record 40 [7]]) /\
    node_id (dscr n') = 2 /\ prev_node_id (dscr n') = 0 /\ next_node_id (dscr n') = 9.
Proof.
  destruct right_ex_ok as [F HF].
  apply (merge_correct 128 true (set_links right_ex 0 3) (set_links right_ex 2 9) F (entries_from DSCR_SIZE [ex_record 40 [7]])
    F (entries_from DSCR_SIZE [ex_record 40 [7]])); [lia|by apply node_ok_links..|by vm_compute].
Defined.
