(* ===== verification/Bnode.v ===== *)
(** * The bnodes in memory and the bitmap of bnode ids ([bnode.c])

    A bnode in memory is named by its id: the hash table never holds two of the
    same id.  The lists are those of the code with the newest first; [list_add]
    puts an id in front, the eviction takes the last one. *)
From Stdlib Require Import ZArith Lia.
From stdpp Require Import base numbers list gmap.
From S2P Require Import Prelude Bits Bytes BtreeNode.

Inductive vdfs2_get_bnode_mode := VDFS2_BNODE_MODE_RW | VDFS2_BNODE_MODE_RO.
#[export] Instance mode_eq_dec : EqDecision vdfs2_get_bnode_mode.
Proof. solve_decision. Defined.

(** ** The bitmap of the ids *)

Record vdfs2_bnode_bitmap := BnodeBitmap {
  bm_data : buffer;
  bits_num : Z;
  start_id : Z;
  end_id : Z;
  first_free_id : Z;
  free_num : Z;
}.

Definition set_ids (b : vdfs2_bnode_bitmap) d first free := BnodeBitmap d (bits_num b) (start_id b) (end_id b) first free.

Section ids.
Context `{HS : !BitSearch}.

(** [__bitmap_weight]: the number of set bits among the first [n]. *)
Fixpoint bitmap_weight (d : buffer) (n : nat) : Z :=
  match n with
  | O => 0
  | S n => bitmap_weight d n + (if test_bit (Z.of_nat n) d then 1 else 0)
  end.

(** [kzalloc] may fail. *)
Definition vdfs2_build_free_bnode_bitmap (data : buffer) (start_bnode_id size_in_bytes : Z) (host : bool) (m : memory)
    : err_ptr vdfs2_bnode_bitmap * memory :=
  if negb host then (ERR_PTR (- EINVAL), m)
  else
    let '(ok, m) := kmem_alloc m in
    if negb ok then (ERR_PTR (- ENOMEM), m)
    else
      let bits_num := u32 (size_in_bytes * 8) in
      (PTR (BnodeBitmap data bits_num start_bnode_id (u32 (start_bnode_id + bits_num))
              (u32 (find_next_zero_bit data 0 bits_num 0 + start_bnode_id))
              (u32 (bits_num - bitmap_weight data (Z.to_nat bits_num)))), m).

(** The bitmap part of [vdfs2_alloc_new_bnode]; [got] is what [__get_bnode] returns
    for the id. *)
Definition alloc_id (b : vdfs2_bnode_bitmap) (got : Z -> Z) : outcome (err_ptr Z * vdfs2_bnode_bitmap) :=
  if free_num b =? 0 then Ret (ERR_PTR (- ENOSPC), b)
  else
    let id := first_free_id b in
    '(old, d) ← test_and_set_bit id 0 (bm_data b);
    _ ← BUG_ON old;
    if negb (got id =? 0) then
      '(_, d) ← test_and_clear_bit id 0 d;
      Ret (ERR_PTR (got id), set_ids b d (first_free_id b) (free_num b))
    else Ret (PTR id, set_ids b d (find_next_zero_bit d 0 (bits_num b) id) (u32 (free_num b - 1))).

(** The bitmap part of [vdfs2_destroy_bnode]. *)
Definition free_id (mount_finished : bool) (b : vdfs2_bnode_bitmap) (id : Z) : outcome (Z * vdfs2_bnode_bitmap) :=
  '(old, d) ← test_and_clear_bit id 0 (bm_data b);
  if negb old then (if mount_finished then Bug else Ret (- EFAULT, b))
  else Ret (0, set_ids b d (if id <? first_free_id b then id else first_free_id b) (u32 (free_num b + 1))).

(** The check of an id by [vdfs2_get_bnode]; the head bnode 0 is not checked. *)
Definition id_in_use (b : vdfs2_bnode_bitmap) (id : Z) : bool :=
  (id =? 0) || ((id <? bits_num b) && test_bit id (bm_data b)).
End ids.

(** ** The bnodes in memory *)

Definition VDFS2_BNODE_HASH_MASK : Z := 1023.
Definition VDFS2_ACTIVE_SIZE : Z := 1024.
Definition VDFS2_PASSIVE_SIZE : Z := 1024.

Record cached_bnode := CachedBnode { mode : vdfs2_get_bnode_mode; ref_count : Z; state : Z }.

(** The lists of [struct vdfs2_btree].  [freed] is the log of the bnodes whose
    memory was given back, newest first. *)
Record bnode_cache := BnodeCache {
  bnodes : gmap Z cached_bnode;
  hash_table : gmap Z (list Z);
  active_use : list Z;
  passive_use : list Z;
  active_use_count : Z;
  passive_use_count : Z;
  freed : list Z;
}.

Definition bnode_hash_fn (bnode_id : Z) : Z := Z.land bnode_id VDFS2_BNODE_HASH_MASK.

Definition set_bnode (c : bnode_cache) id n :=
  BnodeCache (<[id := n]> (bnodes c)) (hash_table c) (active_use c) (passive_use c) (active_use_count c) (passive_use_count c) (freed c).
Definition set_state (n : cached_bnode) s := CachedBnode (mode n) (ref_count n) s.
Definition set_hash (c : bnode_cache) h :=
  BnodeCache (bnodes c) h (active_use c) (passive_use c) (active_use_count c) (passive_use_count c) (freed c).
Definition set_active (c : bnode_cache) l n :=
  BnodeCache (bnodes c) (hash_table c) l (passive_use c) n (passive_use_count c) (freed c).
Definition set_passive (c : bnode_cache) l n :=
  BnodeCache (bnodes c) (hash_table c) (active_use c) l (active_use_count c) n (freed c).

Definition bucket (c : bnode_cache) (id : Z) : list Z := default [] (hash_table c !! bnode_hash_fn id).

(** [list_del] and [hlist_del] of an id. *)
Definition list_del (id : Z) (l : list Z) : list Z := filter (fun x => x <> id) l.

Definition remove_from_lru (c : bnode_cache) (id : Z) : outcome bnode_cache :=
  n ← deref (bnodes c !! id);
  let c := set_passive (set_active c (list_del id (active_use c)) (active_use_count c)) (list_del id (passive_use c)) (passive_use_count c) in
  Ret (if state n =? 0 then set_passive c (passive_use c) (passive_use_count c - 1)
       else set_active c (active_use c) (active_use_count c - 1)).

Definition unhash_bnode (c : bnode_cache) (id : Z) : outcome bnode_cache :=
  remove_from_lru (set_hash c (<[bnode_hash_fn id := list_del id (bucket c id)]> (hash_table c))) id.

(** [free_bnode]: the memory of the bnode is gone. *)
Definition free_bnode (c : bnode_cache) (id : Z) : bnode_cache :=
  BnodeCache (delete id (bnodes c)) (hash_table c) (active_use c) (passive_use c) (active_use_count c) (passive_use_count c) (id :: freed c).

(** [__put_bnode(bnode, 0)]. *)
Definition vdfs2_put_cache_bnode (c : bnode_cache) (id : Z) : outcome bnode_cache :=
  c ← unhash_bnode c id; Ret (free_bnode c id).

Definition add_to_passive (c : bnode_cache) (id : Z) : outcome bnode_cache :=
  n ← deref (bnodes c !! id);
  let c := set_bnode (set_passive c (id :: passive_use c) (passive_use_count c + 1)) id (set_state n 0) in
  if VDFS2_PASSIVE_SIZE <? passive_use_count c then
    victim ← deref (last (passive_use c));
    c ← vdfs2_put_cache_bnode c victim;
    Ret (set_passive c (passive_use c) (passive_use_count c - 1))
  else Ret c.

(** [add_to_active] calls itself through [passive_to_active] when the last active
    bnode is the head bnode. *)
Fixpoint add_to_active (fuel : nat) (c : bnode_cache) (id : Z) : outcome bnode_cache :=
  match fuel with
  | O => Bug
  | S fuel =>
      n ← deref (bnodes c !! id);
      let c := set_bnode (set_active c (id :: active_use c) (active_use_count c + 1)) id (set_state n 1) in
      if VDFS2_ACTIVE_SIZE <? active_use_count c then
        deleting ← deref (last (active_use c));
        if deleting =? 0 then c ← remove_from_lru c deleting; add_to_active fuel c deleting
        else
          let c := set_active c (list_del deleting (active_use c)) (active_use_count c) in
          c ← add_to_passive c deleting;
          Ret (set_active c (active_use c) (active_use_count c - 1))
      else Ret c
  end.

Definition passive_to_active (c : bnode_cache) (id : Z) : outcome bnode_cache :=
  c ← remove_from_lru c id; add_to_active 2 c id.

Definition hash_bnode (c : bnode_cache) (id : Z) : outcome bnode_cache :=
  let c := set_hash c (<[bnode_hash_fn id := id :: bucket c id]> (hash_table c)) in
  if id =? 0 then add_to_active 2 c id else add_to_passive c id.

Definition get_bnode_from_hash (c : bnode_cache) (id : Z) (md : vdfs2_get_bnode_mode) : outcome (bool * bnode_cache) :=
  if bool_decide (id ∈ bucket c id) then
    n ← deref (bnodes c !! id);
    let n := CachedBnode md (ref_count n) (state n) in
    let c := set_bnode c id n in
    if state n =? 0 then c ← passive_to_active c id; Ret (true, c) else Ret (true, c)
  else Ret (false, c).

(** [got] is the result of [__get_bnode] (0 or an error), which makes a bnode with
    one reference. *)
Definition vdfs2_get_bnode (b : vdfs2_bnode_bitmap) (c : bnode_cache) (id : Z) (md : vdfs2_get_bnode_mode) (got : Z)
    : outcome (Z * bnode_cache) :=
  if negb (id_in_use b id) then Ret (- ENOENT, c)
  else
    '(found, c) ← get_bnode_from_hash c id md;
    if negb found then
      if negb (got =? 0) then Ret (got, c)
      else c ← hash_bnode (set_bnode c id (CachedBnode md 1 0)) id; Ret (0, c)
    else
      n ← deref (bnodes c !! id);
      let val := ref_count n + 1 in
      _ ← BUG_ON (bool_decide (md = VDFS2_BNODE_MODE_RW) && (2 <? val));
      Ret (0, set_bnode c id (CachedBnode (mode n) val (state n))).

Definition vdfs2_put_bnode (c : bnode_cache) (id : Z) : outcome bnode_cache :=
  n ← deref (bnodes c !! id);
  let val := ref_count n - 1 in
  _ ← BUG_ON (val <? 0);
  Ret (set_bnode c id (CachedBnode (mode n) val (state n))).

Definition vdfs2_alloc_new_bnode `{HS : !BitSearch} (b : vdfs2_bnode_bitmap) (c : bnode_cache) (got : Z -> Z)
    : outcome (err_ptr Z * vdfs2_bnode_bitmap * bnode_cache) :=
  '(r, b) ← alloc_id b got;
  match r with
  | ERR_PTR e => Ret (ERR_PTR e, b, c)
  | PTR id => c ← hash_bnode (set_bnode c id (CachedBnode VDFS2_BNODE_MODE_RW 1 0)) id; Ret (PTR id, b, c)
  end.

Definition vdfs2_destroy_bnode (mount_finished : bool) (b : vdfs2_bnode_bitmap) (c : bnode_cache) (id : Z)
    : outcome (Z * vdfs2_bnode_bitmap * bnode_cache) :=
  _ ← BUG_ON (id =? VDFS2_INVALID_NODE_ID);
  n ← deref (bnodes c !! id);
  _ ← BUG_ON (negb (ref_count n - 1 =? 0));
  c ← vdfs2_put_cache_bnode (set_bnode c id (CachedBnode (mode n) (ref_count n - 1) (state n))) id;
  '(err, b) ← free_id mount_finished b id;
  Ret (err, b, c).
