(* ===== verification/BnodeIds.v ===== *)
(** * Correctness of the bitmap of bnode ids *)
From Stdlib Require Import ZArith Lia.
From stdpp Require Import base numbers list gmap.
From S2P Require Import Prelude Bits BitsFacts Bytes BtreeNode Bnode.

Abbreviation used_id b p := (test_bit p (bm_data b)).

(** The counters of the bitmap describe its bits. *)
Record ids_ok (b : vdfs2_bnode_bitmap) : Prop := {
  io_size : 0 <= bits_num b < 2 ^ 32 /\ bits_num b <= 8 * Z.of_nat (length (bm_data b));
  io_free : free_num b = bits_num b - bitmap_weight (bm_data b) (Z.to_nat (bits_num b));
  io_first : 0 <= first_free_id b <= bits_num b;
  io_below p : 0 <= p < first_free_id b -> used_id b p = true;
  io_at : first_free_id b < bits_num b -> used_id b (first_free_id b) = false;
}.

Lemma bitmap_weight_bounds d n : 0 <= bitmap_weight d n <= Z.of_nat n.
Proof. induction n as [|n IH]; simpl bitmap_weight; [lia|]. destruct (test_bit _ _); lia. Qed.

Lemma bitmap_weight_same d d' n : (forall p, 0 <= p < Z.of_nat n -> test_bit p d' = test_bit p d) -> bitmap_weight d' n = bitmap_weight d n.
Proof.
  induction n as [|n IH]; intros H; simpl; [done|]. rewrite IH by (intros; apply H; lia). by rewrite H by lia.
Qed.

Lemma bitmap_weight_update d d' n q v :
  0 <= q < Z.of_nat n -> (forall p, 0 <= p -> test_bit p d' = if decide (p = q) then v else test_bit p d) ->
  bitmap_weight d' n = bitmap_weight d n + (if v then 1 else 0) - (if test_bit q d then 1 else 0).
Proof.
  intros Hq H. induction n as [|n IH]; [lia|]. cbn [bitmap_weight]. rewrite (H (Z.of_nat n)) by lia. case_decide as Hd.
  - subst q. rewrite (bitmap_weight_same d d'); [lia|]. intros p Hp. rewrite H by lia. by rewrite decide_False by lia.
  - rewrite IH by lia. lia.
Qed.

Lemma weight_clear d n q : 0 <= q < Z.of_nat n -> test_bit q d = false -> bitmap_weight d n < Z.of_nat n.
Proof.
  induction n as [|n IH]; intros Hq Hb; [lia|]. cbn [bitmap_weight]. pose proof (bitmap_weight_bounds d n).
  destruct (decide (q = Z.of_nat n)) as [->|Hne]; [rewrite Hb; lia|]. specialize (IH ltac:(lia) Hb). destruct (test_bit (Z.of_nat n) d); lia.
Qed.

Lemma weight_full d n : (forall p, 0 <= p < Z.of_nat n -> test_bit p d = true) -> bitmap_weight d n = Z.of_nat n.
Proof. induction n as [|n IH]; intros H; [done|]. cbn [bitmap_weight]. rewrite IH by (intros; apply H; lia). rewrite H by lia. lia. Qed.

(** [test_and_set_bit] and [test_and_clear_bit] from the start of the bitmap. *)
Lemma set_bit_ok d id : 0 <= id < 8 * Z.of_nat (length d) ->
  exists d', test_and_set_bit id 0 d = Ret (test_bit id d, d') /\ length d' = length d /\
    forall p, 0 <= p -> test_bit p d' = if decide (p = id) then true else test_bit p d.
Proof.
  intros Hid. unfold test_and_set_bit. change (8 * 0 + id) with id. destruct (update_byte_defined id (fun b => Z.setbit b (id mod 8)) d Hid) as (old & d' & Hu).
  assert (Hb : forall b i, 0 <= i -> Z.testbit (Z.setbit b (id mod 8)) i = if decide (i = id mod 8) then true else Z.testbit b i) by (intros b i Hi; apply (set_f_bit id b i); lia).
  exists d'. destruct (test_bit_update id id true _ d old d' ltac:(lia) Hb Hu) as (-> & Hl & _). split; [done|]. split; [done|].
  intros p Hp. by destruct (test_bit_update id p true _ d _ d' Hp Hb Hu) as (_ & _ & ->).
Qed.

Lemma clear_bit_ok d id : 0 <= id < 8 * Z.of_nat (length d) ->
  exists d', test_and_clear_bit id 0 d = Ret (test_bit id d, d') /\ length d' = length d /\
    forall p, 0 <= p -> test_bit p d' = if decide (p = id) then false else test_bit p d.
Proof.
  intros Hid. unfold test_and_clear_bit. change (8 * 0 + id) with id. destruct (update_byte_defined id (fun b => Z.clearbit b (id mod 8)) d Hid) as (old & d' & Hu).
  assert (Hb : forall b i, 0 <= i -> Z.testbit (Z.clearbit b (id mod 8)) i = if decide (i = id mod 8) then false else Z.testbit b i) by (intros b i Hi; apply (clear_f_bit id b i); lia).
  exists d'. destruct (test_bit_update id id false _ d old d' ltac:(lia) Hb Hu) as (-> & Hl & _). split; [done|]. split; [done|].
  intros p Hp. by destruct (test_bit_update id p false _ d _ d' Hp Hb Hu) as (_ & _ & ->).
Qed.

Section ids.
Context `{HS : !BitSearch} `{HL : !BitSearchLaws}.

(** The search for a clear bit from [off], all bits below it being set. *)
Lemma next_free d size off :
  0 <= off -> 0 <= size -> (forall p, 0 <= p < off -> test_bit p d = true) ->
  let r := find_next_zero_bit d 0 size off in
  0 <= r <= size /\ (forall p, 0 <= p < r -> test_bit p d = true) /\ (r < size -> test_bit r d = false).
Proof using HL.
  intros Ho Hs Hbelow r. destruct (find_next_zero_bit_spec d 0 size off Ho Hs) as (Hr & H1 & H2). fold r in Hr, H1, H2.
  split; [done|]. split.
  - intros p Hp. destruct (decide (p < off)); [apply Hbelow; lia|]. apply (H1 p). lia.
  - intros Hlt. by destruct (H2 Hlt).
Qed.

Lemma build_ids_ok d size :
  0 <= size -> size * 8 < 2 ^ 32 -> size <= Z.of_nat (length d) ->
  exists b, vdfs2_build_free_bnode_bitmap d 0 size true [] = (PTR b, []) /\ ids_ok b /\ bm_data b = d /\ bits_num b = size * 8.
Proof using HL.
  intros Hs Hlt Hd. unfold vdfs2_build_free_bnode_bitmap. cbn [kmem_alloc negb]. rewrite (u32_small (size * 8)) by lia.
  destruct (next_free d (size * 8) 0 ltac:(lia) ltac:(lia) ltac:(lia)) as (Hr & H1 & H2).
  pose proof (bitmap_weight_bounds d (Z.to_nat (size * 8))) as Hw.
  eexists. split; [done|]. rewrite !Z.add_0_r, !u32_small by lia. split; [|done]. by split; cbn; try lia.
Qed.

Lemma alloc_id_ok b got :
  ids_ok b ->
  if decide (free_num b = 0) then alloc_id b got = Ret (ERR_PTR (- ENOSPC), b) /\ forall p, 0 <= p < bits_num b -> used_id b p = true
  else exists b', 0 <= first_free_id b < bits_num b /\ used_id b (first_free_id b) = false /\ ids_ok b' /\ bits_num b' = bits_num b /\
    if decide (got (first_free_id b) = 0) then
      alloc_id b got = Ret (PTR (first_free_id b), b') /\ free_num b' = free_num b - 1 /\
      forall p, 0 <= p -> used_id b' p = if decide (p = first_free_id b) then true else used_id b p
    else alloc_id b got = Ret (ERR_PTR (got (first_free_id b)), b') /\ forall p, 0 <= p -> used_id b' p = used_id b p.
Proof using HL.
  intros [[Hs1 Hs2] Hf Hfirst Hbelow Hat]. pose proof (bitmap_weight_bounds (bm_data b) (Z.to_nat (bits_num b))) as Hw. unfold alloc_id.
  case_decide as Hz.
  { rewrite Hz. split; [done|]. intros p Hp. destruct (test_bit p (bm_data b)) eqn:Hb; [done|].
    pose proof (weight_clear (bm_data b) (Z.to_nat (bits_num b)) p ltac:(lia) Hb). lia. }
  rewrite (proj2 (Z.eqb_neq (free_num b) 0)) by done.
  assert (Hlt : first_free_id b < bits_num b).
  { destruct (Z.lt_ge_cases (first_free_id b) (bits_num b)) as [|Hge]; [done|].
    pose proof (weight_full (bm_data b) (Z.to_nat (bits_num b))) as Hfull. rewrite Hfull in Hf by (intros; apply Hbelow; lia). lia. }
  specialize (Hat Hlt). set (id := first_free_id b) in *.
  destruct (set_bit_ok (bm_data b) id ltac:(lia)) as (d & -> & Hld & Hd). rewrite Hat. cbn [mbind outcome_bind BUG_ON].
  destruct (Z.eqb_spec (got id) 0) as [Hg|Hg]; cbn [negb].
  - assert (Hbel : forall p, 0 <= p < id -> test_bit p d = true).
    { intros p Hp. rewrite Hd by lia. case_decide; [done|]. apply Hbelow. lia. }
    destruct (next_free d (bits_num b) id ltac:(lia) ltac:(lia) Hbel) as (Hr & H1 & H2).
    pose proof (bitmap_weight_update (bm_data b) d (Z.to_nat (bits_num b)) id true ltac:(lia) Hd) as Hwu. rewrite Hat in Hwu.
    exists (set_ids b d (find_next_zero_bit d 0 (bits_num b) id) (u32 (free_num b - 1))).
    split; [lia|]. split; [done|]. rewrite u32_small by lia. split; [|split; [done|]].
    + split; cbn [set_ids bm_data bits_num free_num first_free_id]; try done; lia.
    + rewrite decide_True by done. split; [done|]. split; [done|]. intros p Hp. by apply Hd.
  - destruct (clear_bit_ok d id ltac:(lia)) as (d' & -> & Hld' & Hd'). cbn [mbind outcome_bind].
    assert (Hsame : forall p, 0 <= p -> test_bit p d' = test_bit p (bm_data b)).
    { intros p Hp. rewrite Hd', Hd by lia. case_decide as Hpid; [by rewrite Hpid|done]. }
    exists (set_ids b d' id (free_num b)). split; [lia|]. split; [done|]. split; [|split; [done|]].
    + split; cbn [set_ids bm_data bits_num free_num first_free_id]; try lia.
      * rewrite Hf. f_equal. symmetry. apply bitmap_weight_same. intros; apply Hsame; lia.
      * intros p Hp. rewrite Hsame by lia. by apply Hbelow.
      * intros _. by rewrite Hsame by lia.
    + by rewrite decide_False by done.
Qed.

Lemma free_id_ok mf b id :
  ids_ok b -> 0 <= id < bits_num b -> used_id b id = true ->
  exists b', free_id mf b id = Ret (0, b') /\ ids_ok b' /\ bits_num b' = bits_num b /\ free_num b' = free_num b + 1 /\
    forall p, 0 <= p -> used_id b' p = if decide (p = id) then false else used_id b p.
Proof using Type.
  intros [[Hs1 Hs2] Hf Hfirst Hbelow Hat] Hid Hu. pose proof (bitmap_weight_bounds (bm_data b) (Z.to_nat (bits_num b))) as Hw.
  unfold free_id. destruct (clear_bit_ok (bm_data b) id ltac:(lia)) as (d & -> & Hld & Hd). rewrite Hu. cbn [mbind outcome_bind negb].
  pose proof (bitmap_weight_update (bm_data b) d (Z.to_nat (bits_num b)) id false ltac:(lia) Hd) as Hwu. rewrite Hu in Hwu.
  assert (Hw' := bitmap_weight_bounds d (Z.to_nat (bits_num b))).
  eexists. split; [done|]. rewrite u32_small by lia. split; [|split; [done|split; [cbn; lia|intros p Hp; by apply Hd]]].
  split; cbn [set_ids bm_data bits_num free_num first_free_id]; try lia.
  - destruct (Z.ltb_spec id (first_free_id b)); lia.
  - intros p Hp. destruct (Z.ltb_spec id (first_free_id b)); rewrite Hd by lia; (case_decide; [lia|]); apply Hbelow; lia.
  - intros Hlt. destruct (Z.ltb_spec id (first_free_id b)).
    + rewrite Hd by lia. by rewrite decide_True.
    + rewrite Hd by lia. case_decide; [done|]. apply Hat. lia.
Qed.
End ids.
