(* ===== verification/BnodeFacts.v ===== *)
(** * Correctness of the lists of bnodes in memory *)
From Stdlib Require Import ZArith Lia.
From stdpp Require Import base numbers list sets gmap.
From S2P Require Import Prelude Bits Bytes BtreeNode Bnode.

(** The lists describe the bnodes in memory.  The bnodes of [loose] are between two
    lists; [k] is what the counter of active bnodes has too much. *)
Record cache_inv (loose : list Z) (k : Z) (c : bnode_cache) : Prop := {
  ci_nodup : NoDup (loose ++ active_use c ++ passive_use c);
  ci_dom id : is_Some (bnodes c !! id) <-> id ∈ loose ++ active_use c ++ passive_use c;
  ci_active id n : id ∈ active_use c -> bnodes c !! id = Some n -> state n <> 0;
  ci_passive id n : id ∈ passive_use c -> bnodes c !! id = Some n -> state n = 0;
  ci_bucket id : id ∈ bucket c id <-> is_Some (bnodes c !! id);
  ci_acount : active_use_count c = Z.of_nat (length (active_use c)) + k;
  ci_pcount : passive_use_count c <= Z.of_nat (length (passive_use c)) /\ passive_use_count c <= VDFS2_PASSIVE_SIZE;
}.

Definition cache_ok (c : bnode_cache) : Prop := cache_inv [] 0 c /\ active_use_count c <= VDFS2_ACTIVE_SIZE.

(** What stays in memory keeps its mode and its references. *)
Definition refs_kept (c c' : bnode_cache) : Prop :=
  forall x n', bnodes c' !! x = Some n' -> exists n, bnodes c !! x = Some n /\ ref_count n' = ref_count n /\ mode n' = mode n.

#[export] Instance refs_kept_preorder : PreOrder refs_kept.
Proof.
  split; [intros c x n' H; by exists n'|]. intros c1 c2 c3 H12 H23 x n' Hx.
  destruct (H23 x n' Hx) as (n2 & Hn2 & ? & ?). destruct (H12 x n2 Hn2) as (n1 & Hn1 & ? & ?). exists n1. split_and!; [done|congruence..].
Qed.

Lemma elem_of_list_del x id l : x ∈ list_del id l <-> x ∈ l /\ x <> id.
Proof. unfold list_del. rewrite list_elem_of_filter. naive_solver. Qed.

Lemma NoDup_list_del id l : NoDup l -> NoDup (list_del id l).
Proof. apply NoDup_filter. Qed.

Lemma list_del_notin id l : id ∉ l -> list_del id l = l.
Proof.
  unfold list_del. induction l as [|x l IH]; intros Hn; [done|]. rewrite filter_cons_True by set_solver. f_equal. apply IH. set_solver.
Qed.

Lemma length_list_del id l : NoDup l -> id ∈ l -> Z.of_nat (length (list_del id l)) = Z.of_nat (length l) - 1.
Proof.
  induction l as [|x l IH]; intros Hnd Hin; [set_solver|]. apply NoDup_cons in Hnd as [Hx Hnd]. destruct (decide (x = id)) as [->|Hne].
  - unfold list_del. rewrite filter_cons_False by (intros H; done). fold (list_del id l). rewrite list_del_notin by done. simpl length. lia.
  - unfold list_del. rewrite filter_cons_True by done. fold (list_del id l). simpl length. rewrite !Nat2Z.inj_succ, IH by set_solver. lia.
Qed.

Lemma bucket_set_hash c id l x :
  bucket (set_hash c (<[bnode_hash_fn id := l]> (hash_table c))) x = if decide (bnode_hash_fn x = bnode_hash_fn id) then l else bucket c x.
Proof.
  unfold bucket, set_hash. cbn [hash_table]. case_decide as Hd; [by rewrite Hd, lookup_insert_eq|by rewrite lookup_insert_ne by done].
Qed.

Lemma NoDup_lists L A P id : NoDup (L ++ A ++ P) -> id ∈ A ++ P -> NoDup ((id :: L) ++ list_del id A ++ list_del id P).
Proof.
  rewrite !NoDup_app. intros (HL & H1 & HA & H2 & HP) Hin. split_and!.
  - apply NoDup_cons. set_solver.
  - intros x. rewrite elem_of_cons, elem_of_app, !elem_of_list_del. set_solver.
  - by apply NoDup_list_del.
  - intros x. rewrite !elem_of_list_del. set_solver.
  - by apply NoDup_list_del.
Qed.

Lemma remove_from_lru_ok L k c id :
  cache_inv L k c -> id ∈ active_use c ++ passive_use c ->
  exists c', remove_from_lru c id = Ret c' /\ cache_inv (id :: L) k c' /\ bnodes c' = bnodes c /\ hash_table c' = hash_table c /\
    active_use c' = list_del id (active_use c) /\ passive_use c' = list_del id (passive_use c) /\ freed c' = freed c /\
    passive_use_count c' = passive_use_count c - (if decide (id ∈ passive_use c) then 1 else 0) /\
    active_use_count c' = active_use_count c - (if decide (id ∈ active_use c) then 1 else 0).
Proof.
  intros [Hnd Hdom Ha Hp Hb Hac Hpc] Hin. unfold remove_from_lru.
  destruct (proj2 (Hdom id)) as [n Hn]; [set_solver|]. rewrite Hn. cbn [deref mbind outcome_bind].
  pose proof (NoDup_lists L _ _ id Hnd Hin) as Hnd'. apply NoDup_app in Hnd as (_ & _ & Hnd). apply NoDup_app in Hnd as (Hnda & Hdisj & Hndp).
  assert (Hmem : forall x, x ∈ (id :: L) ++ list_del id (active_use c) ++ list_del id (passive_use c) <-> x ∈ L ++ active_use c ++ passive_use c).
  { intros x. simpl. rewrite elem_of_cons, !elem_of_app, !elem_of_list_del. destruct (decide (x = id)); set_solver. }
  destruct (Z.eqb_spec (state n) 0) as [Hst|Hst].
  - assert (Hip : id ∈ passive_use c) by (apply elem_of_app in Hin as [Hin|Hin]; [by specialize (Ha id n Hin Hn)|done]).
    assert (Hia : id ∉ active_use c) by (intros Hia; by apply (Hdisj id)).
    rewrite decide_True, (decide_False (P := id ∈ active_use c)) by done.
    eexists. split; [done|]. split; [|by repeat split; cbn; lia].
    split; cbn [set_passive set_active active_use passive_use bnodes active_use_count passive_use_count]; try done.
    + intros x. rewrite Hdom. by rewrite Hmem.
    + intros x m [Hx _]%elem_of_list_del. by apply Ha.
    + intros x m [Hx _]%elem_of_list_del. by apply Hp.
    + rewrite list_del_notin by done. done.
    + rewrite length_list_del by done. lia.
  - assert (Hia : id ∈ active_use c) by (apply elem_of_app in Hin as [Hin|Hin]; [done|by specialize (Hp id n Hin Hn)]).
    assert (Hip : id ∉ passive_use c) by (intros Hip; by apply (Hdisj id)).
    rewrite decide_False, (decide_True (P := id ∈ active_use c)) by done.
    eexists. split; [done|]. split; [|by repeat split; cbn; lia].
    split; cbn [set_passive set_active active_use passive_use bnodes active_use_count passive_use_count]; try done.
    + intros x. rewrite Hdom. by rewrite Hmem.
    + intros x m [Hx _]%elem_of_list_del. by apply Ha.
    + intros x m [Hx _]%elem_of_list_del. by apply Hp.
    + rewrite length_list_del by done. lia.
    + rewrite list_del_notin by done. done.
Qed.

Lemma remove_set_hash c h id : remove_from_lru (set_hash c h) id = (c' ← remove_from_lru c id; Ret (set_hash c' h)).
Proof.
  unfold remove_from_lru. change (bnodes (set_hash c h)) with (bnodes c). destruct (bnodes c !! id) as [n|]; [|done].
  cbn [deref mbind outcome_bind]. by destruct (state n =? 0).
Qed.

Lemma put_cache_ok L k c id :
  cache_inv L k c -> id ∈ active_use c ++ passive_use c ->
  exists c', vdfs2_put_cache_bnode c id = Ret c' /\ cache_inv L k c' /\ bnodes c' = delete id (bnodes c) /\ freed c' = id :: freed c /\
    active_use c' = list_del id (active_use c) /\ passive_use c' = list_del id (passive_use c) /\
    passive_use_count c' = passive_use_count c - (if decide (id ∈ passive_use c) then 1 else 0) /\
    active_use_count c' = active_use_count c - (if decide (id ∈ active_use c) then 1 else 0).
Proof.
  intros Hc Hin. unfold vdfs2_put_cache_bnode, unhash_bnode. rewrite remove_set_hash.
  destruct (remove_from_lru_ok L k c id Hc Hin) as (c1 & -> & Hc1 & Hbn & Hh & Hal & Hpl & Hfr & Hpc & Hac).
  cbn [mbind outcome_bind]. eexists. split; [done|].
  split; [|unfold free_bnode, set_hash; cbn; rewrite Hbn, Hfr, Hal, Hpl, Hpc, Hac; done].
  destruct Hc1 as [Hnd Hdom Ha Hp Hb Hac' Hpc']. apply NoDup_cons in Hnd as [Hid Hnd].
  split; cbn [free_bnode set_hash bnodes active_use passive_use active_use_count passive_use_count]; try done.
  - intros x. rewrite lookup_delete_is_Some, Hdom. set_solver.
  - intros x n Hx [_ Hn]%lookup_delete_Some. by apply (Ha x).
  - intros x n Hx [_ Hn]%lookup_delete_Some. by apply (Hp x).
  - intros x. rewrite lookup_delete_is_Some, <-(Hb x). unfold bucket. cbn [free_bnode set_hash hash_table].
    change (default [] (<[?h := ?l]> (hash_table c) !! bnode_hash_fn x)) with (bucket (set_hash c (<[h := l]> (hash_table c))) x).
    rewrite bucket_set_hash. unfold bucket. rewrite Hh. destruct (decide (bnode_hash_fn x = bnode_hash_fn id)) as [Hd|Hd].
    + rewrite elem_of_list_del, Hd. naive_solver.
    + split; [intros Hx; split; [by intros <-|done]|by intros [_ Hx]].
Qed.

Lemma last_in_tail {A} (x y : A) l : last (x :: l) = Some y -> l <> [] -> y ∈ l.
Proof. intros H Hne. destruct l as [|z l]; [done|]. rewrite last_cons_cons in H. by apply last_Some_elem_of. Qed.

(** Putting a loose bnode on one of the lists. *)
Lemma cache_inv_state L k c id n s :
  bnodes c !! id = Some n -> id ∉ active_use c ++ passive_use c -> cache_inv L k c -> cache_inv L k (set_bnode c id (set_state n s)).
Proof.
  intros Hn Hout [Hnd Hdom Ha Hp Hb Hac Hpc]. split; cbn [set_bnode bnodes active_use passive_use active_use_count passive_use_count]; try done.
  - intros x. rewrite <-Hdom, lookup_insert_is_Some'. destruct (decide (x = id)) as [->|]; naive_solver.
  - intros x m Hx. rewrite lookup_insert_ne by set_solver. by apply Ha.
  - intros x m Hx. rewrite lookup_insert_ne by set_solver. by apply Hp.
  - intros x. change (bucket (set_bnode c id (set_state n s)) x) with (bucket c x).
    rewrite Hb, lookup_insert_is_Some'. destruct (decide (x = id)) as [->|]; naive_solver.
Qed.

Lemma refs_set_state c id n s : bnodes c !! id = Some n -> refs_kept c (set_bnode c id (set_state n s)).
Proof.
  intros Hn x n' Hx. cbn in Hx. apply lookup_insert_Some in Hx as [[<- <-]|[_ Hx]]; [by exists n|by exists n'].
Qed.

Lemma refs_delete c c' id : bnodes c' = delete id (bnodes c) -> refs_kept c c'.
Proof. intros Hd x n' Hx. rewrite Hd in Hx. apply lookup_delete_Some in Hx as [_ Hx]. by exists n'. Qed.

Lemma add_to_passive_ok L k c id :
  cache_inv (id :: L) k c ->
  exists c', add_to_passive c id = Ret c' /\ cache_inv L k c' /\ refs_kept c c' /\ id ∈ passive_use c' /\
    active_use c' = active_use c /\ active_use_count c' = active_use_count c.
Proof.
  intros Hc. pose proof Hc as [Hnd Hdom Ha Hp Hb Hac Hpc]. destruct (proj2 (Hdom id)) as [n Hn]; [set_solver|].
  apply NoDup_cons in Hnd as [Hid Hnd]. unfold add_to_passive. rewrite Hn. cbn [deref mbind outcome_bind].
  pose proof (cache_inv_state (id :: L) k c id n 0 Hn ltac:(set_solver) Hc) as Hc1. pose proof (refs_set_state c id n 0 Hn) as Hr1.
  set (c1 := set_bnode (set_passive c (id :: passive_use c) (passive_use_count c + 1)) id (set_state n 0)).
  destruct Hc1 as [Hnd1 Hdom1 Ha1 Hp1 Hb1 Hac1 Hpc1].
  assert (Hmem : forall x, x ∈ L ++ active_use c ++ id :: passive_use c <-> x ∈ (id :: L) ++ active_use c ++ passive_use c) by set_solver.
  assert (Hdisj : id ∉ active_use c) by set_solver.
  assert (Hap : forall x, x ∈ passive_use c -> x ∉ active_use c).
  { intros x Hx Hx'. apply NoDup_app in Hnd as (_ & _ & Hnd). apply NoDup_app in Hnd as (_ & Hnd & _). by apply (Hnd x). }
  assert (Hidp : id ∉ passive_use c) by set_solver.
  assert (Hndc : NoDup (L ++ active_use c ++ id :: passive_use c)).
  { apply (NoDup_Permutation_proper _ ((id :: L) ++ active_use c ++ passive_use c)); [|done]. cbn [app].
    by rewrite <-!Permutation_middle. }
  assert (Hpass : forall x m, x ∈ id :: passive_use c -> bnodes c1 !! x = Some m -> state m = 0).
  { intros x m [->|Hx]%elem_of_cons Hm; [|by apply (Hp1 x)]. unfold c1 in Hm. cbn in Hm. rewrite lookup_insert_eq in Hm. by injection Hm as <-. }
  assert (Hdomc : forall x, is_Some (bnodes c1 !! x) <-> x ∈ L ++ active_use c ++ id :: passive_use c).
  { intros x. rewrite Hmem. apply Hdom1. }
  destruct (Z.ltb_spec VDFS2_PASSIVE_SIZE (passive_use_count c1)) as [Hlt|Hge].
  - (* the last one goes *)
    change (passive_use_count c1) with (passive_use_count c + 1) in Hlt. unfold VDFS2_PASSIVE_SIZE in *.
    assert (Hne : passive_use c <> []) by (intros Hn0; rewrite Hn0 in Hpc; simpl in Hpc; lia).
    set (c0 := set_passive c1 (id :: passive_use c) (passive_use_count c)).
    assert (Hc0 : cache_inv L k c0) by (split; try done; cbn [c0 set_passive passive_use_count passive_use length]; unfold VDFS2_PASSIVE_SIZE; lia).
    change (passive_use c1) with (id :: passive_use c). destruct (last (id :: passive_use c)) as [v|] eqn:Hv; [|by apply last_None in Hv].
    cbn [deref mbind outcome_bind]. assert (Hvt : v ∈ passive_use c) by (by apply (last_in_tail id)).
    assert (Hcount : forall c' j, vdfs2_put_cache_bnode (set_passive c' (passive_use c') (passive_use_count c' + j)) v =
      (c2 ← vdfs2_put_cache_bnode c' v; Ret (set_passive c2 (passive_use c2) (passive_use_count c2 + j)))).
    { intros c' j. unfold vdfs2_put_cache_bnode, unhash_bnode, remove_from_lru.
      change (bucket (set_passive c' (passive_use c') (passive_use_count c' + j)) v) with (bucket c' v). cbn.
      destruct (bnodes c' !! v) as [m|]; [|done]. cbn. destruct (state m =? 0); cbn; [|done]. do 3 f_equal. unfold free_bnode, set_passive. cbn. f_equal. lia. }
    destruct (put_cache_ok L k c0 v Hc0) as (c2 & Heq & Hc2 & Hbn & Hfr & Hal & Hpl & Hpcc & Hacc);
      [apply elem_of_app; right; by apply elem_of_cons; right|].
    change c1 with (set_passive c0 (passive_use c0) (passive_use_count c0 + 1)). rewrite Hcount, Heq. cbn [mbind outcome_bind].
    eexists. split; [done|]. split; [|split; [|split; [|split]]].
    + destruct Hc2 as [? ? ? ? ? ? ?]. split; cbn [set_passive bnodes active_use passive_use active_use_count passive_use_count]; try done. lia.
    + transitivity c1; [done|]. by apply (refs_delete c1 _ v).
    + cbn [set_passive passive_use]. rewrite Hpl. apply elem_of_list_del. split; [apply elem_of_cons; by left|]. by intros ->.
    + cbn [set_passive active_use]. rewrite Hal. by apply list_del_notin, Hap.
    + cbn [set_passive active_use_count]. rewrite Hacc, decide_False by (by apply Hap). cbn. lia.
  - exists c1. split; [done|]. change (passive_use_count c1) with (passive_use_count c + 1) in *. split; [|split; [done|split; [|done]]].
    + split; try done. change (passive_use c1) with (id :: passive_use c). change (passive_use_count c1) with (passive_use_count c + 1). simpl length. lia.
    + apply elem_of_cons; by left.
Qed.

Lemma remove_from_lru_refs c c' id : remove_from_lru c id = Ret c' -> bnodes c' = bnodes c.
Proof.
  unfold remove_from_lru. destruct (bnodes c !! id) as [n|]; [|done]. cbn [deref mbind outcome_bind]. intros [= <-]. by destruct (state n =? 0).
Qed.

(** The bnode is put in front of the active ones. *)
Definition activated (c : bnode_cache) (id : Z) (n : cached_bnode) : bnode_cache :=
  set_bnode (set_active c (id :: active_use c) (active_use_count c + 1)) id (set_state n 1).

Lemma activated_ok L k c id n :
  cache_inv (id :: L) k c -> bnodes c !! id = Some n ->
  cache_inv L k (activated c id n) /\ refs_kept c (activated c id n) /\ id ∉ active_use c /\ NoDup (active_use c).
Proof.
  intros Hc Hn. pose proof Hc as [Hnd Hdom Ha Hp Hb Hac Hpc]. apply NoDup_cons in Hnd as [Hid Hnd].
  destruct (cache_inv_state (id :: L) k c id n 1 Hn ltac:(set_solver) Hc) as [Hnd1 Hdom1 Ha1 Hp1 Hb1 Hac1 Hpc1].
  split; [|split; [by apply (refs_set_state c id n 1)|]].
  2: { apply NoDup_app in Hnd as (_ & _ & Hnd). apply NoDup_app in Hnd as (Hnd & _ & _). split; [set_solver|done]. }
  split; cbn [activated set_bnode set_active bnodes active_use passive_use active_use_count passive_use_count]; try done.
  - apply (NoDup_Permutation_proper _ ((id :: L) ++ active_use c ++ passive_use c)); [|done]. cbn [app]. by rewrite <-!Permutation_middle.
  - intros x. change (is_Some (bnodes (set_bnode c id (set_state n 1)) !! x) <-> x ∈ L ++ (id :: active_use c) ++ passive_use c).
    rewrite Hdom1. set_solver.
  - intros x m [->|Hx]%elem_of_cons Hm; [rewrite lookup_insert_eq in Hm; by injection Hm as <-|by apply (Ha1 x)].
  - simpl length. lia.
Qed.

(** The step of [add_to_active] that moves the last active bnode to the passive ones. *)
Lemma demote_last_ok L c deleting :
  cache_inv L 0 c -> deleting ∈ active_use c ->
  exists c', (c1 ← add_to_passive (set_active c (list_del deleting (active_use c)) (active_use_count c)) deleting;
              Ret (set_active c1 (active_use c1) (active_use_count c1 - 1))) = Ret c' /\
    cache_inv L 0 c' /\ refs_kept c c' /\ active_use c' = list_del deleting (active_use c) /\ active_use_count c' = active_use_count c - 1.
Proof.
  intros [Hnd Hdom Ha Hp Hb Hac Hpc] Hin. set (c0 := set_active c _ _).
  assert (Hnda : NoDup (active_use c)) by (apply NoDup_app in Hnd as (_ & _ & Hnd); by apply NoDup_app in Hnd as (Hnd & _)).
  assert (Hmem : forall x, x ∈ (deleting :: L) ++ list_del deleting (active_use c) ++ passive_use c <-> x ∈ L ++ active_use c ++ passive_use c).
  { intros x. cbn [app]. rewrite elem_of_cons, !elem_of_app, elem_of_list_del. destruct (decide (x = deleting)); naive_solver. }
  assert (Hc0 : cache_inv (deleting :: L) 1 c0).
  { split; cbn [c0 set_active bnodes active_use passive_use active_use_count passive_use_count]; try done.
    - apply (NoDup_lists L _ _ deleting) in Hnd; [|by apply elem_of_app; left].
      rewrite (list_del_notin deleting (passive_use c)) in Hnd; [done|].
      intros Hpd. apply NoDup_app in Hnd as (_ & _ & _). clear -Hdom Ha Hp Hin Hpd.
      destruct (proj2 (Hdom deleting)) as [n Hn]; [rewrite !elem_of_app; by right; left|].
      by apply (Ha deleting n Hin Hn), (Hp deleting n Hpd Hn).
    - intros x. by rewrite Hmem.
    - intros x m [Hx _]%elem_of_list_del. by apply Ha.
    - rewrite length_list_del by done. lia. }
  destruct (add_to_passive_ok L 1 c0 deleting Hc0) as (c1 & Heq & Hc1 & Hr & _ & Hal & Hacc). rewrite Heq. cbn [mbind outcome_bind].
  eexists. split; [done|]. split; [|split; [done|split; [done|]]].
  - destruct Hc1 as [? ? ? ? ? ? ?]. split; cbn [set_active bnodes active_use passive_use active_use_count passive_use_count]; try done. lia.
  - cbn [set_active active_use_count]. by rewrite Hacc.
Qed.

Lemma add_to_active_eq fuel c id n :
  bnodes c !! id = Some n ->
  add_to_active (S fuel) c id =
    (let c1 := activated c id n in
     if VDFS2_ACTIVE_SIZE <? active_use_count c + 1 then
       deleting ← deref (last (id :: active_use c));
       if deleting =? 0 then c2 ← remove_from_lru c1 deleting; add_to_active fuel c2 deleting
       else c2 ← add_to_passive (set_active c1 (list_del deleting (active_use c1)) (active_use_count c1)) deleting;
            Ret (set_active c2 (active_use c2) (active_use_count c2 - 1))
     else Ret c1).
Proof. intros Hn. cbn [add_to_active]. by rewrite Hn. Qed.

(** A list that is full is not empty. *)
Lemma full_last L c id v :
  cache_inv L 0 c -> VDFS2_ACTIVE_SIZE < active_use_count c + 1 -> last (id :: active_use c) = Some v -> v ∈ active_use c.
Proof.
  intros Hc Hlt Hv. apply (last_in_tail id); [done|]. intros Hn0. pose proof (ci_acount _ _ _ Hc) as Hl. rewrite Hn0 in Hl. cbn in Hl.
  unfold VDFS2_ACTIVE_SIZE in *. lia.
Qed.

(** One turn of [add_to_active], when the last active bnode is not the head bnode. *)
Lemma add_to_active_turn L fuel c id :
  cache_inv (id :: L) 0 c -> active_use_count c <= VDFS2_ACTIVE_SIZE ->
  (VDFS2_ACTIVE_SIZE < active_use_count c + 1 -> last (id :: active_use c) <> Some 0) ->
  exists c', add_to_active (S fuel) c id = Ret c' /\ cache_inv L 0 c' /\ active_use_count c' <= VDFS2_ACTIVE_SIZE /\ refs_kept c c' /\
    id ∈ active_use c' /\ forall x, x ∈ active_use c -> last (id :: active_use c) <> Some x -> x ∈ active_use c'.
Proof.
  intros Hc Hcnt Hlast. pose proof (ci_dom _ _ _ Hc id) as Hd. destruct (proj2 Hd) as [n Hn]; [set_solver|].
  rewrite (add_to_active_eq _ _ _ n Hn). destruct (activated_ok L 0 c id n Hc Hn) as (Hc1 & Hr1 & Hid & Hnda).
  set (c1 := activated c id n) in *. cbv zeta.
  destruct (Z.ltb_spec VDFS2_ACTIVE_SIZE (active_use_count c + 1)) as [Hlt|Hge].
  - destruct (last (id :: active_use c)) as [v|] eqn:Hv; [|by apply last_None in Hv]. cbn [deref mbind outcome_bind].
    rewrite (proj2 (Z.eqb_neq v 0)) by (intros ->; by apply Hlast). pose proof (full_last _ c id v Hc Hlt Hv) as Hva.
    destruct (demote_last_ok L c1 v Hc1) as (c2 & Heq & Hc2 & Hr2 & Hal & Hacc); [by apply elem_of_cons; right|].
    rewrite Heq. change (active_use c1) with (id :: active_use c) in *. change (active_use_count c1) with (active_use_count c + 1) in *.
    exists c2. split; [done|]. split; [done|]. split; [lia|]. split; [by transitivity c1|]. split.
    + rewrite Hal. apply elem_of_list_del. split; [by apply elem_of_cons; left|]. by intros ->.
    + intros x Hx Hxv. rewrite Hal. apply elem_of_list_del. split; [by apply elem_of_cons; right|]. by intros ->.
  - exists c1. split; [done|]. split; [done|]. split; [exact Hge|]. split; [done|]. split; [by apply elem_of_cons; left|].
    intros x Hx _. by apply elem_of_cons; right.
Qed.

(** The head bnode is put in front again, and then another one goes. *)
Lemma add_to_active_ok L c id :
  cache_inv (id :: L) 0 c -> active_use_count c <= VDFS2_ACTIVE_SIZE ->
  exists c', add_to_active 2 c id = Ret c' /\ cache_inv L 0 c' /\ active_use_count c' <= VDFS2_ACTIVE_SIZE /\ refs_kept c c' /\ id ∈ active_use c'.
Proof.
  intros Hc Hcnt. destruct (decide (VDFS2_ACTIVE_SIZE < active_use_count c + 1 /\ last (id :: active_use c) = Some 0)) as [[Hlt Hl0]|Hno].
  2: { destruct (add_to_active_turn L 1 c id Hc Hcnt) as (c' & ? & ? & ? & ? & ? & _); [naive_solver|]. by exists c'. }
  pose proof (ci_dom _ _ _ Hc id) as Hd. destruct (proj2 Hd) as [n Hn]; [set_solver|]. rewrite (add_to_active_eq 1 c id n Hn).
  destruct (activated_ok L 0 c id n Hc Hn) as (Hc1 & Hr1 & Hid & Hnda). set (c1 := activated c id n) in *. cbv zeta.
  rewrite (proj2 (Z.ltb_lt _ _)), Hl0 by done. cbn [deref mbind outcome_bind]. rewrite Z.eqb_refl.
  pose proof (full_last _ c id 0 Hc Hlt Hl0) as H0. pose proof (ci_acount _ _ _ Hc) as Hlen. unfold VDFS2_ACTIVE_SIZE in *.
  destruct (remove_from_lru_ok L 0 c1 0 Hc1) as (c2 & Heq & Hc2 & Hbn & _ & Hal & _ & _ & _ & Hacc); [apply elem_of_app; left; by apply elem_of_cons; right|].
  rewrite Heq. cbn [mbind outcome_bind]. change (active_use c1) with (id :: active_use c) in *.
  change (active_use_count c1) with (active_use_count c + 1) in *. rewrite decide_True in Hacc by (by apply elem_of_cons; right).
  assert (Hal' : active_use c2 = id :: list_del 0 (active_use c)).
  { rewrite Hal. unfold list_del. rewrite filter_cons_True; [done|]. by intros ->. }
  assert (Hrest : 2 <= Z.of_nat (length (list_del 0 (active_use c)))) by (rewrite length_list_del by done; lia).
  destruct (list_del 0 (active_use c)) as [|y rest] eqn:Hy; [cbn in Hrest; lia|].
  destruct (last (y :: rest)) as [v|] eqn:Hv; [|by apply last_None in Hv].
  assert (Hlast2 : last (0 :: active_use c2) = Some v) by (by rewrite Hal', !last_cons_cons).
  pose proof (last_Some_elem_of _ _ Hv) as Hvin. rewrite <-Hy in Hvin. apply elem_of_list_del in Hvin as [Hvin Hv0].
  destruct (add_to_active_turn L 0 c2 0 Hc2) as (c3 & Heq3 & Hc3 & Hcnt3 & Hr3 & _ & Hin3).
  { unfold VDFS2_ACTIVE_SIZE. lia. }
  { intros _. rewrite Hlast2. congruence. }
  exists c3. split; [exact Heq3|]. split; [done|]. split; [done|]. split.
  - transitivity c1; [done|]. transitivity c2; [|done]. intros x m Hx. rewrite Hbn in Hx. by exists m.
  - apply Hin3; [rewrite Hal'; by apply elem_of_cons; left|]. rewrite Hlast2. intros [= ->]. done.
Qed.

Lemma cache_inv_dom k c id : cache_inv [] k c -> (is_Some (bnodes c !! id) <-> id ∈ active_use c \/ id ∈ passive_use c).
Proof. intros Hc. rewrite (ci_dom _ _ _ Hc). cbn [app]. apply elem_of_app. Qed.

Lemma passive_to_active_ok c id :
  cache_ok c -> id ∈ passive_use c ->
  exists c', passive_to_active c id = Ret c' /\ cache_ok c' /\ refs_kept c c' /\ id ∈ active_use c'.
Proof.
  intros [Hc Hcnt] Hin. unfold passive_to_active.
  destruct (remove_from_lru_ok [] 0 c id Hc) as (c1 & -> & Hc1 & Hbn & _ & _ & _ & _ & _ & Hacc); [by apply elem_of_app; right|].
  cbn [mbind outcome_bind]. destruct (add_to_active_ok [] c1 id Hc1) as (c2 & Heq & Hc2 & Hcnt2 & Hr & Hin2); [case_decide; lia|].
  exists c2. split; [done|]. split; [done|]. split; [|done]. intros x m Hx. destruct (Hr x m Hx) as (n & Hn & ?). rewrite Hbn in Hn. by exists n.
Qed.

(** A bnode that was just read. *)
Lemma hash_bnode_ok c id n :
  cache_ok c -> bnodes c !! id = None ->
  exists c', hash_bnode (set_bnode c id n) id = Ret c' /\ cache_ok c' /\ refs_kept (set_bnode c id n) c' /\ is_Some (bnodes c' !! id).
Proof.
  intros [Hc Hcnt] Hnone. unfold hash_bnode. set (c0 := set_hash _ _). pose proof Hc as [Hnd Hdom Ha Hp Hb Hac Hpc].
  assert (Hout : id ∉ active_use c ++ passive_use c) by (intros Hin; destruct (proj2 (Hdom id)) as [m Hm]; [done|by rewrite Hnone in Hm]).
  assert (Hc0 : cache_inv [id] 0 c0).
  { split; cbn [c0 set_hash set_bnode bnodes active_use passive_use active_use_count passive_use_count]; try done.
    - by apply NoDup_cons.
    - intros x. rewrite lookup_insert_is_Some', Hdom. cbn [app]. rewrite elem_of_cons. naive_solver.
    - intros x m Hx. rewrite lookup_insert_ne by (intros ->; apply Hout, elem_of_app; by left). by apply Ha.
    - intros x m Hx. rewrite lookup_insert_ne by (intros ->; apply Hout, elem_of_app; by right). by apply Hp.
    - intros x. unfold c0. rewrite bucket_set_hash, lookup_insert_is_Some'. change (bucket (set_bnode c id n)) with (bucket c).
      rewrite <-Hb. destruct (decide (bnode_hash_fn x = bnode_hash_fn id)) as [Hd|Hd].
      + rewrite elem_of_cons. unfold bucket. rewrite Hd. naive_solver.
      + split; [naive_solver|]. intros [->|]; [done|done]. }
  destruct (Z.eqb_spec id 0) as [Hz|Hz].
  - destruct (add_to_active_ok [] c0 id Hc0 Hcnt) as (c' & Heq & Hc' & Hcnt' & Hr & Hin). exists c'. split; [done|]. split; [done|].
    split; [done|]. apply (cache_inv_dom 0); [done|by left].
  - destruct (add_to_passive_ok [] 0 c0 id Hc0) as (c' & Heq & Hc' & Hr & Hin & _ & Hacc). exists c'. split; [done|].
    split; [split; [done|by rewrite Hacc]|]. split; [done|]. apply (cache_inv_dom 0); [done|by right].
Qed.

(** A bnode that changes its mode and its references only. *)
Lemma cache_ok_refs c id n n' :
  cache_ok c -> bnodes c !! id = Some n -> state n' = state n -> cache_ok (set_bnode c id n').
Proof.
  intros [[Hnd Hdom Ha Hp Hb Hac Hpc] Hcnt] Hn Hst. split; [|done].
  split; cbn [set_bnode bnodes active_use passive_use active_use_count passive_use_count]; try done.
  - intros x. rewrite <-Hdom, lookup_insert_is_Some'. destruct (decide (x = id)) as [->|]; naive_solver.
  - intros x m Hx Hm. apply lookup_insert_Some in Hm as [[<- <-]|[_ Hm]]; [rewrite Hst; by apply (Ha id)|by apply (Ha x)].
  - intros x m Hx Hm. apply lookup_insert_Some in Hm as [[<- <-]|[_ Hm]]; [rewrite Hst; by apply (Hp id)|by apply (Hp x)].
  - intros x. change (bucket (set_bnode c id n') x) with (bucket c x). rewrite Hb, lookup_insert_is_Some'.
    destruct (decide (x = id)) as [->|]; naive_solver.
Qed.

(** The other bnodes that stay keep their references. *)
Definition others_kept (id : Z) (c c' : bnode_cache) : Prop :=
  forall x n', x <> id -> bnodes c' !! x = Some n' -> exists n, bnodes c !! x = Some n /\ ref_count n' = ref_count n /\ mode n' = mode n.

Lemma refs_others id c c' : refs_kept c c' -> others_kept id c c'.
Proof. intros H x n' _ Hx. by apply H. Qed.

Lemma others_set_l id c c' n : others_kept id (set_bnode c id n) c' -> others_kept id c c'.
Proof. intros H x n' Hne Hx. destruct (H x n' Hne Hx) as (m & Hm & ?). cbn in Hm. rewrite lookup_insert_ne in Hm by done. by exists m. Qed.

Lemma others_set_r id c c' n : others_kept id c c' -> others_kept id c (set_bnode c' id n).
Proof. intros H x n' Hne Hx. cbn in Hx. rewrite lookup_insert_ne in Hx by done. by apply H. Qed.

Lemma get_bnode_ok b c id md got :
  cache_ok c -> id_in_use b id = true -> (forall n, bnodes c !! id = Some n -> md = VDFS2_BNODE_MODE_RW -> ref_count n <= 1) ->
  exists r c', vdfs2_get_bnode b c id md got = Ret (r, c') /\ cache_ok c' /\ others_kept id c c' /\
    r = (if bool_decide (is_Some (bnodes c !! id)) then 0 else got) /\
    (r = 0 -> exists n', bnodes c' !! id = Some n' /\ mode n' = md /\
       ref_count n' = default 0 (ref_count <$> bnodes c !! id) + 1).
Proof.
  intros Hc Huse Hrefs. unfold vdfs2_get_bnode. rewrite Huse. cbn [negb]. unfold get_bnode_from_hash.
  pose proof (ci_bucket _ _ _ (proj1 Hc) id) as Hb. destruct (bnodes c !! id) as [n|] eqn:Hn.
  - rewrite (bool_decide_true (id ∈ bucket c id)) by (by apply Hb). rewrite (bool_decide_true (is_Some (Some n))) by done. cbn [deref mbind outcome_bind]. cbn [state].
    set (n1 := CachedBnode md (ref_count n) (state n)). set (c1 := set_bnode c id n1).
    assert (Hc1 : cache_ok c1) by (by apply (cache_ok_refs c id n n1)).
    assert (Hfin : forall c2, cache_ok c2 -> refs_kept c1 c2 -> is_Some (bnodes c2 !! id) -> exists r c',
      (if negb true then if negb (got =? 0) then Ret (got, c2) else c3 ← hash_bnode (set_bnode c2 id (CachedBnode md 1 0)) id; Ret (0, c3)
       else n ← deref (bnodes c2 !! id);
            let val := ref_count n + 1 in
            _ ← BUG_ON (bool_decide (md = VDFS2_BNODE_MODE_RW) && (2 <? val));
            Ret (0, set_bnode c2 id (CachedBnode (mode n) val (state n)))) = Ret (r, c') /\ cache_ok c' /\ others_kept id c c' /\
       r = 0 /\ (r = 0 -> exists n', bnodes c' !! id = Some n' /\ mode n' = md /\ ref_count n' = ref_count n + 1)).
    { intros c2 Hc2 Hr [n2 Hn2]. destruct (Hr id n2 Hn2) as (n0 & Hn0 & Hrc & Hmd). cbn in Hn0. rewrite lookup_insert_eq in Hn0.
      injection Hn0 as <-. cbn in Hrc, Hmd. cbn [negb]. rewrite Hn2. cbn [deref mbind outcome_bind]. cbv zeta. rewrite Hrc.
      assert (Hbug : bool_decide (md = VDFS2_BNODE_MODE_RW) && (2 <? ref_count n + 1) = false).
      { case_bool_decide as Hmode; [|done]. cbn [andb]. apply Z.ltb_ge. specialize (Hrefs n eq_refl Hmode). lia. }
      rewrite Hbug. cbn [BUG_ON mbind outcome_bind]. eexists _, _. split; [done|]. split; [by apply (cache_ok_refs c2 id n2)|].
      split; [by apply others_set_r, (others_set_l id c c2 n1), refs_others|]. split; [done|]. intros _.
      eexists. split; [cbn; by rewrite lookup_insert_eq|]. split; [done|]. cbn. lia. }
    destruct (Z.eqb_spec (state n) 0) as [Hst|Hst].
    + destruct (passive_to_active_ok c1 id Hc1) as (c2 & -> & Hc2 & Hr & Hin).
      { destruct (proj1 (cache_inv_dom 0 c id (proj1 Hc))) as [Hin|Hin]; [by exists n| |done]. by destruct (ci_active _ _ _ (proj1 Hc) id n Hin Hn). }
      cbn [mbind outcome_bind]. apply Hfin; [done|done|]. apply (cache_inv_dom 0); [apply Hc2|by left].
    + cbn [mbind outcome_bind]. apply Hfin; [done|done|]. cbn. rewrite lookup_insert_eq. by eexists.
  - rewrite (bool_decide_false (id ∈ bucket c id)) by (intros Hin; apply Hb in Hin; by destruct Hin).
    rewrite (bool_decide_false (is_Some None)) by (by intros []).
    cbn [deref mbind outcome_bind negb]. destruct (Z.eqb_spec got 0) as [->|Hg]; cbn [negb].
    + destruct (hash_bnode_ok c id (CachedBnode md 1 0) Hc Hn) as (c' & -> & Hc' & Hr & [n' Hn']). cbn [mbind outcome_bind].
      exists 0, c'. split; [done|]. split; [done|]. split; [by apply (others_set_l id c c' (CachedBnode md 1 0)), refs_others|].
      split; [done|]. intros _. exists n'. destruct (Hr id n' Hn') as (n0 & Hn0 & Hrc & Hmd). cbn in Hn0. rewrite lookup_insert_eq in Hn0.
      injection Hn0 as <-. done.
    + exists got, c. split; [done|]. split; [done|]. split; [by apply refs_others|]. split; [done|]. by intros.
Qed.
