(* ===== verification/BnodeTheorems.v ===== *)
(** * The properties of the bnodes in memory and of the bnode ids *)
From Stdlib Require Import ZArith Lia.
From stdpp Require Import base numbers list sets gmap.
From S2P Require Import Prelude Bits BitsFacts Bytes BtreeNode Bnode BnodeIds BnodeFacts.

(** The bitmap and the lists are consistent, and only allocated bnodes are in memory. *)
Definition bnodes_ok (b : vdfs2_bnode_bitmap) (c : bnode_cache) : Prop :=
  ids_ok b /\ cache_ok c /\ 0 < bits_num b /\ used_id b 0 = true /\ forall id, is_Some (bnodes c !! id) -> 0 <= id < bits_num b /\ used_id b id = true.

Definition refs (c : bnode_cache) (id : Z) : Z := default 0 (ref_count <$> bnodes c !! id).

(** ** Examples *)

Definition ids_ex : vdfs2_bnode_bitmap := BnodeBitmap [7; 0] 16 0 16 3 13.
Definition cache_ex : bnode_cache :=
  BnodeCache {[ 0 := CachedBnode VDFS2_BNODE_MODE_RW 1 1; 1 := CachedBnode VDFS2_BNODE_MODE_RW 1 0 ]}
    {[ 0 := [0]; 1 := [1] ]} [0] [1] 1 1 [].

Lemma ids_ex_ok : ids_ok ids_ex.
Proof.
  split; try (vm_compute; intuition congruence).
  intros p Hp. cbn in Hp. assert (p = 0 \/ p = 1 \/ p = 2) as [->|[->| ->]] by lia; by vm_compute.
Qed.

Lemma bnodes_ex_ok : bnodes_ok ids_ex cache_ex.
Proof.
  assert (Hdom : forall id, is_Some (bnodes cache_ex !! id) <-> id = 0 \/ id = 1).
  { intros id. cbn [bnodes cache_ex]. rewrite lookup_insert_is_Some', lookup_singleton_is_Some. naive_solver. }
  split; [apply ids_ex_ok|]. split; [|split; [done|split; [done|]]].
  2: { intros id [->| ->]%Hdom; by vm_compute. }
  split; [|by vm_compute]. split; cbn [active_use passive_use cache_ex].
  - cbn [app]. rewrite !NoDup_cons, !not_elem_of_cons. repeat split; try done; try apply not_elem_of_nil. apply NoDup_nil_2.
  - intros id. rewrite Hdom. cbn [app]. rewrite !elem_of_cons. pose proof (not_elem_of_nil id). naive_solver.
  - intros id n ->%list_elem_of_singleton Hn. vm_compute in Hn. by injection Hn as <-.
  - intros id n ->%list_elem_of_singleton Hn. vm_compute in Hn. by injection Hn as <-.
  - intros id. rewrite Hdom. split.
    + unfold bucket. cbn [hash_table cache_ex]. intros Hin. destruct (decide (bnode_hash_fn id = 0)) as [E|H0].
      { rewrite E in Hin. vm_compute in Hin. apply list_elem_of_singleton in Hin. by left. }
      rewrite lookup_insert_ne in Hin by done. destruct (decide (bnode_hash_fn id = 1)) as [E|H1].
      { rewrite E in Hin. vm_compute in Hin. apply list_elem_of_singleton in Hin. by right. }
      rewrite lookup_singleton_ne in Hin by done. by apply not_elem_of_nil in Hin.
    + intros [->| ->]; vm_compute; apply elem_of_cons; by left.
  - by vm_compute.
  - by vm_compute.
Qed.

(** ** The ids *)



(** ** The bnodes in memory *)

Lemma others_refs id c c' x : others_kept id c c' -> x <> id -> is_Some (bnodes c' !! x) -> refs c' x = refs c x.
Proof. intros H Hne [n' Hn']. destruct (H x n' Hne Hn') as (n & Hn & Hr & _). unfold refs. rewrite Hn, Hn'. cbn. done. Qed.



Lemma unused_not_in_memory b c id : bnodes_ok b c -> used_id b id = false -> bnodes c !! id = None.
Proof.
  intros (_ & _ & _ & _ & Hdom) Hu. destruct (bnodes c !! id) as [n|] eqn:Hn; [|done].
  destruct (Hdom id) as [_ Hu']; [by exists n|]. congruence.
Qed.

(** C30: [vdfs2_alloc_new_bnode] gives a bnode that was neither allocated nor in
    memory, with one reference, and changes nothing in the lists when it fails;
    [vdfs2_destroy_bnode] on the only reference takes the bnode out of memory,
    frees its id once and leaves bitmap, hash table and lists consistent. *)
Theorem alloc_destroy_correct `{HS : !BitSearch} `{HL : !BitSearchLaws} b c got mount_finished :
  bnodes_ok b c ->
  (exists r b' c', vdfs2_alloc_new_bnode b c got = Ret (r, b', c') /\ bnodes_ok b' c' /\
    match r with
    | PTR id => used_id b id = false /\ used_id b' id = true /\ bnodes c !! id = None /\ refs c' id = 1 /\
        forall x, x <> id -> is_Some (bnodes c' !! x) -> refs c' x = refs c x
    | ERR_PTR e => c' = c /\ forall p, 0 <= p -> used_id b' p = used_id b p
    end) /\
  (forall id, is_Some (bnodes c !! id) -> id <> 0 -> refs c id = 1 ->
    exists b' c', vdfs2_destroy_bnode mount_finished b c id = Ret (0, b', c') /\ bnodes_ok b' c' /\ bnodes c' !! id = None /\
      used_id b' id = false /\ freed c' = id :: freed c /\ forall x, x <> id -> bnodes c' !! x = bnodes c !! x).
Proof.
  intros Hok. pose proof Hok as (Hb & Hc & Hpos & Hz & Hdom). split.
  - unfold vdfs2_alloc_new_bnode. pose proof (alloc_id_ok b got Hb) as Ha. case_decide as Hfull.
    { destruct Ha as [-> _]. cbn [mbind outcome_bind]. exists (ERR_PTR (- ENOSPC)), b, c. by split. }
    destruct Ha as (b' & Hid & Hu & Hb' & Hbits & Ha). set (id := first_free_id b) in *. case_decide as Hg.
    + destruct Ha as (-> & _ & Hp). cbn [mbind outcome_bind]. pose proof (unused_not_in_memory b c id Hok Hu) as Hnone.
      destruct (hash_bnode_ok c id (CachedBnode VDFS2_BNODE_MODE_RW 1 0) Hc Hnone) as (c' & -> & Hc' & Hr & [n' Hn']).
      cbn [mbind outcome_bind]. pose proof (others_set_l id c c' _ (refs_others id _ _ Hr)) as Ho.
      exists (PTR id), b', c'. split; [done|]. split.
      * split; [done|]. split; [done|]. rewrite Hbits, Hp by lia. split; [done|]. split; [by case_decide|]. intros x [n Hn].
        destruct (decide (x = id)) as [->|Hne]; [split; [lia|]; rewrite Hp by lia; by rewrite decide_True|].
        destruct (Ho x n Hne Hn) as (n0 & Hn0 & _). destruct (Hdom x) as [Hx Hux]; [by exists n0|]. split; [done|].
        rewrite Hp by lia. by case_decide.
      * split; [done|]. split; [rewrite Hp by lia; by rewrite decide_True|]. split; [done|]. split; [|intros x Hne; by apply (others_refs id)].
        destruct (Hr id n' Hn') as (n0 & Hn0 & Hrc & _). cbn in Hn0. rewrite lookup_insert_eq in Hn0. injection Hn0 as <-.
        unfold refs. rewrite Hn'. exact Hrc.
    + destruct Ha as (-> & Hp). cbn [mbind outcome_bind]. exists (ERR_PTR (got id)), b', c. split; [done|]. split; [|done].
      split; [done|]. split; [done|]. rewrite Hbits, Hp by lia. split; [done|]. split; [done|]. intros x Hx.
      destruct (Hdom x Hx) as [? ?]. rewrite Hp by lia. done.
  - intros id [n Hn] Hne Hr. unfold refs in Hr. rewrite Hn in Hr. cbn in Hr. destruct (Hdom id) as [Hid Hu]; [by exists n|].
    unfold vdfs2_destroy_bnode. change VDFS2_INVALID_NODE_ID with 0. rewrite (proj2 (Z.eqb_neq _ _)) by done.
    cbn [BUG_ON mbind outcome_bind]. rewrite Hn. cbn [deref mbind outcome_bind]. rewrite Hr. cbn [BUG_ON negb mbind outcome_bind].
    set (n1 := CachedBnode _ _ _). pose proof (cache_ok_refs c id n n1 Hc Hn eq_refl) as [Hc1 Hcnt].
    destruct (put_cache_ok [] 0 _ id Hc1) as (c' & -> & Hc' & Hbn & Hfr & _ & _ & _ & Hac).
    { apply elem_of_app, (cache_inv_dom 0); [exact Hc1|]. cbn. rewrite lookup_insert_eq. by eexists. }
    cbn [mbind outcome_bind]. destruct (free_id_ok mount_finished b id Hb Hid Hu) as (b' & -> & Hb' & Hbits & _ & Hp). cbn [mbind outcome_bind].
    assert (Hbn' : forall x, x <> id -> bnodes c' !! x = bnodes c !! x).
    { intros x Hx. rewrite Hbn, lookup_delete_ne by done. cbn. by rewrite lookup_insert_ne. }
    exists b', c'. split; [done|]. split; [|split; [by rewrite Hbn, lookup_delete_eq|split; [rewrite Hp by lia; by rewrite decide_True|done]]].
    split; [done|]. split; [split; [done|]|].
    { cbn in Hcnt, Hac. rewrite Hac. case_decide; lia. }
    rewrite Hbits, Hp by lia. split; [done|]. split; [by rewrite decide_False by done|]. intros x Hx.
    destruct (decide (x = id)) as [->|Hxne]; [by rewrite Hbn, lookup_delete_eq in Hx; destruct Hx|].
    rewrite Hbn' in Hx by done. destruct (Hdom x Hx). split; [done|]. rewrite Hp by lia. by rewrite decide_False by done.
Qed.

Lemma alloc_destroy_correct_witness :
  exists b' c', vdfs2_destroy_bnode true ids_ex cache_ex 1 = Ret (0, b', c') /\ bnodes_ok b' c' /\ bnodes c' !! 1 = None /\
    used_id b' 1 = false /\ freed c' = [1] /\ forall x, x <> 1 -> bnodes c' !! x = bnodes cache_ex !! x.
Proof.
  apply (proj2 (alloc_destroy_correct (HS := linear_search) ids_ex cache_ex (fun _ => 0) true bnodes_ex_ok) 1); [by eexists|done|done].
Defined.

(** C31: a bnode in use can be freed.  When the passive list is full, reading another
    bnode frees the last one of the list whatever its references; and the counter,
    which goes down by two, is one less than the length of the list afterwards. *)
Theorem eviction_ignores_references b c id victim n md :
  id <> 0 -> id_in_use b id = true -> id ∉ bucket c id -> NoDup (passive_use c) -> id ∉ passive_use c ->
  passive_use_count c = VDFS2_PASSIVE_SIZE -> last (passive_use c) = Some victim -> bnodes c !! victim = Some n -> state n = 0 ->
  exists c', vdfs2_get_bnode b c id md 0 = Ret (0, c') /\ bnodes c' !! victim = None /\ freed c' = victim :: freed c /\
    passive_use_count c' = VDFS2_PASSIVE_SIZE - 1 /\ length (passive_use c') = length (passive_use c).
Proof.
  intros Hid Hu Hbk Hnd Hidp Hcnt Hlast Hn Hst. unfold vdfs2_get_bnode. rewrite Hu. cbn [negb]. unfold get_bnode_from_hash.
  rewrite (bool_decide_false (id ∈ bucket c id)) by done.
  cbn [mbind outcome_bind negb]. rewrite Z.eqb_refl. cbn [negb]. unfold hash_bnode. rewrite (proj2 (Z.eqb_neq _ _)) by done.
  set (c0 := set_hash _ _). pose proof (last_Some_elem_of _ _ Hlast) as Hin.
  assert (Hvid : victim <> id) by (by intros ->).
  unfold add_to_passive. assert (H0 : bnodes c0 !! id = Some (CachedBnode md 1 0)) by (cbn; by rewrite lookup_insert_eq).
  rewrite H0. cbn [deref mbind outcome_bind]. cbn [set_bnode set_passive passive_use_count passive_use].
  change (passive_use_count c0) with (passive_use_count c). change (passive_use c0) with (passive_use c). rewrite Hcnt.
  change (VDFS2_PASSIVE_SIZE <? VDFS2_PASSIVE_SIZE + 1) with true. cbn iota.
  assert (Hl : last (id :: passive_use c) = Some victim) by (destruct (passive_use c); [done|by rewrite last_cons_cons]).
  rewrite Hl. cbn [deref mbind outcome_bind]. unfold vdfs2_put_cache_bnode, unhash_bnode. rewrite remove_set_hash.
  unfold remove_from_lru. cbn [bnodes set_bnode set_passive c0 set_hash]. rewrite !lookup_insert_ne, Hn by done.
  cbn [deref mbind outcome_bind]. rewrite Hst, Z.eqb_refl. cbn [mbind outcome_bind]. eexists. split; [done|].
  cbn [set_passive free_bnode set_hash bnodes freed passive_use_count passive_use set_active].
  split; [apply lookup_delete_eq|]. split; [done|]. split; [cbn; lia|].
  change (passive_use (set_bnode _ _ _)) with (id :: passive_use c). unfold list_del. rewrite filter_cons_True by done. fold (list_del victim (passive_use c)).
  pose proof (length_list_del victim (passive_use c) Hnd Hin). assert (0 < length (passive_use c))%nat by (destruct (passive_use c); [done|simpl; lia]).
  simpl length. lia.
Qed.

Definition full_cache_ex : bnode_cache :=
  BnodeCache (list_to_map ((fun id => (id, CachedBnode VDFS2_BNODE_MODE_RW 1 0)) <$> seqZ 1 1024)) ∅ [] (seqZ 1 1024) 0 1024 [].

Lemma eviction_ignores_references_witness :
  exists c', vdfs2_get_bnode (BnodeBitmap (replicate 256 255) 2048 0 2048 2048 0) full_cache_ex 2000 VDFS2_BNODE_MODE_RW 0 = Ret (0, c') /\
    bnodes c' !! 1024 = None /\ freed c' = [1024] /\ passive_use_count c' = VDFS2_PASSIVE_SIZE - 1 /\
    length (passive_use c') = length (passive_use full_cache_ex).
Proof.
  apply (eviction_ignores_references _ full_cache_ex 2000 1024 (CachedBnode VDFS2_BNODE_MODE_RW 1 0) VDFS2_BNODE_MODE_RW).
  - done.
  - by vm_compute.
  - apply not_elem_of_nil.
  - apply NoDup_seqZ.
  - unfold full_cache_ex. cbn [passive_use]. rewrite elem_of_seqZ. lia.
  - done.
  - by vm_compute.
  - by vm_compute.
  - done.
Defined.
