(* ===== verification/Btree.v ===== *)
(** * The metadata trees ([btree.c]): search, insertion and removal

    The bnodes are named by their ids and live in a store; the kernel services
    that can fail (reading a page, allocating memory) take their answers from a
    list, 0 for success, and succeed when the list is at its end.  The code is the
    one the kernel runs ([USER_SPACE] is not set).  The reference counts of the
    bnodes are those of [Bnode]; here a bnode that was read stays readable. *)
From Stdlib Require Import ZArith Lia.
From stdpp Require Import base numbers list gmap.
From S2P Require Import Prelude Bits Bytes BtreeNode Bnode.

Definition VDFS2_BTREE_LEAF_LVL : Z := 1.

Record vdfs2_btree := Btree {
  store : gmap Z vdfs2_bnode;
  ids : vdfs2_bnode_bitmap;
  root_bnode_id : Z;
  btree_height : Z;
  last_table_index : Z;  (* of the special file of the tree *)
  answers : list Z;
}.

Definition set_store (t : vdfs2_btree) s := Btree s (ids t) (root_bnode_id t) (btree_height t) (last_table_index t) (answers t).
Definition set_bitmap (t : vdfs2_btree) b := Btree (store t) b (root_bnode_id t) (btree_height t) (last_table_index t) (answers t).
Definition set_root (t : vdfs2_btree) r h := Btree (store t) (ids t) r h (last_table_index t) (answers t).
Definition set_answers (t : vdfs2_btree) a := Btree (store t) (ids t) (root_bnode_id t) (btree_height t) (last_table_index t) a.

Definition set_last (t : vdfs2_btree) l := Btree (store t) (ids t) (root_bnode_id t) (btree_height t) l (answers t).

(** ** Operations on the state of a tree *)

Definition bt (A : Type) : Type := vdfs2_btree -> outcome (A * vdfs2_btree).
#[export] Instance bt_ret : MRet bt := fun _ a t => Ret (a, t).
#[export] Instance bt_bind : MBind bt := fun _ _ f m t => '(a, t) ← m t; f a t.

Definition lift {A} (m : outcome A) : bt A := fun t => a ← m; Ret (a, t).
Definition bug {A} : bt A := fun _ => Bug.
Definition get_tree : bt vdfs2_btree := fun t => Ret (t, t).
Definition modify (f : vdfs2_btree -> vdfs2_btree) : bt unit := fun t => Ret (tt, f t).
Definition ok {A} (a : A) : bt (err_ptr A) := mret (PTR a).
Definition err {A} (e : Z) : bt (err_ptr A) := mret (ERR_PTR e).

(** Go on with a pointer, give an error back. *)
Definition bind_ptr {A B} (m : bt (err_ptr A)) (f : A -> bt (err_ptr B)) : bt (err_ptr B) :=
  r ← m; match r with PTR a => f a | ERR_PTR e => err e end.
Notation "x ←? m ; k" := (bind_ptr m (fun x => k)) (at level 20, m at level 100, k at level 200, only parsing).
Notation "' x ←? m ; k" := (bind_ptr m (fun x => k)) (at level 20, x pattern, m at level 100, k at level 200, only parsing).

(** The next answer of the kernel. *)
Definition ask : bt Z := fun t =>
  match answers t with
  | [] => Ret (0, t)
  | a :: rest => Ret (a, set_answers t rest)
  end.

Definition node (id : Z) : bt vdfs2_bnode := fun t => n ← deref (store t !! id); Ret (n, t).
Definition put_node (id : Z) (n : vdfs2_bnode) : bt unit := modify (fun t => set_store t (<[id := n]> (store t))).
Definition root_id : bt Z := fun t => Ret (root_bnode_id t, t).
Definition height : bt Z := fun t => Ret (btree_height t, t).

(** Reading a page behind the end of the special file makes the file longer
    ([vdfs2_check_page_offset]). *)
Definition grow (id : Z) : bt unit := modify (fun t => set_last t (Z.max (last_table_index t) id)).

(** [vdfs2_get_bnode]: the bnode with the id. *)
Definition get_bnode (id : Z) : bt (err_ptr Z) :=
  t ← get_tree;
  if negb (id_in_use (ids t) id) then err (- ENOENT)
  else e ← ask; if negb (e =? 0) then err e else _ ← grow id; _ ← node id; ok id.

Definition alloc_mem {A} (k : bt (err_ptr A)) : bt (err_ptr A) :=
  e ← ask; if negb (e =? 0) then err (- ENOMEM) else k.

Section tree.
Context `{HS : !BitSearch}.
Context (node_size : Z) (mf : bool) (max_key_len max_rec_len max_record_len : Z) (comp_fn : list Z -> list Z -> Z).

Abbreviation get_record := (get_record node_size mf).

(** A buffer that holds no node yet; its id is that of the bnode. *)
Definition fresh_bnode (id : Z) (old : option vdfs2_bnode) : vdfs2_bnode :=
  Bnode (NodeDescr 0 0 id 0 0 0) (match old with Some n => data n | None => replicate (Z.to_nat node_size) 0 end).

Definition new_bnode : bt (err_ptr Z) :=
  t ← get_tree;
  e ← (if free_num (ids t) =? 0 then mret 0 else ask);
  '(r, b) ← lift (alloc_id (ids t) (fun _ => e));
  _ ← modify (fun t => set_bitmap t b);
  match r with
  | ERR_PTR e => err e
  | PTR id => _ ← grow id; _ ← put_node id (fresh_bnode id (store t !! id)); ok id
  end.

Definition destroy_bnode (id : Z) : bt Z :=
  _ ← lift (BUG_ON (id =? VDFS2_INVALID_NODE_ID));
  t ← get_tree;
  '(e, b) ← lift (free_id mf (ids t) id);
  _ ← modify (fun t => set_bitmap t b);
  mret e.

(** [get_value_pointer]: the offset of the value in the record. *)
Definition get_value_pointer (record : list Z) : err_ptr Z :=
  if max_key_len <? VDFS2_KEY_LEN record then ERR_PTR (- EINVAL) else PTR (VDFS2_KEY_LEN record).

(** The record at [pos] of the bnode: its offset and its bytes. *)
Definition record_at (bnode pos : Z) : bt (err_ptr (Z * list Z)) :=
  n ← node bnode;
  p ← lift (get_record n pos);
  match p with
  | ERR_PTR e => err e
  | PTR off => r ← lift (node_record n off); ok (off, r)
  end.

(** The node id in an index record. *)
Definition index_value (record : list Z) (val : Z) : bt Z :=
  bs ← lift (mem_read record val 4); mret (le32_to_cpu bs).

Definition write_at (bnode off : Z) (bs : list Z) : bt unit :=
  n ← node bnode; n ← lift (node_write n off bs); put_node bnode n.

(** ** Search *)

Definition btree_traverse_level (gen_key : list Z) (start_bnode_id : Z) : bt (err_ptr (Z * Z)) :=
  bnode ←? get_bnode start_bnode_id;
  n ← node bnode;
  '(record, pos) ← lift (binary_search node_size mf comp_fn n gen_key);
  match record with
  | ERR_PTR e => err e
  | PTR _ =>
      if (pos =? recs_count (dscr n) - 1) && negb (next_node_id (dscr n) =? 0) then
        dang_bnode ←? get_bnode (next_node_id (dscr n));
        dn ← node dang_bnode;
        '(dang_record, _) ← lift (binary_search node_size mf comp_fn dn gen_key);
        match dang_record with
        | ERR_PTR e => if e =? - ENOENT then ok (bnode, pos) else err e
        | PTR _ => bug (* a dangling bnode *)
        end
      else ok (bnode, pos)
  end.

(** An item of the stack: bnode id, position, level. *)
Abbreviation stack_item := (Z * Z * Z)%type.

(** The loop of [vdfs2_btree_traverse], from [level] down; [levels] is the number
    of turns.  The stack, newest first, is kept when [use_stack]. *)
Fixpoint traverse_loop (levels : nat) (gen_key : list Z) (use_stack : bool) (level till_level curr : Z) (stack : list stack_item)
    : bt (err_ptr (Z * Z * list stack_item)) :=
  match levels with
  | O => bug
  | S levels =>
      '(bnode, pos) ←? btree_traverse_level gen_key curr;
      stack ←? (if use_stack then alloc_mem (ok ((bnode, pos, level) :: stack)) else ok stack);
      if till_level <? level then
        '(_, record) ←? record_at bnode pos;
        match get_value_pointer record with
        | ERR_PTR e => err e
        | PTR val =>
            curr ← index_value record val;
            traverse_loop levels gen_key use_stack (level - 1) till_level curr stack
        end
      else ok (bnode, pos, stack)
  end.

Definition vdfs2_btree_traverse (gen_key : list Z) (use_stack : bool) (till_level : Z) : bt (err_ptr (Z * Z * list stack_item)) :=
  curr ← root_id;
  h ← height;
  traverse_loop (Z.to_nat (h - till_level + 1)) gen_key use_stack h till_level curr [].

Definition btree_find (key : list Z) (level : Z) : bt (err_ptr (Z * Z)) :=
  '(bnode, pos, _) ←? vdfs2_btree_traverse key false level; ok (bnode, pos).

(** The result: the bnode, the position and the record. *)
Definition vdfs2_btree_find (key : list Z) : bt (err_ptr (Z * Z * list Z)) :=
  alloc_mem (
    '(bnode, pos) ←? btree_find key VDFS2_BTREE_LEAF_LVL;
    '(_, record) ←? record_at bnode pos;
    match get_value_pointer record with
    | ERR_PTR _ => err (- EINVAL)
    | PTR _ => ok (bnode, pos, record)
    end).

(** [__vdfs2_get_next_btree_record]: the place behind a place. *)
Definition vdfs2_get_next_btree_record (bnode index : Z) : bt (err_ptr (Z * Z * list Z)) :=
  n ← node bnode;
  if index + 1 <? recs_count (dscr n) then '(_, r) ←? record_at bnode (index + 1); ok (bnode, index + 1, r)
  else if next_node_id (dscr n) =? VDFS2_INVALID_NODE_ID then err (- ENOENT)
  else next ←? get_bnode (next_node_id (dscr n)); '(_, r) ←? record_at next 0; ok (next, 0, r).

(** ** Insertion *)

(** An index record to be inserted: the rest of the stack from the parent on, the
    bnode it points to, the root at that time. *)
Abbreviation todo_item := (option (list stack_item) * Z * Z)%type.

(** A failed allocation is ignored. *)
Definition put_add_index_work (todo : list todo_item) (item : todo_item) : bt (list todo_item) :=
  e ← ask; mret (if e =? 0 then item :: todo else todo).

Definition VDFS2_BNODE_RESERVE : bt Z := h ← height; mret (h * 4).

Fixpoint prealloc_loop (k : nat) (i : Z) : bt Z :=
  match k with
  | O => mret 0
  | S k =>
      e ← ask;
      if negb (e =? 0) then mret e
      else
        _ ← grow i;
        t ← get_tree;
        n ← lift (init_new_node_descr node_size mf (fresh_bnode i (store t !! i)) 0);
        _ ← put_node i n;
        prealloc_loop k (i + 1)
  end.

Definition vdfs2_check_bnode_reserve : bt Z :=
  t ← get_tree;
  reserve ← VDFS2_BNODE_RESERVE;
  let available_bnodes := last_table_index t + 1 in
  let used_bnodes := bits_num (ids t) - free_num (ids t) in
  let bnodes_deficit := reserve - (available_bnodes - used_bnodes) in
  if bnodes_deficit <=? 0 then mret 0 else prealloc_loop (Z.to_nat bnodes_deficit) available_bnodes.

(** The bnode that [split_bnode] links with the new one. *)
Definition next_of (n : vdfs2_bnode) : bt (err_ptr vdfs2_bnode) :=
  if next_node_id (dscr n) =? VDFS2_INVALID_NODE_ID then err 0
  else next ←? get_bnode (next_node_id (dscr n)); nn ← node next; ok nn.

(** The split of a full bnode; the result is that of [split_bnode] and the place
    of the new record. *)
Definition split_full (bnode right_bnode : Z) (gen_key : list Z) (new_rec_len insert_pos : Z) : bt (Z * option (Z * Z)) :=
  l ← node bnode;
  r ← node right_bnode;
  next ← next_of l;
  '(ret, l', r', res, next') ← lift (split_bnode node_size mf l r next gen_key new_rec_len insert_pos);
  _ ← put_node bnode l';
  _ ← put_node right_bnode r';
  _ ← (match next' with PTR nn => put_node (next_node_id (dscr l)) nn | ERR_PTR _ => mret tt end);
  mret (ret, match res with
             | Some (LEFT_BNODE, p) => Some (bnode, p)
             | Some (RIGHT_BNODE, p) => Some (right_bnode, p)
             | None => None
             end).

(** The item of the parent, none for the root. *)
Definition parent_data (td : list stack_item) : bt (option (list stack_item)) :=
  h ← height;
  match td with
  | (_, _, level) :: rest => if level =? h then mret None else match rest with [] => bug | _ => mret (Some rest) end
  | [] => bug
  end.

Definition place_key_in_bnode (td : list stack_item) (bnode pos : Z) (gen_key : list Z) (new_rec_len : Z) (todo : list todo_item)
    : bt (err_ptr (Z * Z) * list todo_item) :=
  e ← ask;
  if negb (e =? 0) then mret (ERR_PTR (- ENOMEM), todo)
  else
    r ← record_at bnode pos;
    match r with
    | ERR_PTR e => mret (ERR_PTR e, todo)
    | PTR (_, raw_record) =>
        n ← node bnode;
        if comp_fn raw_record gen_key =? 0 then mret (ERR_PTR (- EEXIST), todo)
        else if is_node_full n gen_key then
          e ← vdfs2_check_bnode_reserve;
          if negb (e =? 0) then mret (ERR_PTR e, todo)
          else
            nb ← new_bnode;
            match nb with
            | ERR_PTR e => mret (ERR_PTR e, todo)
            | PTR right_bnode =>
                '(e, res) ← split_full bnode right_bnode gen_key new_rec_len (pos + 1);
                if negb (e =? 0) then _ ← destroy_bnode right_bnode; mret (ERR_PTR e, todo)
                else
                  parent ← parent_data td;
                  root ← root_id;
                  todo ← put_add_index_work todo (parent, right_bnode, root);
                  place ← lift (deref res);
                  mret (PTR place, todo)
            end
        else
          '(e, n) ← lift (insert_key_into_bnode node_size mf n gen_key new_rec_len (pos + 1));
          _ ← put_node bnode n;
          mret (if e =? 0 then PTR (bnode, pos + 1) else ERR_PTR e, todo)
    end.

(** [gen_record->val]: the offset of the value in the bnode. *)
Definition value_of (bnode pos : Z) : bt Z :=
  r ← record_at bnode pos;
  match r with
  | ERR_PTR _ => bug
  | PTR (off, record) => match get_value_pointer record with ERR_PTR _ => bug | PTR v => mret (off + v) end
  end.

(** The loop of [build_new_root]: index records for the bnodes of the old root
    level from [curr] on, as long as they fit; the result is 0 or an error. *)
Fixpoint fill_new_root (fuel : nat) (new_root curr pos : Z) : bt Z :=
  match fuel with
  | O => bug
  | S fuel =>
      r ← record_at curr 0;
      match r with
      | ERR_PTR e => mret e
      | PTR (_, key) =>
          n ← node new_root;
          if is_node_full n key then mret 0
          else
            '(e, n) ← lift (insert_key_into_bnode node_size mf n key (VDFS2_KEY_LEN key + 4) pos);
            _ ← put_node new_root n;
            if negb (e =? 0) then mret e
            else
              v ← value_of new_root pos;
              _ ← write_at new_root v (le32_bytes curr);
              cn ← node curr;
              if next_node_id (dscr cn) =? VDFS2_INVALID_NODE_ID then mret 0
              else
                next ← get_bnode (next_node_id (dscr cn));
                match next with
                | ERR_PTR e => if e =? - ENOENT then mret 0 else mret e
                | PTR next => fill_new_root fuel new_root next (pos + 1)
                end
      end
  end.

(** [err_exit] of [build_new_root]. *)
Definition drop_new_root (new_root e : Z) : bt Z := _ ← destroy_bnode new_root; mret e.

Definition build_new_root (current_root_id : Z) : bt Z :=
  root ← root_id;
  if negb (current_root_id =? root) then mret 0
  else
    e ← ask;
    if negb (e =? 0) then mret (- ENOMEM)
    else
      nb ← new_bnode;
      match nb with
      | ERR_PTR e => mret e
      | PTR new_root =>
          n ← node new_root;
          n ← lift (init_new_node_descr node_size mf n VDFS2_NODE_INDEX);
          _ ← put_node new_root n;
          c ← get_bnode root;
          match c with
          | ERR_PTR e => drop_new_root new_root e
          | PTR curr =>
              cn ← node curr;
              if next_node_id (dscr cn) =? VDFS2_INVALID_NODE_ID then drop_new_root new_root 0
              else
                e ← fill_new_root (Z.to_nat node_size) new_root curr 0;
                if negb (e =? 0) then drop_new_root new_root e
                else
                  h ← height;
                  _ ← modify (fun t => set_root t new_root (u16 (h + 1)));
                  mret 0
          end
      end.

Definition place_index_record (item : todo_item) (todo : list todo_item) : bt (Z * list todo_item) :=
  let '(td, point_to, current_root_id) := item in
  match td with
  | None => e ← build_new_root current_root_id; mret (e, todo)
  | Some td =>
      match td with
      | [] => bug
      | (id, _, _) :: _ =>
          p ← get_bnode point_to;
          match p with
          | ERR_PTR e => mret (e, todo)
          | PTR point_to =>
              r ← record_at point_to 0;
              match r with
              | ERR_PTR e => mret (e, todo)
              | PTR (_, gen_key) =>
                  f ← btree_traverse_level gen_key id;
                  match f with
                  | ERR_PTR e => mret (e, todo)
                  | PTR (bnode, pos) =>
                      '(place, todo) ← place_key_in_bnode td bnode pos gen_key (VDFS2_KEY_LEN gen_key + 4) todo;
                      match place with
                      | ERR_PTR e => mret (e, todo)
                      | PTR (bnode, pos) =>
                          v ← value_of bnode pos;
                          _ ← write_at bnode v (le32_bytes point_to);
                          mret (0, todo)
                      end
                  end
              end
          end
      end
  end.

(** The errors of the insertions of index records are ignored. *)
Fixpoint do_todo (fuel : nat) (todo : list todo_item) : bt unit :=
  match todo with
  | [] => mret tt
  | item :: todo =>
      match fuel with
      | O => bug
      | S fuel => '(_, todo) ← place_index_record item todo; do_todo fuel todo
      end
  end.

Definition place_data_at_level (gen_key : list Z) (level : Z) : bt (err_ptr (Z * Z)) :=
  '(bnode, pos, stack) ←? vdfs2_btree_traverse gen_key true level;
  h ← height;
  '(record, todo) ← place_key_in_bnode stack bnode pos gen_key (VDFS2_RECORD_LEN gen_key) [];
  _ ← do_todo (S (S (Z.to_nat h))) todo;
  mret record.

Definition vdfs2_btree_place_data (gen_key : list Z) : bt (err_ptr (Z * Z)) := place_data_at_level gen_key VDFS2_BTREE_LEAF_LVL.

Definition btree_insert_at_level (new_data : list Z) (level : Z) : bt Z :=
  r ← place_data_at_level new_data level;
  match r with
  | ERR_PTR e => mret e
  | PTR (bnode, pos) =>
      let val_len := VDFS2_RECORD_LEN new_data - VDFS2_KEY_LEN new_data in
      v ← value_of bnode pos;
      match get_value_pointer new_data with
      | ERR_PTR _ => bug
      | PTR src =>
          bs ← lift (mem_read new_data src val_len);
          _ ← write_at bnode v bs;
          mret 0
      end
  end.

Definition vdfs2_btree_insert (new_data : list Z) : bt Z := btree_insert_at_level new_data VDFS2_BTREE_LEAF_LVL.

(** ** Removal *)

(** The new key on success.  When the key was the first one of its bnode, the level
    above is updated too. *)
Fixpoint btree_update_key (fuel : nat) (key : list Z) (point_to level : Z) : bt (err_ptr (list Z)) :=
  match fuel with
  | O => bug
  | S fuel =>
      alloc_mem (
        n ← node point_to;
        new_data ← lift (form_new_adding_record node_size mf n max_record_len);
        e ← btree_insert_at_level new_data level;
        if negb (e =? 0) then err e
        else
          f ← btree_find key level;
          match f with
          | ERR_PTR _ => err (- EINVAL)
          | PTR (bnode, pos) =>
              '(_, found_key) ←? record_at bnode pos;
              if negb (comp_fn key found_key =? 0) then ok new_data
              else
                n ← node bnode;
                '(e, n) ← lift (delete_from_node node_size mf max_rec_len n pos);
                _ ← put_node bnode n;
                if negb (e =? 0) then err e
                else
                  h ← height;
                  if (pos =? 0) && (level <? h) then _ ←? btree_update_key fuel key bnode (level + 1); ok new_data
                  else ok new_data
          end)
  end.

Definition set_prev (id prev : Z) : bt unit := n ← node id; put_node id (set_links n prev (next_node_id (dscr n))).
Definition set_next (id next : Z) : bt unit := n ← node id; put_node id (set_links n (prev_node_id (dscr n)) next).

Section remove_up.
(** [__vdfs2_btree_remove] at the level above. *)
Context (remove : list Z -> Z -> bt Z).

Definition btree_merge (left_bnode_id right_bnode_id level : Z) (is_right_dangling : bool) : bt Z :=
  l ← get_bnode left_bnode_id;
  match l with
  | ERR_PTR e => mret e
  | PTR left_bnode =>
      r ← get_bnode right_bnode_id;
      match r with
      | ERR_PTR e => mret e
      | PTR right_bnode =>
          ln ← node left_bnode;
          rn ← node right_bnode;
          '(e, ln) ← lift (merge_nodes node_size mf ln rn);
          _ ← put_node left_bnode ln;
          if negb (e =? 0) then mret e
          else
            next ← (if next_node_id (dscr rn) =? VDFS2_INVALID_NODE_ID then mret (PTR 0) else get_bnode (next_node_id (dscr rn)));
            match next with
            | ERR_PTR _ => mret right_bnode (* PTR_ERR of the wrong pointer *)
            | PTR next =>
                _ ← (if next =? VDFS2_INVALID_NODE_ID then mret tt else set_prev next left_bnode);
                e ← (if is_right_dangling then mret 0
                     else
                       rec ← record_at right_bnode 0;
                       match rec with
                       | ERR_PTR e => mret e
                       | PTR (_, record) =>
                           e ← ask;
                           if negb (e =? 0) then mret (- ENOMEM)
                           else
                             key ← lift (mem_read record 0 (VDFS2_KEY_LEN record));
                             key ← lift (mem_write key 8 (le32_bytes (u32 (VDFS2_KEY_LEN record + 4))));
                             remove key (level + 1)
                       end);
                if negb (e =? 0) then mret e else destroy_bnode right_bnode
            end
      end
  end.

(** The node id in the index record at [pos]. *)
Definition is_bnode_dangling (parent pos bnode_id : Z) : bt bool :=
  r ← record_at parent pos;
  match r with
  | ERR_PTR _ => bug
  | PTR (_, record) =>
      match get_value_pointer record with
      | ERR_PTR _ => bug
      | PTR val => id ← index_value record val; mret (negb (id =? bnode_id))
      end
  end.

(** The direction of the merge and whether the right node has no index record:
    nothing when there is no neighbour. *)
Definition merge_direction (key : list Z) (level cur : Z) : bt (err_ptr (option (bool * bool))) :=
  h ← height;
  cn ← node cur;
  if level =? h then
    if negb (prev_node_id (dscr cn) =? VDFS2_INVALID_NODE_ID) then ok (Some (true, true))
    else if negb (next_node_id (dscr cn) =? VDFS2_INVALID_NODE_ID) then ok (Some (false, true))
    else ok None
  else
    '(parent, pos) ←? btree_find key (level + 1);
    pn ← node parent;
    if 0 <? pos then d ← is_bnode_dangling parent pos cur; ok (Some (true, d))
    else if pos <? recs_count (dscr pn) - 1 then d ← is_bnode_dangling parent (pos + 1) (next_node_id (dscr cn)); ok (Some (false, d))
    else ok None.

Definition rebalance (key : list Z) (level bnode_id bnode_free_space : Z) : bt Z :=
  c ← get_bnode bnode_id;
  match c with
  | ERR_PTR e => mret e
  | PTR cur =>
      d ← merge_direction key level cur;
      match d with
      | ERR_PTR e => mret e
      | PTR None => mret 0
      | PTR (Some (merge_with_prev, is_right_dangling)) =>
          cn ← node cur;
          let neigh_id := if merge_with_prev : bool then prev_node_id (dscr cn) else next_node_id (dscr cn) in
          let left_id := if merge_with_prev : bool then neigh_id else node_id (dscr cn) in
          let right_id := if merge_with_prev : bool then node_id (dscr cn) else neigh_id in
          g ← get_bnode neigh_id;
          match g with
          | ERR_PTR e => mret e
          | PTR neigh =>
              nn ← node neigh;
              if node_size <=? bnode_free_space + free_space (dscr nn) then btree_merge left_id right_id level is_right_dangling
              else mret 0
          end
      end
  end.

(** A bnode without records leaves its level. *)
Definition drop_empty (key : list Z) (level bnode : Z) : bt Z :=
  n ← node bnode;
  _ ← (if prev_node_id (dscr n) =? VDFS2_INVALID_NODE_ID then mret tt
       else p ← get_bnode (prev_node_id (dscr n)); match p with ERR_PTR _ => bug | PTR p => set_next p (next_node_id (dscr n)) end);
  _ ← (if next_node_id (dscr n) =? VDFS2_INVALID_NODE_ID then mret tt
       else p ← get_bnode (next_node_id (dscr n)); match p with ERR_PTR _ => bug | PTR p => set_prev p (prev_node_id (dscr n)) end);
  e ← destroy_bnode bnode;
  if negb (e =? 0) then (if mf then bug else mret e)
  else
    root ← root_id;
    _ ← lift (BUG_ON (bnode =? root));
    h ← height;
    if negb (level =? h) then
      e ← remove key (level + 1);
      if e =? - ENOENT then mret 0 else mret e
    else mret 0.

(** A bnode other than the root has much free space, or the root has one child. *)
Definition shrink (key : list Z) (level bnode pos : Z) : bt Z :=
  n ← node bnode;
  root ← root_id;
  h ← height;
  if Z.quot node_size 3 <? free_space (dscr n) then
    if negb (bnode =? root) then
      e ← rebalance key level bnode (free_space (dscr n));
      if negb (e =? 0) && mf then bug else mret e
    else if recs_count (dscr n) =? 1 then
      if h <=? 1 then mret 0
      else
        r ← record_at bnode 0;
        match r with
        | ERR_PTR e => mret e
        | PTR (_, record) =>
            child ← index_value record (VDFS2_KEY_LEN record);
            if child =? 0 then (if mf then bug else mret (- EFAULT))
            else
              c ← get_bnode child;
              match c with
              | ERR_PTR e => mret e
              | PTR c => _ ← modify (fun t => set_root t c (u16 (h - 1))); destroy_bnode bnode
              end
        end
    else mret 0
  else mret 0.
End remove_up.

Fixpoint __vdfs2_btree_remove (fuel : nat) (key : list Z) (level : Z) : bt Z :=
  match fuel with
  | O => bug
  | S fuel =>
      let remove := __vdfs2_btree_remove fuel in
      h ← height;
      _ ← lift (BUG_ON (h <? level));
      f ← btree_find key level;
      match f with
      | ERR_PTR e => mret e
      | PTR (bnode, pos) =>
          r ← record_at bnode pos;
          match r with
          | ERR_PTR e => mret e
          | PTR (_, record) =>
              if negb (comp_fn key record =? 0) then mret (- ENOENT)
              else
                n ← node bnode;
                '(e, n) ← lift (delete_from_node node_size mf max_rec_len n pos);
                _ ← put_node bnode n;
                if negb (e =? 0) then mret e
                else if recs_count (dscr n) =? 0 then drop_empty remove key level bnode
                else if (pos =? 0) && (level <? h) then
                  k ← btree_update_key (S (Z.to_nat h)) key bnode (level + 1);
                  match k with
                  | ERR_PTR e => mret e
                  | PTR new_key => shrink remove new_key level bnode pos
                  end
                else shrink remove key level bnode pos
          end
      end
  end.

Definition vdfs2_btree_remove (key : list Z) : bt Z :=
  h ← height; __vdfs2_btree_remove (S (Z.to_nat h)) key 1.
End tree.
