(* ===== verification/BtreeKeys.v ===== *)
(** * Keys: what the tree needs from the comparison function

    [comp_fn] comes from the owner of a tree; the class states what the tree code
    relies on: an order on keys that does not look at the record length or behind
    the key.  A key that is only compared, as a search key is, has less to satisfy
    ([key_ok]) than one that is stored ([valid_key]): the code leaves the lengths of
    search keys at zero. *)
From Stdlib Require Import ZArith Lia.
From stdpp Require Import base numbers list sorting.
From S2P Require Import Prelude Bits Bytes BtreeNode BtreeNodeFacts BtreeNodeOps.

Class KeyLaws (comp_fn : list Z -> list Z -> Z) (key_ok valid_key : list Z -> Prop) (max_key_len : Z) : Prop := {
  kl_ok r : valid_key r -> key_ok r;
  kl_len r : valid_key r -> GENERIC_KEY_SIZE <= VDFS2_KEY_LEN r <= max_key_len /\ VDFS2_KEY_LEN r <= Z.of_nat (length r);
  kl_bytes r : valid_key r -> Forall is_byte r;
  kl_sgn a b : key_ok a -> key_ok b -> Z.sgn (comp_fn a b) = - Z.sgn (comp_fn b a);
  kl_trans a b c : key_ok a -> key_ok b -> key_ok c -> comp_fn a b <= 0 -> comp_fn b c <= 0 -> comp_fn a c <= 0;
  kl_stored key L r : valid_key key -> VDFS2_KEY_LEN key <= L -> Forall is_byte r -> stored key (VDFS2_KEY_LEN key) L r ->
    valid_key r /\ comp_fn r key = 0;
}.

Section order.
Context `{HK : !KeyLaws comp_fn key_ok valid_key max_key_len}.

Lemma valid_ok r : valid_key r -> key_ok r.
Proof using HK. apply kl_ok. Qed.
#[local] Coercion valid_ok : valid_key >-> key_ok.


Lemma comp_trans a b c : key_ok a -> key_ok b -> key_ok c -> comp_fn a b <= 0 -> comp_fn b c <= 0 -> comp_fn a c <= 0.
Proof using HK. apply kl_trans. Qed.

Lemma comp_sgn a b : key_ok a -> key_ok b -> Z.sgn (comp_fn a b) = - Z.sgn (comp_fn b a).
Proof using HK. apply kl_sgn. Qed.

Lemma comp_refl a : key_ok a -> comp_fn a a = 0.
Proof using HK. intros Ha. pose proof (comp_sgn a a Ha Ha). lia. Qed.

Lemma comp_flip a b : key_ok a -> key_ok b -> comp_fn a b < 0 <-> 0 < comp_fn b a.
Proof using HK. intros Ha Hb. pose proof (comp_sgn a b Ha Hb). lia. Qed.

Lemma comp_flip0 a b : key_ok a -> key_ok b -> comp_fn a b = 0 -> comp_fn b a = 0.
Proof using HK. intros Ha Hb H. pose proof (comp_sgn a b Ha Hb). lia. Qed.

Lemma comp_le_lt a b c : key_ok a -> key_ok b -> key_ok c -> comp_fn a b <= 0 -> comp_fn b c < 0 -> comp_fn a c < 0.
Proof using HK.
  intros Ha Hb Hc Hab Hbc. pose proof (comp_trans a b c Ha Hb Hc Hab ltac:(lia)).
  destruct (decide (comp_fn a c = 0)) as [H0|]; [|lia]. apply (comp_flip0 a c Ha Hc) in H0.
  pose proof (comp_trans c a b Hc Ha Hb ltac:(lia) Hab). apply (comp_flip b c Hb Hc) in Hbc. lia.
Qed.

Lemma comp_lt_le a b c : key_ok a -> key_ok b -> key_ok c -> comp_fn a b < 0 -> comp_fn b c <= 0 -> comp_fn a c < 0.
Proof using HK.
  intros Ha Hb Hc Hab Hbc. pose proof (comp_trans a b c Ha Hb Hc ltac:(lia) Hbc).
  destruct (decide (comp_fn a c = 0)) as [H0|]; [|lia]. apply (comp_flip0 a c Ha Hc) in H0.
  pose proof (comp_trans b c a Hb Hc Ha Hbc ltac:(lia)). apply (comp_flip a b Ha Hb) in Hab. lia.
Qed.

(** Equal keys compare alike. *)
Lemma comp_eq_l a b c : key_ok a -> key_ok b -> key_ok c -> comp_fn a b = 0 -> Z.sgn (comp_fn a c) = Z.sgn (comp_fn b c).
Proof using HK.
  intros Ha Hb Hc H0. pose proof (comp_flip0 a b Ha Hb H0) as H1.
  destruct (Z.lt_trichotomy (comp_fn b c) 0) as [Hlt|[Heq|Hgt]].
  - pose proof (comp_le_lt a b c Ha Hb Hc ltac:(lia) Hlt). lia.
  - pose proof (comp_trans a b c Ha Hb Hc ltac:(lia) ltac:(lia)).
    pose proof (comp_trans c b a Hc Hb Ha ltac:(pose proof (comp_flip0 b c Hb Hc Heq); lia) ltac:(lia)). pose proof (comp_sgn a c Ha Hc). lia.
  - apply (comp_flip c b Hc Hb) in Hgt. pose proof (comp_lt_le c b a Hc Hb Ha Hgt ltac:(lia)) as H2. apply (comp_flip c a Hc Ha) in H2.
    apply (comp_flip c b Hc Hb) in Hgt. lia.
Qed.

Lemma comp_eq_r a b c : key_ok a -> key_ok b -> key_ok c -> comp_fn a b = 0 -> Z.sgn (comp_fn c a) = Z.sgn (comp_fn c b).
Proof using HK.
  intros Ha Hb Hc H0. pose proof (comp_eq_l a b c Ha Hb Hc H0). pose proof (comp_sgn c a Hc Ha). pose proof (comp_sgn c b Hc Hb). lia.
Qed.

(** ** Sorted records *)

Definition sorted (rs : list (list Z)) : Prop := StronglySorted (fun a b => comp_fn a b < 0) rs.

Lemma sorted_app a b : sorted (a ++ b) <-> sorted a /\ sorted b /\ Forall (fun x => Forall (fun y => comp_fn x y < 0) b) a.
Proof using Type.
  unfold sorted. induction a as [|x a IH]; simpl; [split; [intros H; split; [constructor|by split]|by intros (_ & ? & _)]|].
  split.
  - intros H. apply StronglySorted_inv in H as [H1 H2]. apply IH in H1 as (? & ? & ?). apply Forall_app in H2 as [? ?].
    split; [by constructor|]. split; [done|]. by constructor.
  - intros (H1 & H2 & H3). apply StronglySorted_inv in H1 as [H1 H4]. apply Forall_cons in H3 as [H3 H5].
    constructor; [by apply IH|]. by apply Forall_app.
Qed.

Lemma sorted_first x b : sorted (x :: b) <-> sorted b /\ Forall (fun y => comp_fn x y < 0) b.
Proof using Type.
  unfold sorted. split; [intros H; by apply StronglySorted_inv in H|]. intros [? ?]. by constructor.
Qed.

Lemma sorted_ordered key es :
  key_ok key -> Forall valid_key (records es) -> sorted (records es) -> ordered comp_fn key es.
Proof using HK.
  intros Hk Hv Hs i j a b Hij Ha Hb Hge.
  assert (Ha' : records es !! i = Some a.2) by (unfold records; by rewrite list_lookup_fmap, Ha).
  assert (Hb' : records es !! j = Some b.2) by (unfold records; by rewrite list_lookup_fmap, Hb).
  pose proof (Forall_lookup_1 _ _ _ _ Hv Ha') as Hva. pose proof (Forall_lookup_1 _ _ _ _ Hv Hb') as Hvb.
  assert (Hlt : comp_fn a.2 b.2 < 0).
  { rewrite <-(take_drop (S i) (records es)), (take_S_r _ _ _ Ha') in Hs. apply sorted_app in Hs as (_ & _ & Hs).
    apply Forall_app in Hs as [_ Hs]. rewrite Forall_singleton, Forall_lookup in Hs. apply (Hs (j - S i)%nat).
    rewrite lookup_drop. by replace (S i + (j - S i))%nat with j by lia. }
  apply (comp_flip key b.2 Hk Hvb). destruct (Z.eq_dec (comp_fn a.2 key) 0) as [H0|Hne].
  - apply (comp_le_lt key a.2 b.2 Hk Hva Hvb); [|done]. pose proof (comp_flip0 a.2 key Hva Hk H0). lia.
  - apply (comp_le_lt key a.2 b.2 Hk Hva Hvb); [|done]. pose proof (comp_sgn a.2 key Hva Hk). lia.
Qed.

(** What is behind something above the key is above the key. *)
Lemma above_sorted key x b : key_ok key -> valid_key x -> Forall valid_key b -> 0 < comp_fn x key -> Forall (fun y => comp_fn x y < 0) b ->
  Forall (fun y => 0 < comp_fn y key) b.
Proof using HK.
  intros Hk Hx Hv Hxk Hb. rewrite Forall_forall in *. intros y Hy. apply (comp_flip key y Hk (Hv y Hy)).
  apply (comp_flip key x Hk Hx) in Hxk. by apply (comp_le_lt key x y Hk Hx (Hv y Hy)); [lia|apply Hb].
Qed.

(** The last record that is not above the key. *)
Lemma split_last rs key :
  key_ok key -> Forall valid_key rs -> sorted rs -> (exists h, head rs = Some h /\ comp_fn h key <= 0) ->
  exists a r b, rs = a ++ r :: b /\ comp_fn r key <= 0 /\ Forall (fun y => 0 < comp_fn y key) b.
Proof using HK.
  intros Hk. induction rs as [|x rs IH]; intros Hv Hs (h & Hh & Hc); [done|]. injection Hh as ->.
  apply Forall_cons in Hv as [Hx Hv]. apply sorted_first in Hs as [Hs Hxs]. destruct rs as [|y rs].
  { by exists [], h, []. }
  destruct (Z.le_gt_cases (comp_fn y key) 0) as [Hy|Hy].
  - destruct IH as (a & r & b & -> & Hr & Hb); [done|done|by exists y|]. by exists (h :: a), r, b.
  - exists [], h, (y :: rs). split; [done|]. split; [done|]. constructor; [lia|]. apply Forall_cons in Hv as [Hvy Hv].
    apply sorted_first in Hs as [_ Hs]. by apply (above_sorted key y).
Qed.
End order.
Arguments sorted : clear implicits.

(** ** Stored keys *)

Lemma stored_key_len key L r :
  Forall is_byte key -> GENERIC_KEY_SIZE <= VDFS2_KEY_LEN key -> VDFS2_KEY_LEN key <= L -> VDFS2_KEY_LEN key <= Z.of_nat (length key) ->
  stored key (VDFS2_KEY_LEN key) L r -> VDFS2_KEY_LEN r = VDFS2_KEY_LEN key.
Proof.
  unfold GENERIC_KEY_SIZE. intros Hb Hk HL Hl [Hlen Hr]. unfold VDFS2_KEY_LEN at 1, le32_at.
  replace (bytes_at r 4 4) with (bytes_at (bytes_at r 0 (VDFS2_KEY_LEN key)) 4 4) by (rewrite bytes_at_nested by lia; done).
  rewrite Hr, bytes_at_put_other by lia. by rewrite bytes_at_nested by lia.
Qed.
