(* ===== verification/BtreeSpec.v ===== *)
(** * The shape of a whole tree

    A level is the list of its nodes from left to right, each with its records; a
    tree is the list of its levels, the leaves first.  The records of a level are
    those of its nodes one after the other. *)
From Stdlib Require Import ZArith Lia.
From stdpp Require Import base numbers list sets gmap.
From S2P Require Import Prelude Bits Bytes BtreeNode BtreeNodeFacts BtreeNodeOps Bnode BnodeIds Btree BtreeKeys.

(** ** Steps of the monad *)

Lemma bt_step {A B} (m : bt A) (f : A -> bt B) t a t' : m t = Ret (a, t') -> (m ≫= f) t = f a t'.
Proof. intros H. unfold mbind, bt_bind. by rewrite H. Qed.

Lemma bt_ptr {A B} (m : bt (err_ptr A)) (f : A -> bt (err_ptr B)) t a t' : m t = Ret (PTR a, t') -> bind_ptr m f t = f a t'.
Proof. intros H. unfold bind_ptr. by rewrite (bt_step _ _ _ _ _ H). Qed.

Lemma bt_ptr_err {A B} (m : bt (err_ptr A)) (f : A -> bt (err_ptr B)) t e t' : m t = Ret (ERR_PTR e, t') -> bind_ptr m f t = Ret (ERR_PTR e, t').
Proof. intros H. unfold bind_ptr. by rewrite (bt_step _ _ _ _ _ H). Qed.

Lemma lift_Ret {A} (m : outcome A) a t : m = Ret a -> lift m t = Ret (a, t).
Proof. by intros ->. Qed.

Lemma node_Ret id n t : store t !! id = Some n -> node id t = Ret (n, t).
Proof. intros H. unfold node. by rewrite H. Qed.

Lemma ask_Ret t : answers t = [] -> ask t = Ret (0, t).
Proof. intros H. unfold ask. by rewrite H. Qed.

Lemma alloc_mem_Ret {A} (k : bt (err_ptr A)) t : answers t = [] -> alloc_mem k t = k t.
Proof. intros H. unfold alloc_mem. by rewrite (bt_step _ _ _ _ _ (ask_Ret t H)). Qed.

Lemma set_last_same t id : id <= last_table_index t -> set_last t (Z.max (last_table_index t) id) = t.
Proof. intros H. rewrite Z.max_l by done. by destruct t. Qed.

(** ** Nodes and levels *)

Abbreviation view := (Z * list (list Z))%type.

Definition first_id (l : list view) (next : Z) : Z := match l with [] => next | v :: _ => v.1 end.
Fixpoint last_id (prev : Z) (l : list view) : Z := match l with [] => prev | v :: l => last_id v.1 l end.
Definition recs (l : list view) : list (list Z) := concat (map snd l).
Definition level_ids (l : list view) : list Z := map fst l.

(** The store has a node with these links and records. *)
Definition holds (N : Z) (s : gmap Z vdfs2_bnode) (id prev next : Z) (rs : list (list Z)) : Prop :=
  exists n F es, s !! id = Some n /\ node_ok N n F es /\ records es = rs /\
    node_id (dscr n) = id /\ prev_node_id (dscr n) = prev /\ next_node_id (dscr n) = next.

(** A part of a level between the nodes [prev] and [next]. *)
Fixpoint seg (N : Z) (s : gmap Z vdfs2_bnode) (prev : Z) (l : list view) (next : Z) : Prop :=
  match l with
  | [] => True
  | v :: l => holds N s v.1 prev (first_id l next) v.2 /\ seg N s v.1 l next
  end.

Lemma recs_app a b : recs (a ++ b) = recs a ++ recs b.
Proof. unfold recs. by rewrite map_app, concat_app. Qed.

Lemma recs_cons v l : recs (v :: l) = v.2 ++ recs l.
Proof. done. Qed.

Lemma first_id_app a b next : first_id (a ++ b) next = first_id a (first_id b next).
Proof. by destruct a. Qed.

Lemma last_id_app prev a b : last_id prev (a ++ b) = last_id (last_id prev a) b.
Proof. revert prev. induction a as [|v a IH]; intros prev; [done|]. apply IH. Qed.

Lemma seg_app N s prev a b next : seg N s prev (a ++ b) next <-> seg N s prev a (first_id b next) /\ seg N s (last_id prev a) b next.
Proof.
  revert prev. induction a as [|v a IH]; intros prev; simpl; [naive_solver|]. rewrite IH, first_id_app. naive_solver.
Qed.

Lemma holds_frame N s s' id prev next rs : s' !! id = s !! id -> holds N s id prev next rs -> holds N s' id prev next rs.
Proof. intros H (n & F & es & Hn & ?). exists n, F, es. by rewrite H. Qed.

Lemma seg_frame N s s' prev l next : (forall id, id ∈ level_ids l -> s' !! id = s !! id) -> seg N s prev l next -> seg N s' prev l next.
Proof.
  revert prev. induction l as [|v l IH]; intros prev H; simpl; [done|]. intros [Hv Hl]. split.
  - apply (holds_frame N s); [apply H; simpl; by apply elem_of_cons; left|done].
  - apply IH; [|done]. intros id Hid. apply H. simpl. by apply elem_of_cons; right.
Qed.

Section spec.
Context (N : Z) (comp_fn : list Z -> list Z -> Z) (valid_key : list Z -> Prop).

(** An index record and the node it points to. *)
Definition points (r : list Z) (v : view) : Prop :=
  exists h, head v.2 = Some h /\ comp_fn r h = 0 /\ VDFS2_RECORD_LEN r = VDFS2_KEY_LEN r + 4 /\ le32_at r (VDFS2_KEY_LEN r) = v.1.

Definition index_ok (u l : list view) : Prop := Forall2 points (recs u) l.

(** Room for two index records or a split in every node; values are at least as
    long as those of index records. *)
Definition size_ok (r : list Z) : Prop := fits_half N r /\ VDFS2_KEY_LEN r + 4 <= Z.of_nat (length r).

Record level_ok (s : gmap Z vdfs2_bnode) (l : list view) : Prop := {
  lo_seg : seg N s 0 l 0;
  lo_nonempty : Forall (fun v => v.2 <> []) l;
  lo_valid : Forall valid_key (recs l);
  lo_sorted : sorted comp_fn (recs l);
  lo_fits : Forall size_ok (recs l);
}.

Fixpoint linked (levels : list (list view)) : Prop :=
  match levels with
  | l :: (u :: _) as rest => index_ok u l /\ linked rest
  | _ => True
  end.

Definition id_ok (t : vdfs2_btree) (id : Z) : Prop := 0 < id <= last_table_index t /\ id < bits_num (ids t) /\ used_id (ids t) id = true.

Definition tree_ids (levels : list (list view)) : list Z := concat (map level_ids levels).

(** The services answer, and the bitmap and the buffers are sound. *)
Record env_ok (t : vdfs2_btree) : Prop := {
  eo_answers : answers t = [];
  eo_bitmap : ids_ok (ids t);
  eo_zero : used_id (ids t) 0 = true;
  eo_raw : map_Forall (fun _ n => raw_node N n) (store t);
}.

Record tree_ok (t : vdfs2_btree) (levels : list (list view)) : Prop := {
  to_env : env_ok t;
  to_nodup : NoDup (tree_ids levels);
  to_ids : Forall (id_ok t) (tree_ids levels);
  to_levels : Forall (level_ok (store t)) levels;
  to_linked : linked levels;
  to_root : exists v, last levels = Some [v] /\ v.1 = root_bnode_id t;
  to_height : btree_height t = Z.of_nat (length levels) /\ btree_height t < 2 ^ 15;
}.

(** Where a key belongs on a level: the last record that is not above it. *)
Definition located (key : list Z) (l : list view) (id pos : Z) (r : list Z) : Prop :=
  exists L1 rs1 rs2 L2, l = L1 ++ (id, rs1 ++ r :: rs2) :: L2 /\ pos = Z.of_nat (length rs1) /\ comp_fn r key <= 0 /\
    Forall (fun x => 0 < comp_fn x key) (rs2 ++ recs L2).

(** ** Reading nodes *)

Lemma id_ok_in_use t id : id_ok t id -> id_in_use (ids t) id = true.
Proof using Type.
  intros (Hid & Hb & Hu). unfold id_in_use. rewrite (proj2 (Z.eqb_neq _ _)), (proj2 (Z.ltb_lt _ _)) by lia. by rewrite Hu.
Qed.

Lemma get_bnode_Ret t id n : answers t = [] -> id_ok t id -> store t !! id = Some n -> get_bnode id t = Ret (PTR id, t).
Proof using Type.
  intros Ha Hid Hn. unfold get_bnode. rewrite (bt_step get_tree _ t t t eq_refl). rewrite (id_ok_in_use t id Hid). cbn [negb].
  rewrite (bt_step _ _ _ _ _ (ask_Ret t Ha)). change (negb (0 =? 0)) with false. cbn iota.
  assert (Hg : grow id t = Ret (tt, t)).
  { unfold grow, modify. rewrite set_last_same; [done|]. by destruct Hid as [[_ ?] _]. }
  rewrite (bt_step _ _ _ _ _ Hg), (bt_step _ _ _ _ _ (node_Ret id n t Hn)). done.
Qed.
End spec.
