(* ===== verification/BtreeFind.v ===== *)
(** * The search in a tree: [btree_traverse_level], [vdfs2_btree_traverse] and
    [vdfs2_btree_find] *)
From Stdlib Require Import ZArith Lia.
From stdpp Require Import base numbers list sets gmap.
From S2P Require Import Prelude Bits Bytes BtreeNode BtreeNodeFacts BtreeNodeOps Bnode BnodeIds Btree BtreeKeys BtreeSpec.

Section find.
Context (N : Z) (mf : bool) (max_key_len : Z) (comp_fn : list Z -> list Z -> Z) (key_ok valid_key : list Z -> Prop).
Context `{HK : !KeyLaws comp_fn key_ok valid_key max_key_len} (HN : 128 <= N < 65536).
#[local] Coercion valid_coe r (H : valid_key r) : key_ok r := kl_ok r H.
#[local] Abbreviation comp_trans := (comp_trans (key_ok := key_ok)).
#[local] Abbreviation comp_flip := (comp_flip (key_ok := key_ok)).
#[local] Abbreviation comp_flip0 := (comp_flip0 (key_ok := key_ok)).
#[local] Abbreviation comp_lt_le := (comp_lt_le (key_ok := key_ok)).
#[local] Abbreviation comp_eq_l := (comp_eq_l (key_ok := key_ok)).
#[local] Abbreviation above_sorted := (above_sorted (key_ok := key_ok)).
#[local] Abbreviation split_last := (split_last (key_ok := key_ok)).
#[local] Abbreviation sorted_ordered := (sorted_ordered (key_ok := key_ok)).

Abbreviation located := (located comp_fn).
Abbreviation level_ok := (level_ok N comp_fn valid_key).
Abbreviation tree_ok := (tree_ok N comp_fn valid_key).
Abbreviation index_ok := (index_ok comp_fn).
Abbreviation linked := (linked comp_fn).

(** ** One node *)

Lemma entries_split es rs1 r rs2 :
  records es = rs1 ++ r :: rs2 -> exists e, es !! length rs1 = Some e /\ e.2 = r.
Proof using Type.
  intros Hr. assert (Hl : records es !! length rs1 = Some r) by (rewrite Hr; by apply list_lookup_middle).
  unfold records in Hl. rewrite list_lookup_fmap in Hl. apply fmap_Some in Hl as (e & He & ->). by exists e.
Qed.

Lemma record_at_ok t n F es i e :
  forall id, store t !! id = Some n -> node_ok N n F es -> es !! i = Some e -> record_at N mf id (Z.of_nat i) t = Ret (PTR e, t).
Proof using HN.
  intros id Hn Ho He. unfold record_at. rewrite (bt_step _ _ _ _ _ (node_Ret id n t Hn)).
  rewrite (bt_step _ _ _ _ _ (lift_Ret _ _ t (get_record_ok N mf ltac:(lia) n F es i e Ho He))). cbn iota.
  rewrite (bt_step _ _ _ _ _ (lift_Ret _ _ t (node_record_ok N n F es i e Ho He))). by destruct e.
Qed.

Lemma record_at_holds t id prev next rs1 r rs2 :
  holds N (store t) id prev next (rs1 ++ r :: rs2) ->
  exists off, record_at N mf id (Z.of_nat (length rs1)) t = Ret (PTR (off, r), t).
Proof using HN.
  intros (n & F & es & Hn & Ho & Hr & _). destruct (entries_split es rs1 r rs2 Hr) as (e & He & <-). exists e.1.
  rewrite (record_at_ok t n F es _ e id Hn Ho He). by destruct e.
Qed.

(** Two last records that are not above the key are the same. *)
Lemma found_unique key es rs1 r rs2 pos e :
  records es = rs1 ++ r :: rs2 -> comp_fn r key <= 0 -> Forall (fun x => 0 < comp_fn x key) rs2 ->
  found_at comp_fn key es pos e -> pos = Z.of_nat (length rs1) /\ e.2 = r.
Proof using Type.
  intros Hr Hc Hafter (Hp & He & Hce & Hf). destruct (entries_split es rs1 r rs2 Hr) as (e' & He' & He2).
  destruct (Z.lt_trichotomy pos (Z.of_nat (length rs1))) as [Hlt|[Heq|Hgt]].
  - specialize (Hf _ _ Hlt He'). rewrite He2 in Hf. lia.
  - split; [done|]. rewrite Heq, Nat2Z.id in He. rewrite He in He'. by injection He' as ->.
  - assert (Hl : records es !! Z.to_nat pos = Some e.2) by (unfold records; by rewrite list_lookup_fmap, He).
    rewrite Hr, lookup_app_r in Hl by lia. destruct (Z.to_nat pos - length rs1)%nat as [|k] eqn:Hk; [lia|]. simpl in Hl.
    pose proof (Forall_lookup_1 _ _ _ _ Hafter Hl) as Hx. cbn beta in Hx. lia.
Qed.

(** ** One level *)

Lemma search_node key t id prev next rs1 r rs2 n F es :
  store t !! id = Some n -> node_ok N n F es -> records es = rs1 ++ r :: rs2 -> key_ok key ->
  Forall valid_key (rs1 ++ r :: rs2) -> sorted comp_fn (rs1 ++ r :: rs2) -> comp_fn r key <= 0 -> Forall (fun x => 0 < comp_fn x key) rs2 ->
  holds N (store t) id prev next (rs1 ++ r :: rs2) ->
  exists off, binary_search N mf comp_fn n key = Ret (PTR off, Z.of_nat (length rs1)).
Proof using HK HN.
  intros Hn Ho Hr Hk Hv Hs Hc Hafter _. destruct es as [|e0 es]; [by destruct rs1|].
  assert (Hord : ordered comp_fn key (e0 :: es)) by (apply sorted_ordered; rewrite ?Hr; done).
  pose proof (binary_search_ok N mf ltac:(lia) comp_fn key n F e0 es Ho Hord) as Hb. case_decide as Hd.
  - exfalso. destruct rs1 as [|x rs1]; cbn in Hr; injection Hr as Hx Hr; [rewrite Hx in Hd; lia|].
    cbn in Hs, Hv. apply sorted_first in Hs as [_ Hs]. apply Forall_cons in Hv as [Hvx Hv]. apply Forall_app in Hs as [_ Hs].
    apply Forall_app in Hv as [_ Hv]. apply Forall_cons in Hs as [Hs _]. apply Forall_cons in Hv as [Hvr _].
    pose proof (comp_lt_le x r key Hvx Hvr Hk Hs Hc). rewrite Hx in Hd. lia.
  - destruct Hb as (pos & e & -> & Hf). destruct (found_unique key (e0 :: es) rs1 r rs2 pos e Hr Hc Hafter Hf) as [-> _]. by exists e.1.
Qed.

Lemma search_above key n F es x xs :
  node_ok N n F es -> records es = x :: xs -> key_ok key -> Forall valid_key (x :: xs) -> sorted comp_fn (x :: xs) ->
  0 < comp_fn x key -> binary_search N mf comp_fn n key = Ret (ERR_PTR (- ENOENT), -1).
Proof using HK HN.
  intros Ho Hr Hk Hv Hs Hc. destruct es as [|e0 es]; [done|].
  assert (Hord : ordered comp_fn key (e0 :: es)) by (apply sorted_ordered; rewrite ?Hr; done).
  pose proof (binary_search_ok N mf ltac:(lia) comp_fn key n F e0 es Ho Hord) as Hb. cbn in Hr. injection Hr as Hx _.
  rewrite decide_True in Hb by (by rewrite Hx). done.
Qed.

Lemma level_node s L1 id rs L2 : level_ok s (L1 ++ (id, rs) :: L2) ->
  holds N s id (last_id 0 L1) (first_id L2 0) rs /\ Forall valid_key rs /\ sorted comp_fn rs.
Proof using Type.
  intros [Hseg _ Hv Hs _]. apply seg_app in Hseg as [_ Hseg]. cbn in Hseg. destruct Hseg as [Hh _].
  rewrite recs_app, recs_cons in Hv, Hs. apply Forall_app in Hv as [_ Hv]. apply Forall_app in Hv as [Hv _].
  apply sorted_app in Hs as (_ & Hs & _). by apply sorted_app in Hs as (Hs & _ & _).
Qed.

Lemma traverse_level_ok key t l id pos r :
  answers t = [] -> level_ok (store t) l -> Forall (id_ok t) (level_ids l) -> key_ok key -> located key l id pos r ->
  btree_traverse_level N mf comp_fn key id t = Ret (PTR (id, pos), t).
Proof using HK HN.
  intros Ha Hl Hids Hk (L1 & rs1 & rs2 & L2 & -> & -> & Hc & Hafter). apply Forall_app in Hafter as [Hrs2 Hnext].
  destruct (level_node _ _ _ _ _ Hl) as (Hh & Hv & Hs). pose proof Hh as (n & F & es & Hn & Ho & Hr & _ & _ & Hnx).
  unfold level_ids in Hids. rewrite map_app, Forall_app in Hids. destruct Hids as [_ Hids]. apply Forall_cons in Hids as [Hid Hids].
  unfold btree_traverse_level. rewrite (bt_ptr _ _ _ _ _ (get_bnode_Ret t id n Ha Hid Hn)).
  rewrite (bt_step _ _ _ _ _ (node_Ret id n t Hn)).
  destruct (search_node key t id _ _ rs1 r rs2 n F es Hn Ho Hr Hk Hv Hs Hc Hrs2 Hh) as (off & Hb).
  rewrite (bt_step _ _ _ _ _ (lift_Ret _ _ t Hb)). cbn iota. rewrite Hnx.
  destruct ((Z.of_nat (length rs1) =? recs_count (dscr n) - 1) && negb (first_id L2 0 =? 0)) eqn:Hlast; [|done].
  destruct L2 as [|[id2 rs] L2]; [by rewrite andb_false_r in Hlast|]. cbn [first_id fst].
  assert (Hl2 : level_ok (store t) ((L1 ++ [(id, rs1 ++ r :: rs2)]) ++ (id2, rs) :: L2)) by (by rewrite <-app_assoc).
  destruct (level_node _ _ _ _ _ Hl2) as ((n2 & F2 & es2 & Hn2 & Ho2 & Hr2 & _) & Hv2 & Hs2).
  apply Forall_cons in Hids as [Hid2 _].
  rewrite (bt_ptr _ _ _ _ _ (get_bnode_Ret t id2 n2 Ha Hid2 Hn2)), (bt_step _ _ _ _ _ (node_Ret id2 n2 t Hn2)).
  pose proof (lo_nonempty _ _ _ _ _ Hl2) as Hne. rewrite Forall_app in Hne. destruct Hne as [_ Hne]. apply Forall_cons in Hne as [Hne _].
  destruct rs as [|x xs]; [done|]. rewrite recs_cons in Hnext. apply Forall_cons in Hnext as [Hx _].
  pose proof (search_above key n2 F2 es2 x xs Ho2 Hr2 Hk Hv2 Hs2 Hx) as Hb2.
  by rewrite (bt_step _ _ _ _ _ (lift_Ret _ _ t Hb2)).
Qed.

(** ** From one level to the next *)

Lemma located_intro key l :
  key_ok key -> Forall valid_key (recs l) -> sorted comp_fn (recs l) ->
  (exists h, head (recs l) = Some h /\ comp_fn h key <= 0) -> exists id pos r, located key l id pos r.
Proof using HK.
  intros Hk Hv Hs Hh. destruct (split_last (recs l) key Hk Hv Hs Hh) as (a & r & b & Heq & Hr & Hb). clear Hv Hs Hh.
  assert (Hex : exists L1 id rs1 rs2 L2, l = L1 ++ (id, rs1 ++ r :: rs2) :: L2 /\ a = recs L1 ++ rs1 /\ b = rs2 ++ recs L2).
  { revert a Heq. induction l as [|[id rs] l IH]; intros a Heq; [by destruct a|]. rewrite recs_cons in Heq. cbn [snd] in Heq.
    apply app_eq_inv in Heq as [(k & Ha & Hb')|(k & Ha & Hb')].
    - destruct k as [|x k]; [|injection Hb' as -> ->; subst rs; by exists [], id, a, k, l].
      rewrite app_nil_r in Ha. destruct (IH []) as (L1 & id' & rs1 & rs2 & L2 & -> & H1 & ->); [done|].
      exists ((id, rs) :: L1), id', rs1, rs2, L2. split; [done|]. split; [|done]. by rewrite recs_cons, Ha, <-app_assoc, <-H1, app_nil_r.
    - destruct (IH k) as (L1 & id' & rs1 & rs2 & L2 & -> & -> & ->); [done|]. exists ((id, rs) :: L1), id', rs1, rs2, L2.
      by rewrite recs_cons, Ha, app_assoc. }
  destruct Hex as (L1 & id & rs1 & rs2 & L2 & -> & -> & ->). exists id, (Z.of_nat (length rs1)), r. by exists L1, rs1, rs2, L2.
Qed.

Lemma Forall2_middle {A B} (P : A -> B -> Prop) xs x ys l :
  Forall2 P (xs ++ x :: ys) l -> exists l1 y l2, l = l1 ++ y :: l2 /\ Forall2 P xs l1 /\ P x y /\ Forall2 P ys l2.
Proof using Type.
  intros H. apply Forall2_app_inv_l in H as (l1 & l' & H1 & H2 & ->). apply Forall2_cons_inv_l in H2 as (y & l2 & Hy & H2 & ->).
  by exists l1, y, l2.
Qed.

(** The node an index record points to is where the key is. *)
Lemma located_descend key s u l id pos r :
  key_ok key -> level_ok s u -> level_ok s l -> index_ok u l -> located key u id pos r ->
  VDFS2_RECORD_LEN r = VDFS2_KEY_LEN r + 4 /\ exists pos' r', located key l (le32_at r (VDFS2_KEY_LEN r)) pos' r'.
Proof using HK.
  intros Hk Hu Hl Hix (L1 & rs1 & rs2 & L2 & Heq & -> & Hc & Hafter). unfold index_ok in Hix.
  assert (Hrec : recs u = (recs L1 ++ rs1) ++ r :: rs2 ++ recs L2) by (rewrite Heq, recs_app, recs_cons; cbn [snd]; by rewrite <-!app_assoc).
  rewrite Hrec in Hix. apply Forall2_middle in Hix as (A & [cid rs] & B & -> & _ & (h & Hh & Hch & Hrl & Hval) & HB). cbn [fst snd] in *.
  split; [done|]. rewrite Hval. destruct (level_node _ _ _ _ _ Hl) as (_ & Hv & Hs).
  pose proof (lo_valid _ _ _ _ _ Hu) as Hvu. rewrite Hrec in Hvu. apply Forall_app in Hvu as [_ Hvu]. apply Forall_cons in Hvu as [Hvr Hvu].
  assert (Hvh : valid_key h) by (destruct rs as [|h' rs]; [done|]; injection Hh as ->; by apply Forall_cons in Hv as [Hv _]).
  destruct (split_last rs key Hk Hv Hs) as (a & r' & b & -> & Hr' & Hb).
  { exists h. split; [done|]. apply (comp_trans h r key Hvh Hvr Hk); [|done]. pose proof (comp_flip0 r h Hvr Hvh Hch). lia. }
  exists (Z.of_nat (length a)), r', A, a, b, B. split; [done|]. split; [done|]. split; [done|]. apply Forall_app. split; [done|].
  (* the first record of the next node is above the key, and so are all behind it *)
  pose proof (lo_valid _ _ _ _ _ Hl) as Hvl. rewrite recs_app, recs_cons in Hvl. apply Forall_app in Hvl as [_ Hvl]. apply Forall_app in Hvl as [_ HvB].
  pose proof (lo_sorted _ _ _ _ _ Hl) as HsB. rewrite recs_app, recs_cons in HsB. apply sorted_app in HsB as (_ & HsB & _).
  apply sorted_app in HsB as (_ & HsB & _).
  destruct B as [|[id2 rs'] B]; [constructor|]. apply Forall2_cons_inv_r in HB as (r2 & rest & (h2 & Hh2 & Hch2 & _) & _ & Hrest). cbn [snd] in Hh2.
  destruct rs' as [|h2' rs']; [done|]. injection Hh2 as ->. rewrite recs_cons in HvB, HsB |- *. cbn [snd app] in *.
  apply Forall_cons in HvB as [Hvh2 HvB]. apply sorted_first in HsB as [_ HsB].
  rewrite Hrest in Hafter, Hvu. apply Forall_cons in Hafter as [Hr2 _]. apply Forall_cons in Hvu as [Hvr2 _].
  assert (Hh2 : 0 < comp_fn h2 key) by (pose proof (comp_eq_l r2 h2 key Hvr2 Hvh2 Hk Hch2); lia).
  constructor; [done|]. by apply (above_sorted key h2).
Qed.

Lemma heads_equal s u l :
  level_ok s u -> level_ok s l -> index_ok u l -> l <> [] ->
  exists hu hl, head (recs u) = Some hu /\ head (recs l) = Some hl /\ valid_key hu /\ valid_key hl /\ comp_fn hu hl = 0.
Proof using Type.
  intros Hu Hl Hix Hne. unfold index_ok in Hix. destruct l as [|[id rs] l]; [done|].
  apply Forall2_cons_inv_r in Hix as (r & rest & (h & Hh & Hc & _) & _ & Hrec). cbn [snd] in Hh. exists r, h.
  pose proof (lo_valid _ _ _ _ _ Hu) as Hvu. rewrite Hrec in Hvu |- *. apply Forall_cons in Hvu as [Hvr _].
  pose proof (lo_valid _ _ _ _ _ Hl) as Hvl. rewrite recs_cons in Hvl |- *. cbn [snd] in *.
  destruct rs as [|h' rs]; [done|]. injection Hh as ->. apply Forall_cons in Hvl as [Hvh _]. done.
Qed.

(** ** All levels *)

Lemma linked_at levels k l u : linked levels -> levels !! k = Some l -> levels !! S k = Some u -> index_ok u l.
Proof using Type.
  revert k. induction levels as [|l0 levels IH]; intros k Hlk Hl Hu; [done|]. destruct levels as [|u0 levels]; [done|].
  destruct Hlk as [Hix Hlk]. destruct k as [|k]; [by injection Hl as ->; injection Hu as ->|]. by apply (IH k).
Qed.

Lemma tree_level t levels k l : tree_ok t levels -> levels !! k = Some l -> level_ok (store t) l /\ Forall (id_ok t) (level_ids l).
Proof using Type.
  intros Ht Hl. split; [apply (Forall_lookup_1 _ _ _ _ (to_levels _ _ _ _ _ Ht) Hl)|].
  pose proof (to_ids _ _ _ _ _ Ht) as Hids. rewrite Forall_forall in Hids |- *. intros id Hid. apply Hids.
  unfold tree_ids. apply elem_of_concat. exists (level_ids l). split; [|done]. apply list_elem_of_fmap. exists l. split; [done|].
  by apply list_elem_of_lookup_2 in Hl.
Qed.

(** The stack of the traversal: from the level [lv] up, on each level the place of
    the key, whose record points to the bnode [child] on the level below. *)
Fixpoint path_ok (key : list Z) (lv : Z) (child : option Z) (ls : list (list view)) (st : list (Z * Z * Z)) : Prop :=
  match ls, st with
  | [], [] => True
  | l :: ls, (id, pos, level) :: st =>
      level = lv /\ (exists r, located key l id pos r /\ forall c, child = Some c -> le32_at r (VDFS2_KEY_LEN r) = c) /\
      path_ok key (lv + 1) (Some id) ls st
  | _, _ => False
  end.

Lemma located_record s key l id pos r :
  level_ok s l -> located key l id pos r ->
  valid_key r /\ record_ok_to_store r /\ exists prev next rs1 rs2, holds N s id prev next (rs1 ++ r :: rs2) /\ pos = Z.of_nat (length rs1).
Proof using HN.
  intros Hl (L1 & rs1 & rs2 & L2 & -> & -> & _). destruct (level_node _ _ _ _ _ Hl) as (Hh & Hv & _). split; [|split].
  - apply Forall_app in Hv as [_ Hv]. by apply Forall_cons in Hv as [Hv _].
  - destruct Hh as (n & F & es & _ & Ho & Hr & _). pose proof (node_records_ok N n F es Ho) as Hrs. rewrite Hr in Hrs.
    apply Forall_app in Hrs as [_ Hrs]. by apply Forall_cons in Hrs as [Hrs _].
  - eexists _, _, rs1, rs2. by split.
Qed.

Lemma value_pointer r : valid_key r -> get_value_pointer max_key_len r = PTR (VDFS2_KEY_LEN r).
Proof using HK. intros Hv. destruct (kl_len r Hv) as [[_ Hm] _]. unfold get_value_pointer. by rewrite (proj2 (Z.ltb_ge _ _)) by lia. Qed.

Lemma index_value_ok r t :
  valid_key r -> record_ok_to_store r -> VDFS2_RECORD_LEN r = VDFS2_KEY_LEN r + 4 ->
  index_value r (VDFS2_KEY_LEN r) t = Ret (le32_at r (VDFS2_KEY_LEN r), t).
Proof using HK.
  intros Hv (_ & Hl & _) Hr. destruct (kl_len r Hv) as [[Hk _] _]. unfold GENERIC_KEY_SIZE in Hk. unfold index_value.
  by rewrite (bt_step _ _ _ _ _ (lift_Ret _ _ t (mem_read_ok r (VDFS2_KEY_LEN r) 4 ltac:(lia) ltac:(lia) ltac:(lia)))).
Qed.

Lemma traverse_loop_ok t levels key use i d :
  tree_ok t levels -> key_ok key ->
  forall u curr pos r stack, levels !! (i + d)%nat = Some u -> located key u curr pos r ->
  (use = true -> path_ok key (Z.of_nat (i + d) + 2) (Some curr) (drop (S (i + d)) levels) stack) ->
  exists l id' pos' r' stack', levels !! i = Some l /\ located key l id' pos' r' /\
    traverse_loop N mf max_key_len comp_fn (S d) key use (Z.of_nat (i + d) + 1) (Z.of_nat i + 1) curr stack t
      = Ret (PTR (id', pos', stack'), t) /\
    (use = true -> path_ok key (Z.of_nat i + 1) None (drop i levels) stack' /\ head stack' = Some (id', pos', Z.of_nat i + 1)).
Proof using HK HN.
  intros Ht Hk. pose proof (eo_answers _ _ (to_env _ _ _ _ _ Ht)) as Ha. induction d as [|d IH]; intros u curr pos r stack Hu Hloc Hst.
  - rewrite Nat.add_0_r in *. destruct (tree_level t levels i u Ht Hu) as [Hl Hids].
    exists u, curr, pos, r, (if use then (curr, pos, Z.of_nat i + 1) :: stack else stack). split; [done|]. split; [done|]. split.
    + cbn [traverse_loop]. rewrite (bt_ptr _ _ _ _ _ (traverse_level_ok key t u curr pos r Ha Hl Hids Hk Hloc)).
      assert (Hpush : (if use then alloc_mem (ok ((curr, pos, Z.of_nat i + 1) :: stack)) else ok stack) t =
        Ret (PTR (if use then (curr, pos, Z.of_nat i + 1) :: stack else stack), t)) by (destruct use; [by rewrite alloc_mem_Ret|done]).
      rewrite (bt_ptr _ _ _ _ _ Hpush). by rewrite Z.ltb_irrefl.
    + intros ->. split; [|done]. rewrite (drop_S _ _ _ Hu). split; [done|]. split; [by exists r|].
      replace (Z.of_nat i + 1 + 1) with (Z.of_nat i + 2) by lia. by apply Hst.
  - destruct (tree_level t levels _ u Ht Hu) as [Hl Hids].
    destruct (lookup_lt_is_Some_2 levels (i + d)) as [l Hl']; [apply lookup_lt_Some in Hu; lia|].
    replace (i + S d)%nat with (S (i + d)) in * by lia.
    destruct (tree_level t levels _ l Ht Hl') as [Hll _].
    pose proof (linked_at levels (i + d) l u (to_linked _ _ _ _ _ Ht) Hl' Hu) as Hix.
    destruct (located_descend key (store t) u l curr pos r Hk Hl Hll Hix Hloc) as (Hrl & pos' & r' & Hloc').
    destruct (located_record _ key u curr pos r Hl Hloc) as (Hvr & Hsto & prev & next & rs1 & rs2 & Hh & Hpos).
    set (stack1 := if use then (curr, pos, Z.of_nat (S (i + d)) + 1) :: stack else stack).
    destruct (IH l _ pos' r' stack1 Hl' Hloc') as (l0 & id' & p0 & r0 & st' & Hl0 & Hloc0 & Heq & Hst').
    { intros ->. unfold stack1. rewrite (drop_S _ _ _ Hu). split; [lia|]. split; [exists r; split; [done|by intros c [= <-]]|].
      replace (Z.of_nat (i + d) + 2 + 1) with (Z.of_nat (S (i + d)) + 2) by lia. by apply Hst. }
    exists l0, id', p0, r0, st'. split; [done|]. split; [done|]. split; [|done].
    remember (S d) as fuel. cbn [traverse_loop]. rewrite (bt_ptr _ _ _ _ _ (traverse_level_ok key t u curr pos r Ha Hl Hids Hk Hloc)).
    assert (Hpush : (if use then alloc_mem (ok ((curr, pos, Z.of_nat (S (i + d)) + 1) :: stack)) else ok stack) t = Ret (PTR stack1, t))
      by (unfold stack1; destruct use; [by rewrite alloc_mem_Ret|done]).
    rewrite (bt_ptr _ _ _ _ _ Hpush). rewrite (proj2 (Z.ltb_lt _ _)) by lia.
    destruct (record_at_holds t curr prev next rs1 r rs2 Hh) as [off Hrec]. rewrite <-Hpos in Hrec.
    rewrite (bt_ptr _ _ _ _ _ Hrec). cbn iota beta. rewrite (value_pointer r Hvr).
    rewrite (bt_step _ _ _ _ _ (index_value_ok r t Hvr Hsto Hrl)). rewrite <-Heq. f_equal; lia.
Qed.

(** The first record of every level has the key of the first record of the tree. *)
Lemma located_level t levels key k :
  tree_ok t levels -> key_ok key ->
  (exists l h, levels !! 0%nat = Some l /\ head (recs l) = Some h /\ comp_fn h key <= 0) ->
  forall u, levels !! k = Some u -> exists h, head (recs u) = Some h /\ valid_key h /\ comp_fn h key <= 0.
Proof using HK.
  intros Ht Hk (l0 & h0 & Hl0 & Hh0 & Hc0). induction k as [|k IH]; intros u Hu.
  - rewrite Hu in Hl0. injection Hl0 as ->. exists h0. split; [done|]. split; [|done].
    destruct (tree_level t levels 0 l0 Ht Hu) as [Hl _]. pose proof (lo_valid _ _ _ _ _ Hl) as Hv.
    destruct (recs l0) as [|x xs]; [done|]. injection Hh0 as ->. by apply Forall_cons in Hv as [Hv _].
  - destruct (lookup_lt_is_Some_2 levels k) as [l Hl]; [apply lookup_lt_Some in Hu; lia|].
    destruct (IH l Hl) as (h & Hh & Hvh & Hc).
    destruct (tree_level t levels k l Ht Hl) as [Hlo _]. destruct (tree_level t levels (S k) u Ht Hu) as [Huo _].
    assert (Hne : l <> []) by (intros ->; done).
    destruct (heads_equal _ u l Huo Hlo (linked_at levels k l u (to_linked _ _ _ _ _ Ht) Hl Hu) Hne) as (hu & hl & Hhu & Hhl & Hvu & _ & Hceq).
    rewrite Hh in Hhl. injection Hhl as <-. exists hu. split; [done|]. split; [done|]. by apply (comp_trans hu h key Hvu Hvh Hk); [lia|].
Qed.

Lemma located_root v key : key_ok key -> Forall valid_key v.2 -> sorted comp_fn v.2 ->
  (exists h, head (recs [v]) = Some h /\ comp_fn h key <= 0) -> exists pos r, located key [v] v.1 pos r.
Proof using HK.
  intros Hk Hv Hs Hh. destruct v as [id rs]. cbn [fst snd] in *. unfold recs in Hh. cbn in Hh. rewrite app_nil_r in Hh.
  destruct (split_last rs key Hk Hv Hs Hh) as (a & r & b & -> & Hr & Hb). exists (Z.of_nat (length a)), r, [], a, b, [].
  split; [done|]. split; [done|]. split; [done|]. unfold recs. cbn. by rewrite app_nil_r.
Qed.

Lemma vdfs2_btree_traverse_ok t levels key use i :
  tree_ok t levels -> key_ok key -> (i < length levels)%nat ->
  (exists l h, levels !! 0%nat = Some l /\ head (recs l) = Some h /\ comp_fn h key <= 0) ->
  exists l id pos r stack, levels !! i = Some l /\ located key l id pos r /\
    vdfs2_btree_traverse N mf max_key_len comp_fn key use (Z.of_nat i + 1) t = Ret (PTR (id, pos, stack), t) /\
    (use = true -> path_ok key (Z.of_nat i + 1) None (drop i levels) stack /\ head stack = Some (id, pos, Z.of_nat i + 1)).
Proof using HK HN.
  intros Ht Hk Hi Hfirst. destruct (to_root _ _ _ _ _ Ht) as (v & Hlast & Hroot). destruct (to_height _ _ _ _ _ Ht) as [Hh _].
  rewrite last_lookup in Hlast. set (k := pred (length levels)) in *.
  destruct (tree_level t levels k [v] Ht Hlast) as [Hl _].
  destruct (located_level t levels key k Ht Hk Hfirst [v] Hlast) as (h & Hhd & _ & Hc).
  pose proof (lo_valid _ _ _ _ _ Hl) as Hv. pose proof (lo_sorted _ _ _ _ _ Hl) as Hs. unfold recs in Hv, Hs. cbn in Hv, Hs. rewrite app_nil_r in Hv, Hs.
  destruct (located_root v key Hk Hv Hs) as (pos & r & Hloc); [by exists h|].
  destruct (traverse_loop_ok t levels key use i (k - i) Ht Hk [v] v.1 pos r []) as (l & id & p & r' & st & Hl' & Hloc' & Heq & Hst).
  { by replace (i + (k - i))%nat with k by lia. }
  { done. }
  { intros _. rewrite drop_ge by lia. done. }
  exists l, id, p, r', st. split; [done|]. split; [done|]. split; [|done]. rewrite <-Heq. unfold vdfs2_btree_traverse.
  rewrite (bt_step root_id _ t (root_bnode_id t) t eq_refl), (bt_step height _ t (btree_height t) t eq_refl). rewrite <-Hroot, Hh.
  f_equal; lia.
Qed.
End find.
