(* ===== verification/BtreeLookup.v ===== *)
(** * Lookup and scan of a whole tree: [vdfs2_btree_find] and
    [vdfs2_get_next_btree_record] against the list of the leaf records *)
From Stdlib Require Import ZArith Lia.
From stdpp Require Import base numbers list sets gmap.
From S2P Require Import Prelude Bits Bytes BtreeNode BtreeNodeFacts BtreeNodeOps Bnode BnodeIds Btree BtreeKeys BtreeSpec BtreeFind.

(** The specification of a search: the last record that is not above the key. *)
Definition last_not_above (comp_fn : list Z -> list Z -> Z) (key : list Z) (rs : list (list Z)) : option (list Z) :=
  last (filter (fun r => comp_fn r key <= 0) rs).

(** The records that follow a place, one call after the other. *)
Fixpoint scan (N : Z) (mf : bool) (k : nat) (bnode pos : Z) : bt (list (list Z)) :=
  match k with
  | O => mret []
  | S k =>
      r ← vdfs2_get_next_btree_record N mf bnode pos;
      match r with
      | ERR_PTR _ => mret []
      | PTR (bnode, pos, record) => rest ← scan N mf k bnode pos; mret (record :: rest)
      end
  end.

Section lookup.
Context (N : Z) (mf : bool) (max_key_len : Z) (comp_fn : list Z -> list Z -> Z) (key_ok valid_key : list Z -> Prop).
Context `{HK : !KeyLaws comp_fn key_ok valid_key max_key_len} (HN : 128 <= N < 65536).
#[local] Coercion valid_coe r (H : valid_key r) : key_ok r := kl_ok r H.
#[local] Abbreviation comp_refl := (comp_refl (key_ok := key_ok)).
#[local] Abbreviation comp_eq_l := (comp_eq_l (key_ok := key_ok)).

Abbreviation located := (located comp_fn).
Abbreviation level_ok := (level_ok N comp_fn valid_key).
Abbreviation tree_ok := (tree_ok N comp_fn valid_key).

Lemma filter_above key rs : Forall (fun x => 0 < comp_fn x key) rs -> filter (fun r => comp_fn r key <= 0) rs = [].
Proof using Type.
  induction 1 as [|x rs Hx _ IH]; [done|]. rewrite filter_cons_False; [done|]. cbn beta in Hx. lia.
Qed.

Lemma located_last key l id pos r : located key l id pos r -> last_not_above comp_fn key (recs l) = Some r.
Proof using Type.
  intros (L1 & rs1 & rs2 & L2 & -> & _ & Hc & Hafter). unfold last_not_above. rewrite recs_app, recs_cons. cbn [snd].
  rewrite !filter_app, filter_cons_True by done. rewrite <-app_assoc, <-app_comm_cons, <-filter_app, (filter_above key _ Hafter).
  rewrite app_assoc. apply last_snoc.
Qed.

(** The first records of all levels have the same key. *)
Lemma level_heads t levels l0 h0 k u :
  tree_ok t levels -> levels !! 0%nat = Some l0 -> head (recs l0) = Some h0 -> levels !! k = Some u ->
  exists h, head (recs u) = Some h /\ valid_key h /\ valid_key h0 /\ comp_fn h h0 = 0.
Proof using HK.
  intros Ht Hl0 Hh0. revert u. induction k as [|k IH]; intros u Hu.
  - rewrite Hu in Hl0. injection Hl0 as ->. exists h0. destruct (tree_level N comp_fn valid_key t levels 0 l0 Ht Hu) as [Hl _].
    pose proof (lo_valid _ _ _ _ _ Hl) as Hv. destruct (recs l0) as [|x xs]; [done|]. injection Hh0 as ->.
    apply Forall_cons in Hv as [Hv _]. split; [done|]. split; [done|]. split; [done|]. exact (comp_refl h0 Hv).
  - destruct (lookup_lt_is_Some_2 levels k) as [l Hl]; [apply lookup_lt_Some in Hu; lia|].
    destruct (IH l Hl) as (h & Hh & Hvh & Hv0 & Hc).
    destruct (tree_level N comp_fn valid_key t levels k l Ht Hl) as [Hlo _].
    destruct (tree_level N comp_fn valid_key t levels (S k) u Ht Hu) as [Huo _].
    destruct (heads_equal N comp_fn valid_key _ u l Huo Hlo (linked_at comp_fn levels k l u (to_linked _ _ _ _ _ Ht) Hl Hu)) as (hu & hl & Hhu & Hhl & Hvu & _ & Hceq).
    { by intros ->. }
    rewrite Hh in Hhl. injection Hhl as <-. exists hu. split; [done|]. split; [done|]. split; [done|].
    pose proof (comp_eq_l hu h h0 Hvu Hvh Hv0 Hceq). lia.
Qed.

(** A key below all records: the search ends at the root. *)
Lemma traverse_below t levels l0 h0 key use :
  tree_ok t levels -> key_ok key -> levels !! 0%nat = Some l0 -> head (recs l0) = Some h0 -> 0 < comp_fn h0 key ->
  vdfs2_btree_traverse N mf max_key_len comp_fn key use VDFS2_BTREE_LEAF_LVL t = Ret (ERR_PTR (- ENOENT), t).
Proof using HK HN.
  intros Ht Hk Hl0 Hh0 Hc0. pose proof (eo_answers _ _ (to_env _ _ _ _ _ Ht)) as Ha. destruct (to_root _ _ _ _ _ Ht) as ([id rs] & Hlast & Hroot). cbn [fst] in Hroot.
  rewrite last_lookup in Hlast. destruct (tree_level N comp_fn valid_key t levels _ _ Ht Hlast) as [Hl Hids].
  destruct (level_heads t levels l0 h0 _ _ Ht Hl0 Hh0 Hlast) as (h & Hh & Hvh & Hv0 & Hc).
  assert (Hhk : 0 < comp_fn h key) by (pose proof (comp_eq_l h h0 key Hvh Hv0 Hk Hc); lia).
  apply Forall_cons in Hids as [Hid _]. cbn [fst] in Hid.
  destruct (level_node N comp_fn valid_key _ [] id rs [] Hl) as ((n & F & es & Hn & Ho & Hr & _ & _ & Hnx) & Hv & Hs).
  unfold recs in Hh. cbn in Hh. rewrite app_nil_r in Hh. destruct rs as [|x xs]; [done|]. injection Hh as ->.
  pose proof (search_above N mf max_key_len comp_fn key_ok valid_key HN key n F es h xs Ho Hr Hk Hv Hs Hhk) as Hb.
  assert (Hlev : btree_traverse_level N mf comp_fn key id t = Ret (ERR_PTR (- ENOENT), t)).
  { unfold btree_traverse_level. rewrite (bt_ptr _ _ _ _ _ (get_bnode_Ret t id n Ha Hid Hn)).
    rewrite (bt_step _ _ _ _ _ (node_Ret id n t Hn)). by rewrite (bt_step _ _ _ _ _ (lift_Ret _ _ t Hb)). }
  unfold vdfs2_btree_traverse. rewrite (bt_step root_id _ t (root_bnode_id t) t eq_refl), (bt_step height _ t (btree_height t) t eq_refl).
  destruct (to_height _ _ _ _ _ Ht) as [Hht _]. rewrite Hht, <-Hroot. unfold VDFS2_BTREE_LEAF_LVL.
  apply lookup_lt_Some in Hl0. replace (Z.to_nat (Z.of_nat (length levels) - 1 + 1)) with (S (pred (length levels))) by lia.
  cbn [traverse_loop]. by apply bt_ptr_err.
Qed.

Lemma find_below t levels l0 h0 key :
  tree_ok t levels -> key_ok key -> levels !! 0%nat = Some l0 -> head (recs l0) = Some h0 -> 0 < comp_fn h0 key ->
  vdfs2_btree_find N mf max_key_len comp_fn key t = Ret (ERR_PTR (- ENOENT), t).
Proof using HK HN.
  intros Ht Hk Hl0 Hh0 Hc0. unfold vdfs2_btree_find. rewrite alloc_mem_Ret by apply (eo_answers _ _ (to_env _ _ _ _ _ Ht)).
  apply bt_ptr_err. unfold btree_find. apply bt_ptr_err. by apply (traverse_below t levels l0 h0).
Qed.

Lemma find_located t levels l0 h0 key :
  tree_ok t levels -> key_ok key -> levels !! 0%nat = Some l0 -> head (recs l0) = Some h0 -> comp_fn h0 key <= 0 ->
  exists id pos r, located key l0 id pos r /\ vdfs2_btree_find N mf max_key_len comp_fn key t = Ret (PTR (id, pos, r), t).
Proof using HK HN.
  intros Ht Hk Hl0 Hh0 Hc0. pose proof (eo_answers _ _ (to_env _ _ _ _ _ Ht)) as Ha.
  destruct (vdfs2_btree_traverse_ok N mf max_key_len comp_fn key_ok valid_key HN t levels key false 0 Ht Hk) as (l & id & pos & r & st & Hl & Hloc & Heq & _).
  { by apply lookup_lt_Some in Hl0. }
  { by exists l0, h0. }
  rewrite Hl0 in Hl. injection Hl as <-. exists id, pos, r. split; [done|].
  destruct (tree_level N comp_fn valid_key t levels 0 l0 Ht Hl0) as [Hlo _].
  destruct (located_record N comp_fn valid_key HN _ key l0 id pos r Hlo Hloc) as (Hvr & _ & prev & next & rs1 & rs2 & Hh & Hpos).
  unfold vdfs2_btree_find. rewrite alloc_mem_Ret by done.
  assert (Hf : btree_find N mf max_key_len comp_fn key VDFS2_BTREE_LEAF_LVL t = Ret (PTR (id, pos), t)).
  { unfold btree_find. change VDFS2_BTREE_LEAF_LVL with (Z.of_nat 0 + 1). by rewrite (bt_ptr _ _ _ _ _ Heq). }
  rewrite (bt_ptr _ _ _ _ _ Hf). destruct (record_at_holds N mf HN t id prev next rs1 r rs2 Hh) as [off Hrec]. rewrite <-Hpos in Hrec.
  rewrite (bt_ptr _ _ _ _ _ Hrec). cbn iota beta. by rewrite (value_pointer max_key_len comp_fn key_ok valid_key r Hvr).
Qed.

Lemma level_above_nonempty t levels k l u : tree_ok t levels -> levels !! k = Some l -> levels !! S k = Some u -> u <> [] -> l <> [].
Proof using HK HN.
  intros Ht Hl Hu Hne ->. pose proof (linked_at comp_fn levels k [] u (to_linked _ _ _ _ _ Ht) Hl Hu) as Hix. unfold index_ok in Hix.
  destruct (tree_level N comp_fn valid_key t levels (S k) u Ht Hu) as [Huo _]. pose proof (lo_nonempty _ _ _ _ _ Huo) as Hn.
  destruct u as [|[id rs] u]; [done|]. apply Forall_cons in Hn as [Hn _]. rewrite recs_cons in Hix. cbn [snd] in *. destruct rs; [done|]. by apply Forall2_nil_inv_r in Hix.
Qed.

Lemma leaves_nonempty t levels l0 : tree_ok t levels -> levels !! 0%nat = Some l0 -> exists h, head (recs l0) = Some h.
Proof using HK HN.
  intros Ht Hl0.
  assert (Hall : forall d k l, levels !! k = Some l -> (k + d = pred (length levels))%nat -> l <> []).
  { induction d as [|d IH]; intros k l Hl Hk.
    - destruct (to_root _ _ _ _ _ Ht) as (v & Hlast & _). rewrite last_lookup in Hlast. replace (pred (length levels)) with k in Hlast by lia.
      rewrite Hl in Hlast. by injection Hlast as ->.
    - destruct (lookup_lt_is_Some_2 levels (S k)) as [u Hu]; [lia|]. apply (level_above_nonempty t levels k l u Ht Hl Hu). apply (IH (S k)); [done|lia]. }
  pose proof (lookup_lt_Some _ _ _ Hl0). specialize (Hall (pred (length levels)) 0%nat l0 Hl0 ltac:(lia)).
  destruct (tree_level N comp_fn valid_key t levels 0 l0 Ht Hl0) as [Hlo _]. pose proof (lo_nonempty _ _ _ _ _ Hlo) as Hn.
  destruct l0 as [|[id rs] l0]; [done|]. apply Forall_cons in Hn as [Hn _]. rewrite recs_cons. cbn [snd] in *. destruct rs as [|h rs]; [done|]. by exists h.
Qed.

(** Nothing is found exactly when the first record is above the key. *)
Lemma last_not_above_None key rs h :
  key_ok key -> Forall valid_key rs -> sorted comp_fn rs -> head rs = Some h -> last_not_above comp_fn key rs = None <-> 0 < comp_fn h key.
Proof using HK.
  intros Hk Hv Hs Hh. destruct rs as [|x rs]; [done|]. injection Hh as ->. unfold last_not_above. split.
  - rewrite last_None. intros Hf. destruct (Z.lt_ge_cases 0 (comp_fn h key)) as [|Hle]; [done|]. by rewrite filter_cons_True in Hf by lia.
  - intros Hc. apply Forall_cons in Hv as [Hvh Hv]. apply sorted_first in Hs as [_ Hs]. rewrite filter_above; [done|]. constructor; [done|].
    by apply (above_sorted key h).
Qed.

Lemma find_last t levels l0 key :
  tree_ok t levels -> key_ok key -> levels !! 0%nat = Some l0 ->
  match last_not_above comp_fn key (recs l0) with
  | None => vdfs2_btree_find N mf max_key_len comp_fn key t = Ret (ERR_PTR (- ENOENT), t)
  | Some r => exists id pos, located key l0 id pos r /\ vdfs2_btree_find N mf max_key_len comp_fn key t = Ret (PTR (id, pos, r), t)
  end.
Proof using HK HN.
  intros Ht Hk Hl0. destruct (leaves_nonempty t levels l0 Ht Hl0) as [h Hh].
  destruct (tree_level N comp_fn valid_key t levels 0 l0 Ht Hl0) as [Hlo _].
  pose proof (last_not_above_None key (recs l0) h Hk (lo_valid _ _ _ _ _ Hlo) (lo_sorted _ _ _ _ _ Hlo) Hh) as Hnone.
  destruct (Z.lt_ge_cases 0 (comp_fn h key)) as [Hlt|Hle].
  - rewrite (proj2 Hnone Hlt). by apply (find_below t levels l0 h).
  - destruct (find_located t levels l0 h key Ht Hk Hl0 Hh Hle) as (id & pos & r & Hloc & Heq).
    rewrite (located_last key l0 id pos r Hloc). by exists id, pos.
Qed.

(** ** Scanning a level *)

Lemma next_record_ok t L1 id rs1 r rs2 L2 :
  let l := L1 ++ (id, rs1 ++ r :: rs2) :: L2 in
  level_ok (store t) l -> Forall (id_ok t) (level_ids l) -> answers t = [] ->
  match rs2, L2 with
  | x :: _, _ => vdfs2_get_next_btree_record N mf id (Z.of_nat (length rs1)) t = Ret (PTR (id, Z.of_nat (length rs1) + 1, x), t)
  | [], (id', x :: _) :: _ => vdfs2_get_next_btree_record N mf id (Z.of_nat (length rs1)) t = Ret (PTR (id', 0, x), t)
  | [], (_, []) :: _ => False
  | [], [] => vdfs2_get_next_btree_record N mf id (Z.of_nat (length rs1)) t = Ret (ERR_PTR (- ENOENT), t)
  end.
Proof using HN.
  intros l Hl Hids Ha. destruct (level_node N comp_fn valid_key _ L1 id _ L2 Hl) as (Hh & _ & _).
  pose proof Hh as (n & F & es & Hn & Ho & Hr & _ & _ & Hnx).
  assert (Hcount : recs_count (dscr n) = Z.of_nat (length (rs1 ++ r :: rs2))).
  { rewrite (no_count _ _ _ _ Ho), <-Hr. unfold records. by rewrite length_fmap. }
  rewrite length_app in Hcount. cbn [length] in Hcount.
  unfold l, level_ids in Hids. rewrite map_app, Forall_app in Hids. destruct Hids as [_ Hids]. apply Forall_cons in Hids as [_ Hids].
  destruct rs2 as [|x rs2].
  - destruct L2 as [|[id' [|x xs]] L2].
    + unfold vdfs2_get_next_btree_record. rewrite (bt_step _ _ _ _ _ (node_Ret id n t Hn)). cbn [length] in Hcount.
      rewrite Hcount, (proj2 (Z.ltb_ge _ _)) by lia. by rewrite Hnx.
    + pose proof (lo_nonempty _ _ _ _ _ Hl) as Hne. unfold l in Hne. rewrite Forall_app in Hne. destruct Hne as [_ Hne].
      apply Forall_cons in Hne as [_ Hne]. by apply Forall_cons in Hne as [Hne _].
    + assert (Hl' : level_ok (store t) ((L1 ++ [(id, rs1 ++ [r])]) ++ (id', x :: xs) :: L2)) by (by rewrite <-app_assoc).
      destruct (level_node N comp_fn valid_key _ _ id' _ L2 Hl') as (Hh2 & _ & _). apply Forall_cons in Hids as [Hid' _]. cbn [fst] in Hid'.
      destruct (record_at_holds N mf HN t id' _ _ [] x xs Hh2) as [off Hrec]. destruct Hh2 as (n2 & F2 & es2 & Hn2 & _).
      unfold vdfs2_get_next_btree_record. rewrite (bt_step _ _ _ _ _ (node_Ret id n t Hn)). cbn [length] in Hcount.
      rewrite Hcount, (proj2 (Z.ltb_ge _ _)) by lia. rewrite Hnx. cbn [first_id fst].
      destruct Hid' as [Hpos Hid'']. rewrite (proj2 (Z.eqb_neq _ _)) by (unfold VDFS2_INVALID_NODE_ID; lia).
      rewrite (bt_ptr _ _ _ _ _ (get_bnode_Ret t id' n2 Ha (conj Hpos Hid'') Hn2)). change 0 with (Z.of_nat (length (@nil (list Z)))) at 1.
      by rewrite (bt_ptr _ _ _ _ _ Hrec).
  - unfold vdfs2_get_next_btree_record. rewrite (bt_step _ _ _ _ _ (node_Ret id n t Hn)). cbn [length] in Hcount.
    rewrite Hcount, (proj2 (Z.ltb_lt _ _)) by lia.
    assert (Hh' : holds N (store t) id (last_id 0 L1) (first_id L2 0) ((rs1 ++ [r]) ++ x :: rs2)) by (by rewrite <-app_assoc).
    destruct (record_at_holds N mf HN t id _ _ (rs1 ++ [r]) x rs2 Hh') as [off Hrec]. rewrite length_app in Hrec. cbn [length] in Hrec.
    replace (Z.of_nat (length rs1 + 1)) with (Z.of_nat (length rs1) + 1) in Hrec by lia. by rewrite (bt_ptr _ _ _ _ _ Hrec).
Qed.

Lemma scan_ok t k : forall L1 id rs1 r rs2 L2,
  let l := L1 ++ (id, rs1 ++ r :: rs2) :: L2 in
  level_ok (store t) l -> Forall (id_ok t) (level_ids l) -> answers t = [] ->
  scan N mf k id (Z.of_nat (length rs1)) t = Ret (take k (rs2 ++ recs L2), t).
Proof using HN.
  induction k as [|k IH]; intros L1 id rs1 r rs2 L2 l Hl Hids Ha; [done|].
  pose proof (next_record_ok t L1 id rs1 r rs2 L2 Hl Hids Ha) as Hnext. cbn [scan]. destruct rs2 as [|x rs2].
  - destruct L2 as [|[id' [|x xs]] L2]; [by rewrite (bt_step _ _ _ _ _ Hnext)|done|]. rewrite (bt_step _ _ _ _ _ Hnext). cbn iota.
    assert (Hl' : L1 ++ (id, rs1 ++ [r]) :: (id', x :: xs) :: L2 = (L1 ++ [(id, rs1 ++ [r])]) ++ (id', [] ++ x :: xs) :: L2) by (by rewrite <-app_assoc).
    unfold l in Hl, Hids. rewrite Hl' in Hl, Hids. pose proof (IH _ id' [] x xs L2 Hl Hids Ha) as Hs. cbn [length] in Hs. change (Z.of_nat 0) with 0 in Hs.
    by rewrite (bt_step _ _ _ _ _ Hs).
  - rewrite (bt_step _ _ _ _ _ Hnext). cbn iota.
    assert (Hl' : rs1 ++ r :: x :: rs2 = (rs1 ++ [r]) ++ x :: rs2) by (by rewrite <-app_assoc).
    unfold l in Hl, Hids. rewrite Hl' in Hl, Hids. pose proof (IH L1 id (rs1 ++ [r]) x rs2 L2 Hl Hids Ha) as Hs. rewrite length_app in Hs. cbn [length] in Hs.
    replace (Z.of_nat (length rs1 + 1)) with (Z.of_nat (length rs1) + 1) in Hs by lia. by rewrite (bt_step _ _ _ _ _ Hs).
Qed.
End lookup.
