(* ===== verification/BtreeInsert.v ===== *)
(** * Insertion into one level of a tree: [place_key_in_bnode] and the value *)
From Stdlib Require Import ZArith Lia.
From stdpp Require Import base numbers list sets gmap.
From S2P Require Import Prelude Bits BitsFacts Bytes BtreeNode BtreeNodeFacts BtreeNodeOps Bnode BnodeIds Btree BtreeKeys BtreeSpec BtreeFind.

(** ** The value of a stored record *)

(** The record with another value. *)
Definition with_value (r bs : list Z) : list Z := bytes_at r 0 (VDFS2_KEY_LEN r) ++ bs.

Section value.
Context (N : Z) (mf : bool) (HN : 128 <= N < 65536).

Lemma put_at_end d o k bs :
  0 <= o -> 0 <= k -> o + k + Z.of_nat (length bs) <= Z.of_nat (length d) ->
  bytes_at (put_bytes d (o + k) bs) o (k + Z.of_nat (length bs)) = bytes_at d o k ++ bs.
Proof using Type.
  intros Ho Hk Hl. apply list_eq. intros i. destruct (decide (Z.of_nat i < k + Z.of_nat (length bs))) as [Hi|Hi].
  - rewrite lookup_bytes_at by lia. replace (Z.to_nat o + i)%nat with (Z.to_nat (o + Z.of_nat i)) by lia.
    destruct (decide (Z.of_nat i < k)) as [Hlt|Hge].
    + rewrite lookup_put_outside by lia. rewrite lookup_app_l by (rewrite length_bytes_at; lia).
      rewrite lookup_bytes_at by lia. f_equal. lia.
    + rewrite lookup_put_inside by lia. rewrite lookup_app_r by (rewrite length_bytes_at; lia).
      rewrite length_bytes_at by lia. f_equal. lia.
  - rewrite !lookup_ge_None_2; [done| |]; rewrite ?length_app, length_bytes_at; rewrite ?length_put_bytes; lia.
Qed.

Lemma bytes_at_app_l a b n : 0 <= n <= Z.of_nat (length a) -> bytes_at (a ++ b) 0 n = bytes_at a 0 n.
Proof using Type. intros Hn. unfold bytes_at. change (Z.to_nat 0) with 0%nat. rewrite !drop_0. apply take_app_le. lia. Qed.

Lemma bytes_at_app_r a b : bytes_at (a ++ b) (Z.of_nat (length a)) (Z.of_nat (length b)) = b.
Proof using Type. unfold bytes_at. rewrite !Nat2Z.id, drop_app_length. apply firstn_all. Qed.

Lemma with_value_len r bs : GENERIC_KEY_SIZE <= VDFS2_KEY_LEN r -> VDFS2_KEY_LEN r + Z.of_nat (length bs) = Z.of_nat (length r) ->
  length (with_value r bs) = length r /\ bytes_at (with_value r bs) 0 (VDFS2_KEY_LEN r) = bytes_at r 0 (VDFS2_KEY_LEN r).
Proof using Type.
  unfold GENERIC_KEY_SIZE. intros Hk Hl. unfold with_value.
  assert (Hlen : length (bytes_at r 0 (VDFS2_KEY_LEN r)) = Z.to_nat (VDFS2_KEY_LEN r)) by (apply length_bytes_at; lia).
  split; [rewrite length_app, Hlen; lia|]. rewrite bytes_at_app_l by lia. rewrite bytes_at_nested by lia. done.
Qed.

(** The node keeps its shape when the value of a record is overwritten. *)
Lemma write_value_node_ok n F A o r B bs :
  node_ok N n F (A ++ (o, r) :: B) -> GENERIC_KEY_SIZE <= VDFS2_KEY_LEN r -> VDFS2_KEY_LEN r + Z.of_nat (length bs) = Z.of_nat (length r) ->
  Forall is_byte bs ->
  node_write n (o + VDFS2_KEY_LEN r) bs = Ret (set_data n (put_bytes (data n) (o + VDFS2_KEY_LEN r) bs)) /\
  node_ok N (set_data n (put_bytes (data n) (o + VDFS2_KEY_LEN r) bs)) F (A ++ (o, with_value r bs) :: B).
Proof using HN.
  intros Hn Hk Hl Hb. pose proof (no_entries _ _ _ _ Hn) as He. apply Forall_app in He as [HeA He]. apply Forall_cons in He as [Her HeB].
  pose proof Her as [Hbr Hlo Hhi Hlr Hmin]. unfold entry_len in Hhi, Hbr, Hlr, Hmin. cbn [fst snd] in *. unfold GENERIC_KEY_SIZE in *.
  destruct (with_value_len r bs Hk Hl) as [Hwl Hwk]. set (k := VDFS2_KEY_LEN r) in *.
  destruct (no_free _ _ _ _ Hn) as (HF1 & HF2 & HF3). pose proof (no_size _ _ _ _ Hn) as Hsz.
  pose proof (no_apart _ _ _ _ Hn) as Hap. unfold DSCR_SIZE in *.
  assert (Hsa : saddr N (Z.of_nat (length (A ++ (o, r) :: B))) < N) by (unfold saddr, VDFS2_BNODE_FIRST_OFFSET, OFF_SIZE; lia).
  split; [apply node_write_ok; unfold DSCR_SIZE; lia|].
  assert (Hslot : forall j, 0 <= j <= Z.of_nat (length (A ++ (o, r) :: B)) -> slot N (put_bytes (data n) (o + k) bs) j = slot N (data n) j).
  { intros j Hj. unfold slot. apply le32_at_put_other; unfold saddr, VDFS2_BNODE_FIRST_OFFSET, OFF_SIZE in *; lia. }
  assert (Hlen : length (A ++ (o, with_value r bs) :: B) = length (A ++ (o, r) :: B)) by (by rewrite !length_app).
  assert (Hother : forall e, entries_apart e (o, r) -> entry_ok (data n) F e -> entry_ok (put_bytes (data n) (o + k) bs) F e).
  { intros e Hae [Hb1 ? ? ? ?]. split; try done. transitivity (bytes_at (data n) e.1 (entry_len e)); [|exact Hb1]. unfold entries_apart, entry_len in *. cbn [fst snd] in Hae.
    unfold DSCR_SIZE in *. apply bytes_at_put_other; lia. }
  apply all_apart_delete in Hap as [Hap Hre]. apply Forall_app in Hre as [HreA HreB].
  assert (Hsym : forall C, Forall (entries_apart (o, r)) C -> Forall (entry_ok (data n) F) C -> Forall (entry_ok (put_bytes (data n) (o + k) bs) F) C).
  { intros C H1 H2. rewrite Forall_forall in *. intros e Hin. apply Hother; [apply entries_apart_sym|]; auto. }
  split; cbn [set_data data dscr].
  - by rewrite length_put_bytes.
  - apply bytes_put; [apply (no_bytes _ _ _ _ Hn)|done].
  - rewrite Hlen. apply (no_count _ _ _ _ Hn).
  - intros i e Hi. pose proof (lookup_lt_Some _ _ _ Hi) as Hlt. rewrite Hlen in Hlt. rewrite Hslot by lia.
    assert (Hi' : exists e', (A ++ (o, r) :: B) !! i = Some e' /\ e'.1 = e.1).
    { destruct (Nat.lt_trichotomy i (length A)) as [Hia|[->|Hia]].
      - rewrite lookup_app_l in Hi |- * by lia. by exists e.
      - rewrite list_lookup_middle in Hi by done. injection Hi as <-. exists (o, r). by rewrite list_lookup_middle.
      - rewrite lookup_app_r in Hi |- * by lia. destruct (i - length A)%nat eqn:Hd; [lia|]. by exists e. }
    destruct Hi' as (e' & He' & <-). by apply (no_slots _ _ _ _ Hn).
  - rewrite Hlen, Hslot by lia. apply (no_end _ _ _ _ Hn).
  - apply Forall_app. split; [by apply Hsym|]. constructor; [|by apply Hsym].
    split; cbn [fst snd]; unfold entry_len; cbn [snd]; rewrite ?Hwl; unfold DSCR_SIZE, GENERIC_KEY_SIZE; try lia.
    + rewrite <-Hl, put_at_end by lia. unfold with_value. fold k. f_equal.
      transitivity (bytes_at (bytes_at (data n) o (Z.of_nat (length r))) 0 k); [|by rewrite Hbr].
      rewrite bytes_at_nested by lia. f_equal. lia.
    + unfold VDFS2_RECORD_LEN, le32_at. rewrite <-Hlr. unfold VDFS2_RECORD_LEN, le32_at. f_equal.
      pose proof (bytes_at_nested (with_value r bs) 0 k 8 4 ltac:(lia) ltac:(lia) ltac:(lia) ltac:(lia)) as Hw1. rewrite Hwk in Hw1.
      pose proof (bytes_at_nested r 0 k 8 4 ltac:(lia) ltac:(lia) ltac:(lia) ltac:(lia)) as Hw2. rewrite Hw1 in Hw2. exact Hw2.
  - apply all_apart_insert; [done|]. apply Forall_app. split; [eapply Forall_impl; [exact HreA|]|eapply Forall_impl; [exact HreB|]];
      intros e He; unfold entries_apart, entry_len in *; cbn [fst snd] in *; rewrite Hwl; exact He.
  - pose proof (no_total _ _ _ _ Hn) as Ht. rewrite total_len_app in *. simpl in *. unfold entry_len in *. cbn [snd] in *. rewrite Hwl. exact Ht.
  - rewrite Hlen. unfold DSCR_SIZE. lia.
Qed.
End value.

(** What an operation on a level leaves alone: the nodes that are in use and not on
    the level, and the root; [k] ids at most are taken. *)
Record frame (N : Z) (l : list view) (k : Z) (t t' : vdfs2_btree) : Prop := {
  fr_env : env_ok N t';
  fr_store id : id_ok t id -> id ∉ level_ids l -> store t' !! id = store t !! id;
  fr_ids id : id_ok t id -> id_ok t' id;
  fr_root : root_bnode_id t' = root_bnode_id t /\ btree_height t' = btree_height t;
  fr_free : free_num (ids t) - k <= free_num (ids t');
}.

Lemma frame_refl N l t : env_ok N t -> frame N l 0 t t.
Proof. intros He. split; try done. lia. Qed.

Lemma frame_set N t id n l : env_ok N t -> id ∈ level_ids l -> raw_node N n -> frame N l 0 t (set_store t (<[id := n]> (store t))).
Proof.
  intros [Ha Hb Hz Hr] Hin Hn. split; [split| | | |]; cbn; try done; [by apply map_Forall_insert_2| |lia].
  intros x _ Hx. rewrite lookup_insert_ne; [done|]. by intros ->.
Qed.

Lemma frame_trans N l l' k k' t t' t'' :
  (forall id, id_ok t id -> id ∈ level_ids l' -> id ∈ level_ids l) ->
  frame N l k t t' -> frame N l' k' t' t'' -> frame N l (k + k') t t''.
Proof.
  intros Hsub [He1 Hs1 Hi1 [Hr1 Hh1] Hf1] [He2 Hs2 Hi2 [Hr2 Hh2] Hf2]. split.
  - done.
  - intros id Hid Hin. rewrite Hs2; [by apply Hs1|by apply Hi1|]. intros ?. by apply Hin, Hsub.
  - intros id Hid. by apply Hi2, Hi1.
  - split; congruence.
  - lia.
Qed.

Section level.
Context `{HS : !BitSearch} `{HBL : !BitSearchLaws}.
Context (N : Z) (mf : bool) (max_key_len : Z) (comp_fn : list Z -> list Z -> Z) (key_ok valid_key : list Z -> Prop).
Context `{HK : !KeyLaws comp_fn key_ok valid_key max_key_len} (HN : 128 <= N < 65536).
#[local] Coercion valid_coe2 r (H : valid_key r) : key_ok r := kl_ok r H.
#[local] Abbreviation comp_trans := (comp_trans (key_ok := key_ok)).
#[local] Abbreviation comp_flip := (comp_flip (key_ok := key_ok)).
#[local] Abbreviation comp_flip0 := (comp_flip0 (key_ok := key_ok)).
#[local] Abbreviation comp_lt_le := (comp_lt_le (key_ok := key_ok)).
#[local] Abbreviation comp_le_lt := (comp_le_lt (key_ok := key_ok)).
#[local] Abbreviation comp_eq_l := (comp_eq_l (key_ok := key_ok)).
#[local] Abbreviation comp_eq_r := (comp_eq_r (key_ok := key_ok)).

Abbreviation located := (located comp_fn).
Abbreviation level_ok := (level_ok N comp_fn valid_key).
Abbreviation size_ok := (size_ok N).

(** A key to be placed, for a record of length [L]. *)
Record new_record (key : list Z) (L : Z) : Prop := {
  nr_valid : valid_key key;
  nr_req : split_request N key L;
  nr_value : VDFS2_KEY_LEN key + 4 <= L;
}.

(** A record in the place of the key. *)
Definition stands_for (key : list Z) (L : Z) (r : list Z) : Prop := Forall is_byte r /\ stored key (VDFS2_KEY_LEN key) L r.

Lemma stands_for_facts key L r :
  new_record key L -> stands_for key L r -> valid_key r /\ comp_fn r key = 0 /\ size_ok r /\ VDFS2_KEY_LEN r = VDFS2_KEY_LEN key /\ Z.of_nat (length r) = L.
Proof using HK.
  intros [Hv [Hb Hk Ha Hcl Hsz] Hval] [Hby Hst]. destruct (kl_stored key L r Hv ltac:(lia) Hby Hst) as [Hvr Hc].
  pose proof (stored_key_len key L r Hb ltac:(lia) ltac:(lia) Ha Hst) as Hkl. destruct Hst as [Hl _].
  split; [done|]. split; [done|]. split; [|done]. unfold BtreeSpec.size_ok, fits_half. lia.
Qed.

Lemma stands_for_value key L r bs :
  new_record key L -> stands_for key L r -> VDFS2_KEY_LEN r + Z.of_nat (length bs) = L -> Forall is_byte bs -> stands_for key L (with_value r bs).
Proof using HK.
  intros Hnew Hst Hl Hb. destruct (stands_for_facts key L r Hnew Hst) as (Hvr & _ & _ & Hkl & Hlr). destruct Hst as [Hby [_ Hk]].
  destruct (kl_len r Hvr) as [[Hmin _] _]. destruct (with_value_len r bs Hmin ltac:(lia)) as [Hwl Hwk].
  split; [apply Forall_app; split; [by apply bytes_bytes_at|done]|]. split; [lia|]. by rewrite <-Hkl, Hwk, Hkl.
Qed.

(** ** The records of a level *)

Definition recs_ok (rs : list (list Z)) : Prop := Forall valid_key rs /\ sorted comp_fn rs /\ Forall size_ok rs.

Lemma recs_ok_insert key L a r b r0 :
  recs_ok (a ++ r :: b) -> new_record key L -> comp_fn r key < 0 -> Forall (fun x => 0 < comp_fn x key) b -> stands_for key L r0 ->
  recs_ok (a ++ r :: r0 :: b).
Proof using HK.
  intros (Hv & Hs & Hf) Hnew Hc Hb Hst. destruct (stands_for_facts key L r0 Hnew Hst) as (Hv0 & Hc0 & Hf0 & _). pose proof (nr_valid _ _ Hnew) as Hk.
  apply Forall_app in Hv as [Hva Hv]. apply Forall_cons in Hv as [Hvr Hvb]. apply Forall_app in Hf as [Hfa Hf]. apply Forall_cons in Hf as [Hfr Hfb].
  apply sorted_app in Hs as (Hsa & Hs & Hab). apply sorted_first in Hs as [Hsb Hrb].
  assert (Hr0 : comp_fn r r0 < 0) by (apply (comp_lt_le r key r0 Hvr Hk Hv0 Hc); pose proof (comp_flip0 r0 key Hv0 Hk Hc0); lia).
  split; [|split]; [by rewrite Forall_app, !Forall_cons| |by rewrite Forall_app, !Forall_cons].
  apply sorted_app. split; [done|]. rewrite !sorted_first, Forall_cons. split; [split; [split; [done|]|split; [done|done]]|].
  - rewrite Forall_forall in Hb, Hvb |- *. intros x Hx. apply (comp_flip r0 x Hv0 (Hvb x Hx)).
    pose proof (comp_eq_r r0 key x Hv0 Hk (Hvb x Hx) Hc0). pose proof (Hb x Hx) as Hbx. cbn beta in Hbx. lia.
  - rewrite Forall_forall in Hab, Hva |- *. intros x Hx. specialize (Hab x Hx). apply Forall_cons in Hab as [Hxr Hxb].
    rewrite !Forall_cons. split; [done|]. split; [|done]. apply (comp_lt_le x r r0 (Hva x Hx) Hvr Hv0 Hxr). lia.
Qed.

(** Another record with the same key. *)
Lemma recs_ok_replace key L a b r0 r1 :
  recs_ok (a ++ r0 :: b) -> new_record key L -> stands_for key L r0 -> stands_for key L r1 -> recs_ok (a ++ r1 :: b).
Proof using HK.
  intros (Hv & Hs & Hf) Hnew H0 H1. destruct (stands_for_facts key L r0 Hnew H0) as (Hv0 & Hc0 & _).
  destruct (stands_for_facts key L r1 Hnew H1) as (Hv1 & Hc1 & Hf1 & _). pose proof (nr_valid _ _ Hnew) as Hk.
  apply Forall_app in Hv as [Hva Hv]. apply Forall_cons in Hv as [_ Hvb]. apply Forall_app in Hf as [Hfa Hf]. apply Forall_cons in Hf as [_ Hfb].
  apply sorted_app in Hs as (Hsa & Hs & Hab). apply sorted_first in Hs as [Hsb Hrb].
  assert (H01 : comp_fn r0 r1 = 0).
  { pose proof (comp_eq_r r1 key r0 Hv1 Hk Hv0 Hc1). lia. }
  split; [by rewrite Forall_app, Forall_cons|]. split; [|by rewrite Forall_app, Forall_cons].
  apply sorted_app. split; [done|]. rewrite sorted_first. split; [split; [done|]|].
  - rewrite Forall_forall in Hrb, Hvb |- *. intros x Hx. pose proof (comp_eq_l r0 r1 x Hv0 Hv1 (Hvb x Hx) H01). specialize (Hrb x Hx). lia.
  - rewrite Forall_forall in Hab, Hva |- *. intros x Hx. specialize (Hab x Hx). apply Forall_cons in Hab as [Hxr Hxb].
    rewrite Forall_cons. split; [|done]. pose proof (comp_eq_r r0 r1 x Hv0 Hv1 (Hva x Hx) H01). lia.
Qed.

Lemma level_recs_ok s l : level_ok s l -> recs_ok (recs l).
Proof using Type. intros [_ _ ? ? ?]. by split. Qed.

Lemma level_ok_intro s l : seg N s 0 l 0 -> Forall (fun v => v.2 <> []) l -> recs_ok (recs l) -> level_ok s l.
Proof using Type. intros ? ? (? & ? & ?). by split. Qed.

(** ** One node *)

Lemma holds_entries s id p nx rs1 r rs2 :
  holds N s id p nx (rs1 ++ r :: rs2) ->
  exists n F A o B, s !! id = Some n /\ node_ok N n F (A ++ (o, r) :: B) /\ records A = rs1 /\ records B = rs2 /\
    node_id (dscr n) = id /\ prev_node_id (dscr n) = p /\ next_node_id (dscr n) = nx.
Proof using Type.
  intros (n & F & es & Hn & Ho & Hr & Hlk). unfold records in Hr. apply fmap_app_inv in Hr as (A & C & HA & HC & ->).
  destruct C as [|[o x] B]; [done|]. cbn in HC. injection HC as -> HB. by exists n, F, A, o, B.
Qed.

Lemma node_raw n F es : node_ok N n F es -> raw_node N n.
Proof using Type. intros Hn. split; [apply (no_size _ _ _ _ Hn)|apply (no_bytes _ _ _ _ Hn)]. Qed.

Lemma write_value_ok t id p nx rs1 r rs2 bs :
  holds N (store t) id p nx (rs1 ++ r :: rs2) -> valid_key r -> VDFS2_KEY_LEN r + Z.of_nat (length bs) = Z.of_nat (length r) -> Forall is_byte bs ->
  exists off n', value_of N mf max_key_len id (Z.of_nat (length rs1)) t = Ret (off, t) /\
    write_at id off bs t = Ret (tt, set_store t (<[id := n']> (store t))) /\ raw_node N n' /\
    holds N (<[id := n']> (store t)) id p nx (rs1 ++ with_value r bs :: rs2).
Proof using HN HK.
  intros Hh Hv Hl Hb. destruct (kl_len r Hv) as [[Hk Hm] _].
  destruct (holds_entries _ _ _ _ _ _ _ Hh) as (n & F & A & o & B & Hn & Ho & <- & <- & Hlk).
  destruct (write_value_node_ok N HN n F A o r B bs Ho Hk Hl Hb) as [Hw Hn'].
  exists (o + VDFS2_KEY_LEN r), (set_data n (put_bytes (data n) (o + VDFS2_KEY_LEN r) bs)). split; [|split; [|split]].
  - unfold value_of. assert (Hrec : record_at N mf id (Z.of_nat (length (records A))) t = Ret (PTR (o, r), t)).
    { unfold records. rewrite length_map. apply (record_at_ok N mf HN t n F (A ++ (o, r) :: B)); [done|done|]. by apply list_lookup_middle. }
    rewrite (bt_step _ _ _ _ _ Hrec). unfold get_value_pointer. by rewrite (proj2 (Z.ltb_ge max_key_len _)) by lia.
  - unfold write_at. rewrite (bt_step _ _ _ _ _ (node_Ret id n t Hn)). by rewrite (bt_step _ _ _ _ _ (lift_Ret _ _ t Hw)).
  - by apply (node_raw _ F _ Hn').
  - eexists _, F, _. rewrite lookup_insert_eq. split; [done|]. split; [exact Hn'|]. split; [|done]. by rewrite records_app.
Qed.

Lemma insert_key_holds t id p nx rs1 rs2 key L n :
  store t !! id = Some n -> holds N (store t) id p nx (rs1 ++ rs2) -> new_record key L -> L + OFF_SIZE <= free_space (dscr n) ->
  exists n' r0, insert_key_into_bnode N mf n key L (Z.of_nat (length rs1)) = Ret (0, n') /\ stands_for key L r0 /\ raw_node N n' /\
    holds N (<[id := n']> (store t)) id p nx (rs1 ++ r0 :: rs2).
Proof using HN.
  intros Hn (n0 & F & es & Hn0 & Ho & Hr & Hid & Hp & Hx) [Hv [Hb Hk Ha _ _] _] Hroom. rewrite Hn in Hn0. injection Hn0 as <-.
  unfold records in Hr. apply fmap_app_inv in Hr as (A & B & -> & -> & ->).
  destruct (insert_key_into_bnode_ok N mf ltac:(lia) n F A B key L Ho Hk Ha Hb Hroom) as (n' & r0 & Heq & Ho' & Hst & (Hi & Hpp & Hxx & _)).
  exists n', r0. rewrite length_fmap. split; [done|]. split; [split; [|done]|].
  { pose proof (node_records_ok N n' _ _ Ho') as Hrs. rewrite records_app in Hrs. apply Forall_app in Hrs as [_ Hrs]. by apply Forall_cons in Hrs as [[? _] _]. }
  split; [by apply (node_raw _ _ _ Ho')|]. eexists n', _, _. rewrite lookup_insert_eq. split; [done|]. split; [exact Ho'|]. rewrite records_app.
  split; [done|]. split_and!; congruence.
Qed.

(** A level with one node changed. *)
Lemma seg_update s s' p L1 id rs rs' L2 nx :
  NoDup (level_ids (L1 ++ (id, rs) :: L2)) -> seg N s p (L1 ++ (id, rs) :: L2) nx -> (forall i, i <> id -> s' !! i = s !! i) ->
  holds N s' id (last_id p L1) (first_id L2 nx) rs' -> seg N s' p (L1 ++ (id, rs') :: L2) nx.
Proof using Type.
  intros Hnd Hseg Hsame Hh. apply seg_app in Hseg as [H1 H2]. cbn [seg fst snd first_id] in H2. destruct H2 as [_ H2].
  unfold level_ids in Hnd. rewrite map_app in Hnd. apply NoDup_app in Hnd as (_ & Hd & Hnd). cbn in Hnd. apply NoDup_cons in Hnd as [Hnd _].
  apply seg_app. split.
  - apply (seg_frame N s); [|done]. intros i Hi. apply Hsame. intros ->. apply (Hd id Hi). apply elem_of_cons. by left.
  - cbn [seg fst snd]. split; [done|]. apply (seg_frame N s); [|done]. intros i Hi. apply Hsame. by intros ->.
Qed.
End level.
