(* ===== verification/BtreePlace.v ===== *)
(** * [place_key_in_bnode] on a level: with room in the node, and with a split *)
From Stdlib Require Import ZArith Lia.
From stdpp Require Import base numbers list sets gmap.
From S2P Require Import Prelude Bits BitsFacts Bytes BtreeNode BtreeNodeFacts BtreeNodeOps Bnode BnodeIds Btree BtreeKeys BtreeSpec BtreeFind BtreeInsert.

(** ** Frames *)

Section frames.
Context `{HS : !BitSearch} `{HBL : !BitSearchLaws}.
Context (N : Z) (mf : bool) (comp_fn : list Z -> list Z -> Z) (valid_key : list Z -> Prop) (HN : 128 <= N < 65536).

Lemma frame_weaken l l' k k' t t' : (forall id, id_ok t id -> id ∈ level_ids l -> id ∈ level_ids l') -> k <= k' -> frame N l k t t' -> frame N l' k' t t'.
Proof using Type.
  intros Hsub Hk [He Hst Hi Hr Hf]. split; [done| |done|done|lia]. intros id Hid Hin. apply Hst; [done|]. intros ?. by apply Hin, Hsub.
Qed.

Lemma frame_nil l k t t' : frame N [] k t t' -> frame N l k t t'.
Proof using Type. apply frame_weaken; [|done]. intros id _ Hid. by apply elem_of_nil in Hid. Qed.

(** A level of the tree: its nodes are in use. *)
Record level_at (t : vdfs2_btree) (l : list view) : Prop := {
  la_ok : level_ok N comp_fn valid_key (store t) l;
  la_ids : Forall (id_ok t) (level_ids l);
  la_nodup : NoDup (level_ids l);
}.

Lemma level_at_frame l m k t t' :
  frame N l k t t' -> level_at t m -> (forall id, id ∈ level_ids m -> id ∉ level_ids l) -> level_at t' m.
Proof using Type.
  intros [He Hst Hi Hr Hf] [[H1 H2 H3 H4 H5] Hids Hnd] Hdis. rewrite Forall_forall in Hids. split; [split| |]; try done.
  - apply (seg_frame N (store t)); [|done]. intros id Hid. apply Hst; auto.
  - apply Forall_forall. auto.
Qed.

(** ** New bnodes *)

Lemma fresh_raw t id : env_ok N t -> raw_node N (fresh_bnode N id (store t !! id)).
Proof using HN.
  intros [_ _ _ Hr]. unfold fresh_bnode, raw_node. cbn. destruct (store t !! id) as [n|] eqn:Hn; [apply (Hr id n Hn)|].
  split; [rewrite length_replicate; lia|]. apply Forall_replicate. unfold is_byte. lia.
Qed.

Lemma prealloc_loop_ok k : forall i t,
  env_ok N t -> last_table_index t < i ->
  exists t', prealloc_loop N mf k i t = Ret (0, t') /\ frame N [] 0 t t' /\ ids t' = ids t.
Proof using HN.
  induction k as [|k IH]; intros i t He Hi; [exists t; split; [done|]; split; [by apply frame_refl|done]|].
  pose proof He as [Ha Hb Hz Hr]. cbn [prealloc_loop]. rewrite (bt_step _ _ _ _ _ (ask_Ret t Ha)). cbn [Z.eqb negb].
  set (t1 := set_last t (Z.max (last_table_index t) i)).
  rewrite (bt_step (grow i) _ t tt t1 eq_refl), (bt_step get_tree _ t1 t1 t1 eq_refl).
  destruct (fresh_raw t i He) as [Hl Hby].
  destruct (init_new_node_descr_ok N mf ltac:(lia) (fresh_bnode N i (store t !! i)) 0 Hl Hby) as (n & Hn & Hok & _).
  change (store t1) with (store t). rewrite (bt_step _ _ _ _ _ (lift_Ret _ _ t1 Hn)).
  set (t2 := set_store t1 (<[i := n]> (store t))). rewrite (bt_step (put_node i n) _ t1 tt t2 eq_refl).
  assert (Hf : frame N [] 0 t t2).
  { split; [split| | | |]; cbn; try done; [|intros id (? & _) _; rewrite lookup_insert_ne; [done|lia]|intros id (? & ? & ?); split; [cbn; lia|done]|lia].
    apply map_Forall_insert_2; [|done]. by apply (node_raw N n DSCR_SIZE []). }
  destruct (IH (i + 1) t2) as (t' & -> & Hf' & Hids); [apply Hf|cbn; lia|]. exists t'. split; [done|]. split; [|by rewrite Hids].
  by apply (frame_trans N [] [] 0 0 t t2 t').
Qed.

Lemma check_reserve_ok t : env_ok N t ->
  exists t', vdfs2_check_bnode_reserve N mf t = Ret (0, t') /\ frame N [] 0 t t' /\ ids t' = ids t.
Proof using HN.
  intros He. unfold vdfs2_check_bnode_reserve. rewrite (bt_step get_tree _ t t t eq_refl).
  rewrite (bt_step VDFS2_BNODE_RESERVE _ t (btree_height t * 4) t eq_refl). cbv zeta.
  destruct (_ <=? 0); [exists t; split; [done|]; split; [by apply frame_refl|done]|]. by apply prealloc_loop_ok; [|lia].
Qed.

Lemma new_bnode_ok t : env_ok N t -> 1 <= free_num (ids t) ->
  exists rid t' n, new_bnode N t = Ret (PTR rid, t') /\ frame N [] 1 t t' /\ ~ id_ok t rid /\ id_ok t' rid /\
    store t' !! rid = Some n /\ raw_node N n /\ node_id (dscr n) = rid.
Proof using HN HBL.
  intros He Hfree. pose proof He as [Ha Hb Hz Hr]. pose proof (alloc_id_ok (ids t) (fun _ => 0) Hb) as Hal.
  rewrite decide_False in Hal by lia. destruct Hal as (b' & Hid & Hun & Hb' & Hbits & Hal). rewrite decide_True in Hal by done.
  destruct Hal as (Heq & Hnum & Hused). set (rid := first_free_id (ids t)) in *.
  assert (Hrid : 0 < rid). { destruct (Z.eq_dec rid 0) as [H0|]; [rewrite H0 in Hun; congruence|lia]. }
  unfold new_bnode. rewrite (bt_step get_tree _ t t t eq_refl).
  rewrite (proj2 (Z.eqb_neq (free_num (ids t)) 0)) by lia. rewrite (bt_step _ _ _ _ _ (ask_Ret t Ha)).
  rewrite (bt_step _ _ _ _ _ (lift_Ret _ _ t Heq)).
  set (t1 := set_bitmap t b'). set (t2 := set_last t1 (Z.max (last_table_index t1) rid)).
  set (t3 := set_store t2 (<[rid := fresh_bnode N rid (store t !! rid)]> (store t2))).
  exists rid, t3, (fresh_bnode N rid (store t !! rid)).
  split; [done|]. split; [|split; [intros (_ & _ & ?); congruence|split; [|split; [|split; [by apply fresh_raw|done]]]]].
  - split; [split| | | |]; cbn; try done; try lia.
    + rewrite Hused by lia. by destruct (decide (0 = rid)).
    + apply map_Forall_insert_2; [by apply fresh_raw|done].
    + intros id (_ & _ & Hu) _. rewrite lookup_insert_ne; [done|]. intros <-. congruence.
    + intros id (Hl & Hlt & Hu). split; [cbn; lia|]. split; [cbn; lia|]. cbn. rewrite Hused by lia. by destruct (decide (id = rid)).
  - split; [cbn; lia|]. split; [cbn; lia|]. cbn. rewrite Hused by lia. by rewrite decide_True.
  - cbn. by rewrite lookup_insert_eq.
Qed.
End frames.

(** ** Placing a key *)

(** What a level becomes with one more record [x] behind [r]; a split gives a new
    node. *)
Inductive growth (L1 : list view) (id : Z) (rs1 : list (list Z)) (r : list Z) (rs2 : list (list Z)) (L2 : list view)
    : (list Z -> list view) -> option Z -> Prop :=
  | grow_node : growth L1 id rs1 r rs2 L2 (fun x => L1 ++ (id, rs1 ++ r :: x :: rs2) :: L2) None
  | grow_split rid X Y :
      (forall x, X x ++ Y x = rs1 ++ r :: x :: rs2) -> (forall x, X x <> []) -> (forall x, Y x <> []) ->
      growth L1 id rs1 r rs2 L2 (fun x => L1 ++ (id, X x) :: (rid, Y x) :: L2) (Some rid).

(** Where the record is. *)
Definition sits (lv : list Z -> list view) (id pos : Z) : Prop :=
  exists M1 s1 s2 M2, pos = Z.of_nat (length s1) /\ forall x, lv x = M1 ++ (id, s1 ++ x :: s2) :: M2.

Lemma growth_recs L1 id rs1 r rs2 L2 lv new :
  growth L1 id rs1 r rs2 L2 lv new -> forall x, recs (lv x) = (recs L1 ++ rs1) ++ r :: x :: rs2 ++ recs L2.
Proof.
  intros [|rid X Y HXY _ _] x; rewrite recs_app, !recs_cons; cbn [snd]; [by rewrite <-!app_assoc|].
  rewrite (app_assoc (X x)), HXY. by rewrite <-!app_assoc.
Qed.

Section place.
Context `{HS : !BitSearch} `{HBL : !BitSearchLaws}.
Context (N : Z) (mf : bool) (max_key_len : Z) (comp_fn : list Z -> list Z -> Z) (key_ok valid_key : list Z -> Prop).
Context `{HK : !KeyLaws comp_fn key_ok valid_key max_key_len} (HN : 128 <= N < 65536).
#[local] Coercion valid_coe3 r (H : valid_key r) : key_ok r := kl_ok r H.

Abbreviation level_at := (level_at N comp_fn valid_key).
Abbreviation level_ok := (level_ok N comp_fn valid_key).
Abbreviation new_record := (new_record N valid_key).
Abbreviation recs_ok := (recs_ok N comp_fn valid_key).

Definition place_here (t : vdfs2_btree) (L1 : list view) (id : Z) (rs1 : list (list Z)) (r : list Z) (rs2 : list (list Z)) (L2 : list view)
    (key : list Z) (L : Z) : Prop :=
  env_ok N t /\ level_at t (L1 ++ (id, rs1 ++ r :: rs2) :: L2) /\ new_record key L /\ comp_fn r key < 0 /\
  Forall (fun x => 0 < comp_fn x key) (rs2 ++ recs L2).

(** The level that a result describes is sound. *)
Lemma growth_level_ok t t' L1 id rs1 r rs2 L2 key L lv new r0 :
  place_here t L1 id rs1 r rs2 L2 key L -> growth L1 id rs1 r rs2 L2 lv new -> stands_for key L r0 ->
  seg N (store t') 0 (lv r0) 0 -> level_ok (store t') (lv r0).
Proof using HK.
  intros (_ & [Hl _ _] & Hnew & Hc & Hafter) Hg Hst Hseg. pose proof (level_recs_ok _ _ _ _ _ Hl) as Hr. pose proof (lo_nonempty _ _ _ _ _ Hl) as Hne.
  apply Forall_app in Hne as [Hne1 Hne]. apply Forall_cons in Hne as [_ Hne2]. apply level_ok_intro; [done| |].
  - destruct Hg as [|rid X Y _ HX HY]; rewrite Forall_app, !Forall_cons; cbn [snd]; (split; [done|]); (split; [|done||by split]);
      first [done|by destruct rs1].
  - rewrite (growth_recs _ _ _ _ _ _ _ _ Hg). rewrite recs_app, recs_cons in Hr. cbn [snd] in Hr. rewrite <-app_assoc, <-app_comm_cons, app_assoc in Hr.
    by apply (recs_ok_insert N max_key_len comp_fn key_ok valid_key key L).
Qed.

Lemma place_nonfull t L1 id rs1 r rs2 L2 key L n :
  place_here t L1 id rs1 r rs2 L2 key L -> store t !! id = Some n -> is_node_full n key = false ->
  let lv := fun x => L1 ++ (id, rs1 ++ r :: x :: rs2) :: L2 in
  exists n' r0, let t' := set_store t (<[id := n']> (store t)) in
    insert_key_into_bnode N mf n key L (Z.of_nat (length rs1) + 1) = Ret (0, n') /\ stands_for key L r0 /\
    frame N (L1 ++ (id, rs1 ++ r :: rs2) :: L2) 0 t t' /\ level_at t' (lv r0) /\ sits lv id (Z.of_nat (length rs1) + 1).
Proof using HK HN.
  intros Hpl Hn Hfull lv. pose proof Hpl as (He & [Hl Hids Hnd] & Hnew & _). pose proof (nr_req _ _ _ _ Hnew) as Hreq.
  destruct (level_node N comp_fn valid_key _ _ _ _ _ Hl) as (Hh & _ & _). rewrite (cons_middle r), app_assoc in Hh.
  unfold is_node_full in Hfull. apply Z.ltb_ge in Hfull. pose proof (sr_claimed _ _ _ Hreq) as Hcl.
  destruct (insert_key_holds N mf valid_key HN t id _ _ _ rs2 key L n Hn Hh Hnew ltac:(lia)) as (n' & r0 & Heq & Hst & Hraw & Hh').
  exists n', r0. cbv zeta. rewrite length_app in Heq. cbn [length] in Heq. replace (Z.of_nat (length rs1 + 1)) with (Z.of_nat (length rs1) + 1) in Heq by lia.
  assert (Hin : id ∈ level_ids (L1 ++ (id, rs1 ++ r :: rs2) :: L2)).
  { unfold level_ids. rewrite map_app. apply elem_of_app. right. apply elem_of_cons. by left. }
  split; [exact Heq|]. split; [exact Hst|]. split; [by apply frame_set|]. split; [split|].
  - apply (growth_level_ok t _ L1 id rs1 r rs2 L2 key L lv None r0 Hpl (grow_node _ _ _ _ _ _) Hst).
    apply (seg_update N (store t) _ 0 L1 id _ _ L2 0 Hnd (lo_seg _ _ _ _ _ Hl)).
    + intros i Hi. cbn. by rewrite lookup_insert_ne.
    + by rewrite <-app_assoc in Hh'.
  - unfold lv, level_ids in *. rewrite map_app in *. exact Hids.
  - unfold lv, level_ids in *. rewrite map_app in *. exact Hnd.
  - exists L1, (rs1 ++ [r]), rs2, L2. split; [rewrite length_app; cbn [length]; lia|]. intros x. unfold lv. by rewrite <-app_assoc.
Qed.

(** ** With a split *)

Lemma sorted_unique x a b c d : valid_key x -> sorted comp_fn (a ++ x :: b) -> a ++ x :: b = c ++ x :: d -> a = c /\ b = d.
Proof using HK.
  intros Hv Hs Heq.
  assert (Hno : forall p q w, sorted comp_fn (p ++ x :: q ++ x :: w) -> False).
  { intros p q w H. apply sorted_app in H as (_ & H & _). apply sorted_first in H as [_ H]. apply Forall_app in H as [_ H].
    apply Forall_cons in H as [H _]. pose proof (comp_refl (key_ok := key_ok) x Hv). lia. }
  pose proof Heq as Heq'. apply app_eq_inv in Heq' as [(k & -> & Hk)|(k & -> & Hk)]; (destruct k as [|y k]; [|exfalso]).
  - injection Hk as ->. by rewrite app_nil_r.
  - injection Hk as <- ->. rewrite <-app_assoc in Hs. by apply (Hno c k b).
  - injection Hk as ->. by rewrite app_nil_r.
  - injection Hk as <- ->. by apply (Hno a k d).
Qed.

Lemma split_growth L1 id rs1 r rs2 L2 key L left right left' right' res rid :
  split_done N left right left' right' (rs1 ++ [r]) rs2 key L res -> is_node_full left key = true ->
  recs_ok (rs1 ++ r :: rs2) -> new_record key L -> comp_fn r key < 0 -> Forall (fun x => 0 < comp_fn x key) rs2 ->
  exists X Y r0 side p, growth L1 id rs1 r rs2 L2 (fun x => L1 ++ (id, X x) :: (rid, Y x) :: L2) (Some rid) /\
    stands_for key L r0 /\ res = Some (side, p) /\
    sits (fun x => L1 ++ (id, X x) :: (rid, Y x) :: L2) (match side with LEFT_BNODE => id | RIGHT_BNODE => rid end) p /\
    (exists F es, node_ok N left' F es /\ records es = X r0) /\ (exists F es, node_ok N right' F es /\ records es = Y r0).
Proof using HK.
  intros Hd Hfull Hrs Hnew Hc Hafter. destruct (sd_nodes _ _ _ _ _ _ _ _ _ _ Hd) as (F1 & LE & F2 & RE & r0 & Ho1 & Ho2 & Hrec & Hst & Hpl).
  destruct (sd_full _ _ _ _ _ _ _ _ _ _ Hd Hfull F1 LE F2 RE Ho1 Ho2) as [Hne1 Hne2].
  assert (Hby : Forall is_byte r0).
  { pose proof (node_records_ok N _ _ _ Ho1) as H1. pose proof (node_records_ok N _ _ _ Ho2) as H2.
    assert (H12 : Forall record_ok_to_store (records LE ++ records RE)) by (by apply Forall_app).
    rewrite Hrec in H12. apply Forall_app in H12 as [_ H12]. by apply Forall_cons in H12 as [[? _] _]. }
  assert (Hsf : stands_for key L r0) by done.
  destruct (stands_for_facts N max_key_len comp_fn key_ok valid_key key L r0 Hnew Hsf) as (Hv0 & _).
  pose proof (recs_ok_insert N max_key_len comp_fn key_ok valid_key key L rs1 r rs2 r0 Hrs Hnew Hc Hafter Hsf) as (_ & Hs & _).
  rewrite (cons_middle r), app_assoc in Hs.
  assert (HLE : records LE <> []) by (by destruct LE). assert (HRE : records RE <> []) by (by destruct RE).
  destruct res as [[side p]|]; [|done]. destruct Hpl as [Hp Hl].
  destruct side; (apply take_drop_middle in Hl as Hl'; set (s1 := take _ _) in Hl'; set (s2 := drop _ _) in Hl';
    assert (Hs1 : p = Z.of_nat (length s1)) by (unfold s1; apply lookup_lt_Some in Hl; rewrite length_take; lia)).
  - assert (Heq : (rs1 ++ [r]) ++ r0 :: rs2 = s1 ++ r0 :: (s2 ++ records RE)) by (rewrite <-Hrec, <-Hl', <-app_assoc; done).
    destruct (sorted_unique r0 _ _ _ _ Hv0 Hs Heq) as [Ha Hb].
    exists (fun x => s1 ++ x :: s2), (fun _ => records RE), r0, LEFT_BNODE, p. split; [|split; [done|split; [done|split; [|split]]]].
    + apply grow_split; [|intros x; by destruct s1|done]. intros x. rewrite <-Ha, Hb, <-!app_assoc. done.
    + exists L1, s1, s2, ((rid, records RE) :: L2). done.
    + by exists F1, LE.
    + by exists F2, RE.
  - assert (Heq : (rs1 ++ [r]) ++ r0 :: rs2 = (records LE ++ s1) ++ r0 :: s2) by (rewrite <-Hrec, <-Hl', <-app_assoc; done).
    destruct (sorted_unique r0 _ _ _ _ Hv0 Hs Heq) as [Ha Hb].
    exists (fun _ => records LE), (fun x => s1 ++ x :: s2), r0, RIGHT_BNODE, p. split; [|split; [done|split; [done|split; [|split]]]].
    + apply grow_split; [|done|intros x; by destruct s1]. intros x. rewrite app_assoc, <-Ha, Hb, <-!app_assoc. done.
    + exists (L1 ++ [(id, records LE)]), s1, s2, L2. split; [done|]. intros x. by rewrite <-app_assoc.
    + by exists F1, LE.
    + by exists F2, RE.
Qed.
(** The links after a split: the new node is behind the old one. *)
Lemma split_seg s L1 id rs rid X Y L2 left' right' :
  NoDup (level_ids (L1 ++ (id, rs) :: L2)) -> rid ∉ level_ids (L1 ++ (id, rs) :: L2) -> seg N s 0 (L1 ++ (id, rs) :: L2) 0 ->
  (exists F es, node_ok N left' F es /\ records es = X) -> (exists F es, node_ok N right' F es /\ records es = Y) ->
  node_id (dscr left') = id -> node_id (dscr right') = rid -> prev_node_id (dscr left') = last_id 0 L1 -> next_node_id (dscr left') = rid ->
  prev_node_id (dscr right') = id -> next_node_id (dscr right') = first_id L2 0 ->
  let s2 := <[rid := right']> (<[id := left']> s) in
  (L2 = [] -> seg N s2 0 (L1 ++ (id, X) :: (rid, Y) :: L2) 0) /\
  (forall nx rsx L2' nn, L2 = (nx, rsx) :: L2' -> s !! nx = Some nn ->
    seg N (<[nx := set_links nn rid (next_node_id (dscr nn))]> s2) 0 (L1 ++ (id, X) :: (rid, Y) :: L2) 0).
Proof using Type.
  intros Hnd Hrid Hseg (F1 & LE & Ho1 & Hr1) (F2 & RE & Ho2 & Hr2) Hi1 Hi2 Hp1 Hx1 Hp2 Hx2 s2.
  apply seg_app in Hseg as [H1 H2]. cbn [seg fst snd first_id] in H1, H2. destruct H2 as [_ H2].
  unfold level_ids in Hnd, Hrid. rewrite map_app in Hnd, Hrid. apply NoDup_app in Hnd as (_ & Hd & Hnd). cbn in Hnd. apply NoDup_cons in Hnd as [Hnd Hnd2].
  rewrite not_elem_of_app in Hrid. cbn in Hrid. rewrite not_elem_of_cons in Hrid. destruct Hrid as (Hrid1 & Hrid & Hrid2).
  assert (Hd1 : forall i, i ∈ map fst L1 -> i <> id /\ i <> rid /\ i ∉ map fst L2).
  { intros i Hi. specialize (Hd i Hi). cbn in Hd. rewrite not_elem_of_cons in Hd. destruct Hd. split; [done|]. split; [by intros ->|done]. }
  assert (Hkeep : forall s3, (forall i, i <> id -> i <> rid -> i ∉ map fst L2 -> s3 !! i = s !! i) -> s3 !! id = Some left' -> s3 !! rid = Some right' ->
    seg N s3 rid L2 0 -> seg N s3 0 (L1 ++ (id, X) :: (rid, Y) :: L2) 0).
  { intros s3 Hs3 Hl Hr Hsg. apply seg_app. cbn [seg fst snd first_id]. split; [|split; [|split; [|done]]].
    - apply (seg_frame N s); [|done]. intros i Hi. destruct (Hd1 i Hi) as (? & ? & ?). by apply Hs3.
    - by exists left', F1, LE.
    - by exists right', F2, RE. }
  split.
  - intros ->. apply Hkeep; [..|done]; unfold s2; intros; by simplify_map_eq.
  - intros nx rsx L2' nn -> Hnn. cbn [first_id fst map] in *. rewrite not_elem_of_cons in Hnd. rewrite not_elem_of_cons in Hrid2.
    apply NoDup_cons in Hnd2 as [Hnx Hnd2]. destruct Hnd as [Hnxid Hnd], Hrid2 as [Hnxr Hrid2]. destruct H2 as [(n0 & F & es & Hn0 & Ho & Hr & Hi & Hp & Hx) H2].
    cbn [fst snd] in *. rewrite Hnn in Hn0. injection Hn0 as <-.
    apply Hkeep; unfold s2.
    + intros i H3 H4 H5. rewrite not_elem_of_cons in H5. destruct H5. by simplify_map_eq.
    + by simplify_map_eq.
    + by simplify_map_eq.
    + cbn [seg fst snd]. split.
      * exists (set_links nn rid (next_node_id (dscr nn))), F, es. rewrite lookup_insert_eq. split; [done|]. split; [by apply node_ok_links|]. done.
      * apply (seg_frame N s); [|done]. intros i H3. assert (i <> nx /\ i <> rid /\ i <> id) as (? & ? & ?) by (split_and!; by intros ->).
        by simplify_map_eq.
Qed.
Lemma split_full_ok t L1 id rs1 r rs2 L2 key L n rid nr :
  place_here t L1 id rs1 r rs2 L2 key L -> store t !! id = Some n -> is_node_full n key = true ->
  rid ∉ level_ids (L1 ++ (id, rs1 ++ r :: rs2) :: L2) -> rid <> 0 -> id_ok t rid -> store t !! rid = Some nr -> raw_node N nr -> node_id (dscr nr) = rid ->
  exists lv r0 nid p t', split_full N mf id rid key L (Z.of_nat (length rs1) + 1) t = Ret ((0, Some (nid, p)), t') /\
    growth L1 id rs1 r rs2 L2 lv (Some rid) /\ sits lv nid p /\ stands_for key L r0 /\
    frame N ((rid, []) :: L1 ++ (id, rs1 ++ r :: rs2) :: L2) 0 t t' /\ seg N (store t') 0 (lv r0) 0.
Proof using HK HN.
  intros Hpl Hn Hfull Hrid Hrid0 Hridok Hnr Hraw Hnrid. pose proof Hpl as (He & [Hl Hids Hnd] & Hnew & Hc & Hafter).
  pose proof (lo_seg _ _ _ _ _ Hl) as Hseg. destruct (level_node N comp_fn valid_key _ _ _ _ _ Hl) as ((n0 & F & es & Hn0 & Ho & Hr & Hi & Hp & Hx) & Hvs & Hss).
  rewrite Hn in Hn0. injection Hn0 as <-.
  assert (Hsz : Forall (size_ok N) (rs1 ++ r :: rs2)).
  { pose proof (lo_fits _ _ _ _ _ Hl) as Hf. rewrite recs_app, recs_cons in Hf. apply Forall_app in Hf as [_ Hf]. by apply Forall_app in Hf as [Hf _]. }
  apply Forall_app in Hafter as [Hafter _].
  assert (Hhyp : split_hyps N n nr (rs1 ++ [r]) rs2 key L).
  { split; [exists F, es; split; [done|by rewrite <-app_assoc]|]. split; [done|]. split; [by destruct rs1|]. split; [|apply Hnew].
    rewrite <-app_assoc. eapply Forall_impl; [exact Hsz|]. by intros x []. }
  set (l := L1 ++ (id, rs1 ++ r :: rs2) :: L2) in *.
  assert (Hidl : id ∈ level_ids l) by (unfold l, level_ids; rewrite map_app; apply elem_of_app; right; apply elem_of_cons; by left).
  assert (Hne : id <> rid) by (by intros <-).
  pose proof (fun next => split_bnode_ok N mf HN n nr next (rs1 ++ [r]) rs2 key L Hhyp) as Hsp.
  replace (Z.of_nat (length (rs1 ++ [r]))) with (Z.of_nat (length rs1) + 1) in Hsp by (rewrite length_app; cbn [length]; lia).
  assert (Hrow : forall next left' right' res next' t3,
    split_bnode N mf n nr next key L (Z.of_nat (length rs1) + 1) = Ret (0, left', right', res, next') ->
    next_of n t = Ret (next, t) -> (match next' with PTR nn => put_node (next_node_id (dscr n)) nn | ERR_PTR _ => mret tt end)
      (set_store t (<[rid := right']> (<[id := left']> (store t)))) = Ret (tt, t3) ->
    split_full N mf id rid key L (Z.of_nat (length rs1) + 1) t =
      Ret ((0, match res with Some (LEFT_BNODE, p) => Some (id, p) | Some (RIGHT_BNODE, p) => Some (rid, p) | None => None end), t3)).
  { intros next left' right' res next' t3 Hsb Hnext Hput. unfold split_full.
    rewrite (bt_step _ _ _ _ _ (node_Ret id n t Hn)), (bt_step _ _ _ _ _ (node_Ret rid nr t Hnr)), (bt_step _ _ _ _ _ Hnext).
    rewrite (bt_step _ _ _ _ _ (lift_Ret _ _ t Hsb)). cbv beta iota. rewrite (bt_step (put_node id left') _ t tt (set_store t (<[id := left']> (store t))) eq_refl). cbv beta.
    rewrite (bt_step (put_node rid right') _ (set_store t (<[id := left']> (store t))) tt (set_store t (<[rid := right']> (<[id := left']> (store t)))) eq_refl).
    rewrite (bt_step _ _ _ _ _ Hput). by destruct res as [[[] p]|]. }
  assert (Hfr : forall left' right', raw_node N left' -> raw_node N right' ->
    frame N ((rid, []) :: l) 0 t (set_store t (<[rid := right']> (<[id := left']> (store t))))).
  { intros left' right' H1 H2. set (t1 := set_store t (<[id := left']> (store t))).
    assert (Hf1 : frame N ((rid, []) :: l) 0 t t1) by (apply frame_set; [done| |done]; cbn; apply elem_of_cons; by right).
    apply (frame_trans N _ ((rid, []) :: l) 0 0 t t1); [done|done|]. change (store t) with (store t). 
    apply (frame_set N t1 rid right'); [apply Hf1| |done]. cbn. apply elem_of_cons. by left. }
  assert (Hrok : recs_ok (rs1 ++ r :: rs2)) by (by split).
  destruct L2 as [|[nx rsx] L2].
  - assert (Hnext : next_of n t = Ret (ERR_PTR 0, t)) by (unfold next_of; by rewrite Hx).
    destruct (Hsp (ERR_PTR 0)) as (left' & right' & res & Hd & Heq). rewrite Hx in Heq. cbn [first_id] in Heq. rewrite decide_True in Heq by done.
    destruct (split_growth L1 id rs1 r rs2 [] key L n nr left' right' res rid Hd Hfull Hrok Hnew Hc Hafter)
      as (X & Y & r0 & side & p & Hg & Hst & -> & Hsit & Hleft & Hright).
    destruct (sd_ids _ _ _ _ _ _ _ _ _ _ Hd) as [Hi1 Hi2]. destruct (sd_links _ _ _ _ _ _ _ _ _ _ Hd) as (Hl1 & Hl2 & Hl3 & Hl4).
    eexists _, r0, (match side with LEFT_BNODE => id | RIGHT_BNODE => rid end), p, _.
    split; [rewrite (Hrow _ _ _ _ _ _ Heq Hnext eq_refl); by destruct side|].
    split; [exact Hg|]. split; [exact Hsit|]. split; [exact Hst|].
    destruct Hleft as (F1 & E1 & Ho1 & Hr1). destruct Hright as (F2 & E2 & Ho2 & Hr2).
    split; [apply Hfr; by eapply (node_raw N)|].
    apply (split_seg (store t) L1 id (rs1 ++ r :: rs2) rid (X r0) (Y r0) [] left' right'); try done; [by exists F1, E1|by exists F2, E2|..]; congruence.
  - assert (Hl' : level_ok (store t) ((L1 ++ [(id, rs1 ++ r :: rs2)]) ++ (nx, rsx) :: L2)) by (by rewrite <-app_assoc).
    destruct (level_node N comp_fn valid_key _ _ _ _ _ Hl') as ((nn & F' & es' & Hnn & Ho' & _) & _ & _).
    assert (Hidnx : id_ok t nx).
    { unfold l, level_ids in Hids. rewrite map_app, Forall_app in Hids. destruct Hids as [_ Hids]. apply Forall_cons in Hids as [_ Hids].
      by apply Forall_cons in Hids as [Hids _]. }
    cbn [first_id fst] in Hx. assert (Hnx0 : nx <> 0) by (destruct Hidnx; lia).
    assert (Hnext : next_of n t = Ret (PTR nn, t)).
    { unfold next_of. rewrite Hx, (proj2 (Z.eqb_neq nx VDFS2_INVALID_NODE_ID)) by done.
      rewrite (bt_ptr _ _ _ _ _ (get_bnode_Ret t nx nn (eo_answers _ _ He) Hidnx Hnn)). by rewrite (bt_step _ _ _ _ _ (node_Ret nx nn t Hnn)). }
    destruct (Hsp (PTR nn)) as (left' & right' & res & Hd & Heq). rewrite Hx, decide_False in Heq by done.
    destruct (split_growth L1 id rs1 r rs2 ((nx, rsx) :: L2) key L n nr left' right' res rid Hd Hfull Hrok Hnew Hc Hafter)
      as (X & Y & r0 & side & p & Hg & Hst & -> & Hsit & Hleft & Hright).
    destruct (sd_ids _ _ _ _ _ _ _ _ _ _ Hd) as [Hi1 Hi2]. destruct (sd_links _ _ _ _ _ _ _ _ _ _ Hd) as (Hl1 & Hl2 & Hl3 & Hl4).
    eexists _, r0, (match side with LEFT_BNODE => id | RIGHT_BNODE => rid end), p, _.
    split; [rewrite (Hrow _ _ _ _ _ _ Heq Hnext eq_refl); by destruct side|].
    split; [exact Hg|]. split; [exact Hsit|]. split; [exact Hst|].
    destruct Hleft as (F1 & E1 & Ho1 & Hr1). destruct Hright as (F2 & E2 & Ho2 & Hr2).
    pose proof (Hfr left' right' (node_raw N _ _ _ Ho1) (node_raw N _ _ _ Ho2)) as Hf. rewrite Hx, Hnrid. split.
    + apply (frame_trans N _ ((rid, []) :: l) 0 0 _ _ _ ltac:(done) Hf). apply frame_set; [apply Hf| |].
      * cbn. apply elem_of_cons. right. unfold l, level_ids. rewrite map_app. cbn. apply elem_of_app. right. apply elem_of_cons. right. apply elem_of_cons. by left.
      * apply (node_raw N _ F' es'). by apply node_ok_links.
    + apply (proj2 (split_seg (store t) L1 id (rs1 ++ r :: rs2) rid (X r0) (Y r0) ((nx, rsx) :: L2) left' right' Hnd Hrid Hseg
        ltac:(by exists F1, E1) ltac:(by exists F2, E2) ltac:(congruence) ltac:(congruence) ltac:(congruence) ltac:(congruence) ltac:(congruence) ltac:(cbn; congruence))
        nx rsx L2 nn eq_refl Hnn).
Qed.
Lemma place_here_frame t t' k L1 id rs1 r rs2 L2 key L :
  frame N [] k t t' -> place_here t L1 id rs1 r rs2 L2 key L -> place_here t' L1 id rs1 r rs2 L2 key L.
Proof using Type.
  intros Hf (He & Hl & Hrest). split; [apply Hf|]. split; [|done]. apply (level_at_frame N comp_fn valid_key [] _ k t t' Hf Hl). intros; apply not_elem_of_nil.
Qed.

Lemma growth_ids L1 id rs1 r rs2 L2 lv new x :
  growth L1 id rs1 r rs2 L2 lv new ->
  level_ids (lv x) = level_ids L1 ++ id :: (match new with Some rid => [rid] | None => [] end) ++ level_ids L2.
Proof using Type. intros [|rid X Y _ _ _]; unfold level_ids; by rewrite map_app. Qed.

Lemma place_ok t L1 id rs1 r rs2 L2 key L td parent todo :
  place_here t L1 id rs1 r rs2 L2 key L -> 1 <= free_num (ids t) ->
  (forall t', btree_height t' = btree_height t -> parent_data td t' = Ret (parent, t')) ->
  exists lv new r0 nid p todo' t',
    place_key_in_bnode N mf comp_fn td id (Z.of_nat (length rs1)) key L todo t = Ret ((PTR (nid, p), todo'), t') /\
    growth L1 id rs1 r rs2 L2 lv new /\ sits lv nid p /\ stands_for key L r0 /\
    frame N (L1 ++ (id, rs1 ++ r :: rs2) :: L2) 1 t t' /\ level_at t' (lv r0) /\
    match new with
    | None => todo' = todo
    | Some rid => ~ id_ok t rid /\ todo' = (parent, rid, root_bnode_id t) :: todo
    end.
Proof using HK HN HBL.
  intros Hpl Hfree Hparent. pose proof Hpl as (He & [Hl Hids Hnd] & Hnew & Hc & Hafter). pose proof (eo_answers _ _ He) as Ha.
  destruct (level_node N comp_fn valid_key _ _ _ _ _ Hl) as (Hh & _ & _). pose proof Hh as (n & F & es & Hn & Ho & Hr & _).
  destruct (record_at_holds N mf HN t id _ _ rs1 r rs2 Hh) as [off Hrec]. set (l := L1 ++ (id, rs1 ++ r :: rs2) :: L2) in *.
  assert (Hidl : id ∈ level_ids l) by (unfold l, level_ids; rewrite map_app; apply elem_of_app; right; apply elem_of_cons; by left).
  rewrite Forall_forall in Hids. assert (Hid : id_ok t id) by auto.
  unfold place_key_in_bnode. rewrite (bt_step _ _ _ _ _ (ask_Ret t Ha)). change (negb (0 =? 0)) with false. cbn iota.
  rewrite (bt_step _ _ _ _ _ Hrec). cbn iota beta. rewrite (bt_step _ _ _ _ _ (node_Ret id n t Hn)).
  rewrite (proj2 (Z.eqb_neq (comp_fn r key) 0)) by lia. destruct (is_node_full n key) eqn:Hfull.
  - destruct (check_reserve_ok N mf HN t He) as (t1 & Heq1 & Hf1 & Hids1). rewrite (bt_step _ _ _ _ _ Heq1). change (negb (0 =? 0)) with false. cbn iota.
    destruct (new_bnode_ok N HN t1 (fr_env _ _ _ _ _ Hf1) ltac:(rewrite Hids1; lia)) as (rid & t2 & nr & Heq2 & Hf2 & Hnrid & Hrid & Hnr & Hraw & Hni).
    rewrite (bt_step _ _ _ _ _ Heq2). cbn iota beta.
    assert (Hf12 : frame N [] 1 t t2) by (by apply (frame_trans N [] [] 0 1 t t1 t2)).
    assert (Hridt : ~ id_ok t rid) by (intros H; by apply Hnrid, (fr_ids _ _ _ _ _ Hf1)).
    assert (Hridl : rid ∉ level_ids l) by (intros H; by apply Hridt, Hids).
    assert (Hn2 : store t2 !! id = Some n) by (rewrite (fr_store _ _ _ _ _ Hf12); [done|done|apply not_elem_of_nil]).
    assert (Hrid0 : rid <> 0) by (destruct Hrid; lia).
    destruct (split_full_ok t2 L1 id rs1 r rs2 L2 key L n rid nr (place_here_frame _ _ _ _ _ _ _ _ _ _ _ Hf12 Hpl) Hn2 Hfull Hridl Hrid0 Hrid Hnr Hraw Hni)
      as (lv & r0 & nid & p & t3 & Heq3 & Hg & Hsit & Hst & Hf3 & Hseg).
    rewrite (bt_step _ _ _ _ _ Heq3). cbv beta iota. change (negb (0 =? 0)) with false. cbn iota.
    assert (Hft : frame N l 1 t t3).
    { apply (frame_trans N l ((rid, []) :: l) 1 0 t t2 t3); [|by apply frame_nil|done].
      intros i Hi Hin. cbn in Hin. apply elem_of_cons in Hin as [->|?]; [by exfalso|done]. }
    destruct (fr_root _ _ _ _ _ Hft) as [Hrt Hht].
    rewrite (bt_step _ _ _ _ _ (Hparent t3 Hht)). rewrite (bt_step root_id _ t3 (root_bnode_id t3) t3 eq_refl).
    assert (Hput : put_add_index_work todo (parent, rid, root_bnode_id t3) t3 = Ret ((parent, rid, root_bnode_id t) :: todo, t3)).
    { unfold put_add_index_work. rewrite (bt_step _ _ _ _ _ (ask_Ret t3 (eo_answers _ _ (fr_env _ _ _ _ _ Hft)))). by rewrite Hrt. }
    rewrite (bt_step _ _ _ _ _ Hput).
    exists lv, (Some rid), r0, nid, p, ((parent, rid, root_bnode_id t) :: todo), t3. split; [done|]. split; [done|]. split; [done|]. split; [done|].
    split; [done|]. split; [|done]. split; [by apply (growth_level_ok t t3 L1 id rs1 r rs2 L2 key L lv (Some rid) r0 Hpl Hg Hst)| |].
    + rewrite (growth_ids L1 id rs1 r rs2 L2 lv _ r0 Hg). unfold l, level_ids in Hids, Hridl. rewrite map_app in Hids. apply Forall_app. cbn [app].
      assert (Hall : forall i, i ∈ map fst L1 \/ i = id \/ i ∈ map fst L2 -> id_ok t3 i).
      { intros i Hi. apply (fr_ids _ _ _ _ _ Hft), Hids. rewrite elem_of_app. cbn. rewrite elem_of_cons. tauto. }
      split; [apply Forall_forall; intros; apply Hall; by left|]. constructor; [apply Hall; right; by left|]. constructor; [by apply (fr_ids _ _ _ _ _ Hf3)|].
      apply Forall_forall. intros. apply Hall. right; by right.
    + rewrite (growth_ids L1 id rs1 r rs2 L2 lv _ r0 Hg). unfold l, level_ids in Hnd, Hridl. rewrite map_app in Hnd, Hridl. cbn [map app fst] in *.
      rewrite (cons_middle id), app_assoc. rewrite (cons_middle id), app_assoc in Hnd, Hridl.
      apply NoDup_app in Hnd as (H1 & H2 & H3). rewrite not_elem_of_app in Hridl. destruct Hridl as [H4 H5].
      apply NoDup_app. split; [done|]. split; [|by apply NoDup_cons]. intros i Hi. rewrite not_elem_of_cons. split; [by intros ->|by apply H2].
  - destruct (place_nonfull t L1 id rs1 r rs2 L2 key L n Hpl Hn Hfull) as (n' & r0 & Heq & Hst & Hf & Hla & Hsit).
    rewrite (bt_step _ _ _ _ _ (lift_Ret _ _ t Heq)). cbv beta iota.
    rewrite (bt_step (put_node id n') _ t tt (set_store t (<[id := n']> (store t))) eq_refl).
    eexists _, None, r0, id, (Z.of_nat (length rs1) + 1), todo, _. split; [done|]. split; [apply grow_node|]. split; [done|]. split; [done|].
    split; [|by split]. by apply (frame_weaken N l l 0 1).
Qed.
End place.
