(* ===== verification/BtreeGrow.v ===== *)
(** * Index records and new roots: the work an insertion leaves for the levels above *)
From Stdlib Require Import ZArith Lia.
From stdpp Require Import base numbers list sets gmap.
From S2P Require Import Prelude Bits BitsFacts Bytes BtreeNode BtreeNodeFacts BtreeNodeOps Bnode BnodeIds Btree BtreeKeys BtreeSpec BtreeFind.
From S2P Require Import BtreeInsert BtreePlace.

Section grow.
Context `{HS : !BitSearch} `{HBL : !BitSearchLaws}.
Context (N : Z) (mf : bool) (max_key_len : Z) (comp_fn : list Z -> list Z -> Z) (key_ok valid_key : list Z -> Prop).
Context `{HK : !KeyLaws comp_fn key_ok valid_key max_key_len} (HN : 128 <= N < 65536).
#[local] Coercion valid_coe4 r (H : valid_key r) : key_ok r := kl_ok r H.
#[local] Abbreviation comp_eq_l := (comp_eq_l (key_ok := key_ok)).
#[local] Abbreviation comp_eq_r := (comp_eq_r (key_ok := key_ok)).
#[local] Abbreviation comp_flip0 := (comp_flip0 (key_ok := key_ok)).

Abbreviation level_at := (level_at N comp_fn valid_key).
Abbreviation level_ok := (level_ok N comp_fn valid_key).
Abbreviation new_record := (new_record N valid_key).
Abbreviation index_ok := (index_ok comp_fn).
Abbreviation points := (points comp_fn).
Abbreviation stands_facts := (stands_for_facts N max_key_len comp_fn key_ok valid_key).

(** ** The value of the record that was placed *)

Lemma write_level_ok t lv nid p key L r0 bs :
  env_ok N t -> level_at t (lv r0) -> sits lv nid p -> new_record key L -> stands_for key L r0 ->
  VDFS2_KEY_LEN key + Z.of_nat (length bs) = L -> Forall is_byte bs ->
  exists off t', value_of N mf max_key_len nid p t = Ret (off, t) /\ write_at nid off bs t = Ret (tt, t') /\
    frame N (lv r0) 0 t t' /\ ids t' = ids t /\ level_at t' (lv (with_value r0 bs)) /\ stands_for key L (with_value r0 bs).
Proof using HK HN.
  intros He [Hl Hids Hnd] (M1 & s1 & s2 & M2 & -> & Hlv) Hnew Hst Hlen Hb. rewrite Hlv in Hl, Hids, Hnd |- *. rewrite Hlv.
  destruct (stands_facts key L r0 Hnew Hst) as (Hv0 & _ & _ & Hkl & Hrl).
  destruct (level_node N comp_fn valid_key _ _ _ _ _ Hl) as (Hh & _ & _).
  destruct (write_value_ok N mf max_key_len comp_fn key_ok valid_key HN t nid _ _ s1 r0 s2 bs Hh Hv0 ltac:(lia) Hb)
    as (off & n' & Hval & Hw & Hraw & Hh').
  assert (Hst1 : stands_for key L (with_value r0 bs)).
  { by apply (stands_for_value N max_key_len comp_fn key_ok valid_key key L r0 bs Hnew Hst); [lia|]. }
  exists off, (set_store t (<[nid := n']> (store t))). split; [done|]. split; [done|].
  assert (Hin : nid ∈ level_ids (M1 ++ (nid, s1 ++ r0 :: s2) :: M2)).
  { unfold level_ids. rewrite map_app. apply elem_of_app. right. apply elem_of_cons. by left. }
  split; [by apply frame_set|]. split; [done|]. split; [|done].
  assert (Hlid : level_ids (M1 ++ (nid, s1 ++ with_value r0 bs :: s2) :: M2) = level_ids (M1 ++ (nid, s1 ++ r0 :: s2) :: M2)).
  { unfold level_ids. by rewrite !map_app. }
  split; rewrite ?Hlid; [|exact Hids|exact Hnd]. apply level_ok_intro.
  - apply (seg_update N (store t) _ 0 M1 nid _ _ M2 0 Hnd (lo_seg _ _ _ _ _ Hl)); [|exact Hh']. intros i Hi. cbn. by rewrite lookup_insert_ne.
  - pose proof (lo_nonempty _ _ _ _ _ Hl) as Hne. rewrite Forall_app in Hne |- *. destruct Hne as [Hne1 Hne]. apply Forall_cons in Hne as [_ Hne].
    split; [done|]. apply Forall_cons. split; [by destruct s1|done].
  - pose proof (level_recs_ok _ _ _ _ _ Hl) as Hr. rewrite recs_app, recs_cons in Hr |- *. cbn [snd] in *.
    rewrite <-!app_assoc, <-!app_comm_cons in *. rewrite app_assoc in Hr |- *.
    by apply (recs_ok_replace N max_key_len comp_fn key_ok valid_key key L _ _ r0).
Qed.

(** ** Index records *)

Lemma level_store_ok s l : level_ok s l -> Forall record_ok_to_store (recs l).
Proof using Type.
  intros Hl. pose proof (lo_seg _ _ _ _ _ Hl) as Hseg. clear Hl. revert Hseg. generalize 0 at 1. induction l as [|v l IH]; intros p Hseg; [constructor|].
  destruct Hseg as [(n & F & es & _ & Ho & Hr & _) Hseg]. rewrite recs_cons. apply Forall_app. split; [|by apply (IH v.1)].
  rewrite <-Hr. by apply (node_records_ok N n F).
Qed.

(** A record of a level is a good key for an index record. *)
Lemma index_key s l h : level_ok s l -> h ∈ recs l -> new_record h (VDFS2_KEY_LEN h + 4).
Proof using HK.
  intros Hl Hin. pose proof (level_store_ok s l Hl) as Hs. rewrite Forall_forall in Hs. destruct (Hs h Hin) as (Hb & Hrl & Hmin).
  pose proof (lo_valid _ _ _ _ _ Hl) as Hv. rewrite Forall_forall in Hv. specialize (Hv h Hin).
  pose proof (lo_fits _ _ _ _ _ Hl) as Hf. rewrite Forall_forall in Hf. destruct (Hf h Hin) as [Hh Hval]. unfold fits_half in Hh.
  destruct (kl_len h Hv) as [[Hk1 _] Hk2]. split; [done| |lia]. split; [done|lia..].
Qed.

(** The index record for a node. *)
Lemma index_record h c r0 rs :
  new_record h (VDFS2_KEY_LEN h + 4) -> stands_for h (VDFS2_KEY_LEN h + 4) r0 -> 0 <= c < 2 ^ 32 ->
  points (with_value r0 (le32_bytes c)) (c, h :: rs).
Proof using HK HN.
  intros Hnew Hst Hc. destruct (stands_facts h _ r0 Hnew Hst) as (Hv0 & _ & _ & Hkl & Hrl).
  assert (Hst1 : stands_for h (VDFS2_KEY_LEN h + 4) (with_value r0 (le32_bytes c))).
  { apply (stands_for_value N max_key_len comp_fn key_ok valid_key h _ r0 _ Hnew Hst); [rewrite length_le32_bytes; lia|apply bytes_le32]. }
  destruct (stands_facts h _ _ Hnew Hst1) as (Hv1 & Hc1 & _ & Hkl1 & Hrl1). destruct (kl_len _ Hv1) as [[Hmin _] _].
  destruct Hst1 as [_ [_ Hk]]. unfold GENERIC_KEY_SIZE in Hmin. exists h. split; [done|]. split; [done|]. cbn [fst]. split.
  - rewrite Hkl1. pose proof (nr_req _ _ _ _ Hnew) as [_ _ Hav _ Hsz]. pose proof (sr_claimed _ _ _ (nr_req _ _ _ _ Hnew)).
    unfold VDFS2_RECORD_LEN, le32_at. rewrite Hkl1 in Hmin.
    pose proof (bytes_at_nested (with_value r0 (le32_bytes c)) 0 (VDFS2_KEY_LEN h) 8 4 ltac:(lia) ltac:(lia) ltac:(lia) ltac:(lia)) as Hn.
    change (0 + 8) with 8 in Hn. rewrite <-Hn, Hk. apply le32_at_put; [lia|rewrite length_bytes_at; lia|lia].
  - rewrite Hkl1. unfold le32_at, with_value. rewrite Hkl.
    assert (Hlb : Z.of_nat (length (bytes_at r0 0 (VDFS2_KEY_LEN h))) = VDFS2_KEY_LEN h) by (rewrite length_bytes_at; lia).
    rewrite <-Hlb at 2. change 4 with (Z.of_nat (length (le32_bytes c))). rewrite bytes_at_app_r. by apply le32_round.
Qed.
(** ** The index of a level that grows *)

Lemma index_ok_head u A i rs rs' B : head rs' = head rs -> index_ok u (A ++ (i, rs) :: B) -> index_ok u (A ++ (i, rs') :: B).
Proof using Type.
  unfold BtreeSpec.index_ok. intros Hh H. apply Forall2_app_inv_r in H as (xs & ys & H1 & H2 & ->). apply Forall2_cons_inv_r in H2 as (x & ys' & Hp & H2 & ->).
  apply Forall2_app; [done|]. constructor; [|done]. destruct Hp as (h & Hhd & Hp). exists h. cbn [snd fst] in *. by rewrite Hh.
Qed.

Lemma growth_index u L1 id rs1 r rs2 L2 lv new x :
  index_ok u (L1 ++ (id, rs1 ++ r :: rs2) :: L2) -> growth L1 id rs1 r rs2 L2 lv new ->
  match new with
  | None => index_ok u (lv x)
  | Some rid => exists X Y, lv x = L1 ++ (id, X) :: (rid, Y) :: L2 /\ X <> [] /\ Y <> [] /\ index_ok u (L1 ++ (id, X) :: L2)
  end.
Proof using Type.
  intros Hix [|rid X Y HXY HX HY].
  - apply (index_ok_head u L1 id (rs1 ++ r :: rs2)); [by destruct rs1|done].
  - exists (X x), (Y x). split; [done|]. split; [apply HX|]. split; [apply HY|]. apply (index_ok_head u L1 id (rs1 ++ r :: rs2)); [|done].
    pose proof (HXY x) as Heq. pose proof (HX x). destruct (X x) as [|a xs]; [done|]. destruct rs1; injection Heq as -> _; done.
Qed.

Lemma index_ok_replace u lv nid p key L r0 r1 :
  Forall valid_key (recs u) -> index_ok u (lv r0) -> sits lv nid p -> new_record key L -> stands_for key L r0 -> stands_for key L r1 -> index_ok u (lv r1).
Proof using HK.
  intros Hv Hix (M1 & s1 & s2 & M2 & _ & Hlv) Hnew H0 H1. rewrite Hlv in Hix |- *. destruct s1 as [|y s1].
  - destruct (stands_facts key L r0 Hnew H0) as (Hv0 & Hc0 & _). destruct (stands_facts key L r1 Hnew H1) as (Hv1 & Hc1 & _).
    unfold BtreeSpec.index_ok in *. apply Forall2_app_inv_r in Hix as (xs & ys & H2 & H3 & Heq). rewrite Heq in Hv |- *.
    apply Forall2_cons_inv_r in H3 as (x & ys' & Hp & H3 & ->). apply Forall_app in Hv as [_ Hv]. apply Forall_cons in Hv as [Hvx _].
    apply Forall2_app; [done|]. constructor; [|done]. destruct Hp as (h & Hhd & Hc & Hp). cbn in Hhd. injection Hhd as <-. exists r1. cbn.
    split; [done|]. split; [|done]. pose proof (nr_valid _ _ _ _ Hnew) as Hk. pose proof (comp_eq_r r0 key x Hv0 Hk Hvx Hc0). pose proof (comp_eq_r r1 key x Hv1 Hk Hvx Hc1). lia.
  - by apply (index_ok_head u M1 nid ((y :: s1) ++ r0 :: s2)).
Qed.

Lemma growth_index_up u L1 id rs1 r rs2 L2 lv new x i (l : list view) A B :
  growth L1 id rs1 r rs2 L2 lv new -> Forall2 points ((recs L1 ++ rs1) ++ [r]) A -> Forall2 points (rs2 ++ recs L2) B -> points x i -> l = A ++ i :: B ->
  u = lv x -> index_ok u l.
Proof using Type.
  intros Hg HA HB Hp -> ->. unfold BtreeSpec.index_ok. rewrite (growth_recs _ _ _ _ _ _ _ _ Hg). rewrite (cons_middle r), app_assoc.
  apply Forall2_app; [done|]. by constructor.
Qed.

(** The place of the record that points to a node. *)
Lemma ids_unique {A} (a : list (Z * A)) x b c y d : NoDup (map fst (a ++ x :: b)) -> a ++ x :: b = c ++ y :: d -> x.1 = y.1 -> a = c /\ x = y /\ b = d.
Proof using Type.
  revert c. induction a as [|z a IH]; intros c Hnd Heq Hxy; destruct c as [|w c]; cbn in *.
  - by injection Heq as -> ->.
  - injection Heq as -> ->. apply NoDup_cons in Hnd as [Hnd _]. exfalso. apply Hnd. rewrite map_app, elem_of_app. right. apply elem_of_cons. by left.
  - injection Heq as -> <-. apply NoDup_cons in Hnd as [Hnd _]. exfalso. apply Hnd. rewrite map_app, elem_of_app. right. apply elem_of_cons. left. by rewrite <-Hxy.
  - injection Heq as -> Heq. apply NoDup_cons in Hnd as [_ Hnd]. by destruct (IH c Hnd Heq Hxy) as (-> & ? & ?).
Qed.

Lemma parent_place s key0 u uid upos ru id X rid k Y L1 L2 :
  level_ok s u -> level_ok s (L1 ++ (id, X) :: (rid, k :: Y) :: L2) -> NoDup (level_ids (L1 ++ (id, X) :: L2)) ->
  index_ok u (L1 ++ (id, X) :: L2) -> located comp_fn key0 u uid upos ru -> le32_at ru (VDFS2_KEY_LEN ru) = id ->
  exists U1 us1 us2 U2, u = U1 ++ (uid, us1 ++ ru :: us2) :: U2 /\ upos = Z.of_nat (length us1) /\ comp_fn ru k < 0 /\
    Forall (fun x => 0 < comp_fn x k) (us2 ++ recs U2) /\
    Forall2 points ((recs U1 ++ us1) ++ [ru]) (L1 ++ [(id, X)]) /\ Forall2 points (us2 ++ recs U2) L2.
Proof using HK.
  intros Hu Hl Hnd Hix (U1 & us1 & us2 & U2 & -> & -> & _ & _) Hval. exists U1, us1, us2, U2. split; [done|]. split; [done|].
  pose proof (lo_valid _ _ _ _ _ Hu) as Hvu. unfold BtreeSpec.index_ok in Hix. rewrite recs_app, recs_cons in Hix, Hvu. cbn [snd] in Hix, Hvu.
  rewrite <-app_assoc, <-app_comm_cons, app_assoc in Hix, Hvu. apply Forall2_middle in Hix as (l1 & y & l2 & Heq & H1 & Hy & H2).
  pose proof Hy as (h & Hh & Hch & _ & Hid). destruct (ids_unique L1 (id, X) L2 l1 y l2 Hnd Heq ltac:(cbn; congruence)) as (-> & <- & ->).
  cbn [snd] in Hh. destruct X as [|h' X]; [done|]. injection Hh as ->.
  pose proof (lo_valid _ _ _ _ _ Hl) as Hvl. pose proof (lo_sorted _ _ _ _ _ Hl) as Hs. rewrite recs_app, !recs_cons in Hvl, Hs. cbn [snd app] in Hvl, Hs.
  apply Forall_app in Hvl as [_ Hvl]. apply Forall_cons in Hvl as [Hvh Hvl]. apply Forall_app in Hvl as [_ Hvl]. apply Forall_cons in Hvl as [Hvk Hvl].
  apply Forall_app in Hvl as [_ Hvl2]. apply sorted_app in Hs as (_ & Hs & _). apply sorted_first in Hs as [Hs Hhk]. apply Forall_app in Hhk as [_ Hhk].
  apply Forall_cons in Hhk as [Hhk _]. apply sorted_app in Hs as (_ & Hs & _). apply sorted_first in Hs as [_ Hk2]. apply Forall_app in Hk2 as [_ Hk2].
  apply Forall_app in Hvu as [_ Hvu]. apply Forall_cons in Hvu as [Hvr Hvu].
  split; [pose proof (comp_eq_l ru h k Hvr Hvh Hvk Hch); lia|]. split; [|split; [apply Forall2_app; [done|by constructor]|done]].
  clear -H2 Hvu Hk2 Hvl2 Hvk HK. revert Hvu Hk2 Hvl2. induction H2 as [|x [i rs] xs l2 Hp _ IH]; intros Hvu Hk2 Hvl2; [constructor|].
  destruct Hp as (h & Hh & Hc & _). cbn [snd] in Hh. destruct rs as [|h' rs]; [done|]. injection Hh as ->. rewrite recs_cons in Hk2, Hvl2. cbn [snd app] in *.
  apply Forall_cons in Hvu as [Hvx Hvu]. apply Forall_cons in Hk2 as [Hkh Hk2]. apply Forall_app in Hk2 as [_ Hk2]. apply Forall_cons in Hvl2 as [Hvh Hvl2].
  apply Forall_app in Hvl2 as [_ Hvl2]. constructor; [|by apply IH]. pose proof (comp_eq_l x h k Hvx Hvh Hvk Hc). pose proof (comp_sgn (key_ok := key_ok) h k Hvh Hvk). lia.
Qed.
Lemma id_ok_range t id : env_ok N t -> id_ok t id -> 0 <= id < 2 ^ 32.
Proof using Type. intros [_ Hb _ _] ([? ?] & ? & _). destruct (io_size _ Hb). lia. Qed.

(** [place_index_record] for a node that has no index record yet. *)
Lemma index_step t u id X rid k Y L1 L2 key0 uid upos ru lev rest parent root :
  let l := L1 ++ (id, X) :: (rid, k :: Y) :: L2 in
  env_ok N t -> level_at t u -> level_at t l -> index_ok u (L1 ++ (id, X) :: L2) ->
  located comp_fn key0 u uid upos ru -> le32_at ru (VDFS2_KEY_LEN ru) = id -> 1 <= free_num (ids t) ->
  (forall t', btree_height t' = btree_height t -> parent_data ((uid, upos, lev) :: rest) t' = Ret (parent, t')) ->
  exists U1 us1 us2 U2 lv new x todo' t', u = U1 ++ (uid, us1 ++ ru :: us2) :: U2 /\ growth U1 uid us1 ru us2 U2 lv new /\
    place_index_record N mf max_key_len comp_fn (Some ((uid, upos, lev) :: rest), rid, root) [] t = Ret ((0, todo'), t') /\
    frame N u 1 t t' /\ level_at t' (lv x) /\ index_ok (lv x) l /\
    match new with
    | None => todo' = []
    | Some rid' => ~ id_ok t rid' /\ todo' = [(parent, rid', root_bnode_id t)]
    end.
Proof using HK HN HBL.
  intros l He Hu Hl Hix Hloc Hval Hfree Hparent. pose proof (la_ok _ _ _ _ _ Hl) as Hlo. pose proof (la_ok _ _ _ _ _ Hu) as Huo.
  assert (Hndl : NoDup (level_ids (L1 ++ (id, X) :: L2))).
  { pose proof (la_nodup _ _ _ _ _ Hl) as Hnd. unfold l, level_ids in Hnd |- *. rewrite map_app in Hnd |- *. cbn in Hnd |- *.
    apply NoDup_app in Hnd as (H1 & H2 & H3). apply NoDup_cons in H3 as [H3 H4]. apply NoDup_cons in H4 as [H4 H5]. rewrite not_elem_of_cons in H3.
    apply NoDup_app. split; [done|]. split; [|destruct H3; by apply NoDup_cons]. intros i Hi. specialize (H2 i Hi). rewrite !not_elem_of_cons in H2. rewrite not_elem_of_cons. by destruct H2 as (? & ? & ?). }
  destruct (parent_place _ key0 u uid upos ru id X rid k Y L1 L2 Huo Hlo Hndl Hix Hloc Hval)
    as (U1 & us1 & us2 & U2 & -> & -> & Hc & Hafter & HA & HB).
  assert (Hkin : k ∈ recs l) by (unfold l; rewrite recs_app, !recs_cons; cbn [snd]; rewrite !elem_of_app, elem_of_cons; tauto).
  pose proof (index_key _ l k Hlo Hkin) as Hnew. pose proof (nr_valid _ _ _ _ Hnew) as Hvk.
  assert (Hidrid : id_ok t rid).
  { pose proof (la_ids _ _ _ _ _ Hl) as Hi. unfold l, level_ids in Hi. rewrite map_app, Forall_app in Hi. destruct Hi as [_ Hi]. apply Forall_cons in Hi as [_ Hi]. by apply Forall_cons in Hi as [Hi _]. }
  assert (Hlo' : level_ok (store t) ((L1 ++ [(id, X)]) ++ (rid, k :: Y) :: L2)) by (by rewrite <-app_assoc).
  destruct (level_node N comp_fn valid_key _ _ _ _ _ Hlo') as (Hhr & _ & _). pose proof Hhr as (nr & Fr & er & Hnr & _).
  destruct (record_at_holds N mf HN t rid _ _ [] k Y Hhr) as [off Hrec]. cbn [length] in Hrec. change (Z.of_nat 0) with 0 in Hrec.
  assert (Hlk : located comp_fn k (U1 ++ (uid, us1 ++ ru :: us2) :: U2) uid (Z.of_nat (length us1)) ru).
  { exists U1, us1, us2, U2. split; [done|]. split; [done|]. split; [lia|done]. }
  pose proof (traverse_level_ok N mf max_key_len comp_fn key_ok valid_key HN k t _ uid _ ru (eo_answers _ _ He) Huo (la_ids _ _ _ _ _ Hu) Hvk Hlk) as Htl.
  assert (Hpl : place_here N comp_fn valid_key t U1 uid us1 ru us2 U2 k (VDFS2_KEY_LEN k + 4)) by done.
  destruct (place_ok N mf max_key_len comp_fn key_ok valid_key HN t U1 uid us1 ru us2 U2 k _ _ parent [] Hpl Hfree Hparent)
    as (lv & new & r0 & nid & p & todo' & t1 & Heq1 & Hg & Hsit & Hst & Hf1 & Hla1 & Htodo).
  pose proof (id_ok_range t rid He Hidrid) as Hrange.
  destruct (write_level_ok t1 lv nid p k (VDFS2_KEY_LEN k + 4) r0 (le32_bytes rid) (fr_env _ _ _ _ _ Hf1) Hla1 Hsit Hnew Hst ltac:(done) (bytes_le32 rid))
    as (voff & t2 & Heq2 & Heq3 & Hf2 & _ & Hla2 & _).
  exists U1, us1, us2, U2, lv, new, (with_value r0 (le32_bytes rid)), todo', t2. split; [done|]. split; [done|].
  split; [|split; [|split; [done|split; [|done]]]].
  - unfold place_index_record. rewrite (bt_step _ _ _ _ _ (get_bnode_Ret t rid nr (eo_answers _ _ He) Hidrid Hnr)). cbn iota.
    rewrite (bt_step _ _ _ _ _ Hrec). cbn iota beta. rewrite (bt_step _ _ _ _ _ Htl). cbn iota beta. rewrite (bt_step _ _ _ _ _ Heq1). cbv beta iota.
    rewrite (bt_step _ _ _ _ _ Heq2), (bt_step _ _ _ _ _ Heq3). done.
  - apply (frame_trans N _ (lv r0) 1 0 t t1 t2); [|done|done]. intros i Hi Hin. rewrite (growth_ids _ _ _ _ _ _ _ _ r0 Hg) in Hin.
    unfold level_ids. rewrite map_app. cbn [map fst]. rewrite !elem_of_app, elem_of_cons in *. cbn in Hin.
    destruct new as [rid'|]; [|tauto]. destruct Htodo as [Hno _]. rewrite elem_of_app, list_elem_of_singleton in Hin. naive_solver.
  - apply (growth_index_up (lv (with_value r0 (le32_bytes rid))) U1 uid us1 ru us2 U2 lv new (with_value r0 (le32_bytes rid)) (rid, k :: Y) l (L1 ++ [(id, X)]) L2 Hg HA HB); [|by unfold l; rewrite <-app_assoc|done].
    by apply index_record.
Qed.
End grow.
