(* ===== verification/BtreeRoot.v ===== *)
(** * A new root, and the whole work that an insertion leaves *)
From Stdlib Require Import ZArith Lia.
From stdpp Require Import base numbers list sets gmap.
From S2P Require Import Prelude Bits BitsFacts Bytes BtreeNode BtreeNodeFacts BtreeNodeOps Bnode BnodeIds Btree BtreeKeys BtreeSpec BtreeFind.
From S2P Require Import BtreeInsert BtreePlace BtreeGrow.

Section root.
Context `{HS : !BitSearch} `{HBL : !BitSearchLaws}.
Context (N : Z) (mf : bool) (max_key_len : Z) (comp_fn : list Z -> list Z -> Z) (key_ok valid_key : list Z -> Prop).
Context `{HK : !KeyLaws comp_fn key_ok valid_key max_key_len} (HN : 128 <= N < 65536).
#[local] Coercion valid_coe5 r (H : valid_key r) : key_ok r := kl_ok r H.
#[local] Abbreviation comp_eq_l := (comp_eq_l (key_ok := key_ok)).
#[local] Abbreviation comp_eq_r := (comp_eq_r (key_ok := key_ok)).
#[local] Abbreviation comp_flip0 := (comp_flip0 (key_ok := key_ok)).

Abbreviation level_at := (level_at N comp_fn valid_key).
Abbreviation level_ok := (level_ok N comp_fn valid_key).
Abbreviation new_record := (new_record N valid_key).
Abbreviation index_ok := (index_ok comp_fn).
Abbreviation points := (points comp_fn).
Abbreviation stands_facts := (stands_for_facts N max_key_len comp_fn key_ok valid_key).

(** One index record in the new root. *)
Lemma root_fill_step t nr rs c p nx h cs fuel :
  env_ok N t -> holds N (store t) nr 0 0 rs -> holds N (store t) c p nx (h :: cs) -> nr <> c -> new_record h (VDFS2_KEY_LEN h + 4) ->
  payload rs + (VDFS2_RECORD_LEN h + OFF_SIZE) <= N - 37 -> 0 <= c < 2 ^ 32 ->
  exists n' ix, let t' := set_store t (<[nr := n']> (store t)) in
    raw_node N n' /\ holds N (store t') nr 0 0 (rs ++ [ix]) /\ points ix (c, h :: cs) /\ stands_for h (VDFS2_KEY_LEN h + 4) ix /\
    fill_new_root N mf max_key_len (S fuel) nr c (Z.of_nat (length rs)) t =
      (if nx =? VDFS2_INVALID_NODE_ID then mret 0
       else next ← get_bnode nx;
            match next with
            | ERR_PTR e => if e =? - ENOENT then mret 0 else mret e
            | PTR next => fill_new_root N mf max_key_len fuel nr next (Z.of_nat (length rs) + 1)
            end) t'.
Proof using HK HN.
  intros He Hnr Hc Hne Hnew Hroom Hrange. pose proof Hnr as (n & F & es & Hn & Ho & Hr & _).
  destruct (record_at_holds N mf HN t c p nx [] h cs Hc) as [off Hrec]. cbn [length] in Hrec. change (Z.of_nat 0) with 0 in Hrec.
  pose proof (free_payload N n F es Ho) as Hfree. rewrite Hr in Hfree. pose proof (nr_req _ _ _ _ Hnew) as Hreq. pose proof (sr_claimed _ _ _ Hreq) as Hcl.
  rewrite <-(app_nil_r rs) in Hnr.
  destruct (insert_key_holds N mf valid_key HN t nr 0 0 rs [] h _ n Hn Hnr Hnew ltac:(lia)) as (n1 & r0 & Heq & Hst & Hraw & Hh1).
  destruct (stands_facts h _ r0 Hnew Hst) as (Hv0 & _ & _ & Hkl & Hrl).
  set (t1 := set_store t (<[nr := n1]> (store t))). change (<[nr := n1]> (store t)) with (store t1) in Hh1.
  destruct (write_value_ok N mf max_key_len comp_fn key_ok valid_key HN t1 nr 0 0 rs r0 [] (le32_bytes c) Hh1 Hv0) as (voff & n2 & Hval & Hw & Hraw2 & Hh2);
    [rewrite length_le32_bytes; lia|apply bytes_le32|].
  exists n2, (with_value r0 (le32_bytes c)). cbv zeta. split; [done|]. cbn [store set_store t1] in Hh2. rewrite insert_insert_eq in Hh2.
  split; [exact Hh2|]. split; [by apply (index_record N max_key_len comp_fn key_ok valid_key HN)|]. split.
  { apply (stands_for_value N max_key_len comp_fn key_ok valid_key h _ r0 _ Hnew Hst); [rewrite length_le32_bytes; lia|apply bytes_le32]. }
  cbn [fill_new_root]. rewrite (bt_step _ _ _ _ _ Hrec). cbn iota beta. rewrite (bt_step _ _ _ _ _ (node_Ret nr n t Hn)).
  unfold is_node_full. rewrite (proj2 (Z.ltb_ge _ _)) by lia. rewrite (bt_step _ _ _ _ _ (lift_Ret _ _ t Heq)). cbv beta iota.
  rewrite (bt_step (put_node nr n1) _ t tt t1 eq_refl). change (negb (0 =? 0)) with false. cbn iota.
  rewrite (bt_step _ _ _ _ _ Hval), (bt_step _ _ _ _ _ Hw). unfold t1. cbn [store set_store].
  assert (Hss : forall s1 s2, set_store (set_store t s1) s2 = set_store t s2) by done. rewrite Hss, insert_insert_eq.
  destruct Hc as (cn & Fc & ec & Hcn & _ & _ & _ & _ & Hnx). 
  assert (Hcn' : store (set_store t (<[nr := n2]> (store t))) !! c = Some cn) by (cbn; by rewrite lookup_insert_ne).
  rewrite (bt_step _ _ _ _ _ (node_Ret c cn _ Hcn')). by rewrite Hnx.
Qed.

Lemma build_new_root_ok t id X rid Y :
  let l := [(id, X); (rid, Y)] in
  env_ok N t -> level_at t l -> root_bnode_id t = id -> 1 <= free_num (ids t) -> 0 <= btree_height t < 2 ^ 15 ->
  exists t' nr i1 i2, build_new_root N mf max_key_len id t = Ret (0, t') /\ env_ok N t' /\
    (forall i, id_ok t i -> store t' !! i = store t !! i /\ id_ok t' i) /\ ~ id_ok t nr /\
    level_at t' [(nr, [i1; i2])] /\ index_ok [(nr, [i1; i2])] l /\ root_bnode_id t' = nr /\ btree_height t' = btree_height t + 1.
Proof using HK HN HBL.
  intros l He Hl Hroot Hfree Hheight. pose proof (eo_answers _ _ He) as Ha. pose proof (la_ok _ _ _ _ _ Hl) as Hlo.
  assert (Hids : id_ok t id /\ id_ok t rid).
  { pose proof (la_ids _ _ _ _ _ Hl) as Hi. apply Forall_cons in Hi as [H1 Hi]. by apply Forall_cons in Hi as [H2 _]. }
  destruct Hids as [Hid Hrid]. assert (Hrid0 : rid <> 0) by (destruct Hrid; lia). assert (Hid0 : id <> 0) by (destruct Hid; lia).
  destruct (level_node N comp_fn valid_key _ [] id X [(rid, Y)] Hlo) as (Hh1 & _ & _).
  destruct (level_node N comp_fn valid_key _ [(id, X)] rid Y [] Hlo) as (Hh2 & _ & _). cbn [last_id first_id fst] in Hh1, Hh2.
  pose proof (lo_nonempty _ _ _ _ _ Hlo) as Hne. apply Forall_cons in Hne as [HX Hne]. apply Forall_cons in Hne as [HY _]. cbn [snd] in HX, HY.
  destruct X as [|x X]; [done|]. destruct Y as [|y Y]; [done|].
  pose proof (index_key N max_key_len comp_fn key_ok valid_key _ l x Hlo) as Hnx.
  pose proof (index_key N max_key_len comp_fn key_ok valid_key _ l y Hlo) as Hny.
  assert (Hrecs : recs l = x :: X ++ y :: Y) by (unfold l, recs; cbn; by rewrite app_nil_r).
  rewrite Hrecs in Hnx, Hny. specialize (Hnx ltac:(by apply elem_of_cons; left)). specialize (Hny ltac:(rewrite elem_of_cons, elem_of_app, elem_of_cons; tauto)).
  destruct (new_bnode_ok N HN t He Hfree) as (nr & t1 & n1 & Heq1 & Hf1 & Hnrno & Hnr & Hn1 & [Hraw1 Hby1] & Hni).
  destruct (init_new_node_descr_ok N mf ltac:(lia) n1 VDFS2_NODE_INDEX Hraw1 Hby1) as (n2 & Hinit & Hn2 & _ & Hid2 & Hnx2 & Hpv2).
  set (t2 := set_store t1 (<[nr := n2]> (store t1))).
  assert (Hne1 : nr <> id) by (by intros ->). assert (Hne2 : nr <> rid) by (by intros ->).
  assert (Hf2 : frame N [(nr, [])] 1 t t2).
  { apply (frame_trans N _ [(nr, [])] 1 0 t t1 t2 ltac:(done)); [by apply frame_nil|]. apply (frame_set N t1 nr n2); [apply Hf1|by apply elem_of_cons; left|].
    by apply (node_raw N n2 DSCR_SIZE []). }
  assert (Hkeep : forall i, id_ok t i -> store t2 !! i = store t !! i).
  { intros i Hi. apply (fr_store _ _ _ _ _ Hf2); [done|]. intros Hin. cbn in Hin. apply list_elem_of_singleton in Hin as ->. done. }
  destruct (fr_root _ _ _ _ _ Hf2) as [Hr2 Hhe2]. pose proof (fr_env _ _ _ _ _ Hf2) as He2. pose proof (eo_answers _ _ He2) as Ha2.
  assert (Hold : holds N (store t2) nr 0 0 []) by (exists n2, DSCR_SIZE, []; cbn; rewrite lookup_insert_eq; split_and!; try done; congruence).
  pose proof (holds_frame N (store t) (store t2) _ _ _ _ (Hkeep id Hid) Hh1) as Hc1. pose proof (nr_req _ _ _ _ Hnx) as Hqx. pose proof (nr_req _ _ _ _ Hny) as Hqy.
  destruct Hqx as [_ _ _ _ Hszx]. destruct Hqy as [_ _ _ _ Hszy].
  assert (Hnn : exists k, Z.to_nat N = S (S k)) by (exists (Z.to_nat N - 2)%nat; lia). destruct Hnn as [kN HkN].
  destruct (root_fill_step t2 nr [] id _ _ x X (S kN) He2 Hold Hc1 Hne1 Hnx) as (n3 & i1 & Hraw3 & Hh3 & Hp1 & Hs1 & Heq3);
    [cbn; unfold OFF_SIZE; lia|by apply (id_ok_range N t)|].
  set (t3 := set_store t2 (<[nr := n3]> (store t2))) in *.
  assert (Hf3 : frame N [(nr, [])] 1 t t3).
  { apply (frame_trans N _ [(nr, [])] 1 0 t t2 t3 ltac:(done) Hf2). apply (frame_set N t2 nr n3); [apply Hf2|by apply elem_of_cons; left|done]. }
  assert (Hkeep3 : forall i, id_ok t i -> store t3 !! i = store t !! i).
  { intros i Hi. apply (fr_store _ _ _ _ _ Hf3); [done|]. intros Hin. cbn in Hin. apply list_elem_of_singleton in Hin as ->. done. }
  pose proof (holds_frame N (store t) (store t3) _ _ _ _ (Hkeep3 rid Hrid) Hh2) as Hc2. pose proof (fr_env _ _ _ _ _ Hf3) as He3.
  destruct (stands_facts x _ i1 Hnx Hs1) as (Hv1 & Hx1 & Hz1 & _ & Hl1).
  destruct (root_fill_step t3 nr [i1] rid _ _ y Y kN He3 Hh3 Hc2 Hne2 Hny) as (n4 & i2 & Hraw4 & Hh4 & Hp2 & Hs2 & Heq4);
    [cbn [payload]; unfold OFF_SIZE in *; destruct Hz1 as [Hz1 _]; unfold fits_half in Hz1; lia|by apply (id_ok_range N t)|].
  set (t4 := set_store t3 (<[nr := n4]> (store t3))) in *. cbn [app] in Hh4.
  assert (Hf4 : frame N [(nr, [])] 1 t t4).
  { apply (frame_trans N _ [(nr, [])] 1 0 t t3 t4 ltac:(done) Hf3). apply (frame_set N t3 nr n4); [apply Hf3|by apply elem_of_cons; left|done]. }
  destruct (stands_facts y _ i2 Hny Hs2) as (Hv2 & Hy2 & Hz2 & _).
  exists (set_root t4 nr (btree_height t + 1)), nr, i1, i2. split; [|split; [by destruct (fr_env _ _ _ _ _ Hf4)|split; [|split; [done|split; [|split; [|done]]]]]].
  - unfold build_new_root. rewrite (bt_step root_id _ t (root_bnode_id t) t eq_refl). rewrite Hroot, Z.eqb_refl. cbn [negb].
    rewrite (bt_step _ _ _ _ _ (ask_Ret t Ha)). change (negb (0 =? 0)) with false. cbn iota.
    rewrite (bt_step _ _ _ _ _ Heq1). cbn iota. rewrite (bt_step _ _ _ _ _ (node_Ret nr n1 t1 Hn1)), (bt_step _ _ _ _ _ (lift_Ret _ _ t1 Hinit)).
    rewrite (bt_step (put_node nr n2) _ t1 tt t2 eq_refl). pose proof Hc1 as (c1 & ? & ? & Hc1' & _ & _ & _ & _ & Hcnx).
    rewrite (bt_step _ _ _ _ _ (get_bnode_Ret t2 id c1 Ha2 (fr_ids _ _ _ _ _ Hf2 id Hid) Hc1')). cbn iota.
    rewrite (bt_step _ _ _ _ _ (node_Ret id c1 t2 Hc1')). rewrite Hcnx, (proj2 (Z.eqb_neq rid VDFS2_INVALID_NODE_ID)) by done.
    assert (Hfill : fill_new_root N mf max_key_len (Z.to_nat N) nr id 0 t2 = Ret (0, t4)).
    { rewrite HkN. etransitivity; [exact Heq3|]. rewrite (proj2 (Z.eqb_neq rid VDFS2_INVALID_NODE_ID)) by done. pose proof Hc2 as (c2 & ? & ? & Hc2' & _).
      rewrite (bt_step _ _ _ _ _ (get_bnode_Ret t3 rid c2 (eo_answers _ _ He3) (fr_ids _ _ _ _ _ Hf3 rid Hrid) Hc2')). cbn iota. exact Heq4. }
    rewrite (bt_step _ _ _ _ _ Hfill). change (negb (0 =? 0)) with false. cbn iota.
    rewrite (bt_step height _ t4 (btree_height t4) t4 eq_refl). destruct (fr_root _ _ _ _ _ Hf4) as [_ Hhe4]. rewrite Hhe4.
    unfold u16. rewrite Z.mod_small by lia. reflexivity.
  - intros i Hi. split; [|by apply (fr_ids _ _ _ _ _ Hf4)]. cbn [store set_root]. apply (fr_store _ _ _ _ _ Hf4); [done|].
    intros Hin. cbn in Hin. apply list_elem_of_singleton in Hin as ->. done.
  - assert (Hxy : comp_fn i1 i2 < 0).
    { pose proof (lo_sorted _ _ _ _ _ Hlo) as Hs. rewrite Hrecs in Hs. apply sorted_first in Hs as [_ Hs]. apply Forall_app in Hs as [_ Hs]. apply Forall_cons in Hs as [Hs _].
      pose proof (comp_eq_l i1 x i2 Hv1 (nr_valid _ _ _ _ Hnx) Hv2 Hx1). pose proof (comp_eq_r i2 y x Hv2 (nr_valid _ _ _ _ Hny) (nr_valid _ _ _ _ Hnx) Hy2). lia. }
    split; [apply level_ok_intro| |].
    + cbn [seg fst snd last_id first_id]. split; [exact Hh4|done].
    + by repeat constructor.
    + assert (Hri : recs [(nr, [i1; i2])] = [i1; i2]) by done. rewrite Hri.
      split; [by rewrite !Forall_cons|]. split; [|by rewrite !Forall_cons]. rewrite !sorted_first, !Forall_cons. split_and!; (done || constructor).
    + constructor; [|done]. apply (fr_ids _ _ _ _ _ (frame_refl N [] t4 (fr_env _ _ _ _ _ Hf4))). clear -Hf1 Hnr. destruct Hnr as [? [? ?]]. split; [|split]; cbn; done.
    + apply NoDup_singleton.
  - unfold BtreeSpec.index_ok. cbn. by repeat constructor.
Qed.
End root.
