(* ===== verification/BtreeTodo.v ===== *)
(** * The levels above a split node: [do_todo] makes a whole tree of them again *)
From Stdlib Require Import ZArith Lia.
From stdpp Require Import base numbers list sets gmap.
From S2P Require Import Prelude Bits BitsFacts Bytes BtreeNode BtreeNodeFacts BtreeNodeOps Bnode BnodeIds Btree BtreeKeys BtreeSpec BtreeFind.
From S2P Require Import BtreeInsert BtreePlace BtreeGrow BtreeRoot.

Lemma tree_ids_app a b : tree_ids (a ++ b) = tree_ids a ++ tree_ids b.
Proof. unfold tree_ids. by rewrite map_app, concat_app. Qed.

Lemma tree_ids_cons l b : tree_ids (l :: b) = level_ids l ++ tree_ids b.
Proof. done. Qed.

Section todo.
Context `{HS : !BitSearch} `{HBL : !BitSearchLaws}.
Context (N : Z) (mf : bool) (max_key_len : Z) (comp_fn : list Z -> list Z -> Z) (key_ok valid_key : list Z -> Prop).
Context `{HK : !KeyLaws comp_fn key_ok valid_key max_key_len} (HN : 128 <= N < 65536).

Abbreviation level_at := (level_at N comp_fn valid_key).
Abbreviation level_ok := (level_ok N comp_fn valid_key).
Abbreviation tree_ok := (tree_ok N comp_fn valid_key).
Abbreviation index_ok := (index_ok comp_fn).
Abbreviation linked := (linked comp_fn).
Abbreviation path_ok := (path_ok comp_fn).

(** ** Levels and trees *)

Lemma tree_levels t levels : tree_ok t levels -> Forall (level_at t) levels.
Proof using Type.
  intros Ht. pose proof (to_levels _ _ _ _ _ Ht) as Hl. pose proof (to_ids _ _ _ _ _ Ht) as Hi. pose proof (to_nodup _ _ _ _ _ Ht) as Hn. clear Ht.
  induction levels as [|l levels IH]; [constructor|]. rewrite tree_ids_cons in Hi, Hn. apply Forall_cons in Hl as [Hl Hls]. apply Forall_app in Hi as [Hi His].
  apply NoDup_app in Hn as (Hn & _ & Hns). constructor; [by split|auto].
Qed.

Lemma tree_intro t levels :
  env_ok N t -> Forall (level_at t) levels -> NoDup (tree_ids levels) -> linked levels ->
  (exists v, last levels = Some [v] /\ v.1 = root_bnode_id t) -> btree_height t = Z.of_nat (length levels) /\ btree_height t < 2 ^ 15 ->
  tree_ok t levels.
Proof using Type.
  intros He Hl Hn Hlk Hr Hh. split; try done.
  - clear -Hl. induction Hl as [|l levels [_ Hi _] _ IH]; [constructor|]. rewrite tree_ids_cons. by apply Forall_app.
  - eapply Forall_impl; [exact Hl|]. by intros l [].
Qed.

Lemma level_at_keep t t' m : (forall i, id_ok t i -> i ∈ level_ids m -> store t' !! i = store t !! i /\ id_ok t' i) -> level_at t m -> level_at t' m.
Proof using Type.
  intros Hk [[H1 H2 H3 H4 H5] Hids Hnd]. rewrite Forall_forall in Hids. split; [split| |]; try done.
  - apply (seg_frame N (store t)); [|done]. intros id Hid. apply Hk; auto.
  - apply Forall_forall. intros id Hid. apply Hk; auto.
Qed.

Lemma levels_at_frame t t' u k ms :
  frame N u k t t' -> (forall i, i ∈ tree_ids ms -> i ∉ level_ids u) -> Forall (level_at t) ms -> Forall (level_at t') ms.
Proof using Type.
  intros Hf Hd H. rewrite Forall_forall in *. intros m Hm. apply (level_at_keep t); [|auto]. intros i Hi Hin.
  split; [|by apply (fr_ids _ _ _ _ _ Hf)]. apply (fr_store _ _ _ _ _ Hf); [done|]. apply Hd. unfold tree_ids. apply elem_of_concat.
  exists (level_ids m). split; [|done]. apply list_elem_of_fmap. by exists m.
Qed.

Lemma linked_join low l u us : linked (low ++ [l]) -> index_ok u l -> linked (u :: us) -> linked (low ++ l :: u :: us).
Proof using Type.
  intros Hlow Hix Hus. clear HN. induction low as [|a low IH]; [done|]. destruct low as [|b low]; cbn in *; [tauto|]. destruct Hlow as [? Hlow]. split; [done|]. by apply IH.
Qed.

Lemma linked_tail u us : linked (u :: us) -> linked us /\ match us with [] => True | w :: _ => index_ok w u end.
Proof using Type. destruct us as [|w us]; [done|]. by intros [? ?]. Qed.

Lemma linked_prefix a b : linked (a ++ b) -> linked a.
Proof using Type.
  induction a as [|x a IH]; [done|]. destruct a as [|y a]; [done|]. cbn. intros [? H]. split; [done|]. by apply IH.
Qed.

Lemma last_cons_app {A} (low : list A) l us : last (low ++ l :: us) = match us with [] => Some l | _ => last us end.
Proof using Type. rewrite last_app, last_cons. by destruct us as [|x us]; [|destruct (last (x :: us)) eqn:He; [|apply last_None in He]]. Qed.

(** ** A tree whose level [l] has a node without an index record *)

Record split_tree (t : vdfs2_btree) (low : list (list view)) (L1 : list view) (id : Z) (X : list (list Z)) (rid : Z) (Y : list (list Z)) (L2 : list view)
    (us : list (list view)) (key : list Z) (st : list (Z * Z * Z)) : Prop := {
  st_env : env_ok N t;
  st_levels : Forall (level_at t) (low ++ (L1 ++ (id, X) :: (rid, Y) :: L2) :: us);
  st_nodup : NoDup (tree_ids (low ++ (L1 ++ (id, X) :: (rid, Y) :: L2) :: us));
  st_low : linked (low ++ [L1 ++ (id, X) :: (rid, Y) :: L2]);
  st_right : Y <> [];
  st_up : match us with
          | [] => L1 = [] /\ L2 = [] /\ root_bnode_id t = id
          | u :: _ => index_ok u (L1 ++ (id, X) :: L2) /\ linked us /\ exists v, last us = Some [v] /\ v.1 = root_bnode_id t
          end;
  st_path : path_ok key (Z.of_nat (length low) + 2) (Some id) us st;
  st_height : btree_height t = Z.of_nat (length low + S (length us)) /\ btree_height t + 1 < 2 ^ 15;
  st_free : Z.of_nat (length us) + 1 <= free_num (ids t);
}.

Definition item_of (us : list (list view)) (st : list (Z * Z * Z)) : option (list (Z * Z * Z)) := match us with [] => None | _ => Some st end.

(** The root was split. *)
Lemma todo_root t low id X rid Y key st fuel :
  split_tree t low [] id X rid Y [] [] key st ->
  exists t' us', do_todo N mf max_key_len comp_fn (S fuel) [(None, rid, root_bnode_id t)] t = Ret (tt, t') /\
    tree_ok t' (low ++ [(id, X); (rid, Y)] :: us') /\ forall i, i ∈ tree_ids (low ++ [[(id, X); (rid, Y)]]) -> store t' !! i = store t !! i.
Proof using HK HN HBL.
  intros [He Hl Hn Hlow _ (_ & _ & Hroot) _ [Hh1 Hh2] Hfree]. cbn [app length] in *. set (l := [(id, X); (rid, Y)]) in *.
  pose proof Hl as Hl0. apply Forall_app in Hl0 as [_ Hl0]. apply Forall_cons in Hl0 as [Hl0 _].
  destruct (build_new_root_ok N mf max_key_len comp_fn key_ok valid_key HN t id X rid Y He Hl0 Hroot ltac:(lia) ltac:(lia))
    as (t' & nr & i1 & i2 & Heq & He' & Hkeep & Hnr & Hla & Hix & Hr' & Hh').
  exists t', [[(nr, [i1; i2])]]. rewrite Hroot.
  assert (Hall : forall i, i ∈ tree_ids (low ++ [l]) -> id_ok t i).
  { intros i Hi. unfold tree_ids in Hi. apply elem_of_concat in Hi as (x & Hx & Hi). apply list_elem_of_fmap in Hx as (m & -> & Hm).
    rewrite Forall_forall in Hl. destruct (Hl m Hm) as [_ Hids _]. rewrite Forall_forall in Hids. auto. }
  split; [|split; [|intros i Hi; apply Hkeep; by apply Hall]].
  - cbn [do_todo]. unfold place_index_record. cbn iota.
    assert (Hb : (e ← build_new_root N mf max_key_len id; mret (e, @nil (option (list (Z * Z * Z)) * Z * Z))) t = Ret (0, [], t')) by (by rewrite (bt_step _ _ _ _ _ Heq)).
    rewrite (bt_step _ _ _ _ _ Hb). cbv beta iota. by destruct fuel.
  - apply tree_intro; [done| | | | |].
    + rewrite (cons_middle l), app_assoc. apply Forall_app. split; [|by constructor]. eapply Forall_impl; [exact Hl|].
      intros m Hm. apply (level_at_keep t); [|done]. intros i Hi _. by apply Hkeep.
    + rewrite (cons_middle l), app_assoc, tree_ids_app. apply NoDup_app. split; [done|]. split; [|apply NoDup_singleton].
      intros i Hi Hin. cbn in Hin. apply list_elem_of_singleton in Hin as ->. by apply Hnr, Hall.
    + by apply linked_join.
    + exists (nr, [i1; i2]). by rewrite last_cons_app.
    + rewrite length_app. cbn [length]. lia.
Qed.

Lemma path_parent t key lv c u us uid upos lev st :
  path_ok key lv c (u :: us) ((uid, upos, lev) :: st) -> btree_height t + 1 = lv + Z.of_nat (length us) + 1 ->
  forall t', btree_height t' = btree_height t -> parent_data ((uid, upos, lev) :: st) t' = Ret (item_of us st, t').
Proof using Type.
  intros (-> & _ & Hst) Hh t' Ht'. unfold parent_data. rewrite (bt_step height _ t' (btree_height t') t' eq_refl).
  destruct us as [|w us]; cbn [length] in Hh.
  - by rewrite (proj2 (Z.eqb_eq lv (btree_height t'))) by lia.
  - rewrite (proj2 (Z.eqb_neq lv (btree_height t'))) by lia. by destruct st.
Qed.

Lemma nodup_apart low u us : NoDup (tree_ids (low ++ u :: us)) ->
  forall i, i ∈ tree_ids low \/ i ∈ tree_ids us -> i ∉ level_ids u.
Proof using Type.
  rewrite tree_ids_app, tree_ids_cons. intros Hn i Hi Hin. apply NoDup_app in Hn as (_ & Hd & Hn). apply NoDup_app in Hn as (_ & Hd2 & _).
  destruct Hi as [Hi|Hi]; [by apply (Hd i Hi), elem_of_app; left|by apply (Hd2 i Hin)].
Qed.

(** One level up: the level grows by the index record. *)
Lemma levels_replace t t' low u u' us new :
  Forall (level_at t) (low ++ u :: us) -> NoDup (tree_ids (low ++ u :: us)) -> frame N u 1 t t' -> level_at t' u' ->
  (forall i, i ∈ level_ids u' -> i ∈ level_ids u \/ new = Some i /\ ~ id_ok t i) ->
  Forall (level_at t') (low ++ u' :: us) /\ NoDup (tree_ids (low ++ u' :: us)) /\ forall i, i ∈ tree_ids low -> store t' !! i = store t !! i.
Proof using HN.
  intros Hl Hn Hf Hu' Hids. pose proof (nodup_apart low u us Hn) as Hap.
  assert (Hall : forall i, i ∈ tree_ids low \/ i ∈ tree_ids us -> id_ok t i).
  { intros i Hi. assert (Hin : exists m, m ∈ low ++ u :: us /\ i ∈ level_ids m).
    { unfold tree_ids in Hi. rewrite !elem_of_concat in Hi. destruct Hi as [(x & Hx & Hi)|(x & Hx & Hi)];
        apply list_elem_of_fmap in Hx as (m & -> & Hm); exists m; rewrite elem_of_app, elem_of_cons; tauto. }
    destruct Hin as (m & Hm & Hi'). rewrite Forall_forall in Hl. destruct (Hl m Hm) as [_ H _]. rewrite Forall_forall in H. auto. }
  apply Forall_app in Hl as [Hlow Hl]. apply Forall_cons in Hl as [_ Hus]. split; [|split].
  - apply Forall_app. split; [apply (levels_at_frame t t' u 1); auto|]. constructor; [done|]. apply (levels_at_frame t t' u 1); auto.
  - rewrite tree_ids_app, tree_ids_cons in Hn |- *. apply NoDup_app in Hn as (H1 & H2 & H3). apply NoDup_app in H3 as (H3 & H4 & H5).
    apply NoDup_app. split; [done|]. split.
    + intros i Hi. specialize (H2 i Hi). rewrite not_elem_of_app in H2 |- *. destruct H2. split; [|done]. intros [?|[_ Hno]]%Hids; [done|].
      apply Hno, Hall. by left.
    + apply NoDup_app. split; [apply Hu'|]. split; [|done]. intros i [?|[_ Hno]]%Hids; [by apply H4|]. intros Hi. apply Hno, Hall. by right.
  - intros i Hi. apply (fr_store _ _ _ _ _ Hf); [apply Hall; by left|apply Hap; by left].
Qed.

Lemma todo_ok us : forall t low L1 id X rid Y L2 key st fuel,
  split_tree t low L1 id X rid Y L2 us key st -> (length us < fuel)%nat ->
  let l := L1 ++ (id, X) :: (rid, Y) :: L2 in
  exists t' us', do_todo N mf max_key_len comp_fn fuel [(item_of us st, rid, root_bnode_id t)] t = Ret (tt, t') /\
    tree_ok t' (low ++ l :: us') /\ forall i, i ∈ tree_ids (low ++ [l]) -> store t' !! i = store t !! i.
Proof using HK HN HBL.
  induction us as [|u us IH]; intros t low L1 id X rid Y L2 key st fuel Hs Hfuel l; (destruct fuel as [|fuel]; [lia|]).
  - pose proof (st_up _ _ _ _ _ _ _ _ _ _ _ Hs) as (-> & -> & _). by apply (todo_root t low id X rid Y key st fuel).
  - pose proof Hs as [He Hl Hn Hlow HY (Hix & Hlk & v & Hv & Hroot) Hpath [Hh1 Hh2] Hfree]. fold l in Hl, Hn, Hlow. cbn [length] in *.
    destruct st as [|[[uid upos] lev] st]; [done|]. pose proof Hpath as (_ & (ru & Hloc & Hval) & Hpath').
    destruct Y as [|k Y]; [done|].
    assert (Hl' : Forall (level_at t) ((low ++ [l]) ++ u :: us)) by (by rewrite <-app_assoc).
    assert (Hn' : NoDup (tree_ids ((low ++ [l]) ++ u :: us))) by (by rewrite <-app_assoc).
    pose proof Hl' as Hll. apply Forall_app in Hll as [Hll Hu]. apply Forall_app in Hll as [_ Hll]. apply Forall_cons in Hll as [Hll _].
    apply Forall_cons in Hu as [Hu _].
    pose proof (path_parent t key _ (Some id) u us uid upos lev st Hpath ltac:(lia)) as Hparent.
    destruct (index_step N mf max_key_len comp_fn key_ok valid_key HN t u id X rid k Y L1 L2 key uid upos ru lev st (item_of us st) (root_bnode_id t)
      He Hu Hll Hix Hloc (Hval id eq_refl) ltac:(lia) Hparent)
      as (U1 & us1 & us2 & U2 & lv & new & x & todo' & t1 & Hueq & Hg & Heq & Hf & Hla & Hixu & Htodo).
    destruct (fr_root _ _ _ _ _ Hf) as [Hr1 Hhe1]. pose proof (fr_free _ _ _ _ _ Hf) as Hfr1.
    assert (Hids : forall i, i ∈ level_ids (lv x) -> i ∈ level_ids u \/ new = Some i /\ ~ id_ok t i).
    { intros i Hi. rewrite (growth_ids _ _ _ _ _ _ _ _ x Hg) in Hi. rewrite Hueq. unfold level_ids. rewrite map_app. cbn [map fst].
      rewrite !elem_of_app, elem_of_cons in *. cbn in Hi. destruct new as [rid'|]; [|tauto]. destruct Htodo as [Hno _].
      rewrite elem_of_app, list_elem_of_singleton in Hi. naive_solver. }
    destruct (levels_replace t t1 (low ++ [l]) u (lv x) us new Hl' Hn' Hf Hla Hids) as (Hl1 & Hn1 & Hkeep1).
    destruct (linked_tail u us Hlk) as [Hlkus Hixus].
    assert (Hlow' : linked ((low ++ [l]) ++ [lv x])) by (rewrite <-app_assoc; by apply linked_join).
    assert (Hdo : do_todo N mf max_key_len comp_fn (S fuel) [(item_of (u :: us) ((uid, upos, lev) :: st), rid, root_bnode_id t)] t =
      do_todo N mf max_key_len comp_fn fuel todo' t1) by (cbn [do_todo item_of]; by rewrite (bt_step _ _ _ _ _ Heq)).
    rewrite Hdo. destruct new as [rid'|].
    + destruct Htodo as [Hno ->].
      assert (Hgx : exists X' Y', lv x = U1 ++ (uid, X') :: (rid', Y') :: U2 /\ Y' <> [] /\
        match us with [] => True | w :: _ => index_ok w (U1 ++ (uid, X') :: U2) end).
      { destruct us as [|w us]; [|rewrite Hueq in Hixus; destruct (growth_index _ w U1 uid us1 ru us2 U2 lv _ x Hixus Hg) as (X' & Y' & ? & _ & ? & ?); by exists X', Y'].
        inversion Hg as [|r'' X' Y' HXY HX' HY' Hlv Hnew]; subst. by exists (X' x), (Y' x). }
      destruct Hgx as (X' & Y' & Hlvx & HY' & Hw). rewrite Hlvx in Hl1, Hn1, Hlow', Hixu.
      destruct (IH t1 (low ++ [l]) U1 uid X' rid' Y' U2 key st fuel) as (t2 & us' & Hdo2 & Hok & Hkeep2); [|lia|].
      { split; try done.
        - apply Hf.
        - destruct us as [|w us].
          + cbn in Hv. rewrite Hueq in Hv. injection Hv as Hv. apply app_singleton in Hv as [[-> Hv]|[_ Hv]]; [|done]. injection Hv as <- ->.
            cbn in Hroot. by rewrite Hr1.
          + split; [done|]. split; [done|]. exists v. split; [done|]. by rewrite Hr1.
        - rewrite length_app. cbn [length]. replace (Z.of_nat (length low + 1) + 2) with (Z.of_nat (length low) + 2 + 1) by lia. done.
        - rewrite length_app. cbn [length]. lia.
        - lia. }
      rewrite <-Hr1. exists t2, ((U1 ++ (uid, X') :: (rid', Y') :: U2) :: us'). split; [exact Hdo2|]. rewrite <-app_assoc in Hok. split; [exact Hok|].
      intros i Hi. rewrite Hkeep2; [by apply Hkeep1|]. rewrite tree_ids_app. apply elem_of_app. by left.
    + subst todo'. exists t1, (lv x :: us). split; [by destruct fuel|]. split; [|done].
      rewrite <-app_assoc in Hl1, Hn1. apply tree_intro; [apply Hf|done|done| | |].
      * apply linked_join; [done|done|]. destruct us as [|w us]; [done|]. split; [|done].
        rewrite Hueq in Hixus. by apply (growth_index _ w U1 uid us1 ru us2 U2 lv None x).
      * rewrite Hr1. destruct us as [|w us]; [|exists v; split; [|done]; by rewrite !last_cons_app].
        cbn in Hv. rewrite Hueq in Hv. injection Hv as Hv. apply app_singleton in Hv as [[-> Hv]|[_ Hv]]; [|done]. injection Hv as <- ->.
        inversion Hg; subst. exists (uid, us1 ++ ru :: x :: us2). split; [|done]. by rewrite last_cons_app.
      * rewrite Hhe1, length_app. cbn [length]. lia.
Qed.
End todo.
