(* ===== verification/BtreeTree.v ===== *)
(** * [vdfs2_btree_insert] on a whole tree *)
From Stdlib Require Import ZArith Lia.
From stdpp Require Import base numbers list sets gmap.
From S2P Require Import Prelude Bits BitsFacts Bytes BtreeNode BtreeNodeFacts BtreeNodeOps Bnode BnodeIds Btree BtreeKeys BtreeSpec BtreeFind BtreeLookup.
From S2P Require Import BtreeInsert BtreePlace BtreeGrow BtreeRoot BtreeTodo.

Section insert.
Context `{HS : !BitSearch} `{HBL : !BitSearchLaws}.
Context (N : Z) (mf : bool) (max_key_len : Z) (comp_fn : list Z -> list Z -> Z) (key_ok valid_key : list Z -> Prop).
Context `{HK : !KeyLaws comp_fn key_ok valid_key max_key_len} (HN : 128 <= N < 65536).

Abbreviation level_at := (level_at N comp_fn valid_key).
Abbreviation tree_ok := (tree_ok N comp_fn valid_key).
Abbreviation new_record := (new_record N valid_key).
Abbreviation insert := (vdfs2_btree_insert N mf max_key_len comp_fn).

(** A record to be inserted: all its bytes are there. *)
Definition good_record (r : list Z) : Prop := new_record r (VDFS2_RECORD_LEN r) /\ VDFS2_RECORD_LEN r = Z.of_nat (length r).

Lemma with_value_same key r0 :
  good_record key -> stands_for key (VDFS2_RECORD_LEN key) r0 ->
  with_value r0 (bytes_at key (VDFS2_KEY_LEN key) (VDFS2_RECORD_LEN key - VDFS2_KEY_LEN key)) = key.
Proof using HK.
  intros [Hnew Hlen] Hst. destruct (stands_for_facts N max_key_len comp_fn key_ok valid_key key _ r0 Hnew Hst) as (_ & _ & _ & Hkl & _).
  destruct Hst as [_ [_ Hk]]. pose proof (nr_req _ _ _ _ Hnew) as [Hb Hmin Hav _ _]. unfold GENERIC_KEY_SIZE in Hmin. unfold with_value. rewrite Hkl, Hk.
  assert (Hput : put_bytes (bytes_at key 0 (VDFS2_KEY_LEN key)) 8 (le32_bytes (VDFS2_RECORD_LEN key)) = bytes_at key 0 (VDFS2_KEY_LEN key)).
  { assert (Hle : VDFS2_RECORD_LEN key = le32_at (bytes_at key 0 (VDFS2_KEY_LEN key)) 8).
    { unfold VDFS2_RECORD_LEN, le32_at. rewrite bytes_at_nested by lia. done. }
    rewrite Hle. apply put_le32_same; [by apply bytes_bytes_at|lia|rewrite length_bytes_at; lia]. }
  rewrite Hput, Hlen. unfold bytes_at. change (Z.to_nat 0) with 0%nat. rewrite drop_0.
  rewrite (firstn_all2 (drop _ key)) by (rewrite length_drop; lia). apply take_drop.
Qed.

(** The value is written when the levels above are in order. *)
Lemma finish_ok t lv nid p us key L r0 bs :
  tree_ok t (lv r0 :: us) -> sits lv nid p -> new_record key L -> stands_for key L r0 -> VDFS2_KEY_LEN key + Z.of_nat (length bs) = L -> Forall is_byte bs ->
  exists off t', value_of N mf max_key_len nid p t = Ret (off, t) /\ write_at nid off bs t = Ret (tt, t') /\ tree_ok t' (lv (with_value r0 bs) :: us).
Proof using HK HN.
  intros Ht Hsit Hnew Hst Hl Hb. pose proof (tree_levels _ _ _ _ _ Ht) as Hls. pose proof (to_nodup _ _ _ _ _ Ht) as Hnd.
  pose proof Hls as Hls'. apply Forall_cons in Hls' as [Hla Hus].
  destruct (write_level_ok N mf max_key_len comp_fn key_ok valid_key HN t lv nid p key L r0 bs (to_env _ _ _ _ _ Ht) Hla Hsit Hnew Hst Hl Hb)
    as (off & t' & Hval & Hw & Hf & _ & Hla' & Hst1).
  exists off, t'. split; [done|]. split; [done|].
  assert (Hids : level_ids (lv (with_value r0 bs)) = level_ids (lv r0)).
  { destruct Hsit as (M1 & s1 & s2 & M2 & _ & Hlv). rewrite !Hlv. unfold level_ids. by rewrite !map_app. }
  destruct (levels_replace N comp_fn valid_key HN t t' [] (lv r0) (lv (with_value r0 bs)) us None Hls Hnd) as (Hls1 & Hnd1 & _).
  { by apply (frame_weaken N (lv r0) (lv r0) 0 1). } { done. } { intros i Hi. left. by rewrite <-Hids. }
  destruct (fr_root _ _ _ _ _ Hf) as [Hr Hh]. apply tree_intro; [apply Hf|done|done| | |].
  - pose proof (to_linked _ _ _ _ _ Ht) as Hlk. destruct us as [|u us]; [done|]. destruct Hlk as [Hix Hlk]. split; [|done].
    apply Forall_cons in Hus as [Hu _].
    by apply (index_ok_replace N max_key_len comp_fn key_ok valid_key u lv nid p key L r0 _ (lo_valid _ _ _ _ _ (la_ok _ _ _ _ _ Hu)) Hix Hsit).
  - destruct (to_root _ _ _ _ _ Ht) as (v & Hv & Hid). rewrite Hr. destruct us as [|u us]; [|by exists v].
    cbn in Hv. injection Hv as Hv. destruct Hsit as (M1 & s1 & s2 & M2 & _ & Hlv). rewrite Hlv in Hv |- *.
    apply app_singleton in Hv as [[-> Hv]|[_ Hv]]; [|done]. injection Hv as <- ->. by exists (nid, s1 ++ with_value r0 bs :: s2).
  - rewrite Hh. apply (to_height _ _ _ _ _ Ht).
Qed.

Definition room_for_insert (t : vdfs2_btree) : Prop := btree_height t + 1 < 2 ^ 15 /\ btree_height t + 1 <= free_num (ids t).

(** The levels above a leaf level that got a record. *)
Lemma levels_above t t1 L1 id rs1 r rs2 L2 lv new r0 us key st :
  tree_ok t ((L1 ++ (id, rs1 ++ r :: rs2) :: L2) :: us) -> growth L1 id rs1 r rs2 L2 lv new -> frame N (L1 ++ (id, rs1 ++ r :: rs2) :: L2) 1 t t1 ->
  Forall (level_at t1) (lv r0 :: us) -> NoDup (tree_ids (lv r0 :: us)) -> path_ok comp_fn key 2 (Some id) us st -> room_for_insert t ->
  exists t2 us', do_todo N mf max_key_len comp_fn (S (S (Z.to_nat (btree_height t))))
      (match new with None => [] | Some rid => [(item_of us st, rid, root_bnode_id t)] end) t1 = Ret (tt, t2) /\ tree_ok t2 (lv r0 :: us').
Proof using HK HN HBL.
  intros Ht Hg Hf Hl Hn Hpath [Hh Hfree]. destruct (to_height _ _ _ _ _ Ht) as [Hht _]. cbn [length] in Hht.
  destruct (fr_root _ _ _ _ _ Hf) as [Hr1 Hh1]. pose proof (fr_free _ _ _ _ _ Hf) as Hfr1. pose proof (to_linked _ _ _ _ _ Ht) as Hlk.
  destruct (to_root _ _ _ _ _ Ht) as (v & Hv & Hroot).
  assert (Hsingle : us = [] -> L1 = [] /\ L2 = [] /\ root_bnode_id t = id).
  { intros ->. cbn in Hv. injection Hv as Hv. apply app_singleton in Hv as [[-> Hv]|[_ Hv]]; [|done]. injection Hv as <- ->. by rewrite <-Hroot. }
  destruct new as [rid|].
  - assert (Hgx : exists X Y, lv r0 = L1 ++ (id, X) :: (rid, Y) :: L2 /\ Y <> [] /\
      match us with [] => True | w :: _ => index_ok comp_fn w (L1 ++ (id, X) :: L2) end).
    { destruct us as [|w us].
      - inversion Hg as [|r'' X Y HXY HX HY Hlv Hnew]; subst. by exists (X r0), (Y r0).
      - destruct Hlk as [Hix _]. destruct (growth_index comp_fn w L1 id rs1 r rs2 L2 lv _ r0 Hix Hg) as (X & Y & ? & _ & ? & ?). by exists X, Y. }
    destruct Hgx as (X & Y & Hlv & HY & Hw). rewrite Hlv in Hl, Hn |- *. rewrite <-Hr1.
    destruct (todo_ok N mf max_key_len comp_fn key_ok valid_key HN us t1 [] L1 id X rid Y L2 key st (S (S (Z.to_nat (btree_height t))))) as (t2 & us' & Hdo & Hok & _).
    + split; try done; [apply Hf| |cbn [length]; lia|lia]. destruct us as [|w us]; [destruct (Hsingle eq_refl) as (? & ? & ?); split_and!; congruence|].
      split; [done|]. destruct Hlk as [_ Hlk]. split; [done|]. exists v. split; [done|congruence].
    + lia.
    + by exists t2, us'.
  - exists t1, us. split; [done|]. apply tree_intro; [apply Hf|done|done| | |rewrite Hh1; cbn [length]; lia].
    + destruct us as [|w us]; [done|]. destruct Hlk as [Hix Hlk]. split; [|done]. by apply (growth_index comp_fn w L1 id rs1 r rs2 L2 lv None r0).
    + rewrite Hr1. destruct us as [|w us]; [|by exists v]. destruct (Hsingle eq_refl) as (-> & -> & Hid). inversion Hg; subst. by exists (root_bnode_id t, rs1 ++ r :: r0 :: rs2).
Qed.

(** Place, index records, new root. *)
Lemma place_data_ok t l0 us id pos r key :
  tree_ok t (l0 :: us) -> room_for_insert t -> good_record key -> located comp_fn key l0 id pos r -> comp_fn r key <> 0 ->
  (exists h, head (recs l0) = Some h /\ comp_fn h key <= 0) ->
  exists lv r0 nid p t' us' a b, vdfs2_btree_place_data N mf max_key_len comp_fn key t = Ret (PTR (nid, p), t') /\ tree_ok t' (lv r0 :: us') /\
    sits lv nid p /\ stands_for key (VDFS2_RECORD_LEN key) r0 /\ recs l0 = a ++ r :: b /\ forall x, recs (lv x) = a ++ r :: x :: b.
Proof using HK HN HBL.
  intros Ht [Hh Hfree] [Hnew Hlen] Hloc Hne Hhd. pose proof (nr_valid _ _ _ _ Hnew) as Hvk.
  destruct (vdfs2_btree_traverse_ok N mf max_key_len comp_fn key_ok valid_key HN t (l0 :: us) key true 0 Ht (kl_ok _ Hvk)) as (l & id' & pos' & r' & stack & Hl & Hloc' & Htr & Hpath);
    [cbn; lia|destruct Hhd as (h & ? & ?); by exists l0, h|].
  injection Hl as <-. destruct (Hpath eq_refl) as [Hpath' Hhead]. cbn [drop] in Hpath'. clear Hpath. rename Hpath' into Hpath.
  assert (Hsame : r' = r).
  { pose proof (located_last comp_fn key l0 _ _ _ Hloc) as H1. pose proof (located_last comp_fn key l0 _ _ _ Hloc') as H2. congruence. }
  subst r'. clear Hloc. pose proof Hloc' as (L1 & rs1 & rs2 & L2 & -> & -> & Hc & Hafter).
  destruct stack as [|s st]; [done|]. injection Hhead as ->. pose proof Hpath as (_ & _ & Hpath').
  pose proof (tree_levels _ _ _ _ _ Ht) as Hls. pose proof (to_nodup _ _ _ _ _ Ht) as Hnd. destruct (to_height _ _ _ _ _ Ht) as [Hht _]. cbn [length] in Hht.
  pose proof Hls as Hls'. apply Forall_cons in Hls' as [Hla Hus]. set (l := L1 ++ (id', rs1 ++ r :: rs2) :: L2) in *.
  assert (Hpl : place_here N comp_fn valid_key t L1 id' rs1 r rs2 L2 key (VDFS2_RECORD_LEN key)).
  { split; [apply Ht|]. split; [done|]. split; [done|]. split; [lia|done]. }
  pose proof (path_parent comp_fn t key (Z.of_nat 0 + 1) None l us id' _ _ st Hpath ltac:(lia)) as Hparent.
  destruct (place_ok N mf max_key_len comp_fn key_ok valid_key HN t L1 id' rs1 r rs2 L2 key _ _ (item_of us st) [] Hpl ltac:(destruct Hh; lia) Hparent)
    as (lv & new & r0 & nid & p & todo' & t1 & Heq1 & Hg & Hsit & Hst & Hf1 & Hla1 & Htodo).
  assert (Hrun : forall t2, do_todo N mf max_key_len comp_fn (S (S (Z.to_nat (btree_height t)))) todo' t1 = Ret (tt, t2) ->
    vdfs2_btree_place_data N mf max_key_len comp_fn key t = Ret (PTR (nid, p), t2)).
  { intros t2 Hdo. unfold vdfs2_btree_place_data, place_data_at_level. change VDFS2_BTREE_LEAF_LVL with (Z.of_nat 0 + 1).
    rewrite (bt_ptr _ _ _ _ _ Htr). cbv beta iota. rewrite (bt_step height _ t (btree_height t) t eq_refl).
    rewrite (bt_step _ _ _ _ _ Heq1). cbv beta iota. by rewrite (bt_step _ _ _ _ _ Hdo). }
  assert (Hrecs : recs l = (recs L1 ++ rs1) ++ r :: rs2 ++ recs L2).
  { unfold l. rewrite recs_app, recs_cons. cbn [snd]. by rewrite <-!app_assoc. }
  assert (Hids : forall i, i ∈ level_ids (lv r0) -> i ∈ level_ids l \/ new = Some i /\ ~ id_ok t i).
  { intros i Hi. rewrite (growth_ids _ _ _ _ _ _ _ _ r0 Hg) in Hi. unfold l, level_ids. rewrite map_app. cbn [map fst].
    rewrite !elem_of_app, elem_of_cons in *. cbn in Hi. destruct new as [rid'|]; [|tauto]. destruct Htodo as [Hno _].
    rewrite elem_of_app, list_elem_of_singleton in Hi. naive_solver. }
  destruct (levels_replace N comp_fn valid_key HN t t1 [] l (lv r0) us new Hls Hnd Hf1 Hla1 Hids) as (Hl1 & Hn1 & _). cbn [app] in Hl1, Hn1.
  assert (Hup : exists t2 us', do_todo N mf max_key_len comp_fn (S (S (Z.to_nat (btree_height t)))) todo' t1 = Ret (tt, t2) /\ tree_ok t2 (lv r0 :: us')).
  { destruct (levels_above t t1 L1 id' rs1 r rs2 L2 lv new r0 us key st Ht Hg Hf1 Hl1 Hn1 Hpath' ltac:(by split)) as (t2 & us' & Hdo & Hok).
    exists t2, us'. split; [|done]. rewrite <-Hdo. f_equal. destruct new as [rid|]; [by destruct Htodo as [_ ->]|by rewrite Htodo]. }
  destruct Hup as (t2 & us' & Hdo & Hok). exists lv, r0, nid, p, t2, us', (recs L1 ++ rs1), (rs2 ++ recs L2).
  split; [by apply Hrun|]. split; [done|]. split; [done|]. split; [done|]. split; [done|]. apply (growth_recs _ _ _ _ _ _ _ _ Hg).
Qed.

(** [place_data_at_level] when the key is there already, or below all others. *)
Lemma place_data_exists t l0 us id pos r key :
  tree_ok t (l0 :: us) -> key_ok key -> located comp_fn key l0 id pos r -> comp_fn r key = 0 -> (exists h, head (recs l0) = Some h /\ comp_fn h key <= 0) ->
  vdfs2_btree_place_data N mf max_key_len comp_fn key t = Ret (ERR_PTR (- EEXIST), t).
Proof using HK HN.
  intros Ht Hk Hloc Heq0 Hhd.
  destruct (vdfs2_btree_traverse_ok N mf max_key_len comp_fn key_ok valid_key HN t (l0 :: us) key true 0 Ht Hk) as (l & id' & pos' & r' & stack & Hl & Hloc' & Htr & _);
    [cbn; lia|destruct Hhd as (h & ? & ?); by exists l0, h|].
  injection Hl as <-. assert (Hsame : r' = r).
  { pose proof (located_last comp_fn key l0 _ _ _ Hloc) as H1. pose proof (located_last comp_fn key l0 _ _ _ Hloc') as H2. congruence. }
  subst r'. destruct (tree_level N comp_fn valid_key t (l0 :: us) 0 l0 Ht eq_refl) as [Hlo _].
  destruct (located_record N comp_fn valid_key HN _ key l0 id' pos' r Hlo Hloc') as (_ & _ & prev & next & rs1 & rs2 & Hh & ->).
  destruct (record_at_holds N mf HN t id' prev next rs1 r rs2 Hh) as [off Hrec]. destruct Hh as (n & F & es & Hn & _).
  unfold vdfs2_btree_place_data, place_data_at_level. change VDFS2_BTREE_LEAF_LVL with (Z.of_nat 0 + 1).
  rewrite (bt_ptr _ _ _ _ _ Htr). cbv beta iota. rewrite (bt_step height _ t (btree_height t) t eq_refl).
  assert (Hplace : place_key_in_bnode N mf comp_fn stack id' (Z.of_nat (length rs1)) key (VDFS2_RECORD_LEN key) [] t = Ret ((ERR_PTR (- EEXIST), []), t)).
  { unfold place_key_in_bnode. rewrite (bt_step _ _ _ _ _ (ask_Ret t (eo_answers _ _ (to_env _ _ _ _ _ Ht)))). change (negb (0 =? 0)) with false. cbn iota.
    rewrite (bt_step _ _ _ _ _ Hrec). cbn iota beta. rewrite (bt_step _ _ _ _ _ (node_Ret id' n t Hn)). by rewrite Heq0. }
  rewrite (bt_step _ _ _ _ _ Hplace). done.
Qed.

Lemma insert_result t key r t' : vdfs2_btree_place_data N mf max_key_len comp_fn key t = Ret (ERR_PTR r, t') -> insert key t = Ret (r, t').
Proof using Type. intros H. unfold vdfs2_btree_insert, btree_insert_at_level. by rewrite (bt_step _ _ _ _ _ H). Qed.

Lemma insert_ok t l0 us id pos r key :
  tree_ok t (l0 :: us) -> room_for_insert t -> good_record key -> located comp_fn key l0 id pos r -> comp_fn r key <> 0 ->
  (exists h, head (recs l0) = Some h /\ comp_fn h key <= 0) ->
  exists t' l0' us' a b, insert key t = Ret (0, t') /\ tree_ok t' (l0' :: us') /\ recs l0 = a ++ r :: b /\ recs l0' = a ++ r :: key :: b.
Proof using HK HN HBL.
  intros Ht Hroom Hgood Hloc Hne Hhd. pose proof Hgood as [Hnew Hlen].
  destruct (place_data_ok t l0 us id pos r key Ht Hroom Hgood Hloc Hne Hhd) as (lv & r0 & nid & p & t1 & us' & a & b & Hpl & Hok & Hsit & Hst & Hrec & Hrecs).
  set (kl := VDFS2_KEY_LEN key). set (bs := bytes_at key kl (VDFS2_RECORD_LEN key - kl)).
  pose proof (nr_req _ _ _ _ Hnew) as [Hb Hmin Hav _ _]. pose proof (nr_value _ _ _ _ Hnew) as Hval. unfold GENERIC_KEY_SIZE in Hmin. fold kl in Hmin, Hav, Hval.
  assert (Hbl : Z.of_nat (length bs) = VDFS2_RECORD_LEN key - kl) by (unfold bs; rewrite length_bytes_at; lia).
  destruct (finish_ok t1 lv nid p us' key _ r0 bs Hok Hsit Hnew Hst) as (off & t2 & Hv & Hw & Hok2); [fold kl; lia|by apply bytes_bytes_at|].
  exists t2, (lv (with_value r0 bs)), us', a, b. split; [|split; [done|split; [done|]]].
  - unfold vdfs2_btree_insert, btree_insert_at_level. rewrite (bt_step _ _ _ _ _ Hpl). cbv beta iota zeta. rewrite (bt_step _ _ _ _ _ Hv).
    unfold get_value_pointer. destruct (kl_len key (nr_valid _ _ _ _ Hnew)) as [[_ Hm] _]. rewrite (proj2 (Z.ltb_ge max_key_len _)) by done. fold kl.
    rewrite (bt_step _ _ _ _ _ (lift_Ret _ _ t1 (mem_read_ok key kl (VDFS2_RECORD_LEN key - kl) ltac:(lia) ltac:(lia) ltac:(lia)))). fold bs.
    by rewrite (bt_step _ _ _ _ _ Hw).
  - rewrite Hrecs. unfold bs, kl. by rewrite (with_value_same key r0 Hgood Hst).
Qed.
End insert.
