(* ===== verification/TreeMap.v ===== *)
(** * The leaf records of a tree as a map from keys

    What the owners of the trees rely on: a search followed by the test of the
    found key is a lookup in the map, an insertion adds one key, and a
    step behind the place of a search gives the first record above the key. *)
From Stdlib Require Import ZArith Lia.
From stdpp Require Import base numbers list sets gmap.
From S2P Require Import Prelude Bits BitsFacts Bytes BtreeNode BtreeNodeFacts BtreeNodeOps Bnode BnodeIds Btree BtreeKeys BtreeSpec BtreeFind BtreeLookup.
From S2P Require Import BtreeInsert BtreeTree.

(** The record with the key, and the first record above it. *)
Definition rec_of (comp_fn : list Z -> list Z -> Z) (key : list Z) (rs : list (list Z)) : option (list Z) :=
  head (filter (fun r => comp_fn r key = 0) rs).
Definition first_above (comp_fn : list Z -> list Z -> Z) (key : list Z) (rs : list (list Z)) : option (list Z) :=
  head (filter (fun r => 0 < comp_fn r key) rs).

Section map.
Context (N : Z) (mf : bool) (max_key_len : Z) (comp_fn : list Z -> list Z -> Z) (key_ok valid_key : list Z -> Prop).
Context `{HK : !KeyLaws comp_fn key_ok valid_key max_key_len} (HN : 128 <= N < 65536).

Abbreviation tree_ok := (tree_ok N comp_fn valid_key).
Abbreviation find := (vdfs2_btree_find N mf max_key_len comp_fn).
Abbreviation rec_of := (rec_of comp_fn).
Abbreviation first_above := (first_above comp_fn).
Abbreviation last_not_above := (last_not_above comp_fn).

(** A list around a key: what is below, equal to and above it. *)
Lemma filter_none (P : list Z -> Prop) `{!forall x, Decision (P x)} rs : Forall (fun x => ~ P x) rs -> filter P rs = [].
Proof using Type. induction 1 as [|x rs Hx _ IH]; [done|]. by rewrite filter_cons_False. Qed.

Lemma filter_all (P : list Z -> Prop) `{!forall x, Decision (P x)} rs : Forall P rs -> filter P rs = rs.
Proof using Type. induction 1 as [|x rs Hx _ IH]; [done|]. by rewrite filter_cons_True, IH. Qed.

Lemma below_all key a r b :
  key_ok key -> Forall valid_key (a ++ r :: b) -> sorted comp_fn (a ++ r :: b) -> comp_fn r key <= 0 -> Forall (fun x => comp_fn x key < 0) a.
Proof using HK.
  intros Hk Hv Hs Hr. apply sorted_app in Hs as (_ & _ & Hs). apply Forall_app in Hv as [Hva Hv]. apply Forall_cons in Hv as [Hvr _].
  rewrite Forall_forall in Hva, Hs |- *. intros x Hx. specialize (Hs x Hx). apply Forall_cons in Hs as [Hxr _].
  by apply (comp_lt_le (key_ok := key_ok) x r key (kl_ok _ (Hva x Hx)) (kl_ok _ Hvr) Hk).
Qed.

Lemma rec_of_split key a r b :
  key_ok key -> Forall valid_key (a ++ r :: b) -> sorted comp_fn (a ++ r :: b) -> comp_fn r key <= 0 -> Forall (fun x => 0 < comp_fn x key) b ->
  rec_of key (a ++ r :: b) = (if comp_fn r key =? 0 then Some r else None) /\ first_above key (a ++ r :: b) = head b /\
  last_not_above key (a ++ r :: b) = Some r.
Proof using HK.
  intros Hk Hv Hs Hr Hb. pose proof (below_all key a r b Hk Hv Hs Hr) as Ha. unfold TreeMap.rec_of, TreeMap.first_above, BtreeLookup.last_not_above.
  rewrite !filter_app. rewrite (filter_none (fun x => comp_fn x key = 0) a), (filter_none (fun x => 0 < comp_fn x key) a).
  2,3: eapply Forall_impl; [exact Ha|]; cbn; intros x Hx; lia.
  split_and!.
  - cbn [app]. destruct (Z.eqb_spec (comp_fn r key) 0) as [He|Hne].
    + by rewrite filter_cons_True.
    + rewrite filter_cons_False by done. rewrite filter_none; [done|]. eapply Forall_impl; [exact Hb|]. cbn. intros x Hx. lia.
  - cbn [app]. rewrite filter_cons_False by lia. by rewrite filter_all.
  - rewrite (filter_cons_True _ r) by done. rewrite (filter_above comp_fn key b Hb). apply last_snoc.
Qed.

(** One more record. *)
Lemma rec_of_insert key a r new b :
  key_ok key -> Forall valid_key (a ++ r :: new :: b) -> sorted comp_fn (a ++ r :: new :: b) ->
  rec_of key (a ++ r :: new :: b) = if comp_fn new key =? 0 then Some new else rec_of key (a ++ r :: b).
Proof using HK.
  intros Hk Hv Hs. unfold TreeMap.rec_of. rewrite (cons_middle r a (new :: b)), (cons_middle r a b), !(app_assoc a), !(filter_app _ (a ++ [r])).
  rewrite (cons_middle r a (new :: b)), (app_assoc a) in Hv, Hs. destruct (Z.eqb_spec (comp_fn new key) 0) as [He|Hne].
  - rewrite (filter_none _ (a ++ [r])); [by rewrite filter_cons_True|]. pose proof (below_all key (a ++ [r]) new b Hk Hv Hs ltac:(lia)) as Ha.
    eapply Forall_impl; [exact Ha|]. cbn. intros x Hx. lia.
  - by rewrite (filter_cons_False _ new).
Qed.

(** ** The search as a lookup *)

Lemma tree_recs t l0 us : tree_ok t (l0 :: us) -> Forall valid_key (recs l0) /\ sorted comp_fn (recs l0).
Proof using Type. intros Ht. destruct (tree_level N comp_fn valid_key t (l0 :: us) 0 l0 Ht eq_refl) as [[_ _ Hv Hs _] _]. done. Qed.

(** A place in the leaf level: the record there and those behind it. *)
Definition at_place (l0 : list view) (id pos : Z) (r : list Z) (rest : list (list Z)) : Prop :=
  exists L1 rs1 rs2 L2, l0 = L1 ++ (id, rs1 ++ r :: rs2) :: L2 /\ pos = Z.of_nat (length rs1) /\ rest = rs2 ++ recs L2.

Lemma at_place_recs l0 id pos r rest : at_place l0 id pos r rest -> exists a, recs l0 = a ++ r :: rest.
Proof using Type.
  intros (L1 & rs1 & rs2 & L2 & -> & _ & ->). exists (recs L1 ++ rs1). rewrite recs_app, recs_cons. cbn [snd]. by rewrite <-!app_assoc.
Qed.

Lemma next_at t l0 us id pos r rest :
  tree_ok t (l0 :: us) -> at_place l0 id pos r rest ->
  match rest with
  | [] => vdfs2_get_next_btree_record N mf id pos t = Ret (ERR_PTR (- ENOENT), t)
  | x :: rest => exists id' pos', vdfs2_get_next_btree_record N mf id pos t = Ret (PTR (id', pos', x), t) /\ at_place l0 id' pos' x rest
  end.
Proof using HN.
  intros Ht (L1 & rs1 & rs2 & L2 & -> & -> & ->). destruct (tree_level N comp_fn valid_key t _ 0 _ Ht eq_refl) as [Hl Hids].
  pose proof (next_record_ok N mf comp_fn valid_key HN t L1 id rs1 r rs2 L2 Hl Hids (eo_answers _ _ (to_env _ _ _ _ _ Ht))) as Hn.
  destruct rs2 as [|x rs2].
  - destruct L2 as [|[id' [|x rs3]] L2]; [done|done|]. exists id', 0. split; [done|]. exists (L1 ++ [(id, rs1 ++ [r])]), [], rs3, L2. by rewrite <-app_assoc.
  - exists id, (Z.of_nat (length rs1) + 1). split; [done|]. exists L1, (rs1 ++ [r]), rs2, L2. rewrite length_app. cbn [length]. split_and!; [by rewrite <-app_assoc|lia|done].
Qed.

Lemma find_at t l0 us key :
  tree_ok t (l0 :: us) -> key_ok key ->
  match last_not_above key (recs l0) with
  | None => find key t = Ret (ERR_PTR (- ENOENT), t) /\ rec_of key (recs l0) = None /\ first_above key (recs l0) = head (recs l0)
  | Some r => exists id pos rest, find key t = Ret (PTR (id, pos, r), t) /\ at_place l0 id pos r rest /\ comp_fn r key <= 0 /\
      first_above key (recs l0) = head rest /\ Forall (fun x => 0 < comp_fn x key) rest /\
      rec_of key (recs l0) = if comp_fn r key =? 0 then Some r else None
  end.
Proof using HK HN.
  intros Ht Hk. destruct (tree_recs t l0 us Ht) as [Hv Hs].
  pose proof (find_last N mf max_key_len comp_fn key_ok valid_key HN t (l0 :: us) l0 key Ht Hk eq_refl) as Hf.
  destruct (last_not_above key (recs l0)) as [r|] eqn:Hl.
  - destruct Hf as (id & pos & (L1 & rs1 & rs2 & L2 & -> & -> & Hc & Hab) & Hf).
    assert (Hr : recs (L1 ++ (id, rs1 ++ r :: rs2) :: L2) = (recs L1 ++ rs1) ++ r :: rs2 ++ recs L2) by (rewrite recs_app, recs_cons; cbn [snd]; by rewrite <-!app_assoc).
    rewrite Hr in Hv, Hs. destruct (rec_of_split key _ r _ Hk Hv Hs Hc Hab) as (H1 & H2 & _).
    exists id, (Z.of_nat (length rs1)), (rs2 ++ recs L2). rewrite Hr. split; [done|]. split; [by exists L1, rs1, rs2, L2|]. done.
  - split; [done|]. destruct (recs l0) as [|h rs] eqn:Hrs; [done|].
    pose proof (last_not_above_None max_key_len comp_fn key_ok valid_key key (h :: rs) h Hk Hv Hs eq_refl) as [Hh _]. specialize (Hh Hl).
    apply Forall_cons in Hv as [Hvh Hv]. apply sorted_first in Hs as [_ Hs]. pose proof (above_sorted (key_ok := key_ok) key h rs Hk Hvh Hv Hh Hs) as Hab.
    assert (Hall : Forall (fun x => 0 < comp_fn x key) (h :: rs)) by (by constructor). unfold TreeMap.rec_of, TreeMap.first_above. split.
    + rewrite filter_none; [done|]. eapply Forall_impl; [exact Hall|]. cbn. intros x Hx. lia.
    + by rewrite filter_all.
Qed.

(** ** Insertion in the map *)

Context `{HS : !BitSearch} `{HBL : !BitSearchLaws}.

Lemma insert_at t l0 us new :
  tree_ok t (l0 :: us) -> good_record N valid_key new -> room_for_insert t ->
  match last_not_above new (recs l0) with
  | None => vdfs2_btree_insert N mf max_key_len comp_fn new t = Ret (- ENOENT, t)
  | Some r =>
      if comp_fn r new =? 0 then vdfs2_btree_insert N mf max_key_len comp_fn new t = Ret (- EEXIST, t)
      else exists t' l0' us' a b, vdfs2_btree_insert N mf max_key_len comp_fn new t = Ret (0, t') /\ tree_ok t' (l0' :: us') /\
        recs l0 = a ++ r :: b /\ recs l0' = a ++ r :: new :: b /\
        forall key, key_ok key -> rec_of key (recs l0') = if comp_fn new key =? 0 then Some new else rec_of key (recs l0)
  end.
Proof using HK HN HBL.
  intros Ht Hgood Hroom. pose proof (kl_ok _ (nr_valid _ _ _ _ (proj1 Hgood))) as Hk. destruct (leaves_nonempty N max_key_len comp_fn key_ok valid_key HN t (l0 :: us) l0 Ht eq_refl) as [h Hh].
  destruct (tree_recs t l0 us Ht) as [Hv Hs]. pose proof (last_not_above_None max_key_len comp_fn key_ok valid_key new (recs l0) h Hk Hv Hs Hh) as Hnone.
  destruct (Z.lt_ge_cases 0 (comp_fn h new)) as [Hlt|Hle].
  - rewrite (proj2 Hnone Hlt). apply insert_result. unfold vdfs2_btree_place_data, place_data_at_level. apply bt_ptr_err.
    by apply (traverse_below N mf max_key_len comp_fn key_ok valid_key HN t (l0 :: us) l0 h).
  - destruct (find_located N mf max_key_len comp_fn key_ok valid_key HN t (l0 :: us) l0 h new Ht Hk eq_refl Hh Hle) as (id & pos & r & Hloc & _).
    rewrite (located_last comp_fn new l0 id pos r Hloc). destruct (Z.eqb_spec (comp_fn r new) 0) as [Hc|Hc].
    + apply insert_result. apply (place_data_exists N mf max_key_len comp_fn key_ok valid_key HN t l0 us id pos r new Ht Hk Hloc Hc). by exists h.
    + destruct (insert_ok N mf max_key_len comp_fn key_ok valid_key HN t l0 us id pos r new Ht Hroom Hgood Hloc Hc) as (t' & l0' & us' & a & b & Hi & Ht' & Hr & Hr'); [by exists h|].
      exists t', l0', us', a, b. split_and!; [done..|]. intros key Hkey. rewrite Hr'. destruct (tree_recs t' l0' us' Ht') as [Hv' Hs']. rewrite Hr' in Hv', Hs'.
      rewrite (rec_of_insert key a r new b Hkey Hv' Hs'). by rewrite Hr.
Qed.
End map.
