(* ===== verification/BtreeExamples.v ===== *)
(** * A tree with two leaves and a root, for the witnesses *)
From Stdlib Require Import ZArith Lia.
From stdpp Require Import base numbers list sets gmap.
From S2P Require Import Prelude Bits BitsFacts Bytes BtreeNode BtreeNodeFacts BtreeNodeOps BtreeBuild Bnode BnodeIds Btree BtreeKeys BtreeSpec BtreeFind BtreeLookup.
From S2P Require Import BtreeInsert BtreePlace BtreeGrow BtreeRoot BtreeTodo BtreeTree.

Definition built_node (N id prev next type : Z) (rs : list (list Z)) : vdfs2_bnode :=
  match build_node N id prev next type rs with Ret n => n | Bug => blank_node N 0 0 0 end.

(** The leaves are the bnodes 2 and 3, the root is bnode 1; ids 4 to 15 are free. *)
Definition example_tree (N : Z) (leaf1 leaf2 root : list (list Z)) : vdfs2_btree :=
  Btree (<[1 := built_node N 1 0 0 VDFS2_NODE_INDEX root]> (<[2 := built_node N 2 0 3 VDFS2_NODE_LEAF leaf1]>
    (<[3 := built_node N 3 2 0 VDFS2_NODE_LEAF leaf2]> ∅))) (BnodeBitmap [15; 0] 16 0 16 4 12) 1 2 3 [].

Definition example_levels (leaf1 leaf2 root : list (list Z)) : list (list view) := [[(2, leaf1); (3, leaf2)]; [(1, root)]].

Lemma holds_built N s id prev next type rs :
  128 <= N < 65536 -> s !! id = Some (built_node N id prev next type rs) -> Forall record_ok_to_store rs -> payload rs <= N - 37 -> holds N s id prev next rs.
Proof.
  intros HN Hs Hrs Hp. destruct (build_node_ok N HN id prev next type rs Hrs ltac:(lia)) as (n & F & Heq & Hn & Hi & Hpv & Hnx & _).
  exists n, F, (entries_from DSCR_SIZE rs). unfold built_node in Hs. rewrite Hs, Heq. rewrite records_from. done.
Qed.

Definition bytes_b (r : list Z) : bool := forallb (fun b => (0 <=? b) && (b <? 256)) r.

Lemma bytes_b_ok r : bytes_b r = true -> Forall is_byte r.
Proof.
  unfold bytes_b. rewrite forallb_forall. intros H. apply Forall_forall. intros x Hx%list_elem_of_In. specialize (H x Hx). unfold is_byte. lia.
Qed.

(** The sizes of a record in a node of [N] bytes. *)
Definition fits_b (N : Z) (r : list Z) : bool :=
  bytes_b r && (VDFS2_RECORD_LEN r =? Z.of_nat (length r)) && (12 <=? Z.of_nat (length r)) && (Z.of_nat (length r) <=? N / 2 - 42) &&
  (VDFS2_KEY_LEN r + 4 <=? Z.of_nat (length r)).

Lemma fits_b_ok N r : fits_b N r = true -> record_ok_to_store r /\ size_ok N r.
Proof.
  unfold fits_b. intros [[[[Hb Hl]%andb_true_iff Hm]%andb_true_iff Hf]%andb_true_iff Hk]%andb_true_iff. apply bytes_b_ok in Hb.
  split; [split; unfold GENERIC_KEY_SIZE; [done|lia]|split; [unfold fits_half|]; lia].
Qed.

Lemma fits_all N rs : forallb (fits_b N) rs = true -> Forall record_ok_to_store rs /\ Forall (size_ok N) rs.
Proof.
  rewrite forallb_forall. intros H. split; apply Forall_forall; intros r Hr%list_elem_of_In; by apply (fits_b_ok N), H.
Qed.

Lemma example_ids_ok N leaf1 leaf2 root : ids_ok (ids (example_tree N leaf1 leaf2 root)).
Proof.
  split; cbn [ids example_tree bits_num bm_data free_num first_free_id]; try (cbn; lia); [by vm_compute| |by vm_compute].
  intros p Hp. assert (p = 0 \/ p = 1 \/ p = 2 \/ p = 3) as [-> | [-> | [-> | ->]]] by lia; by vm_compute.
Qed.

Lemma example_tree_ok N comp_fn valid_key leaf1 leaf2 i1 i2 :
  128 <= N < 65536 -> forallb (fits_b N) (leaf1 ++ leaf2 ++ [i1; i2]) = true ->
  payload leaf1 <= N - 37 -> payload leaf2 <= N - 37 -> payload [i1; i2] <= N - 37 -> leaf1 <> [] -> leaf2 <> [] ->
  Forall valid_key (leaf1 ++ leaf2) -> Forall valid_key [i1; i2] -> sorted comp_fn (leaf1 ++ leaf2) -> sorted comp_fn [i1; i2] ->
  points comp_fn i1 (2, leaf1) -> points comp_fn i2 (3, leaf2) ->
  tree_ok N comp_fn valid_key (example_tree N leaf1 leaf2 [i1; i2]) (example_levels leaf1 leaf2 [i1; i2]).
Proof.
  intros HN Hfit Hp1 Hp2 Hp3 Hn1 Hn2 Hv Hvr Hs Hsr Hi1 Hi2. destruct (fits_all N _ Hfit) as [Hst Hsz].
  apply Forall_app in Hst as [Hs1 Hst], Hsz as [Hz1 Hsz]. apply Forall_app in Hst as [Hs2 Hs3], Hsz as [Hz2 Hz3].
  set (t := example_tree N leaf1 leaf2 [i1; i2]).
  assert (H1 : holds N (store t) 1 0 0 [i1; i2]) by (by apply (holds_built N _ 1 0 0 VDFS2_NODE_INDEX)).
  assert (H2 : holds N (store t) 2 0 3 leaf1) by (by apply (holds_built N _ 2 0 3 VDFS2_NODE_LEAF)).
  assert (H3 : holds N (store t) 3 2 0 leaf2) by (by apply (holds_built N _ 3 2 0 VDFS2_NODE_LEAF)).
  split.
  - split; [done|apply example_ids_ok|done|].
    destruct H1 as (n1 & ? & ? & He1 & Ho1 & _), H2 as (n2 & ? & ? & He2 & Ho2 & _), H3 as (n3 & ? & ? & He3 & Ho3 & _).
    intros id n Hn. unfold t, example_tree in Hn, He1, He2, He3. cbn [store] in *. rewrite !lookup_insert_Some in Hn.
    assert (Hn' : Some n = Some n1 \/ Some n = Some n2 \/ Some n = Some n3).
    { rewrite <-He1, <-He2, <-He3. destruct Hn as [[_ <-]|[_ [[_ <-]|[_ [[_ <-]|[_ Hn]]]]]]; [by left|by right; left|by right; right|by rewrite lookup_empty in Hn]. }
    destruct Hn' as [[= ->]|[[= ->]|[= ->]]]; by eapply node_raw.
  - by apply (bool_decide_unpack _); vm_compute.
  - repeat (constructor; [split; [cbn; lia|split; [cbn; lia|by vm_compute]]|]). constructor.
  - constructor; [|constructor; [|constructor]]; (split; [by repeat split| | | |]); unfold example_levels, recs; cbn [concat map app]; rewrite ?app_nil_r; try done.
    + by repeat constructor.
    + by apply Forall_app.
    + by repeat constructor.
  - split; [|done]. unfold index_ok, recs. cbn [concat map app]. by repeat constructor.
  - by exists (1, [i1; i2]).
  - split; [done|]. cbn. lia.
Qed.
