(* ===== verification/ExtTree.v ===== *)
(** * The extents overflow tree ([extents.c])

    The extents of a file that do not fit in its inode are records of a tree with
    the key (object id, first logical block).  The locks are not modelled. *)
From Stdlib Require Import ZArith Lia.
From stdpp Require Import base numbers list gmap.
From S2P Require Import Prelude Bits Bytes BtreeNode Bnode Btree.

(** ** 64-bit words in records *)

Definition le64_at (d : list Z) (off : Z) : Z := le32_at d off + 2 ^ 32 * le32_at d (off + 4).
Definition le64_bytes (x : Z) : list Z := le32_bytes (x mod 2 ^ 32) ++ le32_bytes (x / 2 ^ 32).

(** ** Keys and records *)

(** sizeof(struct vdfs2_exttree_key), sizeof(struct vdfs2_exttree_lrecord). *)
Definition EXTTREE_KEY_SIZE : Z := 28.
Definition EXTTREE_LRECORD_SIZE : Z := 40.
Definition VDFS2_EXTTREE_KEY_MAGIC : list Z := [69; 120; 116; 75].
Definition IBLOCK_MAX_NUMBER : Z := 4294967294.

Definition key_object_id (r : list Z) : Z := le64_at r 12.
Definition key_iblock (r : list Z) : Z := le64_at r 20.
Definition lextent_begin (r : list Z) : Z := le64_at r 28.
Definition lextent_length (r : list Z) : Z := le32_at r 36.

Record vdfs2_extent_info := ExtentInfo { first_block : Z; iblock : Z; block_count : Z }.

Definition cmp_2_le64 (a b : Z) : Z := if a =? b then 0 else if b <? a then 1 else -1.

Definition vdfs2_exttree_cmpfn (key1 key2 : list Z) : Z :=
  if negb (key_object_id key1 =? key_object_id key2) then cmp_2_le64 (key_object_id key1) (key_object_id key2)
  else cmp_2_le64 (key_iblock key1) (key_iblock key2).

(** [vdfs2_get_exttree_key] and the two fields; the object constructor of the cache
    clears the generic key, which is never written. *)
Definition search_key (object_id iblock : Z) : list Z := replicate 12 0 ++ le64_bytes object_id ++ le64_bytes iblock.

(** The record [vdfs2_exttree_add] builds. *)
Definition exttree_lrecord (object_id : Z) (e : vdfs2_extent_info) : list Z :=
  VDFS2_EXTTREE_KEY_MAGIC ++ le32_bytes EXTTREE_KEY_SIZE ++ le32_bytes EXTTREE_LRECORD_SIZE ++
  le64_bytes object_id ++ le64_bytes (iblock e) ++ le64_bytes (first_block e) ++ le32_bytes (block_count e).

Section exttree.
Context `{HS : !BitSearch}.
Context (node_size : Z) (mf : bool) (max_key_len max_rec_len max_record_len : Z).

(** A place in the tree: bnode, position and record. *)
Abbreviation place := (Z * Z * list Z)%type.

Definition vdfs2_exttree_get_next_record (p : place) : bt (err_ptr place) :=
  let '(bnode, pos, _) := p in vdfs2_get_next_btree_record node_size mf bnode pos.

Definition vdfs2_exttree_find_record_nonstrict (object_id iblock : Z) : bt (err_ptr place) :=
  alloc_mem (vdfs2_btree_find node_size mf max_key_len vdfs2_exttree_cmpfn (search_key object_id iblock)).

Definition vdfs2_exttree_find_record_strict_obj (object_id iblock : Z) : bt (err_ptr place) :=
  '(bnode, pos, record) ←? vdfs2_exttree_find_record_nonstrict object_id iblock;
  if negb (key_object_id record =? object_id) then err (- ENOENT) else ok (bnode, pos, record).

Definition vdfs2_exttree_find_first_record (object_id : Z) : bt (err_ptr place) :=
  '(bnode, pos, record) ←? vdfs2_exttree_find_record_nonstrict object_id 0;
  if key_object_id record =? object_id then ok (bnode, pos, record)
  else
    '(bnode, pos, record) ←? vdfs2_exttree_get_next_record (bnode, pos, record);
    if negb (key_object_id record =? object_id) then err (- ENOENT) else ok (bnode, pos, record).

Definition vdfs2_find_last_extent (object_id : Z) : bt (err_ptr place) :=
  vdfs2_exttree_find_record_strict_obj object_id IBLOCK_MAX_NUMBER.

Definition vdfs2_exttree_remove (object_id iblock : Z) : bt Z :=
  e ← ask;
  if negb (e =? 0) then mret (- ENOMEM)
  else vdfs2_btree_remove node_size mf max_key_len max_rec_len max_record_len vdfs2_exttree_cmpfn (search_key object_id iblock).

Definition vdfs2_exttree_add (object_id : Z) (extent : vdfs2_extent_info) : bt Z :=
  e ← ask;
  if negb (e =? 0) then mret (- ENOMEM)
  else vdfs2_btree_insert node_size mf max_key_len vdfs2_exttree_cmpfn (exttree_lrecord object_id extent).

(** The result and [*result]. *)
Definition vdfs2_exttree_get_extent (object_id iblock : Z) : bt (Z * vdfs2_extent_info) :=
  r ← vdfs2_exttree_find_record_strict_obj object_id iblock;
  match r with
  | ERR_PTR e => mret (e, ExtentInfo 0 0 0)
  | PTR (_, _, record) =>
      let result := ExtentInfo (lextent_begin record) (key_iblock record) (lextent_length record) in
      let first_iblock := key_iblock record in
      let last_iblock := u64 (first_iblock + lextent_length record) in
      mret (if negb ((first_iblock <=? iblock) && (iblock <=? last_iblock)) then - ENOENT else 0, result)
  end.

Definition vdfs2_extree_insert_extent (object_id : Z) (extent : vdfs2_extent_info) : bt Z := vdfs2_exttree_add object_id extent.

(** The block and [*max_blocks], which is only written when a block is found. *)
Definition vdfs2_exttree_get_block (object_id block : Z) : bt (Z * option Z) :=
  '(ret, extent_info) ← vdfs2_exttree_get_extent object_id block;
  if negb (ret =? 0) then mret (0, None)
  else
    let res_block := u64 (first_block extent_info + block - iblock extent_info) in
    mret (res_block, Some (u32 (block_count extent_info - (block - iblock extent_info)))).
End exttree.
