(* ===== verification/ExtTreeFacts.v ===== *)
(** * Facts on the extents tree: the order of its keys, its records *)
From Stdlib Require Import ZArith Lia.
From stdpp Require Import base numbers list sets gmap.
From S2P Require Import Prelude Bits BitsFacts Bytes BtreeNode BtreeNodeFacts BtreeNodeOps Bnode BnodeIds Btree BtreeKeys BtreeSpec BtreeFind BtreeLookup.
From S2P Require Import BtreeInsert BtreeTree ExtTree.

(** ** 64-bit words *)

Lemma byte_lookup l i : Forall is_byte l -> is_byte (l !!! i).
Proof.
  intros Hl. rewrite list_lookup_total_alt. destruct (l !! i) as [b|] eqn:Hb; cbn; [by apply (Forall_lookup_1 _ _ _ _ Hl Hb)|].
  unfold is_byte. vm_compute. split; [discriminate|reflexivity].
Qed.

Lemma le32_at_range d o : Forall is_byte d -> 0 <= le32_at d o < 2 ^ 32.
Proof.
  intros Hb. unfold le32_at, le32_to_cpu. pose proof (bytes_bytes_at d o 4 Hb) as Hby. unfold is_byte in *.
  pose proof (byte_lookup _ 0 Hby) as H0. pose proof (byte_lookup _ 1 Hby) as H1. pose proof (byte_lookup _ 2 Hby) as H2. pose proof (byte_lookup _ 3 Hby) as H3.
  unfold is_byte in *. lia.
Qed.

Lemma le64_at_range d o : Forall is_byte d -> 0 <= le64_at d o < 2 ^ 64.
Proof. intros Hb. unfold le64_at. pose proof (le32_at_range d o Hb). pose proof (le32_at_range d (o + 4) Hb). lia. Qed.

Lemma le64_round x : 0 <= x < 2 ^ 64 -> le64_at (le64_bytes x) 0 = x.
Proof.
  intros Hx. unfold le64_at, le32_at, le64_bytes.
  change (bytes_at _ 0 4) with (le32_bytes (x mod 2 ^ 32)). change (bytes_at _ (0 + 4) 4) with (le32_bytes (x / 2 ^ 32)).
  rewrite !le32_round by lia. lia.
Qed.

Lemma bytes_le64 x : Forall is_byte (le64_bytes x).
Proof. apply Forall_app. split; apply bytes_le32. Qed.

(** Words and bytes at their place in a layout. *)
Lemma le32_at_middle a x b o : o = Z.of_nat (length a) -> 0 <= x < 2 ^ 32 -> le32_at (a ++ le32_bytes x ++ b) o = x.
Proof.
  intros -> Hx. unfold le32_at, bytes_at. rewrite Nat2Z.id, drop_app_length. change (Z.to_nat 4) with (length (le32_bytes x)). rewrite take_app_length. by apply le32_round.
Qed.

Lemma le64_at_middle a x b o : o = Z.of_nat (length a) -> 0 <= x < 2 ^ 64 -> le64_at (a ++ le64_bytes x ++ b) o = x.
Proof.
  intros -> Hx. unfold le64_at, le64_bytes. rewrite <-app_assoc, le32_at_middle by lia.
  rewrite (app_assoc a), le32_at_middle; [lia| |lia]. rewrite length_app, length_le32_bytes. lia.
Qed.

Lemma put_middle a x y b o : o = Z.of_nat (length a) -> length x = length y -> put_bytes (a ++ x ++ b) o y = a ++ y ++ b.
Proof.
  intros -> Hl. unfold put_bytes. rewrite Nat2Z.id. replace (length a) with (length a + 0)%nat by lia. rewrite list_inserts_app_r. f_equal.
  by apply list_inserts_0_r.
Qed.

(** What a key says beyond the generic key is kept with the key. *)
Lemma stored_le32_at key kl L r o : 12 <= o -> o + 4 <= kl -> stored key kl L r -> le32_at r o = le32_at key o.
Proof.
  intros Ho Hk [_ Hr]. unfold le32_at. replace (bytes_at r o 4) with (bytes_at (bytes_at r 0 kl) o 4) by (rewrite bytes_at_nested by lia; done).
  rewrite Hr, bytes_at_put_other by (rewrite ?length_le32_bytes; lia). by rewrite bytes_at_nested by lia.
Qed.

Lemma stored_le64_at key kl L r o : 12 <= o -> o + 8 <= kl -> stored key kl L r -> le64_at r o = le64_at key o.
Proof. intros Ho Hk Hs. unfold le64_at. rewrite (stored_le32_at key kl L r o), (stored_le32_at key kl L r (o + 4)); [done|lia|lia|done|lia|lia|done]. Qed.

(** ** The order of the keys *)

Lemma cmp_2_le64_spec a b : (cmp_2_le64 a b = -1 /\ a < b) \/ (cmp_2_le64 a b = 0 /\ a = b) \/ (cmp_2_le64 a b = 1 /\ b < a).
Proof. unfold cmp_2_le64. destruct (Z.eqb_spec a b); [lia|]. destruct (Z.ltb_spec b a); lia. Qed.

(** The lexicographic order of (object id, first block). *)
Lemma exttree_cmp_spec a b :
  let oa := key_object_id a in let ob := key_object_id b in let ia := key_iblock a in let ib := key_iblock b in
  (vdfs2_exttree_cmpfn a b = -1 /\ (oa < ob \/ oa = ob /\ ia < ib)) \/ (vdfs2_exttree_cmpfn a b = 0 /\ oa = ob /\ ia = ib) \/
  (vdfs2_exttree_cmpfn a b = 1 /\ (ob < oa \/ oa = ob /\ ib < ia)).
Proof.
  cbv zeta. unfold vdfs2_exttree_cmpfn. pose proof (cmp_2_le64_spec (key_object_id a) (key_object_id b)). pose proof (cmp_2_le64_spec (key_iblock a) (key_iblock b)).
  destruct (Z.eqb_spec (key_object_id a) (key_object_id b)); cbn [negb]; lia.
Qed.

Definition ext_key_ok (k : list Z) : Prop := Forall is_byte k /\ EXTTREE_KEY_SIZE <= Z.of_nat (length k).
Definition ext_valid_key (k : list Z) : Prop := ext_key_ok k /\ VDFS2_KEY_LEN k = EXTTREE_KEY_SIZE.

#[export] Instance exttree_keys max_key_len : TCEq (EXTTREE_KEY_SIZE <=? max_key_len) true ->
  KeyLaws vdfs2_exttree_cmpfn ext_key_ok ext_valid_key max_key_len.
Proof.
  intros Hm%TCEq_eq%Z.leb_le. unfold ext_valid_key, ext_key_ok, EXTTREE_KEY_SIZE, GENERIC_KEY_SIZE in *. split; unfold GENERIC_KEY_SIZE.
  - tauto.
  - intros r [[Hb Hl] Hk]. lia.
  - tauto.
  - intros a b _ _. pose proof (exttree_cmp_spec a b). pose proof (exttree_cmp_spec b a). cbv zeta in *. lia.
  - intros a b c _ _ _. pose proof (exttree_cmp_spec a b). pose proof (exttree_cmp_spec b c). pose proof (exttree_cmp_spec a c). cbv zeta in *. lia.
  - intros key L r [[Hb Hl] Hk] HL Hbr Hst. rewrite Hk in *.
    assert (Hlen : Z.of_nat (length r) = L) by apply Hst. split.
    + split; [split; [done|lia]|]. rewrite <-Hk. apply (stored_key_len key L); unfold GENERIC_KEY_SIZE; try lia; [done|by rewrite Hk].
    + pose proof (exttree_cmp_spec r key) as H. cbv zeta in H. unfold key_object_id, key_iblock in H.
      rewrite !(stored_le64_at key 28 L r) in H by (done || lia). lia.
Qed.

(** ** Search keys and new records *)

Definition u64_ok (x : Z) : Prop := 0 <= x < 2 ^ 64.
Definition extent_ok (e : vdfs2_extent_info) : Prop := u64_ok (first_block e) /\ u64_ok (iblock e) /\ 0 <= block_count e < 2 ^ 32.

Lemma search_key_ok oid blk : u64_ok oid -> u64_ok blk ->
  ext_key_ok (search_key oid blk) /\ key_object_id (search_key oid blk) = oid /\ key_iblock (search_key oid blk) = blk.
Proof.
  intros Ho Hi. split; [split|split].
  - unfold search_key. rewrite !Forall_app. split; [by apply Forall_replicate|]. split; apply bytes_le64.
  - done.
  - exact (le64_round oid Ho).
  - exact (le64_round blk Hi).
Qed.

Lemma lrecord_fields oid e : u64_ok oid -> extent_ok e ->
  let r := exttree_lrecord oid e in
  VDFS2_KEY_LEN r = EXTTREE_KEY_SIZE /\ VDFS2_RECORD_LEN r = EXTTREE_LRECORD_SIZE /\ Z.of_nat (length r) = EXTTREE_LRECORD_SIZE /\ Forall is_byte r /\
  key_object_id r = oid /\ key_iblock r = iblock e /\ lextent_begin r = first_block e /\ lextent_length r = block_count e.
Proof.
  intros Ho (Hf & Hi & Hc) r. split; [done|]. split; [done|]. split; [done|]. split.
  { unfold r, exttree_lrecord. rewrite !Forall_app. split_and!; try apply bytes_le32; try apply bytes_le64. repeat constructor; lia. }
  split; [exact (le64_round oid Ho)|]. split; [exact (le64_round _ Hi)|]. split; [exact (le64_round _ Hf)|].
  change (lextent_length r) with (le32_to_cpu (le32_bytes (block_count e))). by apply le32_round.
Qed.

Lemma lrecord_good N oid e : 164 <= N < 65536 -> u64_ok oid -> extent_ok e -> good_record N ext_valid_key (exttree_lrecord oid e).
Proof.
  intros HN Ho He. destruct (lrecord_fields oid e Ho He) as (Hk & Hr & Hl & Hb & _). unfold EXTTREE_KEY_SIZE, EXTTREE_LRECORD_SIZE in *.
  split; [|by rewrite Hr, Hl]. split.
  - split; [split; [done|unfold EXTTREE_KEY_SIZE; lia]|done].
  - split; unfold GENERIC_KEY_SIZE; try lia; done.
  - lia.
Qed.
