(* ===== verification/BtreeTreeTheorems.v ===== *)
(** * The properties of whole trees

    The witnesses use the extents tree with nodes of 256 bytes. *)
From Stdlib Require Import ZArith Lia.
From stdpp Require Import base numbers list sets gmap.
From S2P Require Import Prelude Bits BitsFacts Bytes BtreeNode BtreeNodeFacts BtreeNodeOps Bnode BnodeIds Btree BtreeKeys BtreeSpec BtreeFind BtreeLookup.
From S2P Require Import BtreeInsert BtreeTree BtreeExamples TreeMap ExtTree ExtTreeFacts.

(** ** A tree with two leaves *)

Definition ext_ex (ib fb n : Z) : vdfs2_extent_info := ExtentInfo fb ib n.
Definition index_ex (oid ib child : Z) : list Z :=
  VDFS2_EXTTREE_KEY_MAGIC ++ le32_bytes 28 ++ le32_bytes 32 ++ le64_bytes oid ++ le64_bytes ib ++ le32_bytes child.

Definition leaf1_ex : list (list Z) := [exttree_lrecord 0 (ext_ex 0 0 0); exttree_lrecord 5 (ext_ex 0 100 8); exttree_lrecord 5 (ext_ex 8 300 4)].
Definition leaf2_ex : list (list Z) := [exttree_lrecord 7 (ext_ex 0 500 2)].
Definition root_ex : list (list Z) := [index_ex 0 0 2; index_ex 7 0 3].
Definition levels_ex : list (list view) := example_levels leaf1_ex leaf2_ex root_ex.
Definition tree_ex : vdfs2_btree := example_tree 256 leaf1_ex leaf2_ex root_ex.

Lemma ext_valid_b r : bytes_b r && (28 <=? Z.of_nat (length r)) && (VDFS2_KEY_LEN r =? 28) = true -> ext_valid_key r.
Proof.
  intros [[Hb Hl]%andb_true_iff Hm]%andb_true_iff. unfold ext_valid_key, ext_key_ok, EXTTREE_KEY_SIZE. apply bytes_b_ok in Hb. split; [split|]; [done|lia..].
Qed.

Lemma exttree_ex_ok : tree_ok 256 vdfs2_exttree_cmpfn ext_valid_key tree_ex levels_ex.
Proof.
  apply example_tree_ok; [lia|by vm_compute|by vm_compute|by vm_compute|by vm_compute|done|done| | | | | | ].
  - repeat (constructor; [by apply ext_valid_b; vm_compute|]). constructor.
  - repeat (constructor; [by apply ext_valid_b; vm_compute|]). constructor.
  - by repeat constructor.
  - by repeat constructor.
  - eexists. split; [reflexivity|by vm_compute].
  - eexists. split; [reflexivity|by vm_compute].
Qed.

(** ** Search *)

(** C32: [vdfs2_btree_find] on a sound tree finds the last leaf record that is not
    above the key, and gives its bnode, its position and its bytes; when all
    records are above the key it gives [-ENOENT].  The tree does not change.  The
    calls of [vdfs2_get_next_btree_record] that follow give the leaf records
    behind the place one by one, across bnodes. *)
Theorem find_correct `{HS : !BitSearch} N mf max_key_len comp_fn key_ok valid_key `{HK : !KeyLaws comp_fn key_ok valid_key max_key_len} t levels l0 key :
  128 <= N < 65536 -> tree_ok N comp_fn valid_key t levels -> levels !! 0%nat = Some l0 -> key_ok key ->
  match last_not_above comp_fn key (recs l0) with
  | None => vdfs2_btree_find N mf max_key_len comp_fn key t = Ret (ERR_PTR (- ENOENT), t)
  | Some r => exists id pos a b, vdfs2_btree_find N mf max_key_len comp_fn key t = Ret (PTR (id, pos, r), t) /\
      recs l0 = a ++ r :: b /\ forall k, scan N mf k id pos t = Ret (take k b, t)
  end.
Proof.
  intros HN Ht Hl0 Hk. pose proof (find_last N mf max_key_len comp_fn key_ok valid_key HN t levels l0 key Ht Hk Hl0) as Hf.
  destruct (last_not_above _ _ _) as [r|]; [|done]. destruct Hf as (id & pos & (L1 & rs1 & rs2 & L2 & -> & -> & _) & Hf).
  destruct (tree_level N comp_fn valid_key t levels 0 _ Ht Hl0) as [Hl Hids].
  exists id, (Z.of_nat (length rs1)), (recs L1 ++ rs1), (rs2 ++ recs L2). split; [done|]. split.
  - rewrite recs_app, recs_cons. cbn [snd]. by rewrite <-!app_assoc.
  - intros k. by apply (scan_ok N mf comp_fn valid_key HN t k L1 id rs1 r rs2 L2 Hl Hids (eo_answers _ _ (to_env _ _ _ _ _ Ht))).
Qed.

Lemma find_correct_witness :
  exists id pos a b, vdfs2_btree_find 256 true 280 vdfs2_exttree_cmpfn (search_key 5 9) tree_ex = Ret (PTR (id, pos, exttree_lrecord 5 (ext_ex 8 300 4)), tree_ex) /\
    leaf1_ex ++ leaf2_ex ++ [] = a ++ exttree_lrecord 5 (ext_ex 8 300 4) :: b /\ forall k, scan 256 true k id pos tree_ex = Ret (take k b, tree_ex).
Proof.
  exact (find_correct (HS := linear_search) 256 true 280 vdfs2_exttree_cmpfn ext_key_ok ext_valid_key tree_ex levels_ex
    [(2, leaf1_ex); (3, leaf2_ex)] (search_key 5 9) ltac:(lia) exttree_ex_ok eq_refl (proj1 (search_key_ok 5 9 ltac:(unfold u64_ok; lia) ltac:(unfold u64_ok; lia)))).
Defined.

(** ** Insertion *)

(** C3: [vdfs2_btree_insert] on a sound tree, when memory and ids are there: a key that
    is in the tree already is refused with [-EEXIST] and a key below all others with
    [-ENOENT], without a change; any other record is inserted, and the result is
    a sound tree again (sorted nodes of the right size, linked to their
    neighbours, an index record for every node and one root), whose leaf
    records are the old ones with the new one at its place, however many nodes
    were split on the way up. *)
Theorem tree_insert_correct `{HS : !BitSearch} `{HBL : !BitSearchLaws} N mf max_key_len comp_fn key_ok valid_key
    `{HK : !KeyLaws comp_fn key_ok valid_key max_key_len} t l0 us new_data :
  128 <= N < 65536 -> tree_ok N comp_fn valid_key t (l0 :: us) -> good_record N valid_key new_data -> room_for_insert t ->
  match last_not_above comp_fn new_data (recs l0) with
  | None => vdfs2_btree_insert N mf max_key_len comp_fn new_data t = Ret (- ENOENT, t)
  | Some r =>
      (comp_fn r new_data = 0 -> vdfs2_btree_insert N mf max_key_len comp_fn new_data t = Ret (- EEXIST, t)) /\
      (comp_fn r new_data <> 0 -> exists t' l0' us' a b, vdfs2_btree_insert N mf max_key_len comp_fn new_data t = Ret (0, t') /\
        tree_ok N comp_fn valid_key t' (l0' :: us') /\ recs l0 = a ++ r :: b /\ recs l0' = a ++ r :: new_data :: b)
  end.
Proof.
  intros HN Ht Hgood Hroom. pose proof (insert_at N mf max_key_len comp_fn key_ok valid_key HN t l0 us new_data Ht Hgood Hroom) as Hi.
  destruct (last_not_above _ _ _) as [r|]; [|done]. destruct (Z.eqb_spec (comp_fn r new_data) 0) as [Hc|Hc]; [by split|]. split; [done|]. intros _.
  destruct Hi as (t' & l0' & us' & a & b & Hi & Ht' & Ha & Hb & _). by exists t', l0', us', a, b.
Qed.

Lemma tree_insert_correct_witness :
  exists t' l0' us' a b,
    vdfs2_btree_insert 256 true 280 vdfs2_exttree_cmpfn (exttree_lrecord 5 (ext_ex 12 700 3)) tree_ex = Ret (0, t') /\
    tree_ok 256 vdfs2_exttree_cmpfn ext_valid_key t' (l0' :: us') /\ leaf1_ex ++ leaf2_ex ++ [] = a ++ exttree_lrecord 5 (ext_ex 8 300 4) :: b /\
    recs l0' = a ++ exttree_lrecord 5 (ext_ex 8 300 4) :: exttree_lrecord 5 (ext_ex 12 700 3) :: b.
Proof.
  refine (proj2 (tree_insert_correct (HS := linear_search) 256 true 280 vdfs2_exttree_cmpfn ext_key_ok ext_valid_key tree_ex
    [(2, leaf1_ex); (3, leaf2_ex)] [[(1, root_ex)]] (exttree_lrecord 5 (ext_ex 12 700 3)) _ exttree_ex_ok _ _) _).
  - lia.
  - apply lrecord_good; [lia|unfold u64_ok; lia|]. unfold extent_ok, u64_ok. cbn. lia.
  - split; cbn; lia.
  - by vm_compute.
Defined.

(** ** A failed allocation *)

Definition insert_ex (r : list Z) (t : vdfs2_btree) : outcome (Z * vdfs2_btree) := vdfs2_btree_insert 256 true 280 vdfs2_exttree_cmpfn r t.
Definition full_ex : vdfs2_btree :=
  match insert_ex (exttree_lrecord 5 (ext_ex 20 1020 1)) tree_ex with Ret (_, t) => t | Bug => tree_ex end.

