(* ===== verification/ExtTreeTheorems.v ===== *)
(** * The properties of the extents tree *)
From Stdlib Require Import ZArith Lia.
From stdpp Require Import base numbers list sets gmap.
From S2P Require Import Prelude Bits BitsFacts Bytes BtreeNode BtreeNodeFacts BtreeNodeOps Bnode BnodeIds Btree BtreeKeys BtreeSpec BtreeFind BtreeLookup.
From S2P Require Import BtreeInsert BtreeTree ExtTree ExtTreeFacts BtreeTreeTheorems.

(** ** The specification: the extents as a list of leaf records *)

(** The record of the object that starts last before the block. *)
Definition extent_at (rs : list (list Z)) (object_id block : Z) : option (list Z) :=
  match last_not_above vdfs2_exttree_cmpfn (search_key object_id block) rs with
  | Some r => if key_object_id r =? object_id then Some r else None
  | None => None
  end.

Definition extent_of (r : list Z) : vdfs2_extent_info := ExtentInfo (lextent_begin r) (key_iblock r) (lextent_length r).

(** A tree of extents. *)
Abbreviation exttree_ok N t l0 us := (tree_ok N vdfs2_exttree_cmpfn ext_valid_key t (l0 :: us)).

Section ext.
Context `{HS : !BitSearch} (N : Z) (mf : bool) (max_key_len : Z) (HN : 128 <= N < 65536) (HM : TCEq (EXTTREE_KEY_SIZE <=? max_key_len) true).

Lemma strict_obj_ok t l0 us oid blk :
  exttree_ok N t l0 us -> u64_ok oid -> u64_ok blk ->
  match extent_at (recs l0) oid blk with
  | None => vdfs2_exttree_find_record_strict_obj N mf max_key_len oid blk t = Ret (ERR_PTR (- ENOENT), t)
  | Some r => exists id pos, vdfs2_exttree_find_record_strict_obj N mf max_key_len oid blk t = Ret (PTR (id, pos, r), t)
  end.
Proof using HN HM.
  intros Ht Ho Hb. destruct (search_key_ok oid blk Ho Hb) as (Hk & _ & _).
  pose proof (find_last N mf max_key_len vdfs2_exttree_cmpfn ext_key_ok ext_valid_key HN t (l0 :: us) l0 _ Ht Hk eq_refl) as Hf.
  unfold extent_at, vdfs2_exttree_find_record_strict_obj, vdfs2_exttree_find_record_nonstrict.
  assert (Ha : forall A (k : bt (err_ptr A)), alloc_mem k t = k t) by (intros; apply alloc_mem_Ret, (eo_answers _ _ (to_env _ _ _ _ _ Ht))).
  destruct (last_not_above _ _ _) as [r|].
  - destruct Hf as (id & pos & _ & Hf). assert (Hf' := Hf). rewrite <-Ha in Hf'.
    destruct (Z.eqb_spec (key_object_id r) oid) as [He|Hne].
    + exists id, pos. rewrite (bt_ptr _ _ _ _ _ Hf'). cbn iota beta. by rewrite (proj2 (Z.eqb_eq _ _) He).
    + rewrite (bt_ptr _ _ _ _ _ Hf'). cbn iota beta. by rewrite (proj2 (Z.eqb_neq _ _) Hne).
  - rewrite <-Ha in Hf. by apply bt_ptr_err.
Qed.

Lemma get_extent_ok t l0 us oid blk :
  exttree_ok N t l0 us -> u64_ok oid -> u64_ok blk ->
  vdfs2_exttree_get_extent N mf max_key_len oid blk t =
    Ret (match extent_at (recs l0) oid blk with
         | None => (- ENOENT, ExtentInfo 0 0 0)
         | Some r => (if (key_iblock r <=? blk) && (blk <=? u64 (key_iblock r + lextent_length r)) then 0 else - ENOENT, extent_of r)
         end, t).
Proof using HN HM.
  intros Ht Ho Hb. pose proof (strict_obj_ok t l0 us oid blk Ht Ho Hb) as Hs. unfold vdfs2_exttree_get_extent. destruct (extent_at _ _ _) as [r|].
  - destruct Hs as (id & pos & Hs). rewrite (bt_step _ _ _ _ _ Hs). cbn iota beta zeta. by destruct (_ && _).
  - by rewrite (bt_step _ _ _ _ _ Hs).
Qed.

(** The record that covers a block. *)
Lemma extent_at_covering rs oid blk r :
  Forall ext_valid_key rs -> sorted vdfs2_exttree_cmpfn rs -> u64_ok oid -> u64_ok blk -> r ∈ rs -> key_object_id r = oid -> key_iblock r <= blk ->
  (forall r', r' ∈ rs -> key_object_id r' = oid -> key_iblock r' <= blk -> key_iblock r' <= key_iblock r) ->
  extent_at rs oid blk = Some r.
Proof using Type.
  intros Hv Hs Ho Hb Hr Hor Hib Hlast. destruct (search_key_ok oid blk Ho Hb) as (_ & Hko & Hki).
  apply list_elem_of_split in Hr as (a & b & ->). unfold extent_at.
  assert (Hbelow : vdfs2_exttree_cmpfn r (search_key oid blk) <= 0).
  { pose proof (exttree_cmp_spec r (search_key oid blk)) as H. cbv zeta in H. rewrite Hko, Hki in H. lia. }
  assert (Habove : Forall (fun x => 0 < vdfs2_exttree_cmpfn x (search_key oid blk)) b).
  { apply sorted_app in Hs as (_ & Hs & _). apply sorted_first in Hs as [_ Hs]. rewrite Forall_forall in Hs |- *. intros x Hx. specialize (Hs x Hx).
    specialize (Hlast x ltac:(apply elem_of_app; right; by apply elem_of_cons; right)).
    pose proof (exttree_cmp_spec x (search_key oid blk)) as H1. pose proof (exttree_cmp_spec r x) as H2. cbv zeta in H1, H2. rewrite Hko, Hki in H1. lia. }
  assert (Hl : last_not_above vdfs2_exttree_cmpfn (search_key oid blk) (a ++ r :: b) = Some r).
  { unfold last_not_above. rewrite filter_app, filter_cons_True by done. rewrite (filter_above vdfs2_exttree_cmpfn _ _ Habove). apply last_snoc. }
  by rewrite Hl, (proj2 (Z.eqb_eq _ _) Hor).
Qed.

Lemma extent_at_none rs oid blk :
  u64_ok oid -> u64_ok blk -> (forall r, r ∈ rs -> key_object_id r = oid -> blk < key_iblock r) -> extent_at rs oid blk = None.
Proof using Type.
  intros Ho Hb Hno. destruct (search_key_ok oid blk Ho Hb) as (_ & Hko & Hki). unfold extent_at, last_not_above.
  destruct (last _) as [r|] eqn:Hr; [|done]. apply last_Some_elem_of, list_elem_of_filter in Hr as [Hc Hr]. destruct (Z.eqb_spec (key_object_id r) oid) as [He|]; [|done].
  specialize (Hno r Hr He). pose proof (exttree_cmp_spec r (search_key oid blk)) as H. cbv zeta in H. rewrite Hko, Hki in H. lia.
Qed.

(** A new record changes what is found for its own object only. *)
Lemma extent_at_other a r new b oid blk :
  u64_ok oid -> u64_ok blk -> sorted vdfs2_exttree_cmpfn (a ++ r :: new :: b) -> key_object_id new <> oid ->
  extent_at (a ++ r :: new :: b) oid blk = extent_at (a ++ r :: b) oid blk.
Proof using Type.
  intros Ho Hb Hs Hne. destruct (search_key_ok oid blk Ho Hb) as (_ & Hko & _). unfold extent_at, last_not_above. set (k := search_key oid blk). rewrite !filter_app.
  destruct (decide (vdfs2_exttree_cmpfn new k <= 0)) as [Hn|Hn]; [|rewrite !(filter_cons _ r), (filter_cons_False _ new) by lia; done].
  apply sorted_app in Hs as (_ & Hs & _). apply sorted_first in Hs as [Hs Hr]. apply Forall_cons in Hr as [Hrn _].
  assert (Hrk : vdfs2_exttree_cmpfn r k <= 0).
  { pose proof (exttree_cmp_spec r new). pose proof (exttree_cmp_spec new k). pose proof (exttree_cmp_spec r k). cbv zeta in *. lia. }
  rewrite !(filter_cons_True _ r), (filter_cons_True _ new) by done. destruct (filter _ b) as [|x xs] eqn:Hbx.
  - rewrite !last_app_cons, last_cons_cons. cbn [last].
    rewrite (proj2 (Z.eqb_neq (key_object_id new) oid)) by done. destruct (Z.eqb_spec (key_object_id r) oid) as [He|]; [|done].
    pose proof (exttree_cmp_spec r new) as H1. pose proof (exttree_cmp_spec new k) as H2. cbv zeta in H1, H2. fold k in Hko. rewrite Hko in H2. lia.
  - by rewrite !last_app_cons, !last_cons_cons.
Qed.

Lemma extent_at_new a r new b : 
  sorted vdfs2_exttree_cmpfn (a ++ r :: new :: b) -> u64_ok (key_object_id new) -> u64_ok (key_iblock new) ->
  extent_at (a ++ r :: new :: b) (key_object_id new) (key_iblock new) = Some new.
Proof using Type.
  intros Hs Ho Hb. destruct (search_key_ok _ _ Ho Hb) as (_ & Hko & Hki). set (k := search_key _ _) in *.
  rewrite (cons_middle r), app_assoc in Hs |- *. apply sorted_app in Hs as (_ & Hs & _). apply sorted_first in Hs as [_ Hs].
  unfold extent_at, last_not_above. fold k. rewrite filter_app. pose proof (exttree_cmp_spec new k) as H. cbv zeta in H. rewrite Hko, Hki in H.
  rewrite (filter_cons_True _ new) by lia. rewrite (filter_above vdfs2_exttree_cmpfn k b), last_snoc, Z.eqb_refl; [done|].
  eapply Forall_impl; [exact Hs|]. intros x Hx. cbn beta in Hx. pose proof (exttree_cmp_spec new x) as H1. pose proof (exttree_cmp_spec x k) as H2. cbv zeta in H1, H2.
  rewrite Hko, Hki in H2. lia.
Qed.
End ext.

(** ** Properties *)

(** C34: [vdfs2_exttree_get_block] translates a block of a file: when an extent of the
    file covers the block and no other extent of the file starts between, the
    result is the block at the same distance from the start of the extent on
    the volume, and the number of blocks to the end of the extent; when no extent of
    the file starts at or before the block, the result is 0. *)
Theorem exttree_get_block_correct `{HS : !BitSearch} N mf max_key_len (HM : TCEq (EXTTREE_KEY_SIZE <=? max_key_len) true) t l0 us oid blk :
  128 <= N < 65536 -> exttree_ok N t l0 us -> u64_ok oid -> u64_ok blk ->
  (forall r, r ∈ recs l0 -> key_object_id r = oid -> key_iblock r <= blk < key_iblock r + lextent_length r ->
    key_iblock r + lextent_length r < 2 ^ 64 -> lextent_begin r + lextent_length r < 2 ^ 64 ->
    (forall r', r' ∈ recs l0 -> key_object_id r' = oid -> key_iblock r' <= blk -> key_iblock r' <= key_iblock r) ->
    vdfs2_exttree_get_block N mf max_key_len oid blk t =
      Ret ((lextent_begin r + (blk - key_iblock r), Some (lextent_length r - (blk - key_iblock r))), t)) /\
  ((forall r, r ∈ recs l0 -> key_object_id r = oid -> blk < key_iblock r) ->
    vdfs2_exttree_get_block N mf max_key_len oid blk t = Ret ((0, None), t)).
Proof.
  intros HN Ht Ho Hb. pose proof (get_extent_ok N mf max_key_len HN HM t l0 us oid blk Ht Ho Hb) as Hg.
  destruct (tree_level N vdfs2_exttree_cmpfn ext_valid_key t (l0 :: us) 0 l0 Ht eq_refl) as [Hlo _].
  pose proof (lo_valid _ _ _ _ _ Hlo) as Hv. pose proof (lo_sorted _ _ _ _ _ Hlo) as Hs. unfold vdfs2_exttree_get_block. rewrite (bt_step _ _ _ _ _ Hg).
  split.
  - intros r Hr Hor Hin Hw1 Hw2 Hlast. rewrite (extent_at_covering (recs l0) oid blk r Hv Hs Ho Hb Hr Hor ltac:(lia) Hlast).
    rewrite Forall_forall in Hv. destruct (Hv r Hr) as [[Hby _] _].
    pose proof (le64_at_range r 20 Hby) as Hi1. pose proof (le32_at_range r 36 Hby) as Hi2. pose proof (le64_at_range r 28 Hby) as Hi3.
    unfold u64_ok in *. fold (key_iblock r) (lextent_length r) (lextent_begin r) in Hi1, Hi2, Hi3. rewrite u64_small by lia.
    rewrite (proj2 (Z.leb_le (key_iblock r) blk)), (proj2 (Z.leb_le blk _)) by lia. cbn [andb Z.eqb negb extent_of first_block iblock block_count].
    rewrite (u64_small (lextent_begin r + blk - key_iblock r)) by lia. rewrite (u32_small (lextent_length r - (blk - key_iblock r))) by lia.
    by rewrite Z.add_sub_assoc.
  - intros Hno. by rewrite (extent_at_none (recs l0) oid blk Ho Hb Hno).
Qed.

Lemma exttree_get_block_correct_witness :
  vdfs2_exttree_get_block 256 true 280 5 9 tree_ex = Ret ((300 + (9 - 8), Some (4 - (9 - 8))), tree_ex).
Proof.
  refine (proj1 (exttree_get_block_correct (HS := linear_search) 256 true 280 (TCEq_refl true) tree_ex [(2, leaf1_ex); (3, leaf2_ex)] [[(1, root_ex)]] 5 9 _ exttree_ex_ok _ _)
    (exttree_lrecord 5 (ext_ex 8 300 4)) _ _ _ _ _ _).
  - lia.
  - unfold u64_ok; lia.
  - unfold u64_ok; lia.
  - apply (list_elem_of_lookup_2 _ 2). reflexivity.
  - reflexivity.
  - by vm_compute.
  - by vm_compute.
  - by vm_compute.
  - intros r' Hr' Ho Hi. unfold recs, leaf1_ex, leaf2_ex in Hr'. cbn [map concat snd app] in Hr'. rewrite !elem_of_cons in Hr'.
    destruct Hr' as [->|[->|[->|[->|Hr']]]]; [by vm_compute|by vm_compute|by vm_compute|by vm_compute in Ho|by apply elem_of_nil in Hr'].
Defined.

(** C35: what [vdfs2_exttree_add] puts in, [vdfs2_exttree_get_extent] gives back: after the
    addition of an extent at a place that is free, its first block leads to it
    unchanged, all 64 and 32 bits of its fields included; the extents of all other
    objects are found as before, and the tree is sound. *)
Theorem exttree_add_get `{HS : !BitSearch} `{HBL : !BitSearchLaws} N mf max_key_len (HM : TCEq (EXTTREE_KEY_SIZE <=? max_key_len) true) t l0 us oid e r :
  164 <= N < 65536 -> exttree_ok N t l0 us -> room_for_insert t -> u64_ok oid -> extent_ok e -> iblock e + block_count e < 2 ^ 64 ->
  last_not_above vdfs2_exttree_cmpfn (exttree_lrecord oid e) (recs l0) = Some r -> vdfs2_exttree_cmpfn r (exttree_lrecord oid e) <> 0 ->
  exists t' l0' us', vdfs2_exttree_add N mf max_key_len oid e t = Ret (0, t') /\ exttree_ok N t' l0' us' /\
    vdfs2_exttree_get_extent N mf max_key_len oid (iblock e) t' = Ret ((0, e), t') /\
    forall oid' blk, oid' <> oid -> u64_ok oid' -> u64_ok blk -> exists res,
      vdfs2_exttree_get_extent N mf max_key_len oid' blk t = Ret (res, t) /\ vdfs2_exttree_get_extent N mf max_key_len oid' blk t' = Ret (res, t').
Proof.
  intros HN Ht Hroom Ho He Hend Hlast Hne. assert (HN' : 128 <= N < 65536) by lia. pose proof (lrecord_good N oid e HN Ho He) as Hgood.
  destruct (lrecord_fields oid e Ho He) as (_ & _ & _ & _ & Hfo & Hfi & Hfb & Hfl). set (new := exttree_lrecord oid e) in *.
  destruct Hgood as [Hnew Hlen]. pose proof (kl_ok _ (nr_valid _ _ _ _ Hnew)) as Hk. destruct (leaves_nonempty N max_key_len vdfs2_exttree_cmpfn ext_key_ok ext_valid_key HN' t (l0 :: us) l0 Ht eq_refl) as [h Hh].
  destruct (tree_level N vdfs2_exttree_cmpfn ext_valid_key t (l0 :: us) 0 l0 Ht eq_refl) as [Hlo _].
  pose proof (last_not_above_None max_key_len vdfs2_exttree_cmpfn ext_key_ok ext_valid_key new (recs l0) h Hk (lo_valid _ _ _ _ _ Hlo) (lo_sorted _ _ _ _ _ Hlo) Hh) as Hnone.
  assert (Hle : vdfs2_exttree_cmpfn h new <= 0) by (destruct (Z.lt_ge_cases 0 (vdfs2_exttree_cmpfn h new)) as [Hlt|]; [rewrite (proj2 Hnone Hlt) in Hlast|]; done).
  destruct (find_located N mf max_key_len vdfs2_exttree_cmpfn ext_key_ok ext_valid_key HN' t (l0 :: us) l0 h new Ht Hk eq_refl Hh Hle) as (id & pos & r' & Hloc & _).
  pose proof (located_last vdfs2_exttree_cmpfn new l0 id pos r' Hloc) as Hl'. rewrite Hlast in Hl'. injection Hl' as <-.
  destruct (insert_ok N mf max_key_len vdfs2_exttree_cmpfn ext_key_ok ext_valid_key HN' t l0 us id pos r new Ht Hroom (conj Hnew Hlen) Hloc Hne ltac:(by exists h))
    as (t' & l0' & us' & a & b & Hins & Ht' & Hrec & Hrec').
  exists t', l0', us'. split; [|split; [done|]].
  { unfold vdfs2_exttree_add. rewrite (bt_step _ _ _ _ _ (ask_Ret t (eo_answers _ _ (to_env _ _ _ _ _ Ht)))). exact Hins. }
  destruct (tree_level N vdfs2_exttree_cmpfn ext_valid_key t' (l0' :: us') 0 l0' Ht' eq_refl) as [Hlo' _].
  pose proof (lo_sorted _ _ _ _ _ Hlo') as Hs'. rewrite Hrec' in Hs'. destruct He as (Hef & Hei & Hec).
  split.
  - rewrite (get_extent_ok N mf max_key_len HN' HM t' l0' us' oid (iblock e) Ht' Ho Hei). pose proof (extent_at_new a r new b Hs') as Hat. rewrite Hfo, Hfi in Hat.
    rewrite Hrec', (Hat Ho Hei). unfold extent_of. rewrite Hfi, Hfb, Hfl. unfold u64_ok in *. rewrite u64_small by lia.
    rewrite (proj2 (Z.leb_le (iblock e) (iblock e))), (proj2 (Z.leb_le (iblock e) _)) by lia. by destruct e.
  - intros oid' blk Hoid Ho' Hb'. eexists. split; [apply (get_extent_ok N mf max_key_len HN' HM t l0 us); done|].
    rewrite (get_extent_ok N mf max_key_len HN' HM t' l0' us' oid' blk Ht' Ho' Hb'). rewrite Hrec, Hrec'. rewrite (extent_at_other a r new b oid' blk Ho' Hb' Hs'); [done|].
    rewrite Hfo. by intros ->.
Qed.

Lemma exttree_add_get_witness :
  exists t' l0' us', vdfs2_exttree_add 256 true 280 5 (ext_ex 12 700 3) tree_ex = Ret (0, t') /\ exttree_ok 256 t' l0' us' /\
    vdfs2_exttree_get_extent 256 true 280 5 12 t' = Ret ((0, ext_ex 12 700 3), t') /\
    forall oid' blk, oid' <> 5 -> u64_ok oid' -> u64_ok blk -> exists res,
      vdfs2_exttree_get_extent 256 true 280 oid' blk tree_ex = Ret (res, tree_ex) /\ vdfs2_exttree_get_extent 256 true 280 oid' blk t' = Ret (res, t').
Proof.
  refine (exttree_add_get (HS := linear_search) 256 true 280 (TCEq_refl true) tree_ex [(2, leaf1_ex); (3, leaf2_ex)] [[(1, root_ex)]] 5 (ext_ex 12 700 3)
    (exttree_lrecord 5 (ext_ex 8 300 4)) _ exttree_ex_ok _ _ _ _ _ _).
  - lia.
  - split; cbn; lia.
  - unfold u64_ok; lia.
  - unfold extent_ok, u64_ok. cbn. lia.
  - by vm_compute.
  - by vm_compute.
  - by vm_compute.
Defined.

(** The block behind the last block of an extent is found in this extent too, when
    the file has no extent there: [vdfs2_exttree_get_extent] calls it a hit and
    [vdfs2_exttree_get_block] gives the block behind the extent on the volume, with
    0 blocks to its end. *)
Lemma exttree_block_past_end `{HS : !BitSearch} N mf max_key_len (HM : TCEq (EXTTREE_KEY_SIZE <=? max_key_len) true) t l0 us r :
  128 <= N < 65536 -> exttree_ok N t l0 us -> r ∈ recs l0 ->
  let oid := key_object_id r in let blk := key_iblock r + lextent_length r in
  blk < 2 ^ 64 -> lextent_begin r + lextent_length r < 2 ^ 64 ->
  (forall r', r' ∈ recs l0 -> key_object_id r' = oid -> key_iblock r' <= blk -> key_iblock r' <= key_iblock r) ->
  vdfs2_exttree_get_extent N mf max_key_len oid blk t = Ret ((0, extent_of r), t) /\
  vdfs2_exttree_get_block N mf max_key_len oid blk t = Ret ((lextent_begin r + lextent_length r, Some 0), t).
Proof.
  intros HN Ht Hr oid blk Hw1 Hw2 Hlast.
  destruct (tree_level N vdfs2_exttree_cmpfn ext_valid_key t (l0 :: us) 0 l0 Ht eq_refl) as [Hlo _]. pose proof (lo_valid _ _ _ _ _ Hlo) as Hv.
  pose proof Hv as Hv'. rewrite Forall_forall in Hv'. destruct (Hv' r Hr) as [[Hby _] _].
  pose proof (le64_at_range r 20 Hby) as Hi1. pose proof (le32_at_range r 36 Hby) as Hi2. pose proof (le64_at_range r 28 Hby) as Hi3. pose proof (le64_at_range r 12 Hby) as Ho.
  fold (key_iblock r) (lextent_length r) (lextent_begin r) (key_object_id r) in Hi1, Hi2, Hi3, Ho. fold oid in Ho.
  assert (Hb : u64_ok blk) by (unfold u64_ok, blk in *; lia).
  assert (Hg : vdfs2_exttree_get_extent N mf max_key_len oid blk t = Ret ((0, extent_of r), t)).
  { rewrite (get_extent_ok N mf max_key_len HN HM t l0 us oid blk Ht Ho Hb).
    rewrite (extent_at_covering (recs l0) oid blk r Hv (lo_sorted _ _ _ _ _ Hlo) Ho Hb Hr eq_refl ltac:(unfold blk; lia) Hlast).
    fold blk. rewrite u64_small by done. by rewrite (proj2 (Z.leb_le (key_iblock r) blk)), (proj2 (Z.leb_le blk blk)) by (unfold blk; lia). }
  split; [done|]. unfold vdfs2_exttree_get_block. rewrite (bt_step _ _ _ _ _ Hg). cbn [Z.eqb negb extent_of first_block iblock block_count]. unfold blk.
  rewrite (u64_small (lextent_begin r + (key_iblock r + lextent_length r) - key_iblock r)) by lia.
  replace (lextent_length r - (key_iblock r + lextent_length r - key_iblock r)) with 0 by ring.
  by replace (lextent_begin r + (key_iblock r + lextent_length r) - key_iblock r) with (lextent_begin r + lextent_length r) by ring.
Qed.

Lemma exttree_block_past_end_witness :
  vdfs2_exttree_get_extent 256 true 280 5 12 tree_ex = Ret ((0, ext_ex 8 300 4), tree_ex) /\
  vdfs2_exttree_get_block 256 true 280 5 12 tree_ex = Ret ((304, Some 0), tree_ex).
Proof.
  refine (exttree_block_past_end (HS := linear_search) 256 true 280 (TCEq_refl true) tree_ex [(2, leaf1_ex); (3, leaf2_ex)] [[(1, root_ex)]]
    (exttree_lrecord 5 (ext_ex 8 300 4)) _ exttree_ex_ok _ _ _ _).
  - lia.
  - apply (list_elem_of_lookup_2 _ 2). reflexivity.
  - by vm_compute.
  - by vm_compute.
  - intros r' Hr' Ho Hi. unfold recs, leaf1_ex, leaf2_ex in Hr'. cbn [map concat snd app] in Hr'. rewrite !elem_of_cons in Hr'.
    destruct Hr' as [->|[->|[->|[->|Hr']]]]; [by vm_compute|by vm_compute|by vm_compute|by vm_compute in Ho|by apply elem_of_nil in Hr'].
Defined.
