(* ===== verification/RuntimeExtents.v ===== *)
(** * The list of blocks waiting for space ([vdfs2_runtime_extent_*] in [extents.c])

    Written pages whose blocks are not allocated yet are kept as a list of extents of
    logical blocks, in the order of the list. *)
From Stdlib Require Import ZArith Lia.
From stdpp Require Import base numbers list sets.
From S2P Require Import Prelude.

Record vdfs2_runtime_extent_info := RuntimeExtent { re_iblock : Z; re_alloc_hint : Z; re_block_count : Z }.

Definition re_end (e : vdfs2_runtime_extent_info) : Z := u64 (re_iblock e + re_block_count e).

(** [kzalloc] of an entry. *)
Definition new_entry (iblock hint : Z) (m : memory) : option vdfs2_runtime_extent_info * memory :=
  let '(ok, m) := kmem_alloc m in (if ok then Some (RuntimeExtent iblock hint 1) else None, m).

Fixpoint vdfs2_runtime_extent_add (iblock alloc_hint : Z) (l : list vdfs2_runtime_extent_info) (m : memory)
    : Z * list vdfs2_runtime_extent_info * memory :=
  match l with
  | [] =>
      match new_entry iblock alloc_hint m with
      | (None, m) => (- ENOMEM, [], m)
      | (Some ext, m) => (0, [ext], m)
      end
  | entry :: next =>
      if re_end entry =? iblock then
        let entry := RuntimeExtent (re_iblock entry) (re_alloc_hint entry) (u32 (re_block_count entry + 1)) in
        match next with
        | next_entry :: rest =>
            if re_end entry =? re_iblock next_entry
            then (0, RuntimeExtent (re_iblock entry) (re_alloc_hint next_entry) (u32 (re_block_count next_entry + re_block_count entry)) :: rest, m)
            else (0, entry :: next, m)
        | [] => (0, [entry], m)
        end
      else if re_iblock entry =? u64 (iblock + 1) then
        (0, RuntimeExtent (u64 (re_iblock entry - 1)) (re_alloc_hint entry) (u32 (re_block_count entry + 1)) :: next, m)
      else if (re_iblock entry <=? iblock) && (iblock <? re_end entry) then (- EEXIST, l, m)
      else if iblock <? re_iblock entry then
        match new_entry iblock alloc_hint m with
        | (None, m) => (- ENOMEM, l, m)
        | (Some ext, m) => (0, ext :: l, m)
        end
      else
        let '(ret, next, m) := vdfs2_runtime_extent_add iblock alloc_hint next m in (ret, entry :: next, m)
  end.

(** The new entry for the blocks behind the deleted one goes in front of the old. *)
Fixpoint vdfs2_runtime_extent_del (iblock : Z) (l : list vdfs2_runtime_extent_info) (m : memory)
    : outcome (Z * list vdfs2_runtime_extent_info * memory) :=
  match l with
  | [] => Bug
  | entry :: next =>
      if re_iblock entry =? iblock then
        let entry := RuntimeExtent (u64 (re_iblock entry + 1)) (re_alloc_hint entry) (u32 (re_block_count entry - 1)) in
        Ret (0, if re_block_count entry =? 0 then next else entry :: next, m)
      else if re_end entry =? u64 (iblock + 1) then
        Ret (0, RuntimeExtent (re_iblock entry) (re_alloc_hint entry) (u32 (re_block_count entry - 1)) :: next, m)
      else if (re_iblock entry <=? iblock) && (iblock <? re_end entry) then
        match new_entry (u64 (iblock + 1)) 0 m with
        | (None, m) => Ret (- ENOMEM, l, m)
        | (Some new, m) =>
            let new := RuntimeExtent (re_iblock new) (re_alloc_hint new) (u32 (re_end entry - re_iblock new)) in
            Ret (0, new :: RuntimeExtent (re_iblock entry) (re_alloc_hint entry) (u32 (re_block_count entry - (re_block_count new + 1))) :: next, m)
        end
      else
        '(ret, next, m) ← vdfs2_runtime_extent_del iblock next m; Ret (ret, entry :: next, m)
  end.

(** The list and the number of freed blocks. *)
Fixpoint vdfs2_truncate_runtime_blocks (new_size_iblocks : Z) (l : list vdfs2_runtime_extent_info) (total : Z) : list vdfs2_runtime_extent_info * Z :=
  match l with
  | [] => ([], total)
  | entry :: next =>
      if new_size_iblocks <=? re_iblock entry then
        vdfs2_truncate_runtime_blocks new_size_iblocks next (u64 (total + re_block_count entry))
      else if new_size_iblocks <=? re_end entry then
        let trunc_size := u64 (new_size_iblocks - re_iblock entry) in
        let '(next, total) := vdfs2_truncate_runtime_blocks new_size_iblocks next (u64 (total + (re_block_count entry - trunc_size))) in
        (RuntimeExtent (re_iblock entry) (re_alloc_hint entry) (u32 trunc_size) :: next, total)
      else
        let '(next, total) := vdfs2_truncate_runtime_blocks new_size_iblocks next total in (entry :: next, total)
  end.

Fixpoint vdfs2_runtime_extent_exists (iblock : Z) (l : list vdfs2_runtime_extent_info) : Z :=
  match l with
  | [] => 0
  | entry :: next => if (re_iblock entry <=? iblock) && (iblock <? re_end entry) then 1 else vdfs2_runtime_extent_exists iblock next
  end.

Fixpoint runtime_extent_count_loop (l : list vdfs2_runtime_extent_info) (count : Z) : Z :=
  match l with
  | [] => count
  | entry :: next => runtime_extent_count_loop next (u32 (count + re_block_count entry))
  end.
Definition vdfs2_runtime_extent_count (l : list vdfs2_runtime_extent_info) : Z := runtime_extent_count_loop l 0.

(** ** The blocks of a list *)

Definition re_has (b : Z) (e : vdfs2_runtime_extent_info) : Prop := re_iblock e <= b < re_iblock e + re_block_count e.
Definition waiting (b : Z) (l : list vdfs2_runtime_extent_info) : Prop := Exists (re_has b) l.

Record entry_ok (e : vdfs2_runtime_extent_info) : Prop := {
  eo_start : 0 <= re_iblock e;
  eo_count : 0 < re_block_count e < 2 ^ 32;
  eo_end : re_iblock e + re_block_count e < 2 ^ 64;
}.

Fixpoint total_blocks (l : list vdfs2_runtime_extent_info) : Z :=
  match l with [] => 0 | e :: l => re_block_count e + total_blocks l end.

(** No block twice. *)
Fixpoint apart (l : list vdfs2_runtime_extent_info) : Prop :=
  match l with
  | [] => True
  | e :: l => (forall b, re_has b e -> ~ waiting b l) /\ apart l
  end.

(** In order, with gaps: no two entries could be one. *)
Fixpoint in_order (lo : Z) (l : list vdfs2_runtime_extent_info) : Prop :=
  match l with
  | [] => True
  | e :: l => lo < re_iblock e /\ in_order (re_iblock e + re_block_count e) l
  end.

Definition extents_ok (l : list vdfs2_runtime_extent_info) : Prop := Forall entry_ok l /\ total_blocks l < 2 ^ 32 - 1.

Lemma total_nonneg l : Forall entry_ok l -> 0 <= total_blocks l.
Proof. induction 1 as [|e l [_ ? _] _ IH]; simpl; lia. Qed.

Lemma re_end_ok e : entry_ok e -> re_end e = re_iblock e + re_block_count e.
Proof. intros []. unfold re_end. by rewrite u64_small by lia. Qed.

Lemma waiting_cons b e l : waiting b (e :: l) <-> re_has b e \/ waiting b l.
Proof. apply Exists_cons. Qed.

Lemma waiting_nil b : ~ waiting b [].
Proof. intros H. by apply Exists_nil in H. Qed.

Lemma in_order_above lo l b : Forall entry_ok l -> in_order lo l -> waiting b l -> lo < b.
Proof.
  intros Hl. revert lo. induction Hl as [|e l [_ Hc _] _ IH]; intros lo Ho Hw; [by apply waiting_nil in Hw|].
  destruct Ho as [Hlo Ho]. apply waiting_cons in Hw as [Hb|Hw]; [unfold re_has in Hb; lia|]. specialize (IH _ Ho Hw). lia.
Qed.

Lemma in_order_apart lo l : Forall entry_ok l -> in_order lo l -> apart l.
Proof.
  intros Hl. revert lo. induction Hl as [|e l He Hl IH]; intros lo Ho; [done|]. destruct Ho as [_ Ho]. split; [|by apply (IH _ Ho)].
  intros b Hb Hw. pose proof (in_order_above _ l b Hl Ho Hw). unfold re_has in Hb. lia.
Qed.

(** ** Adding a block *)

Lemma add_ok iblock hint l : forall lo m,
  extents_ok l -> in_order lo l -> lo < iblock -> 0 <= iblock < 2 ^ 64 - 1 ->
  exists ret l' m', vdfs2_runtime_extent_add iblock hint l m = (ret, l', m') /\
    (ret = - EEXIST /\ l' = l /\ waiting iblock l \/ ret = - ENOMEM /\ l' = l /\ ~ waiting iblock l \/
     ret = 0 /\ ~ waiting iblock l /\ Forall entry_ok l' /\ total_blocks l' = total_blocks l + 1 /\ in_order lo l' /\
       forall b, waiting b l' <-> b = iblock \/ waiting b l).
Proof.
  induction l as [|e l IH]; intros lo m [Hl Ht] Ho Hlo Hi; cbn [vdfs2_runtime_extent_add].
  - unfold new_entry. destruct (kmem_alloc m) as [[] m'].
    + eexists _, _, _. split; [done|]. right; right. split; [done|]. split; [apply waiting_nil|]. split; [repeat constructor; cbn; lia|].
      split; [cbn; lia|]. split; [by split|]. intros b. rewrite waiting_cons. unfold re_has. cbn. split; [intros [?|Hw]; [left; lia|by right]|intros [->|?]; [left; lia|by right]].
    + eexists _, _, _. split; [done|]. right; left. split; [done|]. split; [done|]. apply waiting_nil.
  - pose proof Hl as Hl0. apply Forall_cons in Hl0 as [He Hl']. pose proof (total_nonneg l Hl') as Htn. destruct He as [He1 He2 He3]. cbn [total_blocks] in Ht. destruct Ho as [Hoe Ho].
    assert (Heo : entry_ok e) by (by split). rewrite (re_end_ok e Heo).
    assert (Hhas : forall b, re_has b e <-> re_iblock e <= b < re_iblock e + re_block_count e) by done.
    pose proof (fun b => in_order_above _ l b Hl' Ho) as Habove.
    destruct (Z.eqb_spec (re_iblock e + re_block_count e) iblock) as [Heq|Hne].
    + rewrite (u32_small (re_block_count e + 1)) by lia.
      set (e' := RuntimeExtent (re_iblock e) (re_alloc_hint e) (re_block_count e + 1)).
      assert (He' : entry_ok e') by (split; cbn; lia). 
      assert (Hno : ~ waiting iblock (e :: l)).
      { rewrite waiting_cons. unfold re_has. intros [?|Hw]; [lia|]. specialize (Habove _ Hw). lia. }
      destruct l as [|nx l].
      * eexists _, _, _. split; [done|]. right; right. split; [done|]. split; [done|]. split; [by constructor|]. split; [cbn; lia|]. split; [by split|].
        intros b. rewrite !waiting_cons. unfold re_has. cbn. pose proof (waiting_nil b). intuition lia.
      * apply Forall_cons in Hl' as [[Hn1 Hn2 Hn3] Hl'']. destruct Ho as [Hon Ho]. cbn [total_blocks] in *. pose proof (total_nonneg l Hl'').
        rewrite (re_end_ok e' He'). cbn [e' re_iblock re_block_count].
        destruct (Z.eqb_spec (re_iblock e + (re_block_count e + 1)) (re_iblock nx)) as [Hj|Hj].
        -- rewrite u32_small by lia. eexists _, _, _. split; [done|]. right; right. split; [done|]. split; [done|].
           split; [constructor; [split; cbn; lia|done]|]. split; [cbn; lia|]. split; [split; [done|]; cbn; by replace (re_iblock e + (re_block_count nx + (re_block_count e + 1))) with (re_iblock nx + re_block_count nx) by lia|].
           intros b. rewrite !waiting_cons. unfold re_has. cbn. intuition lia.
        -- eexists _, _, _. split; [done|]. right; right. split; [done|]. split; [done|].
           split; [constructor; [done|]; by constructor|]. split; [cbn; lia|]. split; [split; [done|]; split; [cbn; lia|done]|].
           intros b. rewrite !waiting_cons. unfold re_has. cbn. intuition lia.
    + rewrite (u64_small (iblock + 1)) by lia. destruct (Z.eqb_spec (re_iblock e) (iblock + 1)) as [Heq|Hne2].
      * rewrite u64_small, u32_small by lia. eexists _, _, _. split; [done|]. right; right. split; [done|]. split.
        { rewrite waiting_cons. unfold re_has. intros [?|Hw]; [lia|]. specialize (Habove _ Hw). lia. }
        split; [constructor; [split; cbn; lia|done]|]. split; [cbn; lia|]. split; [split; cbn; [lia|]; by replace (re_iblock e - 1 + (re_block_count e + 1)) with (re_iblock e + re_block_count e) by lia|].
        intros b. rewrite !waiting_cons. unfold re_has. cbn. intuition lia.
      * destruct ((re_iblock e <=? iblock) && (iblock <? re_iblock e + re_block_count e)) eqn:Hin.
        { eexists _, _, _. split; [done|]. left. split; [done|]. split; [done|]. rewrite waiting_cons. left. unfold re_has. lia. }
        destruct (Z.ltb_spec iblock (re_iblock e)) as [Hlt|Hge].
        -- assert (Hno : ~ waiting iblock (e :: l)).
           { rewrite waiting_cons. unfold re_has. intros [?|Hw]; [lia|]. specialize (Habove _ Hw). lia. }
           unfold new_entry. destruct (kmem_alloc m) as [[] m'].
           ++ eexists _, _, _. split; [done|]. right; right. split; [done|]. split; [done|]. split; [constructor; [split; cbn; lia|done]|]. split; [cbn; lia|].
              split; [split; [done|]; split; [cbn; lia|done]|]. intros b. rewrite waiting_cons. unfold re_has at 1. cbn. intuition lia.
           ++ eexists _, _, _. split; [done|]. right; left. done.
        -- destruct (IH (re_iblock e + re_block_count e) m) as (ret & l2 & m2 & Heq & Hres); [split; [done|lia]|done|lia|done|].
           rewrite Heq. eexists _, _, _. split; [done|]. rewrite waiting_cons. assert (Hnh : ~ re_has iblock e) by (unfold re_has; lia).
           destruct Hres as [(-> & -> & Hw)|[(-> & -> & Hw)|(-> & Hw & Hok & Htt & Hoo & Hb)]]; [left; by split_and!; [..|right]|right; left; by split_and!; [..|intros []]|].
           right; right. split; [done|]. split; [by intros []|]. split; [by constructor|]. split; [cbn; lia|]. split; [by split|].
           intros b. rewrite !waiting_cons, Hb. tauto.
Qed.

(** ** Deleting a block, in any order of the list *)

Lemma apart_weaken e e' l : (forall b, re_has b e' -> re_has b e) -> apart (e :: l) -> apart (e' :: l).
Proof. intros H [H1 H2]. split; [|done]. intros b Hb. by apply H1, H. Qed.

Lemma del_ok iblock l : forall m,
  Forall entry_ok l -> apart l -> 0 <= iblock < 2 ^ 64 - 1 -> waiting iblock l ->
  exists ret l' m', vdfs2_runtime_extent_del iblock l m = Ret (ret, l', m') /\
    (ret = - ENOMEM /\ l' = l \/
     ret = 0 /\ Forall entry_ok l' /\ apart l' /\ total_blocks l' = total_blocks l - 1 /\ forall b, waiting b l' <-> waiting b l /\ b <> iblock).
Proof.
  induction l as [|e l IH]; intros m Hl Ha Hi Hw; [by apply waiting_nil in Hw|]. apply Forall_cons in Hl as [He Hl]. pose proof He as [He1 He2 He3].
  pose proof Ha as [Hae Hal]. cbn [vdfs2_runtime_extent_del]. rewrite (re_end_ok e He), (u64_small (iblock + 1)) by lia.
  assert (Hin : forall b, re_has b e <-> re_iblock e <= b < re_iblock e + re_block_count e) by done.
  destruct (Z.eqb_spec (re_iblock e) iblock) as [Heq|Hne].
  - rewrite u64_small, u32_small by lia. cbn [re_block_count]. destruct (Z.eqb_spec (re_block_count e - 1) 0) as [H0|H0].
    + eexists _, _, _. split; [done|]. right. split; [done|]. split; [done|]. split; [done|]. split; [cbn; lia|]. intros b. rewrite waiting_cons.
      split; [intros H; split; [by right|]; intros ->; apply (Hae iblock); [unfold re_has; lia|done]|]. intros [[Hb|Hb] Hn]; [unfold re_has in Hb; lia|done].
    + eexists _, _, _. split; [done|]. right. split; [done|]. split; [constructor; [split; cbn; lia|done]|].
      split; [apply (apart_weaken e); [intros b Hb; unfold re_has in *; cbn in Hb; lia|done]|]. split; [cbn; lia|].
      intros b. rewrite !waiting_cons. specialize (Hae b). unfold re_has in *. cbn. split.
      * intros [Hb|Hb]; [split; [left; lia|lia]|]. split; [by right|]. intros ->. apply Hae; [lia|done].
      * intros [[Hb|Hb] Hn]; [left; lia|by right].
  - destruct (Z.eqb_spec (re_iblock e + re_block_count e) (iblock + 1)) as [Heq|Hne2].
    + destruct (decide (re_block_count e = 1)) as [H1|H1]; [lia|]. rewrite u32_small by lia. eexists _, _, _. split; [done|]. right. split; [done|].
      split; [constructor; [split; cbn; lia|done]|].
      split; [apply (apart_weaken e); [intros b Hb; unfold re_has in *; cbn in Hb; lia|done]|]. split; [cbn; lia|].
      intros b. rewrite !waiting_cons. specialize (Hae b). unfold re_has in *. cbn. split.
      * intros [Hb|Hb]; [split; [left; lia|lia]|]. split; [by right|]. intros ->. apply Hae; [lia|done].
      * intros [[Hb|Hb] Hn]; [left; lia|by right].
    + destruct ((re_iblock e <=? iblock) && (iblock <? re_iblock e + re_block_count e)) eqn:Hmid.
      * unfold new_entry. destruct (kmem_alloc m) as [[] m']; [|eexists _, _, _; split; [done|by left]].
        cbn [re_iblock re_alloc_hint]. rewrite (u32_small (re_iblock e + re_block_count e - (iblock + 1))) by lia. cbn [re_block_count].
        rewrite u32_small by lia. eexists _, _, _. split; [done|]. right. split; [done|].
        split; [constructor; [split; cbn; lia|constructor; [split; cbn; lia|done]]|]. split; [|split; [cbn; lia|]].
        -- cbn [apart]. split; [|split; [|done]].
           ++ intros b Hb. rewrite waiting_cons. specialize (Hae b). unfold re_has in *. cbn in *. intros [Hb2|Hb2]; [lia|]. apply Hae; [lia|done].
           ++ intros b Hb Hb2. apply (Hae b); [|done]. unfold re_has in *. cbn in Hb. lia.
        -- intros b. rewrite !waiting_cons. specialize (Hae b). unfold re_has in *. cbn. split.
           ++ intros [Hb|[Hb|Hb]]; [split; [left; lia|lia]|split; [left; lia|lia]|]. split; [by right|]. intros ->. apply Hae; [lia|done].
           ++ intros [[Hb|Hb] Hn]; [|by right; right]. destruct (decide (b < iblock)); [right; left; lia|left; lia].
      * apply waiting_cons in Hw as [Hw|Hw]; [unfold re_has in Hw; lia|].
        destruct (IH m Hl Hal Hi Hw) as (ret & l' & m' & Heq & Hres). rewrite Heq. cbn [mbind outcome_bind].
        eexists _, _, _. split; [done|]. destruct Hres as [[-> ->]|(-> & Hok & Hap & Ht & Hb)]; [by left|]. right. split; [done|].
        split; [by constructor|]. split; [split; [|done]; intros b He' Hw'; apply Hb in Hw' as [Hw' _]; by apply (Hae b)|]. split; [cbn; lia|].
        intros b. rewrite !waiting_cons, Hb. assert (re_has b e -> b <> iblock) by (intros H ->; unfold re_has in H; lia). tauto.
Qed.

Lemma del_absent iblock l m : Forall entry_ok l -> 0 <= iblock < 2 ^ 64 - 1 -> ~ waiting iblock l -> vdfs2_runtime_extent_del iblock l m = Bug.
Proof.
  induction l as [|e l IH]; intros Hl Hi Hw; [done|]. apply Forall_cons in Hl as [He Hl]. pose proof He as [He1 He2 He3]. rewrite waiting_cons in Hw.
  assert (Hno : ~ re_has iblock e) by tauto. unfold re_has in Hno. cbn [vdfs2_runtime_extent_del]. rewrite (re_end_ok e He), (u64_small (iblock + 1)) by lia.
  rewrite (proj2 (Z.eqb_neq (re_iblock e) iblock)) by lia. rewrite (proj2 (Z.eqb_neq (re_iblock e + re_block_count e) (iblock + 1))) by lia.
  replace ((re_iblock e <=? iblock) && (iblock <? re_iblock e + re_block_count e)) with false by lia. rewrite IH; [done|done|done|tauto].
Qed.

(** ** Truncation *)

Lemma truncate_ok n l : forall total,
  Forall entry_ok l -> 0 <= n < 2 ^ 64 -> 0 <= total -> total + total_blocks l < 2 ^ 64 ->
  exists l' total', vdfs2_truncate_runtime_blocks n l total = (l', total') /\ Forall entry_ok l' /\
    total' + total_blocks l' = total + total_blocks l /\ (apart l -> apart l') /\ (forall lo, in_order lo l -> in_order lo l') /\
    forall b, waiting b l' <-> waiting b l /\ b < n.
Proof.
  induction l as [|e l IH]; intros total Hl Hn Ht Hsum; cbn [vdfs2_truncate_runtime_blocks].
  { exists [], total. split; [done|]. split; [done|]. split; [done|]. split; [done|]. split; [done|]. intros b. pose proof (waiting_nil b). tauto. }
  apply Forall_cons in Hl as [He Hl]. pose proof He as [He1 He2 He3]. pose proof (total_nonneg l Hl) as Htn. cbn [total_blocks] in Hsum.
  rewrite (re_end_ok e He). assert (Hin : forall b, re_has b e <-> re_iblock e <= b < re_iblock e + re_block_count e) by done.
  destruct (Z.leb_spec n (re_iblock e)) as [Hle|Hgt].
  - rewrite u64_small by lia. destruct (IH (total + re_block_count e) Hl Hn ltac:(lia) ltac:(lia)) as (l' & t' & -> & Hok & Hs & Ha & Ho & Hb).
    exists l', t'. split; [done|]. split; [done|]. split; [cbn; lia|]. split; [intros [_ ?]; auto|]. split.
    + intros lo [Hlo Hoo]. apply Ho in Hoo. destruct l' as [|x l']; [done|]. destruct Hoo. split; [lia|done].
    + intros b. rewrite waiting_cons, Hb. unfold re_has. split; [tauto|]. intros [[?|?] ?]; [lia|done].
  - destruct (Z.leb_spec n (re_iblock e + re_block_count e)) as [Hle2|Hgt2].
    + rewrite (u64_small (n - re_iblock e)) by lia. rewrite (u64_small (total + (re_block_count e - (n - re_iblock e)))) by lia. rewrite (u32_small (n - re_iblock e)) by lia.
      destruct (IH (total + (re_block_count e - (n - re_iblock e))) Hl Hn ltac:(lia) ltac:(lia)) as (l' & t' & -> & Hok & Hs & Ha & Ho & Hb).
      eexists _, t'. split; [done|]. split; [constructor; [split; cbn; lia|done]|]. split; [cbn; lia|]. split; [|split].
      * intros [H1 H2]. split; [|by apply Ha]. intros b Hb1 Hb2%Hb. apply (H1 b); [|tauto]. unfold re_has in *. cbn in Hb1. lia.
      * intros lo [Hlo Hoo]. apply Ho in Hoo. split; [done|]. cbn. destruct l' as [|x l']; [done|]. destruct Hoo. split; [lia|done].
      * intros b. rewrite !waiting_cons, Hb. unfold re_has. cbn. split; [intros [?|[? ?]]; [split; [left|]; lia|tauto]|]. intros [[?|?] ?]; [left; lia|tauto].
    + destruct (IH total Hl Hn ltac:(lia) ltac:(lia)) as (l' & t' & -> & Hok & Hs & Ha & Ho & Hb).
      exists (e :: l'), t'. split; [done|]. split; [by constructor|]. split; [cbn; lia|]. split; [|split].
      * intros [H1 H2]. split; [|by apply Ha]. intros b Hb1 Hb2%Hb. apply (H1 b); tauto.
      * intros lo [Hlo Hoo]. split; [done|]. by apply Ho.
      * intros b. rewrite !waiting_cons, Hb. unfold re_has. split; [intros [?|[? ?]]; [split; [by left|lia]|tauto]|]. intros [[?|?] ?]; [by left|tauto].
Qed.

(** ** Queries *)

Lemma exists_ok b l : Forall entry_ok l -> vdfs2_runtime_extent_exists b l = 1 <-> waiting b l.
Proof.
  induction 1 as [|e l He Hl IH]; cbn [vdfs2_runtime_extent_exists]; [pose proof (waiting_nil b); split; [done|tauto]|].
  rewrite (re_end_ok e He), waiting_cons. destruct ((re_iblock e <=? b) && (b <? re_iblock e + re_block_count e)) eqn:Hin.
  - split; [|done]. intros _. left. unfold re_has. lia.
  - rewrite IH. assert (~ re_has b e) by (unfold re_has; lia). tauto.
Qed.

Lemma count_ok l : forall c, Forall entry_ok l -> 0 <= c -> c + total_blocks l < 2 ^ 32 -> runtime_extent_count_loop l c = c + total_blocks l.
Proof.
  induction l as [|e l IH]; intros c Hl Hc Ht; cbn [runtime_extent_count_loop total_blocks] in *; [lia|].
  apply Forall_cons in Hl as [[_ He _] Hl]. pose proof (total_nonneg l Hl). rewrite u32_small by lia. rewrite IH; [lia|done|lia|lia].
Qed.

(** ** Properties *)

Definition runtime_ex : list vdfs2_runtime_extent_info := [RuntimeExtent 0 7 10; RuntimeExtent 20 7 5].

Lemma runtime_ex_ok : extents_ok runtime_ex /\ in_order (-1) runtime_ex.
Proof. split; [split; [repeat (constructor; [split; cbn; lia|]); constructor|cbn; lia]|]. cbn. lia. Qed.

(** C36: the list of waiting extents is a set of blocks, kept in order with a gap between
    its extents: [vdfs2_runtime_extent_add] adds the block to the set, joining extents
    where it fills a gap, or says that it is there, or that there is no memory,
    and leaves the list alone then; [vdfs2_truncate_runtime_blocks] removes the blocks
    from the new size on and counts them; [vdfs2_runtime_extent_exists] and
    [vdfs2_runtime_extent_count] are membership and cardinality. *)
Theorem runtime_extents_are_a_set l iblock hint m n :
  extents_ok l -> in_order (-1) l -> 0 <= iblock < 2 ^ 64 - 1 -> 0 <= n < 2 ^ 64 ->
  (exists ret l' m', vdfs2_runtime_extent_add iblock hint l m = (ret, l', m') /\
    (ret = - EEXIST /\ l' = l /\ waiting iblock l \/ ret = - ENOMEM /\ l' = l /\ ~ waiting iblock l \/
     ret = 0 /\ ~ waiting iblock l /\ Forall entry_ok l' /\ total_blocks l' = total_blocks l + 1 /\ in_order (-1) l' /\
       forall b, waiting b l' <-> b = iblock \/ waiting b l)) /\
  (exists l' freed, vdfs2_truncate_runtime_blocks n l 0 = (l', freed) /\ extents_ok l' /\ in_order (-1) l' /\
    freed = total_blocks l - total_blocks l' /\ forall b, waiting b l' <-> waiting b l /\ b < n) /\
  (vdfs2_runtime_extent_exists iblock l = 1 <-> waiting iblock l) /\
  vdfs2_runtime_extent_count l = total_blocks l.
Proof.
  intros Hl Ho Hi Hn. pose proof Hl as [Hok Ht]. pose proof (total_nonneg l Hok). split; [by apply add_ok; [..|lia|]|]. split; [|split; [by apply exists_ok|by apply count_ok; [|lia..]]].
  destruct (truncate_ok n l 0 Hok Hn ltac:(lia) ltac:(lia)) as (l' & t & Heq & Hok' & Hs & _ & Ho' & Hb). exists l', t. split; [done|].
  assert (0 <= t).
  { clear -Heq Hok Hn Ht. assert (Hg : forall l t0, Forall entry_ok l -> 0 <= t0 -> 0 <= (vdfs2_truncate_runtime_blocks n l t0).2).
    { clear -Hn. induction l as [|e l IH]; intros t0 Hl H0; cbn; [done|]. apply Forall_cons in Hl as [He Hl].
      destruct (n <=? re_iblock e); [apply IH; [done|]; unfold u64; lia|]. destruct (n <=? re_end e).
      - pose proof (IH (u64 (t0 + (re_block_count e - u64 (n - re_iblock e)))) Hl ltac:(unfold u64; lia)). destruct (vdfs2_truncate_runtime_blocks _ _ _); cbn in *; lia.
      - pose proof (IH t0 Hl H0). destruct (vdfs2_truncate_runtime_blocks _ _ _); cbn in *; lia. }
    specialize (Hg l 0 Hok ltac:(lia)). by rewrite Heq in Hg. }
  split; [split; [done|lia]|]. split; [by apply Ho'|]. split; [lia|done].
Qed.

Lemma runtime_extents_are_a_set_witness :
  (exists ret l' m', vdfs2_runtime_extent_add 10 7 runtime_ex [] = (ret, l', m') /\
    (ret = - EEXIST /\ l' = runtime_ex /\ waiting 10 runtime_ex \/ ret = - ENOMEM /\ l' = runtime_ex /\ ~ waiting 10 runtime_ex \/
     ret = 0 /\ ~ waiting 10 runtime_ex /\ Forall entry_ok l' /\ total_blocks l' = total_blocks runtime_ex + 1 /\ in_order (-1) l' /\
       forall b, waiting b l' <-> b = 10 \/ waiting b runtime_ex)) /\
  (exists l' freed, vdfs2_truncate_runtime_blocks 4 runtime_ex 0 = (l', freed) /\ extents_ok l' /\ in_order (-1) l' /\
    freed = total_blocks runtime_ex - total_blocks l' /\ forall b, waiting b l' <-> waiting b runtime_ex /\ b < 4) /\
  (vdfs2_runtime_extent_exists 10 runtime_ex = 1 <-> waiting 10 runtime_ex) /\
  vdfs2_runtime_extent_count runtime_ex = total_blocks runtime_ex.
Proof. apply (runtime_extents_are_a_set runtime_ex 10 7 [] 4 (proj1 runtime_ex_ok) (proj2 runtime_ex_ok)); lia. Defined.

(** C37: [vdfs2_runtime_extent_del] removes exactly the block, whatever the order of
    the list, and no block is on the list twice; without memory for the second half of an
    extent the list stays as it is, and a block that is not on the list is a bug. *)
Theorem runtime_extent_del_correct l iblock m :
  Forall entry_ok l -> apart l -> 0 <= iblock < 2 ^ 64 - 1 ->
  (waiting iblock l -> exists ret l' m', vdfs2_runtime_extent_del iblock l m = Ret (ret, l', m') /\
    (ret = - ENOMEM /\ l' = l \/
     ret = 0 /\ Forall entry_ok l' /\ apart l' /\ total_blocks l' = total_blocks l - 1 /\ forall b, waiting b l' <-> waiting b l /\ b <> iblock)) /\
  (~ waiting iblock l -> vdfs2_runtime_extent_del iblock l m = Bug).
Proof. intros Hl Ha Hi. split; intros Hw; [by apply del_ok|by apply del_absent]. Qed.

Lemma runtime_extent_del_correct_witness :
  exists ret l' m', vdfs2_runtime_extent_del 5 runtime_ex [] = Ret (ret, l', m') /\
    (ret = - ENOMEM /\ l' = runtime_ex \/
     ret = 0 /\ Forall entry_ok l' /\ apart l' /\ total_blocks l' = total_blocks runtime_ex - 1 /\ forall b, waiting b l' <-> waiting b runtime_ex /\ b <> 5).
Proof.
  refine (proj1 (runtime_extent_del_correct runtime_ex 5 [] (proj1 (proj1 runtime_ex_ok)) _ _) _).
  - exact (in_order_apart (-1) runtime_ex (proj1 (proj1 runtime_ex_ok)) (proj2 runtime_ex_ok)).
  - lia.
  - apply waiting_cons. left. unfold re_has. cbn. lia.
Defined.

(** A block in the middle of an extent leaves its second half in front of its first:
    the list is out of order, and a block that is on it is added once more, so
    that it is counted twice. *)
Lemma del_breaks_order :
  exists l1 l2, vdfs2_runtime_extent_del 5 [RuntimeExtent 0 7 10] [] = Ret (0, l1, []) /\ waiting 2 l1 /\ vdfs2_runtime_extent_count l1 = 9 /\
    ~ in_order (-1) l1 /\ vdfs2_runtime_extent_add 2 7 l1 [] = (0, l2, []) /\ vdfs2_runtime_extent_count l2 = 10.
Proof.
  exists [RuntimeExtent 6 0 4; RuntimeExtent 0 7 5], [RuntimeExtent 2 7 1; RuntimeExtent 6 0 4; RuntimeExtent 0 7 5].
  split; [reflexivity|]. split; [right; left; unfold re_has; cbn; lia|]. split; [reflexivity|]. split; [cbn; lia|]. split; reflexivity.
Qed.
