(* ===== verification/Fork.v ===== *)
(** * The fork of an inode: its first extents, on disk and in memory ([extents.c]) *)
From Stdlib Require Import ZArith Lia.
From stdpp Require Import base numbers list.
From S2P Require Import Prelude Bits Bytes BtreeNode ExtTree ExtTreeFacts.

Definition VDFS2_EXTENTS_COUNT_IN_FORK : nat := 9.
Definition VDFS2_FORK_MAGIC : Z := 70.

(** sizeof(struct vdfs2_iextent); the fields of struct vdfs2_fork before the extents
    take 13 bytes: magic, [size_in_bytes] at 1, [total_blocks_count] at 9. *)
Definition IEXTENT_SIZE : Z := 20.
Definition FORK_EXTENTS : Z := 13.

Record vdfs2_fork_info := ForkInfo {
  total_block_count : Z;
  prealloc_block_count : Z;
  prealloc_start_block : Z;
  fork_extents : list vdfs2_extent_info;
  used_extents : Z;
}.

(** What the functions use of an inode; [special] is S_ISCHR or S_ISBLK of the mode. *)
Record fork_inode := ForkInode { i_size : Z; i_rdev : Z; i_blocks : Z; special : bool; fork : vdfs2_fork_info }.

Definition is_fork_valid (lfork : list Z) : bool := (lfork !!! 0%nat) =? VDFS2_FORK_MAGIC.

Definition lfork_extent (lfork : list Z) (i : nat) : vdfs2_extent_info :=
  let o := FORK_EXTENTS + IEXTENT_SIZE * Z.of_nat i in
  ExtentInfo (le64_at lfork o) (le64_at lfork (o + 12)) (le32_at lfork (o + 8)).

(** The loop of [vdfs2_lfork_to_rfork]: all extents are read, and those with a first
    block are counted. *)
Definition vdfs2_lfork_to_rfork (lfork : list Z) (rfork : vdfs2_fork_info) : vdfs2_fork_info :=
  let extents := map (lfork_extent lfork) (seq 0 VDFS2_EXTENTS_COUNT_IN_FORK) in
  ForkInfo (total_block_count rfork) (prealloc_block_count rfork) (prealloc_start_block rfork) extents
    (Z.of_nat (length (filter (fun e => first_block e <> 0) extents))).

Definition vdfs2_parse_fork (inode : fork_inode) (lfork : list Z) (block_size_shift : Z) : Z * fork_inode :=
  if negb (is_fork_valid lfork) then (- EINVAL, inode)
  else
    let size := le64_at lfork 1 in
    let total := le32_at lfork 9 in
    let ifork := vdfs2_lfork_to_rfork lfork (ForkInfo total 0 0 (fork_extents (fork inode)) (used_extents (fork inode))) in
    (0, ForkInode (if special inode then 0 else size) (if special inode then size else i_rdev inode)
          (u64 (Z.shiftl total (block_size_shift - 9))) (special inode) ifork).

Definition iextent_bytes (e : vdfs2_extent_info) : list Z := le64_bytes (first_block e) ++ le32_bytes (block_count e) ++ le64_bytes (iblock e).

(** The extents behind the used ones are cleared by the [memset]. *)
Definition vdfs2_form_fork (inode : fork_inode) : list Z :=
  let ifork := fork inode in
  if special inode then [VDFS2_FORK_MAGIC] ++ le64_bytes (i_rdev inode) ++ replicate 184 0
  else
    [VDFS2_FORK_MAGIC] ++ le64_bytes (i_size inode) ++ le32_bytes (total_block_count ifork) ++
    concat (map iextent_bytes (take (Z.to_nat (used_extents ifork)) (fork_extents ifork))) ++
    replicate (20 * (VDFS2_EXTENTS_COUNT_IN_FORK - Z.to_nat (used_extents ifork))) 0.

(** ** Facts *)

Lemma length_iextent e : length (iextent_bytes e) = 20%nat.
Proof. done. Qed.

Lemma length_iextents es : length (concat (map iextent_bytes es)) = (20 * length es)%nat.
Proof. induction es as [|e es IH]; [done|]. cbn [map concat]. rewrite length_app, IH, length_iextent. cbn [length]. lia. Qed.

Lemma read_iextent pre a e b : extent_ok e -> Z.of_nat (length pre) = FORK_EXTENTS -> 
  lfork_extent (pre ++ concat (map iextent_bytes a) ++ iextent_bytes e ++ b) (length a) = e.
Proof.
  intros (Hf & Hi & Hc) Hpre. unfold lfork_extent, iextent_bytes. rewrite app_assoc. set (p := pre ++ _).
  assert (Hp : FORK_EXTENTS + IEXTENT_SIZE * Z.of_nat (length a) = Z.of_nat (length p)).
  { unfold p, IEXTENT_SIZE. rewrite length_app, length_iextents. lia. }
  rewrite Hp, <-!app_assoc, le64_at_middle by done. rewrite (app_assoc p). rewrite le32_at_middle; [|rewrite length_app; cbn; lia|done].
  rewrite (app_assoc (p ++ _)). rewrite le64_at_middle; [by destruct e|rewrite !length_app; cbn; lia|done].
Qed.

Lemma zero_iextent_bytes : iextent_bytes (ExtentInfo 0 0 0) = replicate 20 0.
Proof. done. Qed.

(** The extents of a fork in memory: the used ones have blocks, the others are
    cleared. *)
Record fork_ok (f : vdfs2_fork_info) : Prop := {
  fo_length : length (fork_extents f) = VDFS2_EXTENTS_COUNT_IN_FORK;
  fo_used : 0 <= used_extents f <= 9;
  fo_extents : Forall extent_ok (fork_extents f);
  fo_blocks : Forall (fun e => first_block e <> 0) (take (Z.to_nat (used_extents f)) (fork_extents f));
  fo_rest : Forall (fun e => e = ExtentInfo 0 0 0) (drop (Z.to_nat (used_extents f)) (fork_extents f));
  fo_total : 0 <= total_block_count f < 2 ^ 32;
}.

Lemma zero_iextents k es : Forall (fun e => e = ExtentInfo 0 0 0) es -> length es = k -> concat (map iextent_bytes es) = replicate (20 * k) 0.
Proof.
  intros H <-. induction H as [|e es -> _ IH]; [done|]. cbn [map concat]. rewrite IH, zero_iextent_bytes, <-replicate_add. f_equal. cbn [length]. lia.
Qed.

Lemma form_fork_extents inode : special inode = false -> fork_ok (fork inode) ->
  vdfs2_form_fork inode = ([VDFS2_FORK_MAGIC] ++ le64_bytes (i_size inode) ++ le32_bytes (total_block_count (fork inode))) ++
    concat (map iextent_bytes (fork_extents (fork inode))).
Proof.
  intros Hs Hf. unfold vdfs2_form_fork. rewrite Hs. rewrite <-(take_drop (Z.to_nat (used_extents (fork inode))) (fork_extents (fork inode))) at 2.
  rewrite map_app, concat_app. rewrite (zero_iextents (VDFS2_EXTENTS_COUNT_IN_FORK - Z.to_nat (used_extents (fork inode))) _ (fo_rest _ Hf)).
  - by rewrite <-!app_assoc.
  - rewrite length_drop, (fo_length _ Hf). done.
Qed.

Lemma read_iextents pre es : Forall extent_ok es -> Z.of_nat (length pre) = FORK_EXTENTS ->
  map (lfork_extent (pre ++ concat (map iextent_bytes es))) (seq 0 (length es)) = es.
Proof.
  intros Hes Hpre. apply list_eq. intros i. rewrite list_lookup_fmap. destruct (decide (i < length es)%nat) as [Hi|Hi].
  - rewrite lookup_seq_lt by done. cbn. destruct (lookup_lt_is_Some_2 es i Hi) as [e He]. rewrite He. f_equal.
    pose proof (Forall_lookup_1 _ _ _ _ Hes He) as Heo. pose proof (take_drop_middle es i e He) as Hsplit. rewrite <-Hsplit.
    rewrite map_app, concat_app. cbn [map concat].
    pose proof (read_iextent pre (take i es) e (concat (map iextent_bytes (drop (S i) es))) Heo Hpre) as Hr. by rewrite length_take_le in Hr by lia.
  - rewrite !lookup_ge_None_2; [done|lia|rewrite length_seq; lia].
Qed.


Definition fork_ex : fork_inode :=
  ForkInode 10000 0 24 false (ForkInfo 3 0 0 (ExtentInfo 100 0 2 :: ExtentInfo 300 2 1 :: replicate 7 (ExtentInfo 0 0 0)) 2).

