(* ===== verification/CatTree.v ===== *)
(** * The catalog tree ([cattree.c]) and the reading of directories ([inode.c])

    The records of a directory are the records of the tree whose key has the id of
    the directory as its parent.  [tolower] of the kernel is a parameter. *)
From Stdlib Require Import ZArith Lia.
From stdpp Require Import base numbers list gmap.
From S2P Require Import Prelude Bits Bytes BtreeNode Bnode Btree ExtTree.

(** ** Keys *)

(** sizeof(struct vdfs2_cattree_key): the generic key, the type at 12, the parent at
    13, the length of the name at 21 and the name at 25. *)
Definition CATTREE_KEY_SIZE : Z := 280.
Definition VDFS2_MAX_BTREE_KEY_LEN : Z := CATTREE_KEY_SIZE + 1.
Definition VDFS2_CAT_MAX_NAME : Z := 255.

Definition cat_record_type (r : list Z) : Z := r !!! 12%nat.
Definition cat_parent_id (r : list Z) : Z := le64_at r 13.
Definition cat_name_length (r : list Z) : Z := le32_at r 21.
Definition unicode_str (r : list Z) : list Z := drop 25 r.

(** The loop over the names; [fold] is the identity or [tolower]. *)
Fixpoint name_diff (fold : Z -> Z) (i : nat) (ch1 ch2 : list Z) : Z :=
  match i with
  | O => 0
  | S i =>
      let diff := fold (ch1 !!! 0%nat) - fold (ch2 !!! 0%nat) in
      if negb (diff =? 0) then diff else name_diff fold i (tail ch1) (tail ch2)
  end.

Definition cattree_cmp (fold : Z -> Z) (key1 key2 : list Z) : Z :=
  if negb (cat_parent_id key1 =? cat_parent_id key2) then s32 (s64 (cat_parent_id key1) - s64 (cat_parent_id key2))
  else
    let diff := name_diff fold (Z.to_nat (s32 (Z.min (cat_name_length key1) (cat_name_length key2)))) (unicode_str key1) (unicode_str key2) in
    if negb (diff =? 0) then diff else s32 (cat_name_length key1 - cat_name_length key2).

Definition vdfs2_cattree_cmpfn : list Z -> list Z -> Z := cattree_cmp (fun ch => ch).
Definition vdfs2_cattree_cmpfn_ci (tolower : Z -> Z) : list Z -> list Z -> Z := cattree_cmp tolower.

(** The key that [vdfs2_cattree_find], [_remove] and [_get_first_child] allocate with
    [kzalloc] and fill; names have at most 255 bytes. *)
Definition cat_search_key (parent_id : Z) (name : list Z) : list Z :=
  replicate 13 0 ++ le64_bytes parent_id ++ le32_bytes (Z.of_nat (length name)) ++ name ++ replicate (255 - length name) 0.

(** ** Record types *)

Definition VDFS2_CATALOG_RECORD_DUMMY : Z := 0.
Definition VDFS2_CATALOG_FOLDER_RECORD : Z := 1.
Definition VDFS2_CATALOG_FILE_RECORD : Z := 2.
Definition VDFS2_CATALOG_HLINK_RECORD : Z := 3.
Definition VDFS2_CATALOG_PTREE_ROOT : Z := 128.
Definition VDFS2_CATALOG_PTREE_FOLDER : Z := 129.

(** The sizes of the values: [struct vdfs2_catalog_file_record], [..._folder_record],
    [..._hlink_record], [struct vdfs2_pack_insert_point_value]. *)
Definition FOLDER_RECORD_SIZE : Z := 78.
Definition FILE_RECORD_SIZE : Z := FOLDER_RECORD_SIZE + 193.
Definition HLINK_RECORD_SIZE : Z := 10.
Definition INSERT_POINT_SIZE : Z := 383.

Definition value_size (record_type : Z) : option Z :=
  if record_type =? VDFS2_CATALOG_FILE_RECORD then Some FILE_RECORD_SIZE
  else if (record_type =? VDFS2_CATALOG_FOLDER_RECORD) || (record_type =? VDFS2_CATALOG_RECORD_DUMMY) then Some FOLDER_RECORD_SIZE
  else if record_type =? VDFS2_CATALOG_HLINK_RECORD then Some HLINK_RECORD_SIZE
  else if record_type =? VDFS2_CATALOG_PTREE_ROOT then Some INSERT_POINT_SIZE
  else None.

Definition vdfs2_alloc_cattree_key (name_len record_type : Z) : bt (err_ptr (list Z)) :=
  let key_len := CATTREE_KEY_SIZE - 259 + 4 + (name_len + 1) in
  record_len ← lift (deref (value_size record_type));
  alloc_mem (
    let form_key := replicate (Z.to_nat (key_len + record_len)) 0 in
    let form_key := put_bytes form_key 4 (le32_bytes key_len) in
    let form_key := put_bytes form_key 8 (le32_bytes (key_len + record_len)) in
    ok (put_bytes form_key 12 [record_type])).

Definition vdfs2_fill_cattree_key (fill_key : list Z) (parent_id : Z) (name : list Z) : list Z :=
  let fill_key := put_bytes fill_key 21 (le32_bytes (Z.of_nat (length name))) in
  let fill_key := put_bytes fill_key 25 name in
  put_bytes fill_key 13 (le64_bytes parent_id).

(** An entry of a directory as the caller of [readdir] gets it: name, object id, type. *)
Abbreviation dirent := (list Z * Z * Z)%type.

Section cattree.
Context `{HS : !BitSearch}.
Context (node_size : Z) (mf : bool) (max_rec_len max_record_len : Z) (comp_fn : list Z -> list Z -> Z).

(** A record with its place: bnode, position and record. *)
Abbreviation place := (Z * Z * list Z)%type.

Abbreviation btree_find := (btree_find node_size mf VDFS2_MAX_BTREE_KEY_LEN comp_fn).
Abbreviation vdfs2_btree_find := (vdfs2_btree_find node_size mf VDFS2_MAX_BTREE_KEY_LEN comp_fn).
Abbreviation vdfs2_btree_insert := (vdfs2_btree_insert node_size mf VDFS2_MAX_BTREE_KEY_LEN comp_fn).
Abbreviation vdfs2_get_next_btree_record := (vdfs2_get_next_btree_record node_size mf).

(** The result and the bnode and position in [fd], which is empty at the call. *)
Definition vdfs2_cattree_find_old (parent_id : Z) (name : list Z) : bt (Z * option (Z * Z)) :=
  e ← ask;
  if negb (e =? 0) then mret (- ENOMEM, None)
  else
    let key := cat_search_key parent_id name in
    f ← btree_find key VDFS2_BTREE_LEAF_LVL;
    match f with
    | ERR_PTR e => mret (e, None)
    | PTR (bnode, pos) =>
        if pos =? -1 then (if mf then bug else mret (- EFAULT, Some (bnode, pos)))
        else
          r ← record_at node_size mf bnode pos;
          match r with
          | ERR_PTR e => mret (e, Some (bnode, pos))
          | PTR (_, found_key) => mret (if negb (comp_fn key found_key =? 0) then - ENOENT else 0, Some (bnode, pos))
          end
    end.

Definition vdfs2_cattree_find (parent_id : Z) (name : list Z) : bt (err_ptr place) :=
  alloc_mem (
    let key := cat_search_key parent_id name in
    '(bnode, pos, record) ←? vdfs2_btree_find key;
    if negb (comp_fn record key =? 0) then err (- ENOENT) else ok (bnode, pos, record)).

Definition vdfs2_cattree_place_record (parent_id : Z) (name : list Z) (record_type : Z) : bt (err_ptr place) :=
  insert_data ←? vdfs2_alloc_cattree_key (Z.of_nat (length name)) record_type;
  let insert_data := vdfs2_fill_cattree_key insert_data parent_id name in
  e ← vdfs2_btree_insert insert_data;
  if negb (e =? 0) then err e else vdfs2_cattree_find parent_id name.

Definition vdfs2_cattree_get_first_child (catalog_id : Z) : bt (err_ptr place) :=
  alloc_mem (
    '(bnode, pos, record) ←? vdfs2_btree_find (cat_search_key catalog_id []);
    if cat_parent_id record =? catalog_id then ok (bnode, pos, record)
    else vdfs2_get_next_btree_record bnode pos).

Definition vdfs2_cattree_get_next_record (record : place) : bt (err_ptr place) :=
  let '(bnode, pos, _) := record in vdfs2_get_next_btree_record bnode pos.

Definition vdfs2_cattree_remove (parent_id : Z) (name : list Z) : bt Z :=
  e ← ask;
  if negb (e =? 0) then mret (- ENOMEM)
  else vdfs2_btree_remove node_size mf VDFS2_MAX_BTREE_KEY_LEN max_rec_len max_record_len comp_fn (cat_search_key parent_id name).

(** ** Reading a directory *)

Definition DT_DIR : Z := 4.

(** The state of an open directory: [ctx->pos] and [filp->private_data]; and the entries
    given out in this call. *)
Record dir_context := DirContext { ctx_pos : Z; private_data : option (list Z); emitted : list dirent }.

(** [dir_emit]: whether the caller takes one more entry after those it has. *)
Context (takes : list dirent -> dirent -> bool).
Definition dir_emit (ctx : dir_context) (e : dirent) : bool * dir_context :=
  if takes (emitted ctx) e then (true, DirContext (ctx_pos ctx) (private_data ctx) (emitted ctx ++ [e])) else (false, ctx).
Definition advance (ctx : dir_context) : dir_context := DirContext (ctx_pos ctx + 1) (private_data ctx) (emitted ctx).
Definition set_private (ctx : dir_context) p : dir_context := DirContext (ctx_pos ctx) p (emitted ctx).

(** C strings: the bytes before the first zero. *)
Fixpoint c_string (l : list Z) : list Z :=
  match l with [] => [] | x :: l => if x =? 0 then [] else x :: c_string l end.
Definition strncpy (n : nat) (src : list Z) : list Z := let s := take n (c_string src) in s ++ replicate (n - length s) 0.
(** [strlen] of a buffer without a zero reads behind it. *)
Definition buffer_string (buf : list Z) : outcome (list Z) := if decide (0 ∈ buf) then Ret (c_string buf) else Bug.

(** [IFTODT] *)
Definition mode_type (mode : Z) : Z := Z.shiftr (Z.land mode 61440) 12.

Definition le16_at (d : list Z) (o : Z) : Z := (d !!! Z.to_nat o) + 256 * (d !!! Z.to_nat (o + 1)).

(** Object id and mode in the value of a record; [start_ino] is that of an installed
    image. *)
Definition record_object (start_ino : Z) (r : list Z) : Z * Z :=
  let val := VDFS2_KEY_LEN r in
  let record_type := cat_record_type r in
  if VDFS2_CATALOG_PTREE_FOLDER <=? record_type then (u64 (le64_at r (val + 16) + start_ino), le16_at r (val + 24))
  else if record_type =? VDFS2_CATALOG_PTREE_ROOT then (le64_at r (val + 16), le16_at r (val + 24))
  else if record_type =? VDFS2_CATALOG_HLINK_RECORD then (le64_at r val, le16_at r (val + 8))
  else (le64_at r (val + 24), le16_at r (val + 32)).

Definition dirent_of (start_ino : Z) (r : list Z) : dirent :=
  let '(obj_id, object_mode) := record_object start_ino r in
  (take (Z.to_nat (cat_name_length r)) (unicode_str r), obj_id, mode_type object_mode).

Fixpoint readdir_loop (fuel : nat) (start_ino catalog_id : Z) (record : place) (ctx : dir_context) : bt (Z * dir_context) :=
  match fuel with
  | O => bug
  | S fuel =>
      let '(_, _, r) := record in
      if negb (cat_parent_id r =? catalog_id) then mret (0, ctx)
      else
        match dir_emit ctx (dirent_of start_ino r) with
        | (false, ctx) =>
            e ← (match private_data ctx with None => ask | Some _ => mret 0 end);
            if negb (e =? 0) then mret (- ENOMEM, ctx)
            else mret (0, set_private ctx (Some (strncpy (Z.to_nat VDFS2_CAT_MAX_NAME) (unicode_str r))))
        | (true, ctx) =>
            let ctx := advance ctx in
            n ← vdfs2_cattree_get_next_record record;
            match n with
            | ERR_PTR e => if e =? - ENOENT then mret (0, set_private ctx None) else mret (e, ctx)
            | PTR (bnode, pos, r) =>
                if negb (cat_parent_id r =? catalog_id) then mret (0, set_private ctx None)
                else readdir_loop fuel start_ino catalog_id (bnode, pos, r) ctx
            end
        end
  end.

Definition EISDIR : Z := 21.

(** From the search on; [fuel] bounds the number of records that are read. *)
Definition readdir_records (fuel : nat) (start_ino catalog_id : Z) (ctx : dir_context) : bt (Z * dir_context) :=
  record ← (match private_data ctx with
            | None => vdfs2_cattree_get_first_child catalog_id
            | Some buf => name ← lift (buffer_string buf); vdfs2_cattree_find catalog_id name
            end);
  match record with
  | ERR_PTR e => mret (if e =? - EISDIR then 0 else e, ctx)
  | PTR record => readdir_loop fuel start_ino catalog_id record ctx
  end.

(** [i_ino] and [parent_ino] are the numbers of the directory and its parent. *)
Definition vdfs2_readdir (fuel : nat) (start_ino catalog_id i_ino parent_ino : Z) (ctx : dir_context) : bt (Z * dir_context) :=
  let dotdot ctx :=
    match dir_emit ctx ([46; 46], parent_ino, DT_DIR) with
    | (false, ctx) => mret (0, ctx)
    | (true, ctx) => readdir_records fuel start_ino catalog_id (advance ctx)
    end in
  if ctx_pos ctx =? 0 then
    match dir_emit ctx ([46], i_ino, DT_DIR) with
    | (false, ctx) => mret (0, ctx)
    | (true, ctx) => dotdot (advance ctx)
    end
  else if ctx_pos ctx =? 1 then dotdot ctx
  else
    match private_data ctx with
    | None => mret (0, ctx)
    | Some _ => readdir_records fuel start_ino catalog_id ctx
    end.
End cattree.
