(* ===== verification/CatTreeFacts.v ===== *)
(** * Facts on the catalog tree: the order of its keys, its records, its directories *)
From Stdlib Require Import ZArith Lia.
From stdpp Require Import base numbers list sets gmap sorting.
From S2P Require Import Prelude Bits BitsFacts Bytes BtreeNode BtreeNodeFacts BtreeNodeOps Bnode BnodeIds Btree BtreeKeys BtreeSpec BtreeFind BtreeLookup.
From S2P Require Import BtreeInsert BtreeTree TreeMap ExtTree ExtTreeFacts CatTree.

(** ** The order of strings *)

Fixpoint lex (a b : list Z) : Z :=
  match a, b with
  | [], [] => 0
  | [], _ :: _ => -1
  | _ :: _, [] => 1
  | x :: a, y :: b => if x <? y then -1 else if y <? x then 1 else lex a b
  end.

Lemma lex_range a b : lex a b = -1 \/ lex a b = 0 \/ lex a b = 1.
Proof. revert b. induction a as [|x a IH]; intros [|y b]; cbn; try lia. destruct (x <? y); [lia|]. destruct (y <? x); [lia|]. apply IH. Qed.

Lemma lex_flip a b : lex a b = - lex b a.
Proof. revert b. induction a as [|x a IH]; intros [|y b]; cbn; try lia. destruct (Z.ltb_spec x y), (Z.ltb_spec y x); try lia. apply IH. Qed.

Lemma lex_trans a b c : lex a b <= 0 -> lex b c <= 0 -> lex a c <= 0.
Proof.
  revert b c. induction a as [|x a IH]; intros [|y b] [|z c]; cbn; try lia.
  destruct (Z.ltb_spec x y), (Z.ltb_spec y x), (Z.ltb_spec y z), (Z.ltb_spec z y), (Z.ltb_spec x z), (Z.ltb_spec z x); try lia. apply IH.
Qed.

Lemma lex_eq a b : lex a b = 0 <-> a = b.
Proof.
  revert b. induction a as [|x a IH]; intros [|y b]; cbn; try (split; [lia|done]); [done|].
  destruct (Z.ltb_spec x y), (Z.ltb_spec y x); [lia|split; [lia|intros [=]; lia]|split; [lia|intros [=]; lia]|].
  rewrite IH. assert (x = y) as -> by lia. split; [by intros ->|by intros [= ->]].
Qed.

(** The comparison of two names as the code does it. *)
Lemma name_diff_lex fold (a b : list Z) :
  let diff := name_diff fold (Nat.min (length a) (length b)) a b in
  Z.sgn (if negb (diff =? 0) then diff else Z.of_nat (length a) - Z.of_nat (length b)) = lex (map fold a) (map fold b).
Proof.
  revert b. induction a as [|x a IH]; intros [|y b]; cbn [length Nat.min name_diff map lex].
  - done.
  - change (negb (0 =? 0)) with false. cbn iota. lia.
  - change (negb (0 =? 0)) with false. cbn iota. lia.
  - cbv zeta. change ((x :: a) !!! 0%nat) with x. change ((y :: b) !!! 0%nat) with y. cbn [tail].
    destruct (Z.ltb_spec (fold x) (fold y)); [|destruct (Z.ltb_spec (fold y) (fold x))].
    + rewrite (proj2 (Z.eqb_neq (fold x - fold y) 0)) by lia. cbn [negb]. rewrite (proj2 (Z.eqb_neq (fold x - fold y) 0)) by lia. cbn [negb]. lia.
    + rewrite (proj2 (Z.eqb_neq (fold x - fold y) 0)) by lia. cbn [negb]. rewrite (proj2 (Z.eqb_neq (fold x - fold y) 0)) by lia. cbn [negb]. lia.
    + rewrite (proj2 (Z.eqb_eq (fold x - fold y) 0)) by lia. cbn [negb]. specialize (IH b). cbv zeta in IH. rewrite <-IH.
      destruct (negb _); [done|]. f_equal. lia.
Qed.

Lemma name_diff_take fold n a b : (n <= length a)%nat -> (n <= length b)%nat -> forall i j, (n <= i)%nat -> (n <= j)%nat -> name_diff fold n a b = name_diff fold n (take i a) (take j b).
Proof.
  revert a b. induction n as [|n IH]; intros [|x a] [|y b] Ha Hb [|i] [|j] Hi Hj; cbn [length] in *; try lia; cbn [name_diff take]; [done..|].
  change ((x :: a) !!! 0%nat) with x. change ((y :: b) !!! 0%nat) with y. change ((x :: take i a) !!! 0%nat) with x. change ((y :: take j b) !!! 0%nat) with y.
  cbn [tail]. rewrite (IH a b ltac:(lia) ltac:(lia) i j) by lia. done.
Qed.

(** ** The order of the keys *)

Definition cat_name (r : list Z) : list Z := take (Z.to_nat (cat_name_length r)) (unicode_str r).

Record cat_key_ok (k : list Z) : Prop := {
  ck_bytes : Forall is_byte k;
  ck_name : 25 + cat_name_length k <= Z.of_nat (length k);
  ck_length : cat_name_length k <= 255;
  ck_parent : cat_parent_id k < 2 ^ 31;
}.

Definition cat_valid_key (k : list Z) : Prop := cat_key_ok k /\ VDFS2_KEY_LEN k = 26 + cat_name_length k /\ VDFS2_KEY_LEN k <= Z.of_nat (length k).

Lemma cat_ranges k : cat_key_ok k -> 0 <= cat_name_length k <= 255 /\ 0 <= cat_parent_id k < 2 ^ 31 /\ length (cat_name k) = Z.to_nat (cat_name_length k).
Proof.
  intros [Hb Hn Hl Hp]. pose proof (le32_at_range k 21 Hb). pose proof (le64_at_range k 13 Hb). unfold cat_name, cat_name_length, cat_parent_id, unicode_str in *.
  split_and!; try lia. rewrite length_take, length_drop. lia.
Qed.

(** Comparing keys is comparing parents, then names. *)
Definition cat_order (fold : Z -> Z) (a b : list Z) : Z :=
  if cat_parent_id a =? cat_parent_id b then lex (map fold (cat_name a)) (map fold (cat_name b)) else Z.sgn (cat_parent_id a - cat_parent_id b).

Lemma cattree_cmp_order fold a b : cat_key_ok a -> cat_key_ok b -> Z.sgn (cattree_cmp fold a b) = cat_order fold a b.
Proof.
  intros Ha Hb. destruct (cat_ranges a Ha) as (Hla & Hpa & Hna), (cat_ranges b Hb) as (Hlb & Hpb & Hnb). unfold cattree_cmp, cat_order.
  destruct (Z.eqb_spec (cat_parent_id a) (cat_parent_id b)) as [He|Hne]; cbn [negb].
  - pose proof (name_diff_lex fold (cat_name a) (cat_name b)) as Hl. cbv zeta in Hl |- *.
    rewrite (s32_small (Z.min _ _)), (s32_small (_ - _)) by lia.
    set (n := Z.to_nat (Z.min (cat_name_length a) (cat_name_length b))).
    assert (Hn : Nat.min (length (cat_name a)) (length (cat_name b)) = n) by (unfold n; rewrite Hna, Hnb; lia). rewrite Hn, Hna, Hnb in Hl.
    destruct Ha as [_ Ha _ _], Hb as [_ Hb _ _].
    rewrite (name_diff_take fold n (unicode_str a) (unicode_str b)) with (i := Z.to_nat (cat_name_length a)) (j := Z.to_nat (cat_name_length b));
      [|unfold unicode_str; rewrite length_drop; lia|unfold unicode_str; rewrite length_drop; lia|lia|lia].
    change (take _ (unicode_str a)) with (cat_name a). change (take _ (unicode_str b)) with (cat_name b).
    rewrite <-Hl. destruct (negb _); [done|]. f_equal. lia.
  - rewrite !s64_small, s32_small by lia. done.
Qed.

Lemma cat_order_flip fold a b : cat_order fold a b = - cat_order fold b a.
Proof.
  unfold cat_order. destruct (Z.eqb_spec (cat_parent_id a) (cat_parent_id b)), (Z.eqb_spec (cat_parent_id b) (cat_parent_id a)); try lia. apply lex_flip.
Qed.

Lemma cat_order_trans fold a b c : cat_order fold a b <= 0 -> cat_order fold b c <= 0 -> cat_order fold a c <= 0.
Proof.
  unfold cat_order. destruct (Z.eqb_spec (cat_parent_id a) (cat_parent_id b)), (Z.eqb_spec (cat_parent_id b) (cat_parent_id c)),
    (Z.eqb_spec (cat_parent_id a) (cat_parent_id c)); try lia. apply lex_trans.
Qed.

(** A stored key keeps parent and name. *)
Lemma stored_bytes key kl L r o n : 12 <= o -> 0 <= n -> o + n <= kl -> stored key kl L r -> bytes_at r o n = bytes_at key o n.
Proof.
  intros Ho Hn Hk [_ Hr]. replace (bytes_at r o n) with (bytes_at (bytes_at r 0 kl) o n) by (by rewrite bytes_at_nested by lia).
  rewrite Hr, bytes_at_put_other by (rewrite ?length_le32_bytes; lia). by rewrite bytes_at_nested by lia.
Qed.

Lemma cat_name_bytes k : 0 <= cat_name_length k -> cat_name k = bytes_at k 25 (cat_name_length k).
Proof. done. Qed.

#[export] Instance cattree_keys fold : KeyLaws (cattree_cmp fold) cat_key_ok cat_valid_key VDFS2_MAX_BTREE_KEY_LEN.
Proof.
  unfold cat_valid_key, VDFS2_MAX_BTREE_KEY_LEN, CATTREE_KEY_SIZE. split; unfold GENERIC_KEY_SIZE.
  - tauto.
  - intros r (Hk & Hkl & Hl). destruct (cat_ranges r Hk). lia.
  - intros r (Hk & _). apply Hk.
  - intros a b Ha Hb. rewrite !cattree_cmp_order by done. apply cat_order_flip.
  - intros a b c Ha Hb Hc H1 H2. pose proof (cattree_cmp_order fold a b Ha Hb). pose proof (cattree_cmp_order fold b c Hb Hc).
    pose proof (cattree_cmp_order fold a c Ha Hc). pose proof (cat_order_trans fold a b c). lia.
  - intros key L r (Hk & Hkl & Hl) HL Hbr Hst. destruct (cat_ranges key Hk) as (Hn & Hp & _). pose proof Hst as [Hlen _].
    assert (Hnl : cat_name_length r = cat_name_length key) by (apply (stored_le32_at key (VDFS2_KEY_LEN key) L); [lia|lia|done]).
    assert (Hpar : cat_parent_id r = cat_parent_id key) by (apply (stored_le64_at key (VDFS2_KEY_LEN key) L); [lia|lia|done]).
    assert (Hnm : cat_name r = cat_name key).
    { rewrite !cat_name_bytes, Hnl by lia. apply (stored_bytes key (VDFS2_KEY_LEN key) L); [lia|lia|lia|done]. }
    assert (Hkr : cat_key_ok r) by (split; [done|lia|lia|rewrite Hpar; apply Hk]).
    assert (HKL : VDFS2_KEY_LEN r = VDFS2_KEY_LEN key) by (apply (stored_key_len key L); unfold GENERIC_KEY_SIZE; [apply Hk|lia|lia|lia|done]).
    split; [split; [done|split; lia]|]. pose proof (cattree_cmp_order fold r key Hkr Hk) as Ho. unfold cat_order in Ho.
    rewrite Hpar, Hnm, Z.eqb_refl, (proj2 (lex_eq _ _) eq_refl) in Ho. lia.
Qed.

(** ** Search keys and new records *)

Definition name_ok (name : list Z) : Prop := Forall is_byte name /\ (length name <= 255)%nat.
Definition parent_ok (id : Z) : Prop := 0 <= id < 2 ^ 31.

Lemma take_app_name (a name b : list Z) n : n = length name -> take n (name ++ b) = name.
Proof. intros ->. apply take_app_length. Qed.

Lemma cat_search_key_ok id name : parent_ok id -> name_ok name ->
  let k := cat_search_key id name in cat_key_ok k /\ cat_parent_id k = id /\ cat_name k = name.
Proof.
  intros Hid [Hb Hl] k. unfold parent_ok in Hid.
  assert (Hn : cat_name_length k = Z.of_nat (length name)).
  { unfold cat_name_length, k, cat_search_key. rewrite (app_assoc (replicate 13 0)). apply le32_at_middle; [done|lia]. }
  assert (Hp : cat_parent_id k = id) by (apply (le64_at_middle (replicate 13 0)); [done|lia]).
  split; [|split; [done|]].
  - split; [|rewrite Hn; unfold k, cat_search_key|lia|lia].
    + unfold k, cat_search_key. rewrite !Forall_app. split_and!; [by apply Forall_replicate|apply bytes_le64|apply bytes_le32|done|by apply Forall_replicate].
    + rewrite !length_app, !length_replicate, length_le32_bytes. change (length (le64_bytes id)) with 8%nat. lia.
  - unfold cat_name. rewrite Hn, Nat2Z.id. change (unicode_str k) with (name ++ replicate (255 - length name) 0). by apply take_app_length.
Qed.

(** The record [vdfs2_cattree_place_record] inserts: the value is zero. *)
Definition cat_new_record (id : Z) (name : list Z) (type size : Z) : list Z :=
  let kl := 26 + Z.of_nat (length name) in
  replicate 4 0 ++ le32_bytes kl ++ le32_bytes (kl + size) ++ [type] ++ le64_bytes id ++ le32_bytes (Z.of_nat (length name)) ++ name ++ [0] ++
  replicate (Z.to_nat size) 0.

Lemma cat_record_filled id name type size : 0 <= size ->
  let kl := 26 + Z.of_nat (length name) in
  vdfs2_fill_cattree_key (put_bytes (put_bytes (put_bytes (replicate (Z.to_nat (kl + size)) 0) 4 (le32_bytes kl)) 8 (le32_bytes (kl + size))) 12 [type]) id name
    = cat_new_record id name type size.
Proof.
  intros Hs kl. unfold cat_new_record. fold kl.
  assert (Hz : replicate (Z.to_nat (kl + size)) 0 = replicate 4 0 ++ replicate 4 0 ++ replicate 4 0 ++ [0] ++ replicate 8 0 ++ replicate 4 0 ++
    replicate (length name) 0 ++ [0] ++ replicate (Z.to_nat size) 0).
  { change [0] with (replicate 1 0). rewrite <-!replicate_add. f_equal. lia. }
  rewrite Hz. set (z := replicate (Z.to_nat size) 0). unfold vdfs2_fill_cattree_key.
  rewrite (put_middle (replicate 4 0)) by done.
  rewrite (app_assoc (replicate 4 0)), (put_middle (_ ++ _)) by done.
  rewrite (app_assoc (_ ++ _) (le32_bytes (kl + size))), (put_middle (_ ++ _)) by done.
  rewrite (app_assoc (_ ++ _) [type]), (app_assoc (_ ++ _) (replicate 8 0)), (put_middle (_ ++ _)) by done.
  rewrite (app_assoc (_ ++ _) (le32_bytes _)), (put_middle (_ ++ _)); [|done|by rewrite length_replicate].
  rewrite <-!app_assoc. rewrite (app_assoc (replicate 4 0)), (app_assoc (_ ++ _) (le32_bytes (kl + size))), (app_assoc (_ ++ _) [type]).
  rewrite (put_middle (_ ++ _)) by done. by rewrite <-!app_assoc.
Qed.

Lemma cat_new_record_ok N id name type size :
  128 <= N < 65536 -> parent_ok id -> name_ok name -> is_byte type -> 4 <= size -> 26 + Z.of_nat (length name) + size <= N / 2 - 42 ->
  let r := cat_new_record id name type size in
  good_record N cat_valid_key r /\ cat_parent_id r = id /\ cat_name r = name /\ cat_record_type r = type /\ VDFS2_KEY_LEN r = 26 + Z.of_nat (length name).
Proof.
  intros HN Hid [Hb Hl] Ht Hs Hfit r. unfold parent_ok in Hid. set (kl := 26 + Z.of_nat (length name)) in *.
  assert (Hkl : VDFS2_KEY_LEN r = kl) by (apply (le32_at_middle (replicate 4 0)); [done|lia]).
  assert (Hrl : VDFS2_RECORD_LEN r = kl + size).
  { unfold VDFS2_RECORD_LEN, r, cat_new_record. fold kl. rewrite (app_assoc (replicate 4 0)). apply le32_at_middle; [done|lia]. }
  assert (Hnl : cat_name_length r = Z.of_nat (length name)).
  { unfold cat_name_length, r, cat_new_record. fold kl. rewrite (app_assoc (replicate 4 0)), (app_assoc (_ ++ _) (le32_bytes (kl + size))), (app_assoc (_ ++ _) [type]), (app_assoc (_ ++ _) (le64_bytes id)).
    apply le32_at_middle; [done|lia]. }
  assert (Hp : cat_parent_id r = id).
  { unfold cat_parent_id, r, cat_new_record. fold kl. rewrite (app_assoc (replicate 4 0)), (app_assoc (_ ++ _) (le32_bytes (kl + size))), (app_assoc (_ ++ _) [type]).
    apply le64_at_middle; [done|lia]. }
  assert (Hlen : Z.of_nat (length r) = kl + size).
  { unfold r, cat_new_record. rewrite !length_app, !length_replicate, !length_le32_bytes. change (length (le64_bytes id)) with 8%nat. cbn [length]. unfold kl. lia. }
  assert (Hnm : cat_name r = name).
  { unfold cat_name. rewrite Hnl, Nat2Z.id. change (unicode_str r) with (name ++ [0] ++ replicate (Z.to_nat size) 0). apply take_app_length. }
  assert (Hby : Forall is_byte r).
  { unfold r, cat_new_record. rewrite !Forall_app. split_and!; try apply bytes_le32; try apply bytes_le64; try (by apply Forall_replicate); [by constructor|done|].
    by repeat constructor. }
  split; [|done]. split; [|by rewrite Hrl, Hlen]. assert (Hko : cat_key_ok r) by (split; [done|lia..]). split.
  - split; [done|]. lia.
  - split; unfold GENERIC_KEY_SIZE; try done; lia.
  - lia.
Qed.
