(* ===== verification/CatTreeTheorems.v ===== *)
(** * The properties of the catalog tree

    The witnesses use a catalog with nodes of 1024 bytes. *)
From Stdlib Require Import ZArith Lia.
From stdpp Require Import base numbers list sets gmap sorting.
From S2P Require Import Prelude Bits BitsFacts Bytes BtreeNode BtreeNodeFacts BtreeNodeOps Bnode BnodeIds Btree BtreeKeys BtreeSpec BtreeFind BtreeLookup.
From S2P Require Import BtreeInsert BtreeTree BtreeExamples TreeMap ExtTree ExtTreeFacts CatTree CatTreeFacts.

(** ** Directories as parts of the list of leaf records *)

Definition children (id : Z) (rs : list (list Z)) : list (list Z) := filter (fun r => cat_parent_id r = id) rs.

(** The record of a name in a directory. *)
Definition entry (fold : Z -> Z) (id : Z) (name : list Z) (rs : list (list Z)) : option (list Z) := rec_of (cattree_cmp fold) (cat_search_key id name) rs.

(** What the code that makes names guarantees: they are not empty, have no zero byte and
    leave room for a final zero, which is there. *)
Definition name_stored (r : list Z) : Prop :=
  cat_name r <> [] /\ 0 ∉ cat_name r /\ (length (cat_name r) < 255)%nat /\ exists tl, unicode_str r = cat_name r ++ 0 :: tl.

Section catalog.
Context (fold : Z -> Z).

Abbreviation entry := (entry fold).

Lemma valid_keys rs : Forall cat_valid_key rs -> Forall cat_key_ok rs.
Proof using Type. intros H. eapply Forall_impl; [exact H|]. by intros x [Hx _]. Qed.

(** Parents grow along the list. *)
Lemma sorted_parents a b : cat_valid_key a -> cat_valid_key b -> cattree_cmp fold a b < 0 -> cat_parent_id a <= cat_parent_id b.
Proof using Type.
  intros [Ha _] [Hb _] Hc. pose proof (cattree_cmp_order fold a b Ha Hb) as Ho. unfold cat_order in Ho.
  destruct (Z.eqb_spec (cat_parent_id a) (cat_parent_id b)); lia.
Qed.

Lemma directory_split id rs : Forall cat_valid_key rs -> sorted (cattree_cmp fold) rs ->
  exists A B, rs = A ++ children id rs ++ B /\ Forall (fun r => cat_parent_id r < id) A /\ Forall (fun r => id < cat_parent_id r) B.
Proof using Type.
  unfold children. induction rs as [|x rs IH]; intros Hv Hs; [by exists [], []|]. apply Forall_cons in Hv as [Hx Hv]. apply sorted_first in Hs as [Hs Hxs].
  destruct (IH Hv Hs) as (A & B & Heq & HA & HB).
  assert (Hge : Forall (fun r => cat_parent_id x <= cat_parent_id r) rs).
  { rewrite Forall_forall in Hv, Hxs |- *. intros r Hr. by apply sorted_parents; [|apply Hv|apply Hxs]. }
  destruct (Z.lt_trichotomy (cat_parent_id x) id) as [Hlt|[He|Hgt]].
  - exists (x :: A), B. rewrite filter_cons_False by lia. cbn [app]. rewrite <-Heq. split; [done|]. split; [by constructor|done].
  - exists [], B. rewrite filter_cons_True by done. assert (HA0 : A = []).
    { destruct A as [|y A]; [done|]. apply Forall_cons in HA as [Hy _]. rewrite Heq in Hge. apply Forall_cons in Hge as [Hge _]. lia. }
    rewrite HA0 in Heq. cbn [app] in *. rewrite <-Heq. done.
  - exists [], (x :: rs). assert (Hall : Forall (fun r => id < cat_parent_id r) (x :: rs)).
    { constructor; [done|]. eapply Forall_impl; [exact Hge|]. cbn. intros r Hr. lia. }
    rewrite (filter_none _ (x :: rs)); [done|]. eapply Forall_impl; [exact Hall|]. cbn. intros r Hr. lia.
Qed.

(** A key against the keys of a directory. *)
Lemma search_cmp r id name : cat_key_ok r -> parent_ok id -> name_ok name ->
  Z.sgn (cattree_cmp fold r (cat_search_key id name)) =
    if cat_parent_id r =? id then lex (map fold (cat_name r)) (map fold name) else Z.sgn (cat_parent_id r - id).
Proof using Type.
  intros Hr Hid Hn. destruct (cat_search_key_ok id name Hid Hn) as (Hk & Hp & Hnm). rewrite cattree_cmp_order by done. unfold cat_order. by rewrite Hp, Hnm.
Qed.

Lemma search_cmp0 r id name : cat_key_ok r -> parent_ok id -> name_ok name ->
  cattree_cmp fold r (cat_search_key id name) = 0 <-> cat_parent_id r = id /\ map fold (cat_name r) = map fold name.
Proof using Type.
  intros Hr Hid Hn. pose proof (search_cmp r id name Hr Hid Hn) as Hc. destruct (Z.eqb_spec (cat_parent_id r) id) as [He|Hne].
  - rewrite <-lex_eq. lia.
  - split; [lia|tauto].
Qed.

(** The key of a new record finds what a search for its name finds. *)
Lemma rec_of_new id name type size rs : Forall cat_key_ok rs -> parent_ok id -> name_ok name ->
  let new := cat_new_record id name type size in cat_key_ok new -> cat_parent_id new = id -> cat_name new = name ->
  rec_of (cattree_cmp fold) new rs = entry id name rs.
Proof using Type.
  intros Hrs Hid Hn new Hk Hp Hnm. unfold CatTreeTheorems.entry, rec_of. f_equal. induction Hrs as [|r rs Hr _ IH]; [done|].
  assert (Hiff : cattree_cmp fold r new = 0 <-> cattree_cmp fold r (cat_search_key id name) = 0).
  { pose proof (search_cmp r id name Hr Hid Hn) as H1. pose proof (cattree_cmp_order fold r new Hr Hk) as H2. unfold cat_order in H2. rewrite Hp, Hnm in H2. lia. }
  destruct (decide (cattree_cmp fold r new = 0)) as [H0|H0].
  - rewrite !filter_cons_True by tauto. by rewrite IH.
  - rewrite !filter_cons_False by tauto. done.
Qed.

(** ** Search and insertion *)

Context `{HS : !BitSearch} `{HBL : !BitSearchLaws}.
Context (N : Z) (mf : bool) (HN : 128 <= N < 65536).
Abbreviation tree_ok := (tree_ok N (cattree_cmp fold) cat_valid_key).

Lemma cattree_find_ok t l0 us id name :
  tree_ok t (l0 :: us) -> parent_ok id -> name_ok name ->
  match entry id name (recs l0) with
  | None => vdfs2_cattree_find N mf (cattree_cmp fold) id name t = Ret (ERR_PTR (- ENOENT), t)
  | Some r => exists bn pos rest, vdfs2_cattree_find N mf (cattree_cmp fold) id name t = Ret (PTR (bn, pos, r), t) /\ at_place l0 bn pos r rest
  end.
Proof using HN.
  intros Ht Hid Hn. destruct (cat_search_key_ok id name Hid Hn) as (Hk & _). pose proof (eo_answers _ _ (to_env _ _ _ _ _ Ht)) as Ha.
  pose proof (find_at N mf VDFS2_MAX_BTREE_KEY_LEN (cattree_cmp fold) cat_key_ok cat_valid_key HN t l0 us _ Ht Hk) as Hf. unfold entry.
  unfold vdfs2_cattree_find. rewrite (alloc_mem_Ret _ t Ha). destruct (last_not_above _ _ _) as [r|].
  - destruct Hf as (bn & pos & rest & Hf & Hat & _ & _ & _ & ->). cbv zeta. rewrite (bt_ptr _ _ _ _ _ Hf). cbv beta iota.
    destruct (cattree_cmp fold r _ =? 0); [by exists bn, pos, rest|done].
  - destruct Hf as (Hf & -> & _). cbv zeta. by rewrite (bt_ptr_err _ _ _ _ _ Hf).
Qed.

(** The catalog starts with the record of the root directory. *)
Definition below_root (id : Z) (rs : list (list Z)) : Prop := exists h, head rs = Some h /\ cat_parent_id h < id.

Lemma alloc_key_ok t len type size : answers t = [] -> value_size type = Some size ->
  vdfs2_alloc_cattree_key len type t =
    Ret (PTR (put_bytes (put_bytes (put_bytes (replicate (Z.to_nat (26 + len + size)) 0) 4 (le32_bytes (26 + len))) 8 (le32_bytes (26 + len + size))) 12 [type]), t).
Proof using Type.
  intros Ha Hs. unfold vdfs2_alloc_cattree_key. replace (CATTREE_KEY_SIZE - 259 + 4 + (len + 1)) with (26 + len) by (unfold CATTREE_KEY_SIZE; ring). cbv zeta.
  rewrite (bt_step _ _ t size t) by (rewrite Hs; reflexivity). by rewrite (alloc_mem_Ret _ t Ha).
Qed.

Lemma place_record_ok t l0 us id name type size :
  tree_ok t (l0 :: us) -> room_for_insert t -> parent_ok id -> name_ok name -> is_byte type -> value_size type = Some size ->
  26 + Z.of_nat (length name) + size <= N / 2 - 42 -> below_root id (recs l0) ->
  match entry id name (recs l0) with
  | Some _ => vdfs2_cattree_place_record N mf (cattree_cmp fold) id name type t = Ret (ERR_PTR (- EEXIST), t)
  | None => exists t' l0' us' bn pos, let new := cat_new_record id name type size in
      vdfs2_cattree_place_record N mf (cattree_cmp fold) id name type t = Ret (PTR (bn, pos, new), t') /\ tree_ok t' (l0' :: us') /\
      forall id' name', parent_ok id' -> name_ok name' ->
        entry id' name' (recs l0') = if bool_decide (id' = id /\ map fold name' = map fold name) then Some new else entry id' name' (recs l0)
  end.
Proof using HN HBL.
  intros Ht Hroom Hid Hn Hty Hsz Hfit (h & Hh & Hhp). set (new := cat_new_record id name type size).
  assert (Hs4 : 4 <= size).
  { revert Hsz. unfold value_size. repeat case_match; try done; intros [= <-]; cbv; discriminate. }
  destruct (cat_new_record_ok N id name type size HN Hid Hn Hty Hs4 Hfit) as (Hgood & Hp & Hnm & _). fold new in Hgood, Hp, Hnm.
  pose proof (eo_answers _ _ (to_env _ _ _ _ _ Ht)) as Ha. destruct (tree_recs N (cattree_cmp fold) cat_valid_key t l0 us Ht) as [Hv Hs].
  assert (Hnk : cat_key_ok new) by apply (nr_valid _ _ _ _ (proj1 Hgood)).
  pose proof (rec_of_new id name type size (recs l0) (valid_keys _ Hv) Hid Hn Hnk Hp Hnm) as Hrec. fold new in Hrec.
  pose proof (insert_at N mf VDFS2_MAX_BTREE_KEY_LEN (cattree_cmp fold) cat_key_ok cat_valid_key HN t l0 us new Ht Hgood Hroom) as Hi.
  pose proof (find_at N mf VDFS2_MAX_BTREE_KEY_LEN (cattree_cmp fold) cat_key_ok cat_valid_key HN t l0 us new Ht Hnk) as Hf.
  assert (Hpl : vdfs2_cattree_place_record N mf (cattree_cmp fold) id name type t =
    (e ← vdfs2_btree_insert N mf VDFS2_MAX_BTREE_KEY_LEN (cattree_cmp fold) new;
     if negb (e =? 0) then err e else vdfs2_cattree_find N mf (cattree_cmp fold) id name) t).
  { unfold vdfs2_cattree_place_record. rewrite (bt_ptr _ _ _ _ _ (alloc_key_ok t (Z.of_nat (length name)) type size Ha Hsz)). cbv zeta.
    by rewrite (cat_record_filled id name type size) by lia. }
  destruct (last_not_above _ _ _) as [r|] eqn:Hl.
  - destruct Hf as (_ & _ & rest & _ & _ & _ & _ & _ & Hr). rewrite Hrec in Hr. destruct (Z.eqb_spec (cattree_cmp fold r new) 0) as [Hc|Hc].
    + rewrite Hr, Hpl. by rewrite (bt_step _ _ _ _ _ Hi).
    + rewrite Hr. destruct Hi as (t' & l0' & us' & a & b & Hi & Ht' & _ & _ & Hmap).
      assert (Hent : forall id' name', parent_ok id' -> name_ok name' ->
        entry id' name' (recs l0') = if bool_decide (id' = id /\ map fold name' = map fold name) then Some new else entry id' name' (recs l0)).
      { intros id' name' Hid' Hn'. destruct (cat_search_key_ok id' name' Hid' Hn') as (Hk' & _). unfold CatTreeTheorems.entry at 1. rewrite (Hmap _ Hk').
        pose proof (search_cmp0 new id' name' Hnk Hid' Hn') as Hc0. rewrite Hp, Hnm in Hc0.
        destruct (Z.eqb_spec (cattree_cmp fold new (cat_search_key id' name')) 0) as [H0|H0].
        - rewrite bool_decide_true; [done|]. apply Hc0 in H0 as [-> ->]. done.
        - rewrite bool_decide_false; [done|]. intros [-> Hm]. apply H0, Hc0. done. }
      pose proof (cattree_find_ok t' l0' us' id name Ht' Hid Hn) as Hfd. rewrite (Hent id name Hid Hn), bool_decide_true in Hfd by done.
      destruct Hfd as (bn & pos & rest' & Hfd & _). exists t', l0', us', bn, pos. cbv zeta. split; [|done]. rewrite Hpl, (bt_step _ _ _ _ _ Hi). exact Hfd.
  - exfalso. pose proof (proj1 (last_not_above_None VDFS2_MAX_BTREE_KEY_LEN (cattree_cmp fold) cat_key_ok cat_valid_key new (recs l0) h Hnk Hv Hs Hh) Hl) as Hlt.
    destruct (recs l0) as [|x xs]; [done|]. injection Hh as ->. apply Forall_cons in Hv as [[Hxk _] _].
    pose proof (cattree_cmp_order fold h new Hxk Hnk) as Ho. unfold cat_order in Ho. rewrite Hp in Ho. destruct (Z.eqb_spec (cat_parent_id h) id); lia.
Qed.
End catalog.

(** ** An example: the root directory with a file and a directory, and one file in that *)

Definition cat_index (id : Z) (name : list Z) (child : Z) : list Z :=
  let kl := 26 + Z.of_nat (length name) in
  replicate 4 0 ++ le32_bytes kl ++ le32_bytes (kl + 4) ++ [0] ++ le64_bytes id ++ le32_bytes (Z.of_nat (length name)) ++ name ++ [0] ++ le32_bytes child.

Definition cat_leaf1 : list (list Z) :=
  [cat_new_record 0 [114; 111; 111; 116] 1 78; cat_new_record 1 [97] 2 271; cat_new_record 1 [98] 1 78].
Definition cat_leaf2 : list (list Z) := [cat_new_record 12 [99] 2 271].
Definition cat_root : list (list Z) := [cat_index 0 [114; 111; 111; 116] 2; cat_index 12 [99] 3].
Definition cat_tree : vdfs2_btree := example_tree 1024 cat_leaf1 cat_leaf2 cat_root.
Definition cat_levels : list (list view) := example_levels cat_leaf1 cat_leaf2 cat_root.

Lemma cat_valid_b r :
  bytes_b r && (25 + cat_name_length r <=? Z.of_nat (length r)) && (cat_name_length r <=? 255) && (cat_parent_id r <? 2 ^ 31) &&
    (VDFS2_KEY_LEN r =? 26 + cat_name_length r) && (VDFS2_KEY_LEN r <=? Z.of_nat (length r)) = true -> cat_valid_key r.
Proof.
  intros [[[[[Hb H1]%andb_true_iff H2]%andb_true_iff H3]%andb_true_iff H4]%andb_true_iff H5]%andb_true_iff. apply bytes_b_ok in Hb.
  split; [split; [done|lia..]|lia].
Qed.

Lemma cat_tree_ok : tree_ok 1024 (cattree_cmp (fun c => c)) cat_valid_key cat_tree cat_levels.
Proof.
  apply example_tree_ok; [lia|by vm_compute|by vm_compute|by vm_compute|by vm_compute|done|done| | | | | | ].
  - repeat (constructor; [by apply cat_valid_b; vm_compute|]). constructor.
  - repeat (constructor; [by apply cat_valid_b; vm_compute|]). constructor.
  - by repeat constructor.
  - by repeat constructor.
  - eexists. split; [reflexivity|by vm_compute].
  - eexists. split; [reflexivity|by vm_compute].
Qed.

(** ** Properties *)

(** C39: the comparison of catalog keys, with or without regard to case, is the order of the
    pair of parent and name, the names in the order of their (folded) bytes and a
    prefix first, as long as the ids of the parents are below 2^31. *)
Theorem cattree_order_correct fold a b : cat_key_ok a -> cat_key_ok b ->
  Z.sgn (cattree_cmp fold a b) = cat_order fold a b.
Proof. apply cattree_cmp_order. Qed.

Lemma cattree_order_correct_witness :
  vdfs2_cattree_cmpfn (cat_search_key 1 [97; 98]) (cat_search_key 1 [97]) = 1 /\ cat_order (fun c => c) (cat_search_key 1 [97; 98]) (cat_search_key 1 [97]) = 1.
Proof.
  split; [reflexivity|]. rewrite <- (cattree_order_correct (fun c => c)); [reflexivity|apply cat_search_key_ok|apply cat_search_key_ok].
  all: try done. all: split; [repeat constructor; done|cbn; lia].
Defined.

(** The code returns the 64-bit difference of the parents as an [int]: the keys of two
    directories whose ids differ by 2^32 are called equal. *)
Lemma distant_parents_collide : cat_parent_id (cat_search_key 1 [97]) <> cat_parent_id (cat_search_key (2 ^ 32 + 1) [97]) /\
  vdfs2_cattree_cmpfn (cat_search_key 1 [97]) (cat_search_key (2 ^ 32 + 1) [97]) = 0.
Proof. split; [by vm_compute|reflexivity]. Qed.

(** C4: the catalog is a map from (directory, name) to records: [vdfs2_cattree_find]
    gives the record of the name or [-ENOENT]; [vdfs2_cattree_place_record] refuses
    a name that is there with [-EEXIST] without a change, and otherwise adds a
    record with a zero value under that name, and only under that name, however
    the tree has to grow for it. *)
Theorem catalog_is_a_map `{HS : !BitSearch} `{HBL : !BitSearchLaws} fold N mf t l0 us id name type size :
  128 <= N < 65536 -> tree_ok N (cattree_cmp fold) cat_valid_key t (l0 :: us) -> parent_ok id -> name_ok name ->
  match entry fold id name (recs l0) with
  | Some r => cat_parent_id r = id /\ map fold (cat_name r) = map fold name /\
      exists bn pos rest, vdfs2_cattree_find N mf (cattree_cmp fold) id name t = Ret (PTR (bn, pos, r), t) /\ at_place l0 bn pos r rest
  | None => vdfs2_cattree_find N mf (cattree_cmp fold) id name t = Ret (ERR_PTR (- ENOENT), t)
  end /\
  (room_for_insert t -> is_byte type -> value_size type = Some size -> 26 + Z.of_nat (length name) + size <= N / 2 - 42 -> below_root id (recs l0) ->
   match entry fold id name (recs l0) with
   | Some _ => vdfs2_cattree_place_record N mf (cattree_cmp fold) id name type t = Ret (ERR_PTR (- EEXIST), t)
   | None => exists t' l0' us' bn pos, let new := cat_new_record id name type size in
       vdfs2_cattree_place_record N mf (cattree_cmp fold) id name type t = Ret (PTR (bn, pos, new), t') /\
       tree_ok N (cattree_cmp fold) cat_valid_key t' (l0' :: us') /\
       forall id' name', parent_ok id' -> name_ok name' ->
         entry fold id' name' (recs l0') = if bool_decide (id' = id /\ map fold name' = map fold name) then Some new else entry fold id' name' (recs l0)
   end).
Proof.
  intros HN Ht Hid Hn. split.
  - pose proof (cattree_find_ok fold N mf HN t l0 us id name Ht Hid Hn) as Hf. destruct (entry fold id name (recs l0)) as [r|] eqn:He; [|done].
    destruct (tree_recs N (cattree_cmp fold) cat_valid_key t l0 us Ht) as [Hv _]. unfold entry, rec_of in He. apply head_Some_elem_of, list_elem_of_filter in He as [Hc Hr].
    rewrite Forall_forall in Hv. destruct (Hv r Hr) as [Hkr _]. by apply (search_cmp0 fold r id name Hkr Hid Hn) in Hc as [? ?].
  - intros Hroom Hty Hsz Hfit Hroot. by apply (place_record_ok fold N mf HN t l0 us id name type size).
Qed.

Lemma catalog_is_a_map_witness :
  exists t' l0' us' bn pos, let new := cat_new_record 1 [120; 121] 2 271 in
    vdfs2_cattree_place_record 1024 true (cattree_cmp (fun c => c)) 1 [120; 121] 2 cat_tree = Ret (PTR (bn, pos, new), t') /\
    tree_ok 1024 (cattree_cmp (fun c => c)) cat_valid_key t' (l0' :: us') /\
    forall id' name', parent_ok id' -> name_ok name' ->
      entry (fun c => c) id' name' (recs l0') = if bool_decide (id' = 1 /\ map (fun c => c) name' = map (fun c => c) [120; 121]) then Some new
        else entry (fun c => c) id' name' (recs [(2, cat_leaf1); (3, cat_leaf2)]).
Proof.
  refine (proj2 (catalog_is_a_map (HS := linear_search) (fun c => c) 1024 true cat_tree [(2, cat_leaf1); (3, cat_leaf2)] [[(1, cat_root)]] 1 [120; 121] 2 271 _ cat_tree_ok _ _) _ _ eq_refl _ _).
  - lia.
  - unfold parent_ok. lia.
  - split; [by repeat constructor|cbn; lia].
  - split; cbn; lia.
  - by split.
  - cbn. lia.
  - eexists. split; [reflexivity|by vm_compute].
Defined.
