(* ===== verification/Readdir.v ===== *)
(** * Reading a directory: every entry once, in however many calls ([vdfs2_readdir]) *)
From Stdlib Require Import ZArith Lia.
From stdpp Require Import base numbers list sets gmap sorting.
From S2P Require Import Prelude Bits BitsFacts Bytes BtreeNode BtreeNodeFacts BtreeNodeOps Bnode BnodeIds Btree BtreeKeys BtreeSpec BtreeFind BtreeLookup.
From S2P Require Import BtreeInsert BtreePlace BtreeTree TreeMap ExtTree ExtTreeFacts CatTree CatTreeFacts CatTreeTheorems.

(** ** Strings *)

Lemma c_string_prefix s tl : 0 ∉ s -> c_string (s ++ 0 :: tl) = s.
Proof. induction s as [|x s IH]; intros Hs; [done|]. cbn. apply not_elem_of_cons in Hs as [Hx Hs]. rewrite (proj2 (Z.eqb_neq x 0)) by done. by rewrite IH. Qed.

(** The name of a record, kept in the buffer, comes back from it. *)
Lemma saved_name r : name_stored r -> buffer_string (strncpy (Z.to_nat VDFS2_CAT_MAX_NAME) (unicode_str r)) = Ret (cat_name r).
Proof.
  intros (_ & H0 & Hl & tl & Hu). unfold strncpy. rewrite Hu, c_string_prefix by done. change (Z.to_nat VDFS2_CAT_MAX_NAME) with 255%nat.
  rewrite take_ge by lia. destruct (255 - length (cat_name r))%nat as [|k] eqn:Hk; [lia|]. cbn [replicate]. unfold buffer_string.
  rewrite decide_True by (rewrite elem_of_app, elem_of_cons; auto). by rewrite c_string_prefix.
Qed.

Section readdir.
Context (takes : list dirent -> dirent -> bool) (start_ino : Z).
Context (Htakes : forall e, takes [] e = true).

Abbreviation d := (dirent_of start_ino).

(** ** One call on the rest of the entries *)

Fixpoint emit_all (rs : list (list Z)) (ctx : dir_context) : dir_context :=
  match rs with
  | [] => set_private ctx None
  | r :: rs =>
      match dir_emit takes ctx (d r) with
      | (false, ctx) => set_private ctx (Some (strncpy (Z.to_nat VDFS2_CAT_MAX_NAME) (unicode_str r)))
      | (true, ctx) => emit_all rs (advance ctx)
      end
  end.

(** The note where the rest begins. *)
Definition note (rs : list (list Z)) : option (list Z) := match rs with [] => None | r :: _ => Some (strncpy (Z.to_nat VDFS2_CAT_MAX_NAME) (unicode_str r)) end.

(** It gives out a first part, at least one when there was nothing before, and notes where
    the rest begins. *)
Lemma emit_all_spec rs : forall ctx, exists R1 R2, rs = R1 ++ R2 /\
  emit_all rs ctx = DirContext (ctx_pos ctx + Z.of_nat (length R1)) (note R2) (emitted ctx ++ map d R1) /\
  (emitted ctx = [] -> rs <> [] -> R1 <> []).
Proof using Htakes.
  induction rs as [|r rs IH]; intros ctx.
  - exists [], []. cbn. rewrite app_nil_r, Z.add_0_r. split_and!; [done|by destruct ctx|done].
  - cbn [emit_all]. unfold dir_emit. destruct (takes (emitted ctx) (d r)) eqn:Ht.
    + set (c := advance _). destruct (IH c) as (R1 & R2 & -> & He & _). exists (r :: R1), R2. rewrite He. cbn. rewrite <-app_assoc.
      split_and!; [done|f_equal; lia|done].
    + exists [], (r :: rs). cbn. rewrite app_nil_r, Z.add_0_r. split_and!; [done|done|]. intros H0. by rewrite H0, Htakes in Ht.
Qed.

Context (fold : Z -> Z) `{HS : !BitSearch} `{HBL : !BitSearchLaws}.
Context (N : Z) (mf : bool) (HN : 128 <= N < 65536).
Abbreviation tree_ok := (tree_ok N (cattree_cmp fold) cat_valid_key).

Lemma readdir_loop_ok t l0 us id rs B : tree_ok t (l0 :: us) -> Forall (fun r => cat_parent_id r = id) rs -> Forall (fun r => id < cat_parent_id r) B ->
  forall fuel r bn pos ctx, cat_parent_id r = id -> at_place l0 bn pos r (rs ++ B) -> (length rs < fuel)%nat ->
  readdir_loop N mf takes fuel start_ino id (bn, pos, r) ctx t = Ret ((0, emit_all (r :: rs) ctx), t).
Proof using HN.
  intros Ht Hrs HB. pose proof (eo_answers _ _ (to_env _ _ _ _ _ Ht)) as Ha. induction Hrs as [|x rs Hx Hrs IH]; intros [|fuel] r bn pos ctx Hr Hat Hf; try (cbn in Hf; lia).
  all: cbn [readdir_loop emit_all]; rewrite (proj2 (Z.eqb_eq _ _) Hr); cbn [negb].
  all: destruct (dir_emit takes ctx (d r)) as [[] c] eqn:He.
  - pose proof (next_at N mf (cattree_cmp fold) cat_valid_key HN t l0 us bn pos r ([] ++ B) Ht Hat) as Hn. cbn [app] in Hn. cbv zeta. unfold vdfs2_cattree_get_next_record.
    destruct B as [|b B]; [by rewrite (bt_step _ _ _ _ _ Hn)|]. destruct Hn as (bn' & pos' & Hn & _). rewrite (bt_step _ _ _ _ _ Hn). cbn iota beta.
    apply Forall_cons in HB as [Hb _]. rewrite (proj2 (Z.eqb_neq (cat_parent_id b) id)) by lia. done.
  - assert (Hask : match private_data c with None => ask | Some _ => mret 0 end t = Ret (0, t)) by (destruct (private_data c); [done|by apply ask_Ret]).
    by rewrite (bt_step _ _ _ _ _ Hask).
  - pose proof (next_at N mf (cattree_cmp fold) cat_valid_key HN t l0 us bn pos r ((x :: rs) ++ B) Ht Hat) as (bn' & pos' & Hn & Hat'). cbv zeta. unfold vdfs2_cattree_get_next_record.
    rewrite (bt_step _ _ _ _ _ Hn). cbn iota beta. rewrite (proj2 (Z.eqb_eq _ _) Hx). cbn [negb]. apply IH; [done|done|cbn in Hf; lia].
  - assert (Hask : match private_data c with None => ask | Some _ => mret 0 end t = Ret (0, t)) by (destruct (private_data c); [done|by apply ask_Ret]).
    by rewrite (bt_step _ _ _ _ _ Hask).
Qed.

(** ** Where a call starts *)

Context (t : vdfs2_btree) (l0 : list view) (us : list (list view)) (id : Z).
Context (Ht : tree_ok t (l0 :: us)) (Hid : parent_ok id) (Hroot : below_root id (recs l0)).
Context (Hnames : Forall name_stored (recs l0)).

Lemma dir_parts : exists A B, recs l0 = A ++ children id (recs l0) ++ B /\ Forall (fun r => cat_parent_id r = id) (children id (recs l0)) /\
  Forall (fun r => cat_parent_id r < id) A /\ Forall (fun r => id < cat_parent_id r) B.
Proof using Ht.
  destruct (tree_recs N (cattree_cmp fold) cat_valid_key t l0 us Ht) as [Hv Hs]. destruct (directory_split fold id (recs l0) Hv Hs) as (A & B & Heq & HA & HB).
  exists A, B. split_and!; [done| |done|done]. apply Forall_forall. intros r Hr. by apply list_elem_of_filter in Hr as [? _].
Qed.

Lemma first_child_ok : exists A B, recs l0 = A ++ children id (recs l0) ++ B /\ Forall (fun r => cat_parent_id r = id) (children id (recs l0)) /\
  Forall (fun r => cat_parent_id r < id) A /\ Forall (fun r => id < cat_parent_id r) B /\
  match children id (recs l0) ++ B with
  | [] => vdfs2_cattree_get_first_child N mf (cattree_cmp fold) id t = Ret (ERR_PTR (- ENOENT), t)
  | x :: rest => exists bn pos, vdfs2_cattree_get_first_child N mf (cattree_cmp fold) id t = Ret (PTR (bn, pos, x), t) /\ at_place l0 bn pos x rest
  end.
Proof using HN Ht Hid Hroot Hnames.
  destruct dir_parts as (A & B & Heq & HC & HA & HB). exists A, B. do 4 (split; [done|]). set (C := children id (recs l0)) in *.
  destruct (cat_search_key_ok id [] Hid ltac:(split; [done|cbn; lia])) as (Hk & _ & _). set (key := cat_search_key id []) in *.
  destruct (tree_recs N (cattree_cmp fold) cat_valid_key t l0 us Ht) as [Hv Hs]. pose proof (valid_keys _ Hv) as Hko.
  pose proof (find_at N mf VDFS2_MAX_BTREE_KEY_LEN (cattree_cmp fold) cat_key_ok cat_valid_key HN t l0 us key Ht Hk) as Hf.
  assert (Hcmp : forall r, r ∈ recs l0 -> Z.sgn (cattree_cmp fold r key) = if cat_parent_id r =? id then 1 else Z.sgn (cat_parent_id r - id)).
  { intros r Hr. assert (Hkr : cat_key_ok r) by (by rewrite Forall_forall in Hko; apply Hko).
    pose proof (search_cmp fold r id [] Hkr Hid ltac:(split; [done|cbn; lia])) as Hsc. fold key in Hsc. rewrite Hsc.
    destruct (cat_parent_id r =? id); [|done]. rewrite Forall_forall in Hnames. destruct (Hnames r Hr) as (Hne & _). by destruct (cat_name r). }
  unfold vdfs2_cattree_get_first_child. rewrite (alloc_mem_Ret _ t (eo_answers _ _ (to_env _ _ _ _ _ Ht))). fold key.
  destruct (last_not_above _ _ _) as [r|] eqn:Hl.
  - destruct Hf as (bn & pos & rest & Hf & Hat & Hc & _ & Hab & _). destruct (at_place_recs _ _ _ _ _ Hat) as (a & Ha).
    assert (Hrest : rest = C ++ B).
    { assert (HF : filter (fun x => 0 < cattree_cmp fold x key) (recs l0) = rest).
      { pose proof (below_all VDFS2_MAX_BTREE_KEY_LEN (cattree_cmp fold) cat_key_ok cat_valid_key key a r rest Hk) as Hbl. rewrite <-Ha in Hbl. specialize (Hbl Hv Hs Hc).
        rewrite Ha, filter_app, filter_cons_False by lia. rewrite (filter_none _ a), (filter_all _ rest Hab); [done|]. eapply Forall_impl; [exact Hbl|]. cbn. intros x Hx. lia. }
      rewrite <-HF. rewrite Heq, filter_app. rewrite (filter_none _ A), (filter_all _ (C ++ B)); [done| |].
      - apply Forall_forall. intros x Hx. assert (Hin : x ∈ recs l0) by (rewrite Heq; apply elem_of_app; by right). pose proof (Hcmp x Hin) as Hcx.
        apply elem_of_app in Hx as [Hx|Hx]; [rewrite Forall_forall in HC; specialize (HC x Hx)|rewrite Forall_forall in HB; specialize (HB x Hx)];
          destruct (Z.eqb_spec (cat_parent_id x) id); lia.
      - apply Forall_forall. intros x Hx. assert (Hin : x ∈ recs l0) by (rewrite Heq; apply elem_of_app; by left). pose proof (Hcmp x Hin) as Hcx.
        rewrite Forall_forall in HA. specialize (HA x Hx). destruct (Z.eqb_spec (cat_parent_id x) id); lia. }
    rewrite (bt_ptr _ _ _ _ _ Hf). cbn iota beta.
    assert (Hrp : cat_parent_id r <> id).
    { intros He. assert (Hin : r ∈ recs l0) by (rewrite Ha; apply elem_of_app; right; by apply elem_of_cons; left). pose proof (Hcmp r Hin) as Hcr. rewrite He, Z.eqb_refl in Hcr. lia. }
    rewrite (proj2 (Z.eqb_neq _ _) Hrp). pose proof (next_at N mf (cattree_cmp fold) cat_valid_key HN t l0 us bn pos r rest Ht Hat) as Hn. rewrite Hrest in Hn.
    destruct (C ++ B); exact Hn.
  - exfalso. destruct Hroot as (h & Hh & Hhp). pose proof (proj1 (last_not_above_None VDFS2_MAX_BTREE_KEY_LEN (cattree_cmp fold) cat_key_ok cat_valid_key key (recs l0) h Hk Hv Hs Hh) Hl) as Hlt.
    assert (Hin : h ∈ recs l0) by (destruct (recs l0); [done|injection Hh as ->; by apply elem_of_cons; left]).
    pose proof (Hcmp h Hin) as Hch. destruct (Z.eqb_spec (cat_parent_id h) id); lia.
Qed.

(** The name that was noted leads back to its record. *)
Lemma resume_ok A C1 x C2 B : recs l0 = A ++ (C1 ++ x :: C2) ++ B -> cat_parent_id x = id ->
  exists bn pos, vdfs2_cattree_find N mf (cattree_cmp fold) id (cat_name x) t = Ret (PTR (bn, pos, x), t) /\ at_place l0 bn pos x (C2 ++ B).
Proof using HN Ht Hid Hnames HS.
  intros Heq Hpx. destruct (tree_recs N (cattree_cmp fold) cat_valid_key t l0 us Ht) as [Hv Hs].
  assert (Heq' : recs l0 = (A ++ C1) ++ x :: C2 ++ B) by (rewrite Heq; by rewrite <-!app_assoc). clear Heq.
  assert (Hx : x ∈ recs l0) by (rewrite Heq'; apply elem_of_app; right; by apply elem_of_cons; left).
  assert (Hvx : cat_valid_key x) by (rewrite Forall_forall in Hv; by apply Hv).
  assert (Hn : name_ok (cat_name x)).
  { rewrite Forall_forall in Hnames. destruct (Hnames x Hx) as (_ & _ & Hl & _). split; [|lia]. unfold cat_name, unicode_str. by apply Forall_take, Forall_drop, (ck_bytes _ (proj1 Hvx)). }
  destruct (cat_search_key_ok id (cat_name x) Hid Hn) as (Hk & _). set (key := cat_search_key id (cat_name x)) in *.
  assert (Hc0 : cattree_cmp fold x key = 0) by (by apply (search_cmp0 fold x id (cat_name x) (proj1 Hvx) Hid Hn)).
  pose proof Hv as Hv'. pose proof Hs as Hs'. rewrite Heq' in Hv', Hs'.
  assert (Hab : Forall (fun y => 0 < cattree_cmp fold y key) (C2 ++ B)).
  { apply sorted_app in Hs' as (_ & Hs' & _). apply sorted_first in Hs' as [_ Hxs]. apply Forall_app in Hv' as [_ Hv']. apply Forall_cons in Hv' as [_ Hv'].
    rewrite Forall_forall in Hxs, Hv' |- *. intros y Hy. specialize (Hxs y Hy). destruct (Hv' y Hy) as [Hky _].
    apply (comp_flip (key_ok := cat_key_ok) x y (proj1 Hvx) Hky) in Hxs. pose proof (comp_eq_r (key_ok := cat_key_ok) x key y (proj1 Hvx) Hk Hky Hc0). lia. }
  destruct (rec_of_split VDFS2_MAX_BTREE_KEY_LEN (cattree_cmp fold) cat_key_ok cat_valid_key key (A ++ C1) x (C2 ++ B) Hk Hv' Hs' ltac:(lia) Hab) as (Hrec & _ & _).
  rewrite <-Heq', Hc0 in Hrec. change (0 =? 0) with true in Hrec. cbn iota in Hrec.
  pose proof (cattree_find_ok fold N mf HN t l0 us id (cat_name x) Ht Hid Hn) as Hf. unfold entry in Hf. fold key in Hf. rewrite Hrec in Hf.
  destruct Hf as (bn & pos & rest & Hf & Hat). exists bn, pos. split; [exact Hf|]. destruct (at_place_recs _ _ _ _ _ Hat) as (a & Ha). rewrite Ha in Hs, Heq'.
  destruct (sorted_unique VDFS2_MAX_BTREE_KEY_LEN (cattree_cmp fold) cat_key_ok cat_valid_key x a rest _ _ Hvx Hs Heq') as [_ ->]. done.
Qed.

(** ** All calls *)

Context (i_ino parent_ino : Z) (fuel : nat) (Hfuel : (length (children id (recs l0)) < fuel)%nat).
Context (Hsome : children id (recs l0) <> [] \/ exists r, r ∈ recs l0 /\ id < cat_parent_id r).

Abbreviation C := (children id (recs l0)).

(** What is to be given out. *)
Definition listing : list dirent := [([46], i_ino, DT_DIR); ([46; 46], parent_ino, DT_DIR)] ++ map d C.

(** The state of the open directory when the first [k] entries were given out. *)
Definition after (k : nat) : dir_context :=
  DirContext (Z.of_nat k) (match k with O | 1%nat => None | S (S k) => note (drop k C) end) [].

Lemma records_ok k ctx : private_data ctx = None /\ k = 0%nat \/ (exists x C2, drop k C = x :: C2) /\ private_data ctx = note (drop k C) ->
  readdir_records N mf (cattree_cmp fold) takes fuel start_ino id ctx t = Ret ((0, emit_all (drop k C) ctx), t).
Proof using HN Ht Hid Hroot Hnames Hfuel Hsome HS.
  intros Hk. unfold readdir_records. destruct first_child_ok as (A & B & Heq & HC & HA & HB & Hfc). destruct Hk as [[Hp ->]|[(x & C2 & Hd) Hp]]; rewrite Hp.
  - rewrite drop_0 in *. destruct C as [|x rs] eqn:HCx.
    + cbn [app] in Hfc. destruct B as [|b B].
      { exfalso. destruct Hsome as [|(r & Hr & Hgt)]; [done|]. rewrite Heq, app_nil_r in Hr. rewrite Forall_forall in HA. specialize (HA r Hr). lia. }
      destruct Hfc as (bn & pos & Hfc & _). rewrite (bt_step _ _ _ _ _ Hfc). cbn iota beta. destruct fuel as [|f]; [cbn in Hfuel; lia|]. cbn [readdir_loop emit_all].
      apply Forall_cons in HB as [Hb _]. rewrite (proj2 (Z.eqb_neq (cat_parent_id b) id)) by lia. cbn [negb]. unfold set_private. rewrite <-Hp. by destruct ctx.
    + cbn [app] in Hfc. destruct Hfc as (bn & pos & Hfc & Hat). rewrite (bt_step _ _ _ _ _ Hfc). cbn iota beta. apply Forall_cons in HC as [Hx HC].
      apply (readdir_loop_ok t l0 us id rs B Ht HC HB); [done|done|cbn [length] in Hfuel; lia].
  - pose proof (take_drop k C) as Htd. rewrite Hd in Htd |- *. cbn [note]. rewrite <-Htd in HC, Heq. apply Forall_app in HC as [_ HC]. apply Forall_cons in HC as [Hx HC].
    destruct (resume_ok A (take k C) x C2 B Heq Hx) as (bn & pos & Hfd & Hat).
    assert (Hin : x ∈ recs l0) by (rewrite Heq; rewrite !elem_of_app, elem_of_cons; auto).
    rewrite Forall_forall in Hnames. rewrite (bt_step _ _ t (PTR (bn, pos, x)) t).
    + cbn iota beta. apply (readdir_loop_ok t l0 us id C2 B Ht HC HB); [done|done|]. rewrite <-Htd, length_app in Hfuel. cbn [length] in Hfuel. lia.
    + rewrite (bt_step _ _ t (cat_name x) t); [exact Hfd|]. unfold lift. by rewrite (saved_name x (Hnames x Hin)).
Qed.

(** What is left after the first entries, with a part of them. *)
Lemma listing_part k R1 R2 : drop k C = R1 ++ R2 ->
  take (length R1) (drop (S (S k)) listing) = map d R1 /\ after (S (S (k + length R1))) = DirContext (Z.of_nat k + 2 + Z.of_nat (length R1)) (note R2) [].
Proof using Hfuel.
  intros Hd. split.
  - change (drop (S (S k)) listing) with (drop k (map d C)). rewrite skipn_map, Hd, map_app. rewrite <-(length_map d R1) at 1. apply take_app_length.
  - unfold after. f_equal; [lia|]. by rewrite <-drop_drop, Hd, drop_app_length.
Qed.

(** One call. *)
Lemma call_ok k : exists k', vdfs2_readdir N mf (cattree_cmp fold) takes fuel start_ino id i_ino parent_ino (after k) t =
    Ret ((0, DirContext (Z.of_nat k') (private_data (after k')) (take (k' - k) (drop k listing))), t) /\
  (k <= k')%nat /\ ((k < length listing)%nat -> (k < k')%nat).
Proof using HN Ht Hid Hroot Hnames Hfuel Hsome HS Htakes.
  destruct k as [|[|k]]; unfold vdfs2_readdir.
  - change (after 0) with (DirContext 0 None []). cbn [ctx_pos private_data]. change (0 =? 0) with true. cbn iota zeta. unfold dir_emit at 1. cbn [emitted]. rewrite Htakes. cbn iota. unfold dir_emit, advance at 1. cbn [emitted ctx_pos private_data app].
    destruct (takes _ _) eqn:Htk.
    + set (ctx := advance _). destruct (emit_all_spec C ctx) as (R1 & R2 & HC & He & _). pose proof (records_ok 0 ctx ltac:(by left)) as Hr. rewrite drop_0, He in Hr.
      destruct (listing_part 0 R1 R2 HC) as [Hl Ha]. exists (S (S (length R1))). cbn [Nat.add] in Ha. rewrite Ha. split; [etransitivity; [exact Hr|]|lia]. f_equal. f_equal. f_equal.
      change (ctx_pos ctx) with 2. change (emitted ctx) with [([46], i_ino, DT_DIR); ([46; 46], parent_ino, DT_DIR)]. cbn [private_data].
      f_equal; [lia|]. cbn [drop Nat.sub listing app take]. do 2 f_equal. change (drop 2 listing) with (map d C) in Hl. by rewrite Hl.
    + exists 1%nat. split; [done|lia].
  - change (after 1) with (DirContext 1 None []). cbn [ctx_pos private_data]. change (1 =? 0) with false. change (1 =? 1) with true. cbn iota zeta. unfold dir_emit at 1. cbn [emitted]. rewrite Htakes. cbn iota.
    set (ctx := advance _). destruct (emit_all_spec C ctx) as (R1 & R2 & HC & He & _). pose proof (records_ok 0 ctx ltac:(by left)) as Hr. rewrite drop_0, He in Hr.
    destruct (listing_part 0 R1 R2 HC) as [Hl Ha]. exists (S (S (length R1))). cbn [Nat.add] in Ha. rewrite Ha. split; [etransitivity; [exact Hr|]|lia]. f_equal. f_equal. f_equal.
    change (ctx_pos ctx) with 2. change (emitted ctx) with [([46; 46], parent_ino, DT_DIR)]. cbn [private_data].
    f_equal; [lia|]. cbn [drop Nat.sub listing app take]. f_equal. change (drop 2 listing) with (map d C) in Hl. by rewrite Hl.
  - change (after (S (S k))) with (DirContext (Z.of_nat (S (S k))) (note (drop k C)) []). cbn [ctx_pos private_data].
    rewrite (proj2 (Z.eqb_neq (Z.of_nat (S (S k))) 0)), (proj2 (Z.eqb_neq (Z.of_nat (S (S k))) 1)) by lia. cbn zeta. destruct (drop k C) as [|x C2] eqn:Hd.
    + exists (S (S k)). cbn [note]. rewrite Nat.sub_diag, take_0. unfold after. cbn [private_data]. rewrite Hd. split; [done|]. split; [lia|]. intros Hlt. exfalso.
      unfold listing in Hlt. rewrite length_app, length_map in Hlt. cbn [length] in Hlt. assert (Hl : length (drop k C) = 0%nat) by (by rewrite Hd). rewrite length_drop in Hl. lia.
    + cbn [note]. set (ctx := DirContext _ _ _). pose proof (records_ok k ctx) as Hr. rewrite Hd in Hr. specialize (Hr ltac:(right; split; [by exists x, C2|done])).
      destruct (emit_all_spec (x :: C2) ctx) as (R1 & R2 & HC & He & Hne). rewrite He in Hr. rewrite HC in Hd. destruct (listing_part k R1 R2 Hd) as [Hl Ha].
      specialize (Hne eq_refl ltac:(done)). exists (S (S (k + length R1))). rewrite Ha. split; [etransitivity; [exact Hr|]|split; [lia|destruct R1; [done|cbn [length]; lia]]]. f_equal. f_equal. f_equal.
      change (ctx_pos ctx) with (Z.of_nat (S (S k))). change (emitted ctx) with (@nil dirent). cbn [private_data app].
      replace (S (S (k + length R1)) - S (S k))%nat with (length R1) by lia. rewrite Hl. f_equal. lia.
Qed.

(** The calls one after the other, until an error or as often as wanted. *)
Fixpoint list_dir (calls : nat) (ctx : dir_context) : bt (Z * list dirent) :=
  match calls with
  | O => mret (0, [])
  | S calls =>
      '(ret, ctx) ← vdfs2_readdir N mf (cattree_cmp fold) takes fuel start_ino id i_ino parent_ino (DirContext (ctx_pos ctx) (private_data ctx) []);
      if negb (ret =? 0) then mret (ret, emitted ctx) else '(ret, out) ← list_dir calls ctx; mret (ret, emitted ctx ++ out)
  end.

Lemma list_dir_ok calls : forall k out, (length listing - k <= calls)%nat -> 
  list_dir calls (DirContext (ctx_pos (after k)) (private_data (after k)) out) t = Ret ((0, drop k listing), t).
Proof using HN Ht Hid Hroot Hnames Hfuel Hsome HS Htakes.
  induction calls as [|calls IH]; intros k out Hc.
  - rewrite drop_ge by lia. done.
  - destruct (call_ok k) as (k' & Hk & Hle & Hlt). cbn [list_dir ctx_pos private_data]. rewrite (bt_step _ _ _ _ _ Hk). change (negb (0 =? 0)) with false. cbn iota beta.
    assert (Hc' : (length listing - k' <= calls)%nat) by (destruct (decide (k < length listing)%nat) as [H|H]; [specialize (Hlt H)|]; lia).
    pose proof (IH k' (take (k' - k) (drop k listing)) Hc') as Hi. change (ctx_pos (after k')) with (Z.of_nat k') in Hi. rewrite (bt_step _ _ _ _ _ Hi). cbn [emitted].
    assert (Hdrop : drop k' listing = drop (k' - k) (drop k listing)) by (rewrite drop_drop; f_equal; lia). rewrite Hdrop, take_drop. done.
Qed.
End readdir.

(** ** Properties *)


(** Room for two entries in each call. *)
Definition two_entries (given : list dirent) (_ : dirent) : bool := Nat.ltb (length given) 2.


(** An empty directory behind which the catalog has no record: the search for its first
    child fails, and so does the call. *)
Lemma empty_last_directory : exists ctx,
  vdfs2_readdir 1024 true (cattree_cmp (fun c => c)) (fun _ _ => true) 3 0 13 13 1 (DirContext 0 None []) cat_tree = Ret ((- ENOENT, ctx), cat_tree).
Proof. eexists. vm_compute. reflexivity. Qed.
